(* ===== verification/_CoqProject ===== *)
-Q . S2P
Prelude.v
RustStr.v
Numbers.v
FloatText.v
Errors.v
Escape.v
Lexer.v
Names.v
VarName.v
Value.v
ParserUtils.v
Ip.v
VarType.v
UpsVariables.v
Response.v
Command.v
Client.v
ItemPool.v
Status.v
Auth.v
Config.v
IpText.v
State.v
Api.v
Events.v
Sync.v
Semantic.v
Collections.v
Web.v
WebWrite.v
Topology.v
Pages.v
Json.v
ApiBody.v
JsonRead.v
WebRoutes.v
Broadcast.v
Messages.v
EventApi.v
Tls.v
PoolClient.v
Startup.v
Trust.v
DescSync.v
ConfigLoad.v
Middleware.v
Router.v
Assets.v
NutClients.v
DeviceDaemon.v
StatusWidth.v
Services.v
Converge.v
Observer.v
Wire.v
Lifecycle.v
Shutdown.v
ReverseDns.v
TestSuite.v
