(* ===== verification/Prelude.v ===== *)
(** * nut_webgui: a verification development

    nut_webgui is a web front end for Network UPS Tools. Two crates hold its
    logic: [nut_webgui_upsmc] speaks the text protocol of the UPS daemon (upsd),
    and [nut_webgui] is the server that keeps the state of several daemons and
    offers it as pages, as JSON and as a stream of events. A write to a device
    travels down the following list and the answer of the daemon back up:

    - the router ([http.rs]) finds the handler and the layers around it: those
      of the data API ([json_api/]) or of the pages ([hypermedia/]) authenticate
      the request, check permissions and the daemon's status; the handler checks
      the value and asks the connection pool for a client;
    - the pool ([internal/item_pool.rs], [client/client_pool.rs]) hands out
      connections, at most as many as it has permits, and drops broken ones;
    - the client ([client/client_base.rs], [client/client_auth.rs]) writes one
      command ([command.rs]) and reads one answer, a line or a list;
    - the answer is cut into tokens ([internal/lexer.rs]) and read by the line
      parser ([internal/parser_utils.rs]) and the deserializers ([response/])
      into names ([ups_name.rs], [cmd_name.rs], [var_name.rs]), values
      ([value.rs]) and maps of variables ([ups_variables.rs]).

    Beside the requests run the background services: per daemon one that keeps
    the list of devices and one that polls their status ([sync/]); they use the
    same clients, write the shared state ([state.rs]) and publish what changed
    ([event.rs], [event/]). From the channel a service fetches descriptions
    ([sync/sync_desc.rs]) and another one broadcasts messages to the sockets of
    the event API ([event_api/]). [main.rs] starts and stops all of it from a
    configuration of several layers ([config/]).

    ** The files

    - Prelude (this file): byte strings, [outcome] (the [Result] of the sources
      with a panic and an exhausted loop as further values), shared tactics, the
      hint databases [rust] and [rust_simpl], lemmas on lists.
    - RustStr, Numbers, FloatText, Ip, IpText, Collections: what the sources use
      of Rust's standard library: UTF-8, trimming, prefixes; integers at their
      width, doubles as [spec_float] and their shortest texts; IP addresses and
      their texts; [Ord], [BTreeMap] and sorting.
    - Protocol. Errors: [error.rs]. Escape: [internal/escape.rs]. Lexer:
      [internal/lexer.rs]. ParserUtils: [internal/parser_utils.rs]. Names:
      [ups_name.rs], [cmd_name.rs]. VarName, Value, VarType, UpsVariables: the
      files of these names. Response: [response/*.rs]. Command: [command.rs].
    - Clients. Client: [client_base.rs], [client_auth.rs], the pooled calls.
      ItemPool: [item_pool.rs] as a state machine of concurrent tasks.
      PoolClient: [client_pool.rs] on the connections themselves. NutClients:
      the trait of [client.rs] and its three implementations. Tls, Trust:
      [skip_tls_verifier.rs] and which verifier a connection descends from.
    - State. Status: [ups_status.rs], [ups_event.rs]. Auth: [auth/*.rs]. Config,
      ConfigLoad: [config.rs], [config/*.rs], the layers and their sources.
      State: [state.rs].
    - Requests. Api, ApiBody, JsonRead: [json_api/] (the write routes, the
      bodies of their requests, and the read routes, with their layers),
      [probe.rs]. Json: serde's data model and the hand-written
      implementations. Web: sessions and their layers, log-in, log-out and API
      keys of the pages. WebWrite: the forms that write. Semantic, Topology,
      Pages: what the pages show ([semantic_type.rs], [ups_status.rs],
      [unit.rs], [device_entry_impl.rs], [topology.rs], [home.rs],
      [connection.rs], [system.rs], [ups.rs]). WebRoutes: the pages behind their
      layers. Middleware: the tower layers and services as the records that
      carry their configuration. Router: the table of routes of [http.rs].
      Assets: the build script of [nut_webgui_client], what it embeds and
      [static_content.rs], which serves it.
    - Background. Events: [event.rs], [event/*.rs]. Sync: the passes of
      [sync_device.rs] and [sync_status.rs]; StatusWidth: their statuses are
      words; Services: the two services as interleaved tasks. DescSync:
      [sync_desc.rs]. ReverseDns: [reverse_dns.rs]. Broadcast, Messages,
      EventApi: [event_api/]. Startup, Lifecycle: [main.rs], [cfg_user.rs],
      [background_service.rs].
    - Compositions. Shutdown: the tasks of Services under the runner of Lifecycle. DeviceDaemon: from the bytes of a daemon to the state.
      Converge: the services reach the state of a daemon that does not change.
      Observer: from the services to a client of the event API. Wire: what the
      parsers make of any bytes, and so what the routes and pages serve.
    - TestSuite: the unit tests of the sources and the integration tests of
      [nut_webgui_upsmc/tests], run on these definitions.

    ** How the code is modelled

    A [str], [String] or [&[u8]] is its byte sequence; that a [str] is UTF-8 is
    the predicate [utf8_valid], a hypothesis where it matters. A slice that is
    out of range or off a character boundary is [Panicked]. Machine integers
    are [Z] with their range or wrap-around written out. A [HashMap] is a
    [gmap]; where one is iterated the order is a parameter, and the theorems
    hold for every order. Mutable state is passed explicitly: the lexer's read
    head through the parser monad, a connection through the [io] monad, what a
    start does to the world through the [launch] monad, the daemon's state
    through the passes of the tasks.

    Concurrency is a step function on a state with a program counter per task,
    one step per stretch of code between two awaits, and the scheduler chooses
    the actions: the pool ([ItemPool.step]), the two tasks of a socket
    ([EventApi.conn_step]), the two services of a daemon
    ([Services.service_step]). A lock is part of a state only where it is held
    across an await.

    A layer of the router is a function from a service to a service; an
    expression of axum's [Router] is data ([Router.Router]), to which [entries]
    and [fallbacks] give the meaning that axum documents.

    Parameters stand for code that is not part of the repository: HMAC-SHA256,
    base64 and scrypt ([hmac_documented], [base64_documented] and
    [scrypt_documented] state what their documentation promises), serde_json
    ([to_json]), the templates that askama compiles ([Web.Template]), the toml
    and clap crates, files and the environment, TCP, DNS and TLS, libc's
    [getnameinfo], clocks, nonces, and the answers of a daemon.

    Interfaces are type classes: [Names.WireName] (the text of a name is one
    word and is read back), [Auth.BinaryToken] with [BinaryTokenLaws] (what the
    signer needs of a token format), [Semantic.UnitDisplay] with its laws,
    [Topology.GraphNode], [Collections.OrdLaws] (a total preorder that need not
    agree with equality), and [NutClients.AsyncNutClient] with [NutClientLaws]
    (a call runs its request on one of the client's connections, or fails),
    against which DeviceDaemon and Converge are proved for every client,
    [Trust.Request] (a call that uses its connection and makes no other),
    [Api.FromStatus] (the answers that a layer of the data API can give of its
    own: a bare status), and [Json.JsonRoundtrip] (a type whose values are read
    back as written).

    ** Fuel

    Loops that are not structural have fuel that covers every run.
    [while_peek_loop] and [var_types_loop] get one unit more than the bytes of
    the buffer, and every round consumes a byte ([Response.responses_total]).
    [list_loop] gets enough for every byte of the stream, and each line has one;
    the exception is a stream that ended inside a list, where the code loops
    too ([Client.client_eof_in_list_spins]). The loops over the flags of a
    status get 33 rounds for 32 bits, that over permissions 9 for 8.
    [OutOfFuel] occurs in no other result, but for [Lifecycle.start_server] and
    [Startup.stop] when no wake-up comes after the time-out. The state machines
    run on lists of actions, one step per action; liveness is stated for
    infinite fair schedules ([EventApi.fair_schedule]).

    ** What the theorems show

    - Protocol. The lexer that works with indices implements a tokenizer on the
      rest of the text, at every state it can be in ([lexer_refines_scan]), and
      escaped text is read back ([escape_lex_roundtrip]); the one panic of the
      unescaping is characterised ([extract_quoted_panics_iff]). Every
      deserializer ends on every valid text ([responses_total]) and reads back
      the text of every well-formed answer ([Response.var_list_roundtrip],
      [ups_list_roundtrip] and the like; [client_list_end_to_end] through the
      stream). A variable name has one text and one form
      ([var_name_canonical]). A command is one line ([command_one_line]).
    - Pool. In every interleaving the permits add up ([pool_limit]) and no item
      is in two places ([pool_exclusive]); a pooled call on real connections is
      such a run that waits for nobody and gives its permit back on every path
      ([pool_call_refines]), and what it returns, and which connection it keeps,
      is told for whatever its attempts meet ([pool_call_spec]). Every connection of a pool
      that asks for TLS is encrypted, and checked by the platform's verifier
      unless the configuration says to skip that ([tls_trust]).
    - The state. A pass makes the devices those of the daemon
      ([device_sync_spec]), from the bytes on the wire and through any lawful
      client ([device_pass_end_to_end]); polls are full exactly once per period
      ([poll_spec]). In every interleaving of the two services the state is well
      formed, the snapshot that a pass started from still has the devices of the
      state, and the tasks can be stopped anywhere ([services_safe]). From
      wherever they are, one device pass and one full poll make the state mirror
      a daemon that does not change, nothing undoes that, and it is at most
      eleven steps away ([state_converges]). Descriptions are asked for once and
      of the right daemon ([desc_sync_spec]).
    - Events. A batch reaches the broadcast that the sockets read whole and in
      order ([broadcast_spec]). A socket sends only what its session allows ([event_socket_safety]), opens
      only after a valid log-in ([handshake_spec]), and closes under every fair
      schedule once its session has ended ([event_socket_closes]). A client that
      reads the JSON of the messages knows the devices and the status of the
      daemon in the state of the server ([socket_follows_daemon]).
    - Requests. Only signed tokens are accepted and the two kinds are never
      confused ([signed_tokens_exact]); their lifetime is bounded
      ([token_lifetime]). A write reaches a daemon only past every guard, from
      the data API ([api_write_guard]) and from the pages ([web_write_guard]); a
      request of the data API does what its JSON body says
      ([api_body_to_wire]), and a form agrees with it
      ([form_agrees_with_json]). Sessions: log-in and use
      ([login_session_roundtrip]), renewal and refusal
      ([session_layers_spec]), an API key has no right that its user lacks
      ([api_key_no_escalation]). The routes of the server are the compositions
      of layers that these theorems are about ([router_spec]); through those of
      the pages an error of a handler reaches the client as an error page of
      status 500 ([web_router_spec]). Reads: what each route answers through its
      layers, refusals included ([json_read_spec]); whatever bytes the daemons
      have sent, a client reads the state back from the bodies, and where these
      leave the published schema is told ([served_bodies_roundtrip]); the home
      page, the connection page and the pages of the devices do not depend on the
      order of a map ([served_pages_deterministic]); the topology graph has a node for every thing and consistent counters
      ([topology_graph_spec]). The embedded files are served under names that
      change with their contents ([assets_served]).
    - The process. The sources of the configuration or the reason why they fail
      ([config_sources_spec]), and its life from the prepared parts to the
      closing of the pools, with the tasks in place of their fates: a task
      outlives the ten seconds of a stop only if the runtime does not let it take
      the one step, open to it at every moment, that looks at the cancellation
      ([shutdown_spec]).

    Lemmas with a meaning of their own that are not numbered: the flags and the
    text of a status ([status_parse_spec], [status_text_roundtrip],
    [status_flag_set]), token formats, permissions and log-in ([token_formats],
    [permissions_spec], [login_spec]), the layers of the configuration
    ([config_precedence]), the users and servers of a start
    ([startup_users_spec], [startup_servers_spec], [service_stop_spec]), the
    exit code ([main_exit]), reverse DNS ([reverse_dns_spec]), reachable states
    of sequential passes ([reachable_wf]), delivery of one batch
    ([events_delivered]), the events of a change of status ([ups_events_spec]),
    what a pass publishes ([sync_events_account]), the tests of the sources
    ([test_suites_pass]), the units and classes of the pages (in Semantic).

    ** What is not modelled

    The HTML that askama makes of the templates, the JavaScript and the style
    sheets; the matching of paths and the generic layers of tower (tracing,
    compression, time-outs, CORS) beyond their places in the table; the derived
    deserialization of toml tables and of clap's arguments; the spelling of a
    JSON tree, which is serde_json's; the runtime, signals and logging;
    [namespace_list.rs], which no module includes; the tests that need the
    Internet or the dump files of a submodule. What is left of the sources are
    imports, module lists, iterators and conversions that only wrap those of the
    standard library. The broadcast and event channels are lists: how tokio drops
    messages of a receiver that lags is the input [ListenerLagged]. *)

From Stdlib Require Export Lia ZArith.
From Stdlib Require Strings.Byte.
From stdpp Require Export base tactics list gmap strings countable numbers option.
Export (notations) Strings.Byte.

#[global] Open Scope nat_scope.

(** ** Bytes and byte strings

    A Rust [&str], [String] or [Box<str>] is its UTF-8 byte sequence; [&[u8]]
    and [Vec<u8>] are byte sequences too. *)

Abbreviation byte := Byte.byte (only parsing).
Abbreviation str := (list Byte.byte) (only parsing).

#[global] Instance byte_eq_decision : EqDecision Byte.byte := Byte.byte_eq_dec.

#[global] Instance byte_countable : Countable Byte.byte :=
  inj_countable Byte.to_N Byte.of_N Byte.of_to_N.

(** A string literal of the source. *)
Definition lit (s : String.string) : list Byte.byte := String.list_byte_of_string s.
#[global] Arguments lit _%_string_scope.

Abbreviation LF := Byte.x0a (only parsing).
Abbreviation SP := Byte.x20 (only parsing).
Abbreviation DQUOTE := Byte.x22 (only parsing).
Abbreviation BSLASH := Byte.x5c (only parsing).

(** ** Outcomes of fallible code

    [Ok] and [Err] are the constructors of Rust's [Result]; [Panicked] is an
    unwinding panic (an out-of-range or non-boundary slice); [OutOfFuel] marks
    a loop whose fuel ran out, and theorems rule it out. *)
Inductive outcome (E A : Type) : Type :=
  | Ok (a : A)
  | Err (e : E)
  | Panicked
  | OutOfFuel.

#[global] Arguments Ok {E A} a.
#[global] Arguments Err {E A} e.
#[global] Arguments Panicked {E A}.
#[global] Arguments OutOfFuel {E A}.

#[global] Instance outcome_eq_dec {E A} `{EqDecision E, EqDecision A} :
  EqDecision (outcome E A).
Proof. solve_decision. Defined.

(** The [?] operator. *)
Definition obind {E A B} (m : outcome E A) (f : A -> outcome E B) : outcome E B :=
  match m with
  | Ok a => f a
  | Err e => Err e
  | Panicked => Panicked
  | OutOfFuel => OutOfFuel
  end.

(** [Result::map_err]. *)
Definition map_err {E E' A} (f : E -> E') (m : outcome E A) : outcome E' A :=
  match m with
  | Ok a => Ok a
  | Err e => Err (f e)
  | Panicked => Panicked
  | OutOfFuel => OutOfFuel
  end.

Definition omap_ok {E A B} (f : A -> B) (m : outcome E A) : outcome E B :=
  match m with
  | Ok a => Ok (f a)
  | Err e => Err e
  | Panicked => Panicked
  | OutOfFuel => OutOfFuel
  end.

(** An operation whose [None] is a panic of the source. *)
Definition or_panic {E A} (o : option A) : outcome E A :=
  match o with
  | Some a => Ok a
  | None => Panicked
  end.

Definition ok_or {E A} (e : E) (o : option A) : outcome E A :=
  match o with
  | Some a => Ok a
  | None => Err e
  end.

Definition is_ok {E A} (m : outcome E A) : bool :=
  match m with Ok _ => true | _ => false end.

Declare Scope rust_scope.
Delimit Scope rust_scope with rust.
Notation "'let?' x ':=' m 'in' k" := (obind m (fun x => k))
  (at level 10, x pattern, m at level 100, k at level 200,
   format "'[v' 'let?'  x  ':='  m  'in' '/' k ']'") : rust_scope.
#[global] Open Scope rust_scope.

(** ** Automation *)

Create HintDb rust discriminated.
Create Rewrite HintDb rust_simpl.

(** Splits the matches and conditionals of the goal and the hypotheses. *)
Ltac break_match_goal :=
  match goal with
  | |- context [match ?x with _ => _ end] => destruct x eqn:?
  end.

Ltac break_match_hyp :=
  match goal with
  | H : context [match ?x with _ => _ end] |- _ => destruct x eqn:?
  end.

(** Inverts [obind m f = Ok b]. *)
Ltac inv_obind :=
  match goal with
  | H : obind ?m _ = Ok _ |- _ =>
      let E := fresh "E" in
      destruct m eqn:E; simpl in H; [ | discriminate H ..]
  end.

Ltac bool_to_prop :=
  repeat match goal with
  | H : andb _ _ = true |- _ => apply andb_true_iff in H as [? ?]
  | H : orb _ _ = false |- _ => apply orb_false_iff in H as [? ?]
  | H : negb _ = true |- _ => apply negb_true_iff in H
  | H : negb _ = false |- _ => apply negb_false_iff in H
  | H : bool_decide _ = true |- _ => apply bool_decide_eq_true in H
  | H : bool_decide _ = false |- _ => apply bool_decide_eq_false in H
  end.

(** ** Lists *)

(** [take_while p l] and [drop_while p l]: the longest prefix on which [p]
    holds, and what follows it. *)
Fixpoint take_while {A} (p : A -> bool) (l : list A) : list A :=
  match l with
  | [] => []
  | x :: l' => if p x then x :: take_while p l' else []
  end.

Fixpoint drop_while {A} (p : A -> bool) (l : list A) : list A :=
  match l with
  | [] => []
  | x :: l' => if p x then drop_while p l' else l
  end.

Section list_lemmas.
Context {A : Type}.
Implicit Types (p : A -> bool) (l : list A).

Lemma take_drop_while p l : take_while p l ++ drop_while p l = l.
Proof. induction l as [|x l IH]; simpl; [done|]. destruct (p x); simpl; congruence. Qed.

Lemma take_while_all p l : forallb p (take_while p l) = true.
Proof. induction l as [|x l IH]; simpl; [done|]. destruct (p x) eqn:E; simpl; [by rewrite E|done]. Qed.

Lemma drop_while_length p l : length (drop_while p l) <= length l.
Proof. induction l as [|x l IH]; simpl; [done|]. destruct (p x); simpl; lia. Qed.

Lemma drop_while_head p l x r : drop_while p l = x :: r -> p x = false.
Proof.
  induction l as [|y l IH]; simpl; [done|].
  destruct (p y) eqn:E; [apply IH|]. by intros [= -> _].
Qed.

Lemma take_while_app p l1 l2 :
  forallb p l1 = true -> take_while p (l1 ++ l2) = l1 ++ take_while p l2.
Proof.
  induction l1 as [|x l1 IH]; simpl; [done|].
  intros [-> H]%andb_true_iff. by rewrite IH.
Qed.

Lemma drop_while_app p l1 l2 :
  forallb p l1 = true -> drop_while p (l1 ++ l2) = drop_while p l2.
Proof.
  induction l1 as [|x l1 IH]; simpl; [done|].
  intros [-> H]%andb_true_iff. by apply IH.
Qed.

Lemma drop_while_id p l : (forall x r, l = x :: r -> p x = false) -> drop_while p l = l.
Proof. destruct l as [|x l]; simpl; [done|]. intros H. by rewrite (H x l). Qed.

Lemma take_while_none p l : (forall x r, l = x :: r -> p x = false) -> take_while p l = [].
Proof. destruct l as [|x l]; simpl; [done|]. intros H. by rewrite (H x l). Qed.

Lemma drop_S_cons n l x r : drop n l = x :: r -> drop (S n) l = r.
Proof. intros H. replace (S n) with (n + 1) by lia. by rewrite <- drop_drop, H. Qed.

Lemma drop_add_app n l l1 l2 : drop n l = l1 ++ l2 -> drop (n + length l1) l = l2.
Proof. intros H. by rewrite <- drop_drop, H, drop_app_length. Qed.

Lemma drop_lt_length n l x r : drop n l = x :: r -> n < length l.
Proof.
  intros H. destruct (decide (n < length l)) as [|Hn]; [done|].
  rewrite drop_ge in H by lia. done.
Qed.

Lemma forallb_Forall_iff p l : forallb p l = true <-> Forall (fun x => p x = true) l.
Proof. rewrite forallb_forall, List.Forall_forall. done. Qed.
End list_lemmas.

(** Induction two elements at a time. *)
Lemma list_ind_two {A} (P : list A -> Prop) :
  P [] -> (forall a, P [a]) -> (forall a b l, P l -> P (b :: l) -> P (a :: b :: l)) ->
  forall l, P l.
Proof.
  intros H0 H1 H2 l. assert (P l /\ forall a, P (a :: l)) as [? _]; [|done].
  induction l as [|b l [IH1 IH2]]; split; auto.
Qed.

(** Does a property hold of every byte: decided by checking all 256. *)
Definition all_bytes : list Byte.byte :=
  omap (fun n => Byte.of_N (N.of_nat n)) (seq 0 256).

Lemma elem_of_all_bytes (b : Byte.byte) : b ∈ all_bytes.
Proof. destruct b; apply (bool_decide_unpack _); vm_compute; exact I. Qed.

Lemma forall_byte (p : Byte.byte -> bool) :
  forallb p all_bytes = true -> forall b, p b = true.
Proof.
  intros H b. rewrite forallb_forall in H. apply H, list_elem_of_In, elem_of_all_bytes.
Qed.

#[export] Hint Rewrite @app_nil_r @length_app @length_take @length_drop : rust_simpl.
#[export] Hint Resolve drop_while_length : rust.
