(* ===== verification/RustStr.v ===== *)
(** * Byte strings as Rust's standard library treats them

    What the sources use of [str], [char] and [u8]: ASCII classes, UTF-8
    validity, char boundaries and slicing, trimming and splitting at Unicode
    white space, prefixes and case-insensitive comparison. *)

From S2P Require Import Prelude.

(** ** Bytes *)

Definition byte_of_N (n : N) : byte := default Byte.x00 (Byte.of_N (n mod 256)).

Definition in_range (lo hi c : byte) : bool :=
  (Byte.to_N lo <=? Byte.to_N c)%N && (Byte.to_N c <=? Byte.to_N hi)%N.

(** [u8::is_ascii_whitespace]: space, tab, line feed, form feed, carriage return. *)
Definition is_ascii_whitespace (c : byte) : bool :=
  match c with
  | Byte.x20 | Byte.x09 | Byte.x0a | Byte.x0c | Byte.x0d => true
  | _ => false
  end.

Definition is_ascii (c : byte) : bool := (Byte.to_N c <? 128)%N.
Definition is_ascii_digit (c : byte) : bool := in_range "0"%byte "9"%byte c.
Definition is_ascii_lowercase (c : byte) : bool := in_range "a"%byte "z"%byte c.
Definition is_ascii_uppercase (c : byte) : bool := in_range "A"%byte "Z"%byte c.
Definition is_ascii_alphabetic (c : byte) : bool :=
  is_ascii_lowercase c || is_ascii_uppercase c.
Definition is_ascii_alphanumeric (c : byte) : bool :=
  is_ascii_alphabetic c || is_ascii_digit c.

Definition to_ascii_lowercase (c : byte) : byte :=
  if is_ascii_uppercase c then byte_of_N (Byte.to_N c + 32) else c.

Definition str_to_ascii_lowercase (s : str) : str := to_ascii_lowercase <$> s.

(** [str::eq_ignore_ascii_case]. *)
Definition eq_ignore_ascii_case (a b : str) : bool :=
  bool_decide (str_to_ascii_lowercase a = str_to_ascii_lowercase b).

(** [char::from(u8)] pushed on a [String]: the UTF-8 encoding of U+00XX. *)
Definition char_from_u8 (c : byte) : str :=
  if is_ascii c then [c]
  else [byte_of_N (192 + Byte.to_N c / 64); byte_of_N (128 + Byte.to_N c mod 64)].

(** [", "] between the texts, as the debug builders of lists and structs do. *)
Fixpoint comma_separated (l : list str) : str :=
  match l with
  | [] => []
  | [s] => s
  | s :: l => s ++ lit ", " ++ comma_separated l
  end.

(** ** UTF-8 *)

(** A continuation byte, 10xxxxxx. *)
Definition is_cont (c : byte) : bool := in_range Byte.x80 Byte.xbf c.

(** The second byte of a three- and of a four-byte sequence depends on the first. *)
Definition second_of_3 (a b : byte) : bool :=
  match a with
  | Byte.xe0 => in_range Byte.xa0 Byte.xbf b
  | Byte.xed => in_range Byte.x80 Byte.x9f b
  | _ => is_cont b
  end.

Definition second_of_4 (a b : byte) : bool :=
  match a with
  | Byte.xf0 => in_range Byte.x90 Byte.xbf b
  | Byte.xf4 => in_range Byte.x80 Byte.x8f b
  | _ => is_cont b
  end.

(** [core::str::from_utf8] succeeds. *)
Fixpoint utf8_valid (s : str) : bool :=
  match s with
  | [] => true
  | a :: s1 =>
      if is_ascii a then utf8_valid s1 else
      match s1 with
      | [] => false
      | b :: s2 =>
          if in_range Byte.xc2 Byte.xdf a then is_cont b && utf8_valid s2 else
          match s2 with
          | [] => false
          | c :: s3 =>
              if in_range Byte.xe0 Byte.xef a
              then second_of_3 a b && is_cont c && utf8_valid s3 else
              match s3 with
              | [] => false
              | d :: s4 =>
                  in_range Byte.xf0 Byte.xf4 a && second_of_4 a b &&
                  is_cont c && is_cont d && utf8_valid s4
              end
          end
      end
  end.

(** [str::is_char_boundary]. *)
Definition is_char_boundary (s : str) (i : nat) : bool :=
  if i =? 0 then true else
  match s !! i with
  | None => i =? length s
  | Some b => negb (is_cont b)
  end.

(** [&s[i..j]]; [None] is the panic of an out-of-range or non-boundary index. *)
Definition str_slice (s : str) (i j : nat) : option str :=
  if (i <=? j) && is_char_boundary s i && is_char_boundary s j
  then Some (take (j - i) (drop i s)) else None.

(** [&s[i..]]. *)
Definition str_from (s : str) (i : nat) : option str :=
  if is_char_boundary s i then Some (drop i s) else None.

(** [&bytes[i..]], on bytes: only the range is checked. *)
Definition bytes_from (s : str) (i : nat) : option str :=
  if i <=? length s then Some (drop i s) else None.

(** ** Characters and white space *)

(** How many bytes the character at the head of a valid string takes. *)
Definition char_width (a : byte) : nat :=
  if is_ascii a then 1
  else if in_range Byte.xc2 Byte.xdf a then 2
  else if in_range Byte.xe0 Byte.xef a then 3 else 4.

(** The characters of a valid string, each as its bytes. *)
Fixpoint chars_fuel (fuel : nat) (s : str) : list str :=
  match fuel, s with
  | S f, a :: _ => take (char_width a) s :: chars_fuel f (drop (char_width a) s)
  | _, _ => []
  end.
Definition chars (s : str) : list str := chars_fuel (length s) s.

(** [char::is_whitespace]: the code points of White_Space. *)
Definition char_is_whitespace (c : str) : bool :=
  match c with
  | [a] => in_range Byte.x09 Byte.x0d a || bool_decide (a = SP)
  | [Byte.xc2; b] => bool_decide (b = Byte.x85) || bool_decide (b = Byte.xa0)
  | [Byte.xe1; Byte.x9a; c] => bool_decide (c = Byte.x80)
  | [Byte.xe2; Byte.x80; c] =>
      in_range Byte.x80 Byte.x8a c || bool_decide (c = Byte.xa8) ||
      bool_decide (c = Byte.xa9) || bool_decide (c = Byte.xaf)
  | [Byte.xe2; Byte.x81; c] => bool_decide (c = Byte.x9f)
  | [Byte.xe3; Byte.x80; c] => bool_decide (c = Byte.x80)
  | _ => false
  end.

(** [trim_start_matches] and [trim_end_matches] with a predicate on characters. *)
Definition trim_end_matches (p : str -> bool) (s : str) : str :=
  mjoin (reverse (drop_while p (reverse (chars s)))).
Definition trim_start_matches (p : str -> bool) (s : str) : str :=
  mjoin (drop_while p (chars s)).

(** [str::trim]. *)
Definition trim (s : str) : str :=
  trim_end_matches char_is_whitespace (trim_start_matches char_is_whitespace s).

(** [str::split_whitespace]: the maximal runs of non-white-space characters. *)
Fixpoint split_ws_loop (cs : list str) (word : str) : list str :=
  match cs with
  | [] => if decide (word = []) then [] else [word]
  | c :: cs' =>
      if char_is_whitespace c
      then (if decide (word = []) then [] else [word]) ++ split_ws_loop cs' []
      else split_ws_loop cs' (word ++ c)
  end.
Definition split_whitespace (s : str) : list str := split_ws_loop (chars s) [].

(** ** Prefixes *)

Fixpoint strip_prefix (p s : str) : option str :=
  match p, s with
  | [], _ => Some s
  | a :: p', b :: s' => if decide (a = b) then strip_prefix p' s' else None
  | _ :: _, [] => None
  end.

Definition starts_with (p s : str) : bool :=
  match strip_prefix p s with Some _ => true | None => false end.

(** [Ord for str]: lexicographic on the bytes. *)
Fixpoint str_cmp (a b : str) : comparison :=
  match a, b with
  | [], [] => Eq
  | [], _ :: _ => Lt
  | _ :: _, [] => Gt
  | x :: a', y :: b' =>
      match N.compare (Byte.to_N x) (Byte.to_N y) with
      | Eq => str_cmp a' b'
      | c => c
      end
  end.

(** ** Lemmas on bytes *)

Lemma str_cmp_eq a b : str_cmp a b = Eq <-> a = b.
Proof.
  revert b. induction a as [|x a IH]; intros [|y b]; simpl; try done.
  destruct (N.compare_spec (Byte.to_N x) (Byte.to_N y)) as [E|E|E].
  - apply (f_equal Byte.of_N) in E. rewrite !Byte.of_to_N in E. injection E as ->.
    rewrite IH. split; [by intros ->|by intros [=]].
  - split; [done|]. intros [= -> _]. lia.
  - split; [done|]. intros [= -> _]. lia.
Qed.

Lemma str_cmp_refl a : str_cmp a a = Eq.
Proof. by apply str_cmp_eq. Qed.


Lemma is_ascii_not_cont a : is_ascii a = true -> is_cont a = false.
Proof.
  intros H. pose proof (forall_byte (fun a => negb (is_ascii a) || negb (is_cont a))
    ltac:(vm_compute; reflexivity) a) as Hb. simpl in Hb.
  rewrite H in Hb. by destruct (is_cont a).
Qed.

Lemma ascii_ws_is_ascii a : is_ascii_whitespace a = true -> is_ascii a = true.
Proof.
  intros H. pose proof (forall_byte (fun a => negb (is_ascii_whitespace a) || is_ascii a)
    ltac:(vm_compute; reflexivity) a) as Hb. simpl in Hb. by rewrite H in Hb.
Qed.

Lemma digit_is_ascii a : is_ascii_digit a = true -> is_ascii a = true.
Proof.
  intros H. pose proof (forall_byte (fun a => negb (is_ascii_digit a) || is_ascii a)
    ltac:(vm_compute; reflexivity) a) as Hb. simpl in Hb. by rewrite H in Hb.
Qed.

Lemma second_of_3_cont a b : second_of_3 a b = true -> is_cont b = true.
Proof.
  unfold second_of_3, is_cont, in_range. intros H.
  destruct a; try exact H; bool_to_prop; rewrite N.leb_le in *;
    apply andb_true_iff; rewrite !N.leb_le; simpl in *; lia.
Qed.

Lemma second_of_4_cont a b : second_of_4 a b = true -> is_cont b = true.
Proof.
  unfold second_of_4, is_cont, in_range. intros H.
  destruct a; try exact H; bool_to_prop; rewrite N.leb_le in *;
    apply andb_true_iff; rewrite !N.leb_le; simpl in *; lia.
Qed.

(** ** The structure of valid strings *)

(** One encoded character. *)
Definition utf8_char (u : str) : Prop :=
  exists c conts, u = c :: conts /\ is_cont c = false /\ forallb is_cont conts = true /\
    length u = char_width c /\ (forall r, utf8_valid (u ++ r) = utf8_valid r).

Lemma lead_not_cont a :
  in_range Byte.xc2 Byte.xdf a || in_range Byte.xe0 Byte.xef a ||
  in_range Byte.xf0 Byte.xf4 a = true -> is_cont a = false.
Proof.
  intros H. pose proof (forall_byte (fun a =>
    negb (in_range Byte.xc2 Byte.xdf a || in_range Byte.xe0 Byte.xef a ||
          in_range Byte.xf0 Byte.xf4 a) || negb (is_cont a))
    ltac:(vm_compute; reflexivity) a) as Hb. simpl in Hb.
  rewrite H in Hb. by destruct (is_cont a).
Qed.

Lemma utf8_valid_cases s :
  utf8_valid s = true ->
  s = [] \/ exists u r, utf8_char u /\ s = u ++ r /\ utf8_valid r = true.
Proof.
  destruct s as [|a s1]; [by left|]. simpl. intros H. right.
  destruct (is_ascii a) eqn:Ea.
  { exists [a], s1. split_and!; [|done|done].
    exists a, []. split_and!; [done|by apply is_ascii_not_cont|done| |].
    - unfold char_width. by rewrite Ea.
    - intros r. simpl. by rewrite Ea. }
  destruct s1 as [|b s2]; [done|].
  destruct (in_range Byte.xc2 Byte.xdf a) eqn:E2.
  { bool_to_prop. exists [a; b], s2. split_and!; [|done|done].
    exists a, [b]. split_and!; [done| | | |].
    - apply lead_not_cont. by rewrite E2.
    - simpl. by rewrite H.
    - unfold char_width. by rewrite Ea, E2.
    - intros r. simpl. by rewrite Ea, E2, H. }
  destruct s2 as [|c s3]; [done|].
  destruct (in_range Byte.xe0 Byte.xef a) eqn:E3.
  { bool_to_prop. exists [a; b; c], s3. split_and!; [|done|done].
    exists a, [b; c]. split_and!; [done| | | |].
    - apply lead_not_cont. by rewrite E3, orb_true_r.
    - simpl. rewrite (second_of_3_cont a b) by done. by rewrite H1.
    - unfold char_width. by rewrite Ea, E2, E3.
    - intros r. simpl. by rewrite Ea, E2, E3, H, H1. }
  destruct s3 as [|d s4]; [done|].
  bool_to_prop. exists [a; b; c; d], s4. split_and!; [|done|done].
  exists a, [b; c; d]. split_and!; [done| | | |].
  - apply lead_not_cont. by rewrite H, !orb_true_r.
  - simpl. rewrite (second_of_4_cont a b) by done. by rewrite H1, H2.
  - unfold char_width. by rewrite Ea, E2, E3.
  - intros r. simpl. by rewrite Ea, E2, E3, H, H1, H2, H3.
Qed.

Lemma utf8_char_nonempty u : utf8_char u -> u <> [].
Proof. by intros (c & conts & -> & _). Qed.

Lemma utf8_ind (P : str -> Prop) :
  P [] ->
  (forall u r, utf8_char u -> utf8_valid r = true -> P r -> P (u ++ r)) ->
  forall s, utf8_valid s = true -> P s.
Proof.
  intros Hnil Hcons s. remember (length s) as n eqn:Hn. revert s Hn.
  induction (lt_wf n) as [n _ IH]. intros s -> Hs.
  destruct (utf8_valid_cases s Hs) as [-> | (u & r & Hu & -> & Hr)]; [done|].
  apply Hcons; [done|done|]. apply (IH (length r)); [|done|done].
  rewrite length_app. apply utf8_char_nonempty in Hu. destruct u; simpl; [done|lia].
Qed.

Lemma utf8_valid_app s1 s2 :
  utf8_valid s1 = true -> utf8_valid s2 = true -> utf8_valid (s1 ++ s2) = true.
Proof.
  intros H1 H2. revert s1 H1. apply utf8_ind; [done|].
  intros u r (c & conts & -> & _ & _ & _ & Hu) _ IH.
  rewrite <- app_assoc. by rewrite Hu.
Qed.

Lemma utf8_valid_ascii s : forallb is_ascii s = true -> utf8_valid s = true.
Proof. induction s as [|a s IH]; [done|]. cbn. intros [-> H]%andb_true_iff. by apply IH. Qed.

Lemma utf8_valid_head a s : utf8_valid (a :: s) = true -> is_cont a = false.
Proof.
  intros H. destruct (utf8_valid_cases _ H) as [|(u & r & (c & conts & -> & Hc & _) & E & _)];
    [done|]. simpl in E. congruence.
Qed.

(** Around an ASCII byte a valid string splits into valid strings. *)
Lemma utf8_valid_split l1 a l2 :
  is_ascii a = true -> utf8_valid (l1 ++ a :: l2) = true ->
  utf8_valid l1 = true /\ utf8_valid (a :: l2) = true.
Proof.
  intros Ha H. remember (l1 ++ a :: l2) as s eqn:E. revert l1 E.
  pattern s; revert s H; apply utf8_ind; [by intros [|]|].
  intros u r Hu Hr IH l1 E.
  destruct Hu as (c & conts & -> & Hc & Hconts & Hlen & Hu).
  destruct l1 as [|x l1].
  { split; [done|]. rewrite <- (app_nil_l (a :: l2)), <- E, Hu. done. }
  simpl in E. injection E as <- E.
  destruct (app_eq_inv _ _ _ _ E) as [(k & -> & E2) | (k & -> & E2)].
  - destruct k as [|y k]; simpl in E2.
    + rewrite app_nil_r in *. destruct (IH []) as [? ?]; [done|].
      split; [|done]. rewrite <- (app_nil_r (c :: l1)), Hu. done.
    + injection E2 as <- E2. rewrite forallb_app in Hconts.
      simpl in Hconts. bool_to_prop. by rewrite is_ascii_not_cont in * by done.
  - destruct (IH k E2) as [? ?]. split; [|done].
    change (c :: conts ++ k) with ((c :: conts) ++ k). by rewrite Hu.
Qed.

Lemma utf8_valid_cons_ascii a s : is_ascii a = true -> utf8_valid (a :: s) = utf8_valid s.
Proof. cbn. by intros ->. Qed.

(** ** Slicing *)

Lemma is_char_boundary_drop s i :
  i <= length s -> (forall a r, drop i s = a :: r -> is_cont a = false) ->
  is_char_boundary s i = true.
Proof.
  intros Hi H. unfold is_char_boundary. destruct (i =? 0) eqn:E0; [done|].
  destruct (s !! i) as [b|] eqn:E.
  - apply drop_S in E. rewrite (H _ _ E). done.
  - apply lookup_ge_None in E. apply Nat.eqb_eq. lia.
Qed.

Lemma is_char_boundary_valid s i :
  i <= length s -> utf8_valid (drop i s) = true -> is_char_boundary s i = true.
Proof.
  intros Hi H. apply is_char_boundary_drop; [done|]. intros a r E. rewrite E in H.
  by apply utf8_valid_head in H.
Qed.

Lemma str_slice_valid s i j :
  i <= j -> j <= length s -> utf8_valid (drop i s) = true -> utf8_valid (drop j s) = true ->
  str_slice s i j = Some (take (j - i) (drop i s)).
Proof.
  intros Hij Hj Hi' Hj'. unfold str_slice.
  rewrite (proj2 (Nat.leb_le i j)) by done.
  rewrite !is_char_boundary_valid by (done || lia). done.
Qed.

(** ** Prefixes *)

Lemma strip_prefix_app p s : strip_prefix p (p ++ s) = Some s.
Proof. induction p as [|a p IH]; simpl; [done|]. by rewrite decide_True. Qed.

Lemma strip_prefix_Some p s r : strip_prefix p s = Some r <-> s = p ++ r.
Proof.
  split; [|intros ->; apply strip_prefix_app].
  revert s. induction p as [|a p IH]; intros [|b s]; simpl; try congruence.
  destruct (decide (a = b)) as [->|]; [|done]. intros H. f_equal. by apply IH.
Qed.

Lemma starts_with_iff p s : starts_with p s = true <-> exists r, s = p ++ r.
Proof.
  unfold starts_with. destruct (strip_prefix p s) eqn:E.
  - apply strip_prefix_Some in E. split; eauto.
  - split; [done|]. intros [r ->]. by rewrite strip_prefix_app in E.
Qed.

(** ** Characters *)

Lemma chars_ascii c s : is_ascii c = true -> chars (c :: s) = [c] :: chars s.
Proof.
  intros Ha. unfold chars. cbn [length chars_fuel]. unfold char_width. rewrite Ha.
  cbn [take drop]. by rewrite take_0, drop_0.
Qed.

Lemma chars_all_ascii s : forallb is_ascii s = true -> chars s = (fun c => [c]) <$> s.
Proof.
  induction s as [|c s IH]; intros H; [done|]. cbn [forallb] in H. apply andb_prop in H as [Hc Hs].
  rewrite chars_ascii, IH by done. done.
Qed.

Lemma mjoin_singles (s : str) : mjoin ((fun c => [c]) <$> s) = s.
Proof. induction s as [|c s IH]; [done|]. simpl. by f_equal. Qed.

Lemma mjoin_snoc (ls : list str) l : mjoin (ls ++ [l]) = mjoin ls ++ l.
Proof. induction ls as [|x ls IH]; simpl; [by rewrite app_nil_r|]. by rewrite IH, app_assoc. Qed.

(** A character is not empty, and one that starts with an ASCII byte is that byte. *)
Lemma chars_shape s : Forall (fun c => exists a r, c = a :: r /\ (is_ascii a = true -> r = [])) (chars s).
Proof.
  unfold chars. generalize (length s) at 1. intros fuel. revert s.
  induction fuel as [|fuel IH]; intros [|a s]; cbn [chars_fuel]; try constructor; [|apply IH].
  assert (Hw : exists n, char_width a = S n /\ (is_ascii a = true -> n = 0)).
  { unfold char_width. destruct (is_ascii a); [by exists 0|].
    destruct (in_range _ _ a); [by exists 1|]. destruct (in_range _ _ a); [by exists 2|by exists 3]. }
  destruct Hw as (n & -> & Hn). exists a, (take n s). split; [done|]. intros ->%Hn. apply take_0.
Qed.

Lemma trim_end_ascii (p : str -> bool) (s : str) a : forallb is_ascii (s ++ [a]) = true ->
  p [a] = false -> trim_end_matches p (s ++ [a]) = s ++ [a].
Proof.
  intros Hs Hp. unfold trim_end_matches. rewrite chars_all_ascii by done.
  rewrite fmap_app, reverse_app. cbn [fmap list_fmap reverse rev_append]. cbn [app drop_while].
  change (reverse [[a]]) with [[a]]. cbn [app drop_while]. rewrite Hp.
  change ([a] :: reverse ((fun c => [c]) <$> s)) with (reverse [[a]] ++ reverse ((fun c => [c]) <$> s)).
  rewrite <- reverse_app, reverse_involutive.
  change [[a]] with ((fun c : byte => [c]) <$> [a]). rewrite <- fmap_app. apply mjoin_singles.
Qed.

Lemma trim_start_ascii (p : str -> bool) (s : str) a : forallb is_ascii (a :: s) = true ->
  p [a] = false -> trim_start_matches p (a :: s) = a :: s.
Proof.
  intros Hs Hp. unfold trim_start_matches. rewrite chars_all_ascii by done.
  cbn [fmap list_fmap drop_while]. rewrite Hp. apply (mjoin_singles (a :: s)).
Qed.

(** What [trim_end_matches] leaves ends in a character that does not match. *)
Lemma trim_end_last (p : str -> bool) s : trim_end_matches p s <> [] ->
  forallb is_ascii (trim_end_matches p s) = true ->
  exists t a, trim_end_matches p s = t ++ [a] /\ p [a] = false.
Proof.
  unfold trim_end_matches. intros Hne Ha.
  destruct (drop_while p (reverse (chars s))) as [|c l] eqn:E; [done|].
  pose proof (drop_while_head _ _ _ _ E) as Hc.
  assert (Hin : c ∈ chars s).
  { apply elem_of_reverse. rewrite <- (take_drop_while p (reverse (chars s))), E.
    apply elem_of_app. right. by left. }
  pose proof (chars_shape s) as Hshape. rewrite list.Forall_forall in Hshape.
  destruct (Hshape c Hin) as (a & r & -> & Hr). rewrite reverse_cons in *.
  rewrite mjoin_snoc in *.
  rewrite forallb_app in Ha. apply andb_prop in Ha as [_ Ha]. cbn [forallb] in Ha.
  apply andb_prop in Ha as [Ha _]. rewrite (Hr Ha) in *. eauto.
Qed.

(** A text of ASCII that neither starts nor ends in white space is its own trim. *)
Lemma trim_ascii_id (m : str) a b : list.last (a :: m) = Some b -> forallb is_ascii (a :: m) = true ->
  char_is_whitespace [a] = false -> char_is_whitespace [b] = false -> trim (a :: m) = a :: m.
Proof.
  intros Hl Ha Hws Hwe. unfold trim. rewrite trim_start_ascii by done.
  apply list.last_Some in Hl as [l Hl]. rewrite Hl in *. by apply trim_end_ascii.
Qed.

Lemma trim_length s : length (trim s) <= length s.
Proof.
  assert (Hm : forall cs, length (mjoin (drop_while char_is_whitespace cs)) <= length (mjoin cs)).
  { induction cs as [|c cs IH]; [done|]. cbn [drop_while]. destruct (char_is_whitespace c); [|done].
    change (mjoin (c :: cs)) with (c ++ mjoin cs). rewrite length_app. lia. }
  assert (Hr : forall cs : list str, length (mjoin (reverse cs)) = length (mjoin cs)).
  { induction cs as [|c cs IH]; [done|]. rewrite reverse_cons, mjoin_snoc, length_app, IH.
    change (mjoin (c :: cs)) with (c ++ mjoin cs). rewrite length_app. lia. }
  assert (Hc : forall t, length (mjoin (chars t)) <= length t).
  { intros t. unfold chars. generalize (length t) at 1. intros fuel. revert t.
    induction fuel as [|fuel IH]; intros [|a t]; cbn [chars_fuel mjoin list_join]; try (simpl; lia).
    change (length (take (char_width a) (a :: t) ++ mjoin (chars_fuel fuel (drop (char_width a) (a :: t))))
            <= length (a :: t)).
    rewrite length_app, length_take. pose proof (IH (drop (char_width a) (a :: t))) as H1.
    rewrite length_drop in H1. lia. }
  unfold trim, trim_end_matches, trim_start_matches. rewrite Hr. etrans; [apply Hm|]. rewrite Hr.
  etrans; [apply Hc|]. etrans; [apply Hm|]. apply Hc.
Qed.
