(* ===== verification/Numbers.v ===== *)
(** * Numbers as Rust's standard library parses and prints them

    Decimal integers at their width ([FromStr], [Display]) and the IEEE 754
    double [f64] as [SpecFloat.spec_float]: correctly rounded parsing, the
    casts [as i64] and [as f64], and the format [{:.2}]. *)

From S2P Require Import Prelude RustStr.
From Stdlib Require Import SpecFloat.

Open Scope Z_scope.

(** ** Integer ranges *)

Definition u8_max : Z := 255.
Definition u16_max : Z := 65535.
Definition u64_max : Z := 18446744073709551615.
Definition i64_min : Z := -9223372036854775808.
Definition i64_max : Z := 9223372036854775807.

Definition is_u8 (z : Z) : Prop := 0 <= z <= u8_max.
Definition is_u64 (z : Z) : Prop := 0 <= z <= u64_max.
Definition is_i64 (z : Z) : Prop := i64_min <= z <= i64_max.

(** [v as i64] from a wider or unsigned integer: the low 64 bits, two's complement. *)
Definition wrap_i64 (z : Z) : Z :=
  let m := z mod 2 ^ 64 in if m <=? i64_max then m else m - 2 ^ 64.

(** [u64::saturating_add] and [u64::saturating_sub]. *)
Definition u64_saturating_add (a b : Z) : Z := Z.min (a + b) u64_max.
Definition u64_saturating_sub (a b : Z) : Z := Z.max (a - b) 0.

(** ** Parsing integers *)

Definition digit_value (c : byte) : option Z :=
  if is_ascii_digit c then Some (Z.of_N (Byte.to_N c) - 48) else None.

Fixpoint digits_value (acc : Z) (s : str) : option Z :=
  match s with
  | [] => Some acc
  | c :: s' =>
      match digit_value c with
      | Some d => digits_value (acc * 10 + d) s'
      | None => None
      end
  end.

(** The sign a number starts with: (is it [-], what follows). *)
Definition split_sign (s : str) : bool * str :=
  match s with
  | "+"%byte :: r => (false, r)
  | "-"%byte :: r => (true, r)
  | _ => (false, s)
  end.

(** [<unsigned>::from_str]: an optional [+] and at least one digit. *)
Definition parse_unsigned (max : Z) (s : str) : option Z :=
  let ds := match s with "+"%byte :: s' => s' | _ => s end in
  match ds with
  | [] => None
  | _ => match digits_value 0 ds with
         | Some v => if v <=? max then Some v else None
         | None => None
         end
  end.

(** [i64::from_str]: an optional sign and at least one digit. *)
Definition parse_i64 (s : str) : option Z :=
  let '(neg, ds) := split_sign s in
  match ds with
  | [] => None
  | _ => match digits_value 0 ds with
         | Some v =>
             let v := if neg then - v else v in
             if (i64_min <=? v) && (v <=? i64_max) then Some v else None
         | None => None
         end
  end.

(** ** Printing integers *)

Definition digit_byte (d : Z) : byte := byte_of_N (48 + Z.to_N d).

(** The decimal digits of [n >= 0], before [acc]. *)
Fixpoint show_digits (fuel : nat) (n : Z) (acc : str) : str :=
  match fuel with
  | O => acc
  | S f =>
      let acc' := digit_byte (n mod 10) :: acc in
      if n / 10 =? 0 then acc' else show_digits f (n / 10) acc'
  end.

(** The number of bits bounds the number of digits. *)
Definition show_nat_Z (n : Z) : str := show_digits (S (Z.to_nat (Z.log2 n))) n [].

Definition show_Z (z : Z) : str :=
  if z <? 0 then "-"%byte :: show_nat_Z (- z) else show_nat_Z z.

(** ** Doubles *)

Abbreviation f64 := spec_float (only parsing).
Definition f64_prec : Z := 53.
Definition f64_emax : Z := 1024.

(** The double nearest to [num / den], for [num, den > 0]. *)
Definition f64_of_ratio (sign : bool) (num den : Z) : spec_float :=
  let '(q, e, l) := SFdiv_core_binary f64_prec f64_emax num 0 den 0 in
  binary_round_aux f64_prec f64_emax sign q e l.

(** [z as f64]. *)
Definition f64_of_Z (z : Z) : spec_float := binary_normalize f64_prec f64_emax z 0 false.

(** [x as i64]: toward zero, saturating, NaN to 0. *)
Definition i64_of_f64 (x : spec_float) : Z :=
  match x with
  | S754_zero _ | S754_nan => 0
  | S754_infinity s => if s then i64_min else i64_max
  | S754_finite s m e =>
      let v := if 0 <=? e then Z.pos m * 2 ^ e else Z.pos m / 2 ^ (- e) in
      Z.max i64_min (Z.min i64_max (if s then - v else v))
  end.

(** The longest prefix of digits, its value after [acc], and what follows. *)
Definition span_digits (s : str) : str * str :=
  (take_while is_ascii_digit s, drop_while is_ascii_digit s).

Definition digits_Z (s : str) : Z := default 0 (digits_value 0 s).

(** The exponent [e] or [E], an optional sign, at least one digit, at the end. *)
Definition parse_exponent (s : str) : option Z :=
  match s with
  | [] => Some 0
  | c :: s' =>
      if bool_decide (to_ascii_lowercase c = "e"%byte) then
        let '(neg, ds) := split_sign s' in
        match ds with
        | [] => None
        | _ => match digits_value 0 ds with
               | Some v => Some (if neg then - v else v)
               | None => None
               end
        end
      else None
  end.

(** [f64::from_str]. *)
Definition parse_f64 (s : str) : option spec_float :=
  let '(neg, body) := split_sign s in
  if eq_ignore_ascii_case body (lit "nan") then Some S754_nan
  else if eq_ignore_ascii_case body (lit "inf") || eq_ignore_ascii_case body (lit "infinity")
  then Some (S754_infinity neg)
  else
    let '(ip, r1) := span_digits body in
    let '(fp, r2) := match r1 with
                     | "."%byte :: r => span_digits r
                     | _ => ([], r1)
                     end in
    match ip ++ fp with
    | [] => None
    | ds =>
        match parse_exponent r2 with
        | None => None
        | Some x =>
            let m := digits_Z ds in
            let e10 := x - Z.of_nat (length fp) in
            Some (if m =? 0 then S754_zero neg
                  else f64_of_ratio neg (m * 10 ^ Z.max e10 0) (10 ^ Z.max (- e10) 0))
        end
    end.

(** Rounds [num / den] to an integer, ties to even. *)
Definition round_half_even (num den : Z) : Z :=
  let q := num / den in
  match Z.compare (2 * (num mod den)) den with
  | Lt => q
  | Gt => q + 1
  | Eq => if Z.even q then q else q + 1
  end.

(** [format!("{:.2}", x)]. *)
Definition format_f64_2 (x : spec_float) : str :=
  let show sign v :=
    (if sign : bool then ["-"%byte] else []) ++ show_nat_Z (v / 100) ++ ["."%byte] ++
    [digit_byte (v / 10 mod 10); digit_byte (v mod 10)] in
  match x with
  | S754_nan => lit "NaN"
  | S754_infinity s => if s then lit "-inf" else lit "inf"
  | S754_zero s => show s 0
  | S754_finite s m e =>
      show s (if 0 <=? e then Z.pos m * 2 ^ e * 100
              else round_half_even (Z.pos m * 100) (2 ^ (- e)))
  end.

Example parse_f64_tenth :
  parse_f64 (lit "0.1") = Some (S754_finite false 7205759403792794 (-56)).
Proof. vm_compute. reflexivity. Qed.

Example format_f64_13_60 :
  (format_f64_2 <$> parse_f64 (lit "13.6")) = Some (lit "13.60").
Proof. vm_compute. reflexivity. Qed.

Example format_f64_half_even :
  (format_f64_2 <$> parse_f64 (lit "-0.125")) = Some (lit "-0.12").
Proof. vm_compute. reflexivity. Qed.

(** ** Lemmas *)

Lemma digit_byte_spec d :
  0 <= d < 10 -> digit_value (digit_byte d) = Some d /\ is_ascii_digit (digit_byte d) = true.
Proof.
  intros Hd. assert (d = 0 \/ d = 1 \/ d = 2 \/ d = 3 \/ d = 4 \/ d = 5 \/ d = 6 \/ d = 7 \/
    d = 8 \/ d = 9) as Hc by lia.
  by repeat destruct Hc as [->|Hc]; [..|subst]; split.
Qed.

Lemma digits_value_app acc l1 l2 :
  digits_value acc (l1 ++ l2) =
  match digits_value acc l1 with Some a => digits_value a l2 | None => None end.
Proof.
  revert acc. induction l1 as [|c l1 IH]; intros acc; simpl; [done|].
  destruct (digit_value c); [apply IH|done].
Qed.

Lemma show_digits_spec fuel n tl :
  (0 < fuel)%nat -> 0 <= n < 10 ^ Z.of_nat fuel ->
  exists ds, show_digits fuel n tl = ds ++ tl /\ ds <> [] /\ forallb is_ascii_digit ds = true /\
    (forall a, digits_value a ds = Some (a * 10 ^ Z.of_nat (length ds) + n)).
Proof.
  revert n tl. induction fuel as [|f IH]; intros n tl Hf Hn; [lia|]. cbn [show_digits].
  pose proof (Z.mod_pos_bound n 10 ltac:(lia)) as Hm.
  destruct (digit_byte_spec (n mod 10) Hm) as [Hv Hd].
  pose proof (Z.div_mod n 10 ltac:(lia)) as Hdm.
  destruct (Z.eqb_spec (n / 10) 0) as [E|E].
  - exists [digit_byte (n mod 10)]. split_and!; [done|done|simpl; by rewrite Hd|].
    intros a. cbn [digits_value length]. rewrite Hv. f_equal. lia.
  - assert (0 <= n / 10) by (apply Z.div_pos; lia).
    rewrite Nat2Z.inj_succ, Z.pow_succ_r in Hn by lia.
    destruct f as [|f]; [simpl in Hn; lia|].
    destruct (IH (n / 10) (digit_byte (n mod 10) :: tl)) as (ds & Eq & Hne & Hds & Hval); [lia| |].
    { split; [done|]. apply Z.div_lt_upper_bound; lia. }
    exists (ds ++ [digit_byte (n mod 10)]). split_and!.
    + rewrite Eq. by rewrite <- app_assoc.
    + by destruct ds.
    + rewrite forallb_app, Hds. simpl. by rewrite Hd.
    + intros a. rewrite digits_value_app, Hval. cbn [digits_value]. rewrite Hv. f_equal.
      rewrite length_app. simpl. rewrite Nat2Z.inj_add, Z.pow_add_r by lia. simpl. lia.
Qed.

Lemma show_nat_Z_spec n :
  0 <= n ->
  exists ds, show_nat_Z n = ds /\ ds <> [] /\ forallb is_ascii_digit ds = true /\
    digits_value 0 ds = Some n.
Proof.
  intros Hn. destruct (show_digits_spec (S (Z.to_nat (Z.log2 n))) n []) as (ds & E & Hne & Hd & Hv).
  - lia.
  - split; [done|]. pose proof (Z.log2_nonneg n) as Hl. rewrite Nat2Z.inj_succ, Z2Nat.id by done.
    destruct (Z.eq_dec n 0) as [->|]; [simpl; lia|].
    pose proof (Z.log2_spec n ltac:(lia)) as [_ Hlt].
    eapply Z.lt_le_trans; [exact Hlt|]. apply Z.pow_le_mono_l. lia.
  - exists ds. split_and!; [|done|done|rewrite Hv; f_equal; lia].
    unfold show_nat_Z. rewrite E. apply app_nil_r.
Qed.

Lemma show_nat_Z_digits n : forallb is_ascii_digit (show_nat_Z n) = true.
Proof.
  unfold show_nat_Z. generalize (S (Z.to_nat (Z.log2 n))) as fuel. intros fuel.
  assert (forall m acc, forallb is_ascii_digit acc = true ->
    forallb is_ascii_digit (show_digits fuel m acc) = true) as H; [|by apply H].
  induction fuel as [|f IH]; intros m acc Ha; [done|]. cbn [show_digits].
  destruct (digit_byte_spec (m mod 10) (Z.mod_pos_bound m 10 ltac:(lia))) as [_ Hd].
  assert (forallb is_ascii_digit (digit_byte (m mod 10) :: acc) = true)
    by (cbn [forallb]; by rewrite Hd).
  destruct (m / 10 =? 0); [done|by apply IH].
Qed.

(** No leading zero. *)
Lemma show_digits_head fuel n tl :
  (0 < fuel)%nat -> 0 < n < 10 ^ Z.of_nat fuel ->
  exists c r, show_digits fuel n tl = c :: r /\ c <> "0"%byte.
Proof.
  revert n tl. induction fuel as [|f IH]; intros n tl Hf Hn; [lia|]. cbn [show_digits].
  pose proof (Z.div_mod n 10 ltac:(lia)) as Hdm.
  pose proof (Z.mod_pos_bound n 10 ltac:(lia)) as Hm.
  destruct (Z.eqb_spec (n / 10) 0) as [E|E].
  - exists (digit_byte (n mod 10)), tl. split; [done|]. intros H0.
    destruct (digit_byte_spec (n mod 10) Hm) as [Hv _]. rewrite H0 in Hv.
    injection Hv as Hv. lia.
  - assert (0 <= n / 10) by (apply Z.div_pos; lia). rewrite Nat2Z.inj_succ, Z.pow_succ_r in Hn by lia.
    destruct f as [|f]; [simpl in Hn; lia|apply IH; lia].
Qed.

Lemma show_nat_Z_head n : 0 < n -> forall c r, show_nat_Z n = c :: r -> c <> "0"%byte.
Proof.
  intros Hn c r E. unfold show_nat_Z in E.
  destruct (show_digits_head (S (Z.to_nat (Z.log2 n))) n []) as (c' & r' & E' & Hc); [lia| |congruence].
  split; [done|]. rewrite Nat2Z.inj_succ, Z2Nat.id by apply Z.log2_nonneg.
  pose proof (Z.log2_spec n Hn) as [_ Hl]. eapply Z.lt_le_trans; [exact Hl|].
  apply Z.pow_le_mono_l. lia.
Qed.

Lemma split_sign_digit c s : is_ascii_digit c = true -> split_sign (c :: s) = (false, c :: s).
Proof. destruct c; done. Qed.

Lemma show_Z_parse_i64 z : is_i64 z -> parse_i64 (show_Z z) = Some z.
Proof.
  unfold is_i64, parse_i64, show_Z. intros Hz. destruct (Z.ltb_spec z 0) as [Hneg|Hpos].
  - destruct (show_nat_Z_spec (- z)) as (ds & -> & Hne & Hd & Hv); [lia|].
    cbn [split_sign]. destruct ds as [|c ds]; [done|]. rewrite Hv.
    replace (- - z) with z by lia.
    by rewrite (proj2 (Z.leb_le _ _)), (proj2 (Z.leb_le _ _)) by lia.
  - destruct (show_nat_Z_spec z) as (ds & -> & Hne & Hd & Hv); [lia|].
    destruct ds as [|c ds]; [done|]. simpl in Hd. bool_to_prop.
    rewrite split_sign_digit, Hv by done.
    by rewrite (proj2 (Z.leb_le _ _)), (proj2 (Z.leb_le _ _)) by lia.
Qed.

Lemma show_nat_parse_unsigned max z :
  0 <= z <= max -> parse_unsigned max (show_nat_Z z) = Some z.
Proof.
  unfold parse_unsigned. intros Hz. destruct (show_nat_Z_spec z) as (ds & -> & Hne & Hd & Hv); [lia|].
  destruct ds as [|c ds]; [done|]. simpl in Hd. bool_to_prop.
  assert ((match c :: ds with "+"%byte :: s' => s' | _ => c :: ds end) = c :: ds) as ->
    by (destruct c; done).
  rewrite Hv. by rewrite (proj2 (Z.leb_le _ _)) by lia.
Qed.

Lemma parse_i64_bounds s z : parse_i64 s = Some z -> is_i64 z.
Proof.
  unfold parse_i64, is_i64. destruct (split_sign s) as [neg ds].
  destruct ds as [|c ds]; [done|]. destruct (digits_value 0 (c :: ds)); [|done].
  destruct neg; case_match eqn:E; try done; intros [= <-]; bool_to_prop; lia.
Qed.

Lemma wrap_i64_range z : is_i64 (wrap_i64 z).
Proof.
  unfold wrap_i64, is_i64, i64_min, i64_max.
  pose proof (Z.mod_pos_bound z (2 ^ 64) ltac:(lia)).
  destruct (Z.leb_spec (z mod 2 ^ 64) 9223372036854775807); lia.
Qed.

Lemma wrap_i64_id z : is_i64 z -> wrap_i64 z = z.
Proof.
  unfold wrap_i64, is_i64, i64_min, i64_max. intros Hz.
  destruct (Z_lt_ge_dec z 0) as [Hn|Hn].
  - replace (z mod 2 ^ 64) with (z + 2 ^ 64)
      by (rewrite <- (Z.mod_small (z + 2 ^ 64) (2 ^ 64)) by lia;
          rewrite <- (Z_mod_plus_full z 1 (2 ^ 64)); f_equal; lia).
    destruct (Z.leb_spec (z + 2 ^ 64) 9223372036854775807); lia.
  - rewrite Z.mod_small by lia. destruct (Z.leb_spec z 9223372036854775807); lia.
Qed.

Close Scope Z_scope.
