(* ===== verification/FloatText.v ===== *)
(** * The text of a double

    The [Display] of [f64] without a precision: the decimal number with the
    fewest digits among those that are read back as the double, the nearest to
    it when there are several, without an exponent. Two problem details of
    [rw.rs] print the bounds of a variable this way. *)

From Stdlib Require Import SpecFloat.
From S2P Require Import Prelude RustStr Numbers.

#[local] Open Scope Z_scope.

(** ** The shortest decimal number *)

(** [num / den] lies between the neighbours' midpoints of [m * 2 ^ e]; the midpoints belong to the
    double when [m] is even, since ties are read to even. The gap below a power of two is half as wide. *)
Definition rounds_to (m e num den : Z) : bool :=
  let wide := bool_decide (m = 2 ^ 52) && (-1074 <? e) in
  let lo := if wide then 4 * m - 1 else 4 * m - 2 in
  let hi := 4 * m + 2 in
  (* num / den against lo * 2 ^ (e - 2) and hi * 2 ^ (e - 2) *)
  let scale_up := 2 ^ Z.max 0 (e - 2) in
  let x := num * 2 ^ Z.max 0 (2 - e) in
  if Z.even m then (lo * scale_up * den <=? x) && (x <=? hi * scale_up * den)
  else (lo * scale_up * den <? x) && (x <? hi * scale_up * den).

(** The multiple of [10 ^ k] that stands for the double, if one does: the nearer of the two around it, ties up. *)
Definition decimal_at (m e k : Z) : option Z :=
  let num := m * 2 ^ Z.max 0 e * 10 ^ Z.max 0 (- k) in
  let den := 2 ^ Z.max 0 (- e) * 10 ^ Z.max 0 k in
  let down := num / den in
  let ok d := (0 <? d) && rounds_to m e (d * 10 ^ Z.max 0 k) (10 ^ Z.max 0 (- k)) in
  match ok down, ok (down + 1) with
  | true, true => Some (if 2 * (num mod den) <? den then down else down + 1)
  | true, false => Some down
  | false, true => Some (down + 1)
  | false, false => None
  end.

(** The coarsest power of ten with such a multiple, from [k] downwards. *)
Fixpoint shortest_from (fuel : nat) (m e k : Z) : option (Z * Z) :=
  match fuel with
  | O => None
  | S f => match decimal_at m e k with
           | Some d => Some (d, k)
           | None => shortest_from f m e (k - 1)
           end
  end.
(** A double has at most 17 digits; [log10 2] is about 30103 / 100000. *)
Definition shortest (m e : Z) : option (Z * Z) :=
  shortest_from 22 m e ((Z.log2 m + e + 1) * 30103 / 100000 + 2).

(** ** [Display for f64] *)

(** [d * 10 ^ k] without an exponent. *)
Definition decimal_text (d k : Z) : str :=
  if 0 <=? k then show_nat_Z (d * 10 ^ k)
  else
    let ds := show_nat_Z d in
    let frac := Z.to_nat (- k) in
    let ds := replicate (S frac - length ds) "0"%byte ++ ds in
    let n := (length ds - frac)%nat in
    take n ds ++ ["."%byte] ++ drop n ds.

Definition f64_fmt (x : spec_float) : str :=
  match x with
  | S754_nan => lit "NaN"
  | S754_infinity s => if s then lit "-inf" else lit "inf"
  | S754_zero s => if s then lit "-0" else lit "0"
  | S754_finite s m e =>
      (if s then ["-"%byte] else []) ++
      match shortest (Z.pos m) e with
      | Some (d, k) => decimal_text d k
      | None => []
      end
  end.

Definition shown (s : string) : option str := f64_fmt <$> parse_f64 (lit s).

Example f64_fmt_tenth : shown "0.1" = Some (lit "0.1").
Proof. vm_compute. reflexivity. Qed.
Example f64_fmt_sum : (x ← parse_f64 (lit "0.1"); y ← parse_f64 (lit "0.2"); Some (f64_fmt (SFadd f64_prec f64_emax x y))) =
  Some (lit "0.30000000000000004").
Proof. vm_compute. reflexivity. Qed.
Example f64_fmt_whole : shown "250" = Some (lit "250").
Proof. vm_compute. reflexivity. Qed.
Example f64_fmt_negative : shown "-13.60" = Some (lit "-13.6").
Proof. vm_compute. reflexivity. Qed.
Example f64_fmt_large : shown "1e23" = Some (lit "100000000000000000000000").
Proof. vm_compute. reflexivity. Qed.
Example f64_fmt_least : String.length (String.string_of_list_byte (default [] (shown "5e-324"))) = 326%nat.
Proof. vm_compute. reflexivity. Qed.
Example f64_fmt_two_53 : shown "9007199254740993" = Some (lit "9007199254740992").
Proof. vm_compute. reflexivity. Qed.
