(* ===== verification/Errors.v ===== *)
(** * Errors of the UPS daemon client

    [nut_webgui_upsmc/src/error.rs] and the [Position] of
    [internal/lexer.rs]: the error values every parser and client call
    returns, their messages, and the table of protocol error codes. *)

From S2P Require Import Prelude RustStr Numbers.

(** [lexer.rs]: [Position]; both fields start at 1. *)
Record Position := mkPosition { pos_line : nat; pos_col : nat }.

Inductive VarTypeParseError := VarTypeEmpty | VarTypeInvalidType.
Inductive UpsNameParseError := UpsNameEmpty | UpsNameInvalidName.
Inductive VarNameParseError := VarNameEmpty | VarNameInvalidName.
Inductive CmdParseError := CmdEmpty | CmdInvalidName.
Inductive NumberParseError := mkNumberParseError.

Inductive ParseError :=
  | PE_CmdName (inner : CmdParseError)
  | PE_ExpectedDoubleQuote
  | PE_InvalidToken
  | PE_InvalidIpAddr
  | PE_ExpectedTextToken
  | PE_ExpectedUpsToken
  | PE_ExpectedVarToken
  | PE_ExpectedCmdToken
  | PE_ExpectedDoubleQuotedTextToken
  | PE_InvalidNumber
  | PE_UpsName (inner : UpsNameParseError)
  | PE_VarName (inner : VarNameParseError)
  | PE_VarType (inner : VarTypeParseError).

(** The enum that [impl_protocol_errors!] generates. *)
Inductive ProtocolError :=
  | Unknown (text : str)
  | AccessDenied | AlreadyAttached | AlreadySetPassword | AlreadySetUsername
  | CmdNotSupported | DateStale | DriverNotConnected | FeatureNotConfigured
  | FeatureNotSupported | InstcmdFailed | InvalidArgument | InvalidPassword
  | InvalidUsername | InvalidValue | PasswordRequired | Readonly | SetFailed
  | TlsAlreadyEnabled | TlsNotEnabled | TooLong | UnknownCommand | UnknownUps
  | UsernameRequired | VarNotSupported.

(** [std::io::ErrorKind] is only ever printed: it is its description. *)
Inductive ErrorKind :=
  | IOError (kind : str)
  | ParseErrorAt (inner : ParseError) (position : Position)
  | ProtocolErr (inner : ProtocolError)
  | ConnectionPoolClosed
  | EmptyResponse
  | RequestTimeout.

#[global] Instance Position_eq_dec : EqDecision Position.
Proof. solve_decision. Defined.
#[global] Instance CmdParseError_eq_dec : EqDecision CmdParseError.
Proof. solve_decision. Defined.
#[global] Instance UpsNameParseError_eq_dec : EqDecision UpsNameParseError.
Proof. solve_decision. Defined.
#[global] Instance VarNameParseError_eq_dec : EqDecision VarNameParseError.
Proof. solve_decision. Defined.
#[global] Instance VarTypeParseError_eq_dec : EqDecision VarTypeParseError.
Proof. solve_decision. Defined.
#[global] Instance ParseError_eq_dec : EqDecision ParseError.
Proof. solve_decision. Defined.
#[global] Instance ProtocolError_eq_dec : EqDecision ProtocolError.
Proof. solve_decision. Defined.
#[global] Instance ErrorKind_eq_dec : EqDecision ErrorKind.
Proof. solve_decision. Defined.

(** ** The protocol error table

    The rows of [impl_protocol_errors!], in the order of the source. *)
Definition protocol_error_table : list (ProtocolError * str) :=
  [ (AccessDenied, lit "ACCESS-DENIED");
    (AlreadyAttached, lit "ALREADY-ATTACHED");
    (AlreadySetPassword, lit "ALREADY-SET-PASSWORD");
    (AlreadySetUsername, lit "ALREADY-SET-USERNAME");
    (CmdNotSupported, lit "CMD-NOT-SUPPORTED");
    (DateStale, lit "DATA-STALE");
    (DriverNotConnected, lit "DRIVER-NOT-CONNECTED");
    (FeatureNotConfigured, lit "FEATURE-NOT-CONFIGURED");
    (FeatureNotSupported, lit "FEATURE-NOT-SUPPORTED");
    (InstcmdFailed, lit "INSTCMD-FAILED");
    (InvalidArgument, lit "INVALID-ARGUMENT");
    (InvalidPassword, lit "INVALID-PASSWORD");
    (InvalidUsername, lit "INVALID-USERNAME");
    (InvalidValue, lit "INVALID-VALUE");
    (PasswordRequired, lit "PASSWORD-REQUIRED");
    (Readonly, lit "READONLY");
    (SetFailed, lit "SET-FAILED");
    (TlsAlreadyEnabled, lit "TLS-ALREADY-ENABLED");
    (TlsNotEnabled, lit "TLS-NOT-ENABLED");
    (TooLong, lit "TOO-LONG");
    (UnknownCommand, lit "UNKNOWN-COMMAND");
    (UnknownUps, lit "UNKNOWN-UPS");
    (UsernameRequired, lit "USERNAME-REQUIRED");
    (VarNotSupported, lit "VAR-NOT-SUPPORTED") ].

(** The generated [ProtocolError::as_str]. *)
Definition ProtocolError_as_str (e : ProtocolError) : str :=
  match e with
  | Unknown value => value
  | _ => match list_find (fun row => row.1 = e) protocol_error_table with
         | Some (_, (_, text)) => text
         | None => []
         end
  end.

(** The generated [From<&str> for ProtocolError]. *)
Definition ProtocolError_from (value : str) : ProtocolError :=
  match list_find (fun row => row.2 = value) protocol_error_table with
  | Some (_, (e, _)) => e
  | None => Unknown value
  end.

(** ** Messages: the [Display] implementations *)

Definition CmdParseError_fmt (e : CmdParseError) : str :=
  match e with
  | CmdEmpty => lit "empty string received"
  | CmdInvalidName => lit "invalid command name"
  end.

Definition VarNameParseError_fmt (e : VarNameParseError) : str :=
  match e with
  | VarNameEmpty => lit "empty string received"
  | VarNameInvalidName => lit "invalid variable name"
  end.

Definition UpsNameParseError_fmt (e : UpsNameParseError) : str :=
  match e with
  | UpsNameEmpty => lit "empty string received"
  | UpsNameInvalidName => lit "invalid UPS name"
  end.

Definition VarTypeParseError_fmt (e : VarTypeParseError) : str :=
  match e with
  | VarTypeEmpty => lit "empty string received"
  | VarTypeInvalidType => lit "invalid type"
  end.

Definition ParseError_fmt (e : ParseError) : str :=
  match e with
  | PE_CmdName inner => CmdParseError_fmt inner
  | PE_ExpectedCmdToken => lit "expected command token"
  | PE_ExpectedDoubleQuote => lit "expected double quote character"
  | PE_ExpectedDoubleQuotedTextToken => lit "expected double quoted text token"
  | PE_ExpectedTextToken => lit "expected text token"
  | PE_ExpectedUpsToken => lit "expected ups token"
  | PE_ExpectedVarToken => lit "expected var token"
  | PE_InvalidIpAddr => lit "invalid ipv4 or ipv6 text"
  | PE_InvalidToken => lit "invalid token"
  | PE_InvalidNumber => lit "invalid number value token"
  | PE_UpsName inner => UpsNameParseError_fmt inner
  | PE_VarName inner => VarNameParseError_fmt inner
  | PE_VarType inner => VarTypeParseError_fmt inner
  end.

Definition ErrorKind_fmt (e : ErrorKind) : str :=
  match e with
  | RequestTimeout => lit "request timeout"
  | EmptyResponse => lit "empty response received"
  | ConnectionPoolClosed =>
      lit "new connection request received but connection pool is already closed"
  | IOError kind => lit "io error occured. kind=" ++ kind
  | ParseErrorAt inner position =>
      ParseError_fmt inner ++ lit " at " ++ show_nat_Z (Z.of_nat (pos_line position)) ++
      lit ":" ++ show_nat_Z (Z.of_nat (pos_col position))
  | ProtocolErr inner =>
      lit "nut server responded with an error message. error=" ++ ProtocolError_as_str inner
  end.

(** ** The table is a bijection *)

Lemma protocol_table_as_str e text :
  (e, text) ∈ protocol_error_table -> ProtocolError_as_str e = text.
Proof.
  intros H. assert (Forall (fun row => ProtocolError_as_str row.1 = row.2) protocol_error_table)
    as Hall by (apply (bool_decide_unpack _); vm_compute; exact I).
  rewrite list.Forall_forall in Hall. exact (Hall (e, text) H).
Qed.

Lemma protocol_table_from e text :
  (e, text) ∈ protocol_error_table -> ProtocolError_from text = e.
Proof.
  intros H. assert (Forall (fun row => ProtocolError_from row.2 = row.1) protocol_error_table)
    as Hall by (apply (bool_decide_unpack _); vm_compute; exact I).
  rewrite list.Forall_forall in Hall. exact (Hall (e, text) H).
Qed.

Lemma protocol_error_from_as_str value : ProtocolError_as_str (ProtocolError_from value) = value.
Proof.
  unfold ProtocolError_from.
  destruct (list_find _ _) as [[i [e text]]|] eqn:E; [|done].
  apply list_find_Some in E as (Hlk & Heq & _). simpl in Heq. subst value.
  apply (protocol_table_as_str e text). by eapply list_elem_of_lookup_2.
Qed.

(** Every code of the table is recognised as itself; [Unknown] is what is left. *)
Lemma protocol_error_as_str_from e :
  (forall text, e <> Unknown text) -> ProtocolError_from (ProtocolError_as_str e) = e.
Proof. intros H. destruct e; try done. by destruct (H text). Qed.
