(* ===== verification/Escape.v ===== *)
(** * Escaping of protocol strings

    [internal/escape.rs]: [escape_nut_str] puts a backslash before every double
    quote and backslash, copying slices of the input between them. The loop is
    modelled with its indices and its slices, and proved equal to the
    character-wise specification [escape_spec]. *)

From S2P Require Import Prelude RustStr.

(** [std::borrow::Cow<'_, str>]. *)
Inductive Cow := Borrowed (s : str) | Owned (s : str).
Definition cow_str (c : Cow) : str := match c with Borrowed s | Owned s => s end.

Definition needs_escape (c : byte) : bool := bool_decide (c = DQUOTE) || bool_decide (c = BSLASH).

(** The [for] loop of [escape_nut_str]: [it] are the bytes from [idx] on.
    [None] is a panic of a slice. *)
Fixpoint escape_loop (text it : str) (idx slice_start : nat) (escaped : str)
    : option (str * nat) :=
  match it with
  | [] => Some (escaped, slice_start)
  | char_byte :: it' =>
      if needs_escape char_byte then
        let pushed := if slice_start <? idx
                      then app escaped <$> str_slice text slice_start idx
                      else Some escaped in
        match pushed with
        | Some escaped =>
            escape_loop text it' (S idx) (S idx) (escaped ++ [BSLASH] ++ char_from_u8 char_byte)
        | None => None
        end
      else escape_loop text it' (S idx) slice_start escaped
  end.

Definition escape_nut_str (text : str) : option Cow :=
  match escape_loop text text 0 0 [] with
  | None => None
  | Some (escaped, slice_start) =>
      if bool_decide (escaped = []) then Some (Borrowed text)
      else if slice_start <? length text
      then (fun tail => Owned (escaped ++ tail)) <$> str_from text slice_start
      else Some (Owned escaped)
  end.

(** ** Specification *)

Fixpoint escape_spec (s : str) : str :=
  match s with
  | [] => []
  | c :: s' => if needs_escape c then BSLASH :: c :: escape_spec s' else c :: escape_spec s'
  end.

(** ** Proofs *)

Lemma needs_escape_ascii c : needs_escape c = true -> is_ascii c = true.
Proof.
  unfold needs_escape. intros [H|H]%orb_true_iff; apply bool_decide_eq_true in H; by subst.
Qed.

Lemma char_from_ascii c : is_ascii c = true -> char_from_u8 c = [c].
Proof. unfold char_from_u8. by intros ->. Qed.

Lemma escape_spec_plain s : existsb needs_escape s = false -> escape_spec s = s.
Proof.
  induction s as [|c s IH]; simpl; [done|]. intros [-> H]%orb_false_iff. by rewrite IH.
Qed.

Lemma escape_loop_spec text it idx ss escaped :
  ss <= idx -> drop idx text = it -> utf8_valid (drop ss text) = true ->
  exists escaped' ss', escape_loop text it idx ss escaped = Some (escaped', ss') /\
    escaped' ++ drop ss' text = escaped ++ take (idx - ss) (drop ss text) ++ escape_spec it /\
    utf8_valid (drop ss' text) = true /\
    (escaped' = [] <-> escaped = [] /\ existsb needs_escape it = false).
Proof.
  revert idx ss escaped. induction it as [|c it IH]; intros idx ss escaped Hle Hit Hv.
  { exists escaped, ss. split_and!; [done| |done|simpl; tauto]. simpl. rewrite app_nil_r. f_equal.
    rewrite take_ge; [done|]. rewrite length_drop. 
    apply (f_equal length) in Hit. rewrite length_drop in Hit. simpl in Hit. lia. }
  pose proof (drop_lt_length _ _ _ _ Hit) as Hlt. pose proof (drop_S_cons _ _ _ _ Hit) as Hit'.
  assert (drop ss text = take (idx - ss) (drop ss text) ++ c :: it) as Hsplit.
  { rewrite <- Hit at 1. replace idx with (ss + (idx - ss)) at 2 by lia.
    rewrite <- drop_drop. by rewrite take_drop. }
  cbn [escape_loop existsb escape_spec]. destruct (needs_escape c) eqn:Ec.
  - pose proof (needs_escape_ascii c Ec) as Ha. rewrite (char_from_ascii c Ha).
    rewrite Hsplit in Hv. destruct (utf8_valid_split _ _ _ Ha Hv) as [Hv1 Hv2].
    rewrite <- Hsplit in Hv.
    assert ((if ss <? idx then app escaped <$> str_slice text ss idx else Some escaped) =
            Some (escaped ++ take (idx - ss) (drop ss text))) as ->.
    { destruct (Nat.ltb_spec ss idx).
      - rewrite str_slice_valid; [done|lia|lia|done|by rewrite Hit].
      - replace (idx - ss) with 0 by lia. simpl. by rewrite app_nil_r. }
    destruct (IH (S idx) (S idx) ((escaped ++ take (idx - ss) (drop ss text)) ++ [BSLASH] ++ [c]))
      as (e' & ss' & Heq & Hout & Hv' & Hnil); [done|done| |].
    { rewrite Hit'. by rewrite utf8_valid_cons_ascii in Hv2. }
    exists e', ss'. split_and!; [done| |done|].
    + rewrite Hout. rewrite Nat.sub_diag. simpl. by rewrite <- !app_assoc.
    + rewrite Hnil. split; [intros [H _] | by intros [_ H]].
      by destruct escaped, (take (idx - ss) (drop ss text)).
  - destruct (IH (S idx) ss escaped) as (e' & ss' & Heq & Hout & Hv' & Hnil); [lia|done|done|].
    exists e', ss'. split_and!; [done| |done|done].
    rewrite Hout. f_equal. replace (S idx - ss) with (S (idx - ss)) by lia.
    erewrite take_S_r; [by rewrite <- app_assoc|].
    rewrite lookup_drop. replace (ss + (idx - ss)) with (idx + 0) by lia.
    by rewrite <- lookup_drop, Hit.
Qed.

(** On valid text the function does not panic, returns the specified text, and
    borrows its argument exactly when nothing needs escaping. *)
Lemma escape_nut_str_correct text :
  utf8_valid text = true ->
  escape_nut_str text =
  Some (if existsb needs_escape text then Owned (escape_spec text) else Borrowed text).
Proof.
  intros Hv. unfold escape_nut_str.
  destruct (escape_loop_spec text text 0 0 []) as (e & ss & -> & Hout & Hv' & Hnil);
    [done|done|done|]. simpl in Hout.
  destruct (existsb needs_escape text) eqn:Ex.
  - rewrite bool_decide_eq_false_2 by (intros He; apply Hnil in He as [_ He]; done).
    destruct (Nat.ltb_spec ss (length text)).
    + unfold str_from. rewrite is_char_boundary_valid by (done || lia). simpl. by rewrite Hout.
    + rewrite drop_ge, app_nil_r in Hout by lia. by rewrite Hout.
  - by rewrite bool_decide_eq_true_2 by (apply Hnil; done).
Qed.

Lemma escape_nut_str_str text :
  utf8_valid text = true -> cow_str <$> escape_nut_str text = Some (escape_spec text).
Proof.
  intros Hv. rewrite escape_nut_str_correct by done. simpl.
  destruct (existsb needs_escape text) eqn:E; simpl; [done|]. by rewrite escape_spec_plain.
Qed.

(** Escaping keeps valid text valid. *)
Lemma escape_spec_app a b : escape_spec (a ++ b) = escape_spec a ++ escape_spec b.
Proof. induction a as [|c a IH]; simpl; [done|]. destruct (needs_escape c); simpl; by rewrite IH. Qed.

Lemma cont_plain conts : forallb is_cont conts = true -> escape_spec conts = conts.
Proof.
  intros H. apply escape_spec_plain, not_true_iff_false. intros (c & Hc & Hn)%existsb_exists.
  rewrite forallb_forall in H. specialize (H c Hc). apply needs_escape_ascii, is_ascii_not_cont in Hn.
  congruence.
Qed.

Lemma escape_spec_valid s : utf8_valid s = true -> utf8_valid (escape_spec s) = true.
Proof.
  revert s. apply utf8_ind; [done|]. intros u r Hu _ IH. rewrite escape_spec_app.
  apply utf8_valid_app; [|done]. destruct Hu as (c & conts & -> & _ & Hconts & Hlen & Hv).
  cbn [escape_spec]. rewrite cont_plain by done. specialize (Hv []). rewrite app_nil_r in Hv.
  destruct (needs_escape c) eqn:E; [|done].
  by rewrite utf8_valid_cons_ascii.
Qed.
