(* ===== verification/Lexer.v ===== *)
(** * The lexer of the UPS daemon protocol

    [internal/lexer.rs]: tokens are spans of the response buffer, the state is
    a read head and a position. [scan] is the specification: a tokenizer on the
    text that is left, with no indices; [next_token_refines] relates the two. *)

From S2P Require Import Prelude RustStr Errors Escape.

(** ** Tokens and state *)

Inductive Token :=
  | QuotedText (start end_ : nat)
  | TokLF
  | Text (start end_ : nat).

Inductive TokenKind := KQuotedText | KLF | KText.

Definition Token_kind (t : Token) : TokenKind :=
  match t with
  | QuotedText _ _ => KQuotedText
  | TokLF => KLF
  | Text _ _ => KText
  end.

Definition TokenKind_as_str (k : TokenKind) : str :=
  match k with
  | KQuotedText => lit "double-quoted text node"
  | KLF => lit "line feed node"
  | KText => lit "text node"
  end.

#[global] Instance Token_eq_dec : EqDecision Token.
Proof. solve_decision. Defined.

Record State := mkState { read_head : nat; position : Position }.
Record Lexer := mkLexer { buffer : str; state : State }.

Definition Lexer_new (buffer : str) : Lexer :=
  mkLexer buffer (mkState 0 (mkPosition 1 1)).

Definition get_positon (l : Lexer) : Position := position (state l).

(** [move_read_head]: by 1 or 2; a buffer is shorter than [isize::MAX], so the
    saturating additions do not saturate. *)
Definition move_read_head (by_ : nat) (st : State) : State :=
  mkState (read_head st + by_)
          (mkPosition (pos_line (position st)) (pos_col (position st) + by_)).

(** ** Reading *)

(** The loop of [read_text]: returns the state and [end]. *)
Fixpoint read_text_loop (it : str) (st : State) (end_ : nat) : State * nat :=
  match it with
  | [] => (st, end_)
  | v :: it' =>
      if is_ascii_whitespace v then (st, end_)
      else let st := move_read_head 1 st in read_text_loop it' st (read_head st)
  end.

Definition read_text (buffer : str) (st : State) : outcome ErrorKind ((nat * nat) * State) :=
  let start := read_head st in
  let? it := or_panic (bytes_from buffer start) in
  let '(st, end_) := read_text_loop it st start in
  Ok ((start, end_), st).

(** The loop of [read_quoted_text]; a backslash skips the byte after it. *)
Fixpoint read_quoted_loop (it : str) (st : State) : outcome ErrorKind (nat * State) :=
  match it with
  | [] => Err (ParseErrorAt PE_ExpectedDoubleQuote (position st))
  | c :: it' =>
      if decide (c = BSLASH) then
        match it' with
        | [] => Err (ParseErrorAt PE_ExpectedDoubleQuote (position (move_read_head 2 st)))
        | _ :: it'' => read_quoted_loop it'' (move_read_head 2 st)
        end
      else if decide (c = DQUOTE) then Ok (read_head st, st)
      else read_quoted_loop it' (move_read_head 1 st)
  end.

Definition read_quoted_text (buffer : str) (st : State)
    : outcome ErrorKind ((nat * nat) * State) :=
  let start := read_head st in
  let? it := or_panic (bytes_from buffer (read_head st)) in
  let? r := read_quoted_loop it st in
  let '(end_, st) := r in
  Ok ((start, end_), st).

(** The loop of [next_token] over the bytes from the read head on. *)
Fixpoint next_token_loop (buffer it : str) (st : State)
    : outcome ErrorKind (option Token * State) :=
  match it with
  | [] => Ok (None, st)
  | v :: it' =>
      if decide (v = LF) then
        Ok (Some TokLF, mkState (S (read_head st))
                                (mkPosition (S (pos_line (position st))) 0))
      else if is_ascii_whitespace v then
        next_token_loop buffer it' (move_read_head 1 st)
      else if decide (v = DQUOTE) then
        let? r := read_quoted_text buffer (move_read_head 1 st) in
        let '((start, end_), st) := r in
        Ok (Some (QuotedText start end_), move_read_head 1 st)
      else
        let? r := read_text buffer st in
        let '((start, end_), st) := r in
        Ok (Some (Text start end_), st)
  end.

Definition next_token (l : Lexer) : outcome ErrorKind (option Token * Lexer) :=
  let? it := or_panic (bytes_from (buffer l) (read_head (state l))) in
  let? r := next_token_loop (buffer l) it (state l) in
  Ok (r.1, mkLexer (buffer l) r.2).

(** [peek]: [next_token] on a copy of the state; an error reads as no token. *)
Definition peek (l : Lexer) : outcome ErrorKind (option Token) :=
  match next_token l with
  | Ok (t, _) => Ok t
  | Err _ => Ok None
  | Panicked => Panicked
  | OutOfFuel => OutOfFuel
  end.

Definition peek_as_str (l : Lexer) : outcome ErrorKind (option str) :=
  let? t := peek l in
  match t with
  | Some TokLF => Ok (Some [LF])
  | Some (Text start end_) | Some (QuotedText start end_) =>
      let? s := or_panic (str_slice (buffer l) start end_) in Ok (Some s)
  | None => Ok None
  end.

Definition is_finished (l : Lexer) : outcome ErrorKind bool :=
  let? t := peek l in Ok (match t with None => true | Some _ => false end).

Fixpoint skip_whitespaces_loop (it : str) (st : State) : State :=
  match it with
  | [] => st
  | v :: it' =>
      if decide (v = LF) then
        skip_whitespaces_loop it'
          (mkState (S (read_head st)) (mkPosition (S (pos_line (position st))) 1))
      else if is_ascii_whitespace v then skip_whitespaces_loop it' (move_read_head 1 st)
      else st
  end.

Definition skip_whitespaces (l : Lexer) : outcome ErrorKind Lexer :=
  let? it := or_panic (bytes_from (buffer l) (read_head (state l))) in
  Ok (mkLexer (buffer l) (skip_whitespaces_loop it (state l))).

(** ** Extracting text *)

(** The [while] loop of [extract_from_token] on a quoted span: [it] are the
    bytes of [text] from [idx] on; [None] is a panic of a slice. *)
Fixpoint unescape_loop (text it : str) (idx slice_start : nat) (escaped : str)
    : option (str * nat) :=
  match it with
  | [] => Some (escaped, slice_start)
  | character :: it' =>
      if decide (character = BSLASH) then
        let pushed := if slice_start <? idx
                      then app escaped <$> str_slice text slice_start idx
                      else Some escaped in
        match pushed with
        | None => None
        | Some escaped =>
            match it' with
            | c :: it'' => unescape_loop text it'' (idx + 2) (idx + 2) (escaped ++ char_from_u8 c)
            | [] => Some (escaped, slice_start)
            end
        end
      else unescape_loop text it' (idx + 1) slice_start escaped
  end.

Definition unescape (text : str) : option Cow :=
  match unescape_loop text text 0 0 [] with
  | None => None
  | Some (escaped, slice_start) =>
      if bool_decide (escaped = []) then Some (Borrowed text)
      else if slice_start <? length text
      then (fun tail => Owned (escaped ++ tail)) <$> str_from text slice_start
      else Some (Owned escaped)
  end.

Definition extract_from_token (l : Lexer) (t : Token) : outcome ErrorKind Cow :=
  match t with
  | TokLF => Ok (Borrowed [LF])
  | Text start end_ => let? s := or_panic (str_slice (buffer l) start end_) in Ok (Borrowed s)
  | QuotedText start end_ =>
      let? text := or_panic (str_slice (buffer l) start end_) in or_panic (unescape text)
  end.

(** ** Specification

    A tokenizer on the text that is left. *)

Inductive raw_token := RLF | RText (w : str) | RQuoted (raw : str).

(** White space inside a line. *)
Definition is_blank (c : byte) : bool := is_ascii_whitespace c && negb (bool_decide (c = LF)).
Definition is_text_byte (c : byte) : bool := negb (is_ascii_whitespace c).

(** The text up to the closing quote, with its escapes, and what follows it. *)
Fixpoint scan_quoted (s : str) : option (str * str) :=
  match s with
  | [] => None
  | c :: s' =>
      if decide (c = BSLASH) then
        match s' with
        | [] => None
        | d :: s'' =>
            match scan_quoted s'' with Some (q, r) => Some (c :: d :: q, r) | None => None end
        end
      else if decide (c = DQUOTE) then Some ([], s')
      else match scan_quoted s' with Some (q, r) => Some (c :: q, r) | None => None end
  end.

Inductive scan_result :=
  | ScanEnd
  | ScanToken (t : raw_token) (rest : str)
  | ScanUnterminated.

Definition scan (s : str) : scan_result :=
  match drop_while is_blank s with
  | [] => ScanEnd
  | c :: s' =>
      if decide (c = LF) then ScanToken RLF s'
      else if decide (c = DQUOTE) then
        match scan_quoted s' with
        | Some (q, r) => ScanToken (RQuoted q) r
        | None => ScanUnterminated
        end
      else ScanToken (RText (take_while is_text_byte (c :: s'))) (drop_while is_text_byte (c :: s'))
  end.

Definition raw_text (t : raw_token) : str :=
  match t with RLF => [LF] | RText w => w | RQuoted q => q end.

Definition scan_peek (s : str) : option str :=
  match scan s with ScanToken t _ => Some (raw_text t) | _ => None end.

(** The text an escaped string stands for. *)
Fixpoint unescape_spec (s : str) : str :=
  match s with
  | [] => []
  | c :: s' =>
      if decide (c = BSLASH) then
        match s' with [] => [] | d :: s'' => d :: unescape_spec s'' end
      else c :: unescape_spec s'
  end.

(** Every backslash is followed by a byte; and by an ASCII byte. *)
Fixpoint escapes_paired (s : str) : bool :=
  match s with
  | [] => true
  | c :: s' =>
      if decide (c = BSLASH) then
        match s' with [] => false | _ :: s'' => escapes_paired s'' end
      else escapes_paired s'
  end.

Fixpoint escapes_ascii (s : str) : bool :=
  match s with
  | [] => true
  | c :: s' =>
      if decide (c = BSLASH) then
        match s' with [] => true | d :: s'' => is_ascii d && escapes_ascii s'' end
      else escapes_ascii s'
  end.

(** The lexer [l] has the text [s] left to read. *)
Definition lexer_at (l : Lexer) (s : str) : Prop :=
  read_head (state l) <= length (buffer l) /\
  drop (read_head (state l)) (buffer l) = s /\ utf8_valid s = true.

Definition raw_of (b : str) (t : Token) : option raw_token :=
  match t with
  | TokLF => Some RLF
  | Text i j => RText <$> str_slice b i j
  | QuotedText i j => RQuoted <$> str_slice b i j
  end.

(** What the loop returns from a boundary: on ASCII escapes the unescaped text
    in two parts, else a state from which [unescape] panics. *)
Definition unescape_result (text escaped todo : str) (ascii plain : bool)
    (res : option (str * nat)) : Prop :=
  if ascii then
    exists e ss, res = Some (e, ss) /\ e ++ drop ss text = escaped ++ todo /\
      utf8_valid (drop ss text) = true /\ (e = [] <-> escaped = [] /\ plain = true)
  else
    res = None \/ exists e ss, res = Some (e, ss) /\ e <> [] /\ ss < length text /\
      is_char_boundary text ss = false.

Definition no_backslash (s : str) : bool := forallb (fun c => negb (bool_decide (c = BSLASH))) s.

(** The text of a token; [None] where extracting it panics. *)
Definition token_text (t : raw_token) : option str :=
  match t with
  | RLF => Some [LF]
  | RText w => Some w
  | RQuoted q => if escapes_ascii q then Some (unescape_spec q) else None
  end.

(** ** The specification's own lemmas *)

Lemma scan_quoted_plain c s :
  c <> BSLASH -> c <> DQUOTE ->
  scan_quoted (c :: s) =
  match scan_quoted s with Some (q, r) => Some (c :: q, r) | None => None end.
Proof. intros ? ?. simpl. by rewrite !decide_False. Qed.

Lemma scan_quoted_Some s q r :
  scan_quoted s = Some (q, r) -> s = q ++ DQUOTE :: r /\ escapes_paired q = true.
Proof.
  revert q r. induction s as [|a|a b s IH1 IH2] using list_ind_two; intros q r; [done| |].
  - simpl. destruct (decide (a = BSLASH)); [done|]. destruct (decide (a = DQUOTE)) as [->|]; [|done].
    by intros [= <- <-].
  - destruct (decide (a = BSLASH)) as [->|Ha].
    { simpl. destruct (scan_quoted s) as [[q' r']|]; [|done]. intros [= <- <-].
      destruct (IH1 q' r') as [-> ?]; [done|]. simpl. done. }
    destruct (decide (a = DQUOTE)) as [->|Hq]; [by intros [= <- <-]|].
    rewrite scan_quoted_plain by done.
    destruct (scan_quoted (b :: s)) as [[q' r']|]; [|done]. intros [= <- <-].
    destruct (IH2 q' r') as [-> ?]; [done|]. simpl. by rewrite decide_False.
Qed.

Lemma scan_quoted_app q r :
  scan_quoted (escape_spec q ++ DQUOTE :: r) = Some (escape_spec q, r).
Proof.
  induction q as [|c q IH]; simpl; [done|].
  unfold needs_escape. destruct (decide (c = DQUOTE)) as [->|Hd]; simpl.
  { by rewrite IH. }
  destruct (decide (c = BSLASH)) as [->|Hb]; simpl; [by rewrite IH|].
  rewrite bool_decide_eq_false_2, bool_decide_eq_false_2 by done. simpl.
  rewrite !decide_False by done. by rewrite IH.
Qed.

Lemma needs_escape_false c : needs_escape c = false -> c <> DQUOTE /\ c <> BSLASH.
Proof. unfold needs_escape. intros H. bool_to_prop. done. Qed.

Lemma unescape_escape s : unescape_spec (escape_spec s) = s.
Proof.
  induction s as [|c s IH]; [done|]. simpl. destruct (needs_escape c) eqn:E; simpl.
  - by rewrite IH.
  - apply needs_escape_false in E as [_ E]. by rewrite decide_False, IH.
Qed.

Lemma escape_spec_paired s : escapes_paired (escape_spec s) = true.
Proof.
  induction s as [|c s IH]; [done|]. simpl. destruct (needs_escape c) eqn:E; simpl; [done|].
  apply needs_escape_false in E as [_ E]. by rewrite decide_False.
Qed.

Lemma escape_spec_ascii s : escapes_ascii (escape_spec s) = true.
Proof.
  induction s as [|c s IH]; [done|]. simpl. destruct (needs_escape c) eqn:E; simpl.
  - by rewrite needs_escape_ascii.
  - apply needs_escape_false in E as [_ E]. by rewrite decide_False.
Qed.

Lemma scan_blank c s : is_blank c = true -> scan (c :: s) = scan s.
Proof. unfold scan. simpl. by intros ->. Qed.

Lemma scan_LF s : scan (LF :: s) = ScanToken RLF s.
Proof. done. Qed.

Lemma is_text_byte_not_blank c : is_text_byte c = true -> is_blank c = false.
Proof. unfold is_text_byte, is_blank. by destruct (is_ascii_whitespace c). Qed.

(** A word is read whole when white space or nothing follows it. *)
Lemma scan_word w s :
  w <> [] -> forallb is_text_byte w = true -> (forall r, w <> DQUOTE :: r) ->
  (forall c r, s = c :: r -> is_ascii_whitespace c = true) ->
  scan (w ++ s) = ScanToken (RText w) s.
Proof.
  intros Hne Hw Hq Hs. unfold scan. destruct w as [|c w]; [done|].
  assert (is_text_byte c = true) as Hc by (simpl in Hw; bool_to_prop; done).
  rewrite (drop_while_id is_blank ((c :: w) ++ s))
    by (intros x r [= <- _]; by apply is_text_byte_not_blank).
  change ((c :: w) ++ s) with (c :: w ++ s). cbv iota beta.
  rewrite decide_False by (intros ->; discriminate Hc).
  rewrite decide_False by (intros ->; exact (Hq w eq_refl)).
  change (c :: w ++ s) with ((c :: w) ++ s).
  assert (forall x r, s = x :: r -> is_text_byte x = false) as Hs'.
  { intros x r E. unfold is_text_byte. by rewrite (Hs x r E). }
  rewrite (take_while_app _ (c :: w) s Hw), (drop_while_app _ (c :: w) s Hw).
  rewrite (drop_while_id _ s Hs'), (take_while_none _ s Hs'). by rewrite app_nil_r.
Qed.

Lemma scan_quote s : scan (DQUOTE :: s) =
  match scan_quoted s with Some (q, r) => ScanToken (RQuoted q) r | None => ScanUnterminated end.
Proof. done. Qed.

(** An escaped, quoted text is read back whole. *)
Lemma scan_escaped s rest :
  scan (DQUOTE :: escape_spec s ++ DQUOTE :: rest) = ScanToken (RQuoted (escape_spec s)) rest.
Proof. by rewrite scan_quote, scan_quoted_app. Qed.

(** Every token consumes text. *)
Lemma scan_shorter s t r : scan s = ScanToken t r -> length r < length s.
Proof.
  unfold scan. pose proof (drop_while_length is_blank s) as Hd.
  destruct (drop_while is_blank s) as [|c s'] eqn:E; [done|]. simpl in Hd.
  destruct (decide (c = LF)); [by intros [= _ <-]|].
  destruct (decide (c = DQUOTE)).
  { destruct (scan_quoted s') as [[q r']|] eqn:Eq; [|done]. intros [= _ <-].
    apply scan_quoted_Some in Eq as [-> _]. rewrite length_app in Hd. simpl in Hd. lia. }
  intros [= _ <-]. apply drop_while_head in E.
  assert (is_text_byte c = true) as Hc.
  { unfold is_blank in E. unfold is_text_byte. rewrite bool_decide_eq_false_2 in E by done.
    rewrite andb_true_r in E. by rewrite E. }
  simpl. rewrite Hc. pose proof (drop_while_length is_text_byte s'). lia.
Qed.

(** ** The lexer implements the specification *)

Lemma read_text_loop_spec it st :
  exists st', read_text_loop it st (read_head st) = (st', read_head st') /\
    read_head st' = read_head st + length (take_while is_text_byte it).
Proof.
  revert st. induction it as [|v it IH]; intros st; simpl.
  { exists st. split; [done|lia]. }
  unfold is_text_byte at 1. destruct (is_ascii_whitespace v); simpl.
  { exists st. split; [done|lia]. }
  destruct (IH (move_read_head 1 st)) as (st' & E & Hr). simpl in E, Hr.
  exists st'. split; [exact E|lia].
Qed.

Lemma read_quoted_loop_plain c it st :
  c <> BSLASH -> c <> DQUOTE ->
  read_quoted_loop (c :: it) st = read_quoted_loop it (move_read_head 1 st).
Proof. intros ? ?. simpl. by rewrite !decide_False. Qed.

Lemma read_quoted_loop_spec it st :
  match scan_quoted it with
  | Some (q, _) => exists st', read_quoted_loop it st = Ok (read_head st', st') /\
                               read_head st' = read_head st + length q
  | None => exists p, read_quoted_loop it st = Err (ParseErrorAt PE_ExpectedDoubleQuote p)
  end.
Proof.
  revert st. induction it as [|a|a b it IH1 IH2] using list_ind_two; intros st.
  - eexists; done.
  - simpl. destruct (decide (a = BSLASH)); [by eexists|].
    destruct (decide (a = DQUOTE)); [exists st; simpl; split; [done|lia]|by eexists].
  - destruct (decide (a = BSLASH)) as [->|Hb].
    { specialize (IH1 (move_read_head 2 st)). simpl in *.
      destruct (scan_quoted it) as [[q r]|]; [|done].
      destruct IH1 as (st' & -> & H). exists st'. simpl. split; [done|lia]. }
    destruct (decide (a = DQUOTE)) as [->|Hq]; [exists st; simpl; split; [done|lia]|].
    rewrite scan_quoted_plain, read_quoted_loop_plain by done.
    specialize (IH2 (move_read_head 1 st)).
    destruct (scan_quoted (b :: it)) as [[q r]|]; [|done].
    destruct IH2 as (st' & -> & H). exists st'. simpl in *. split; [done|lia].
Qed.

(** A word and what follows it are valid when their concatenation is. *)
Lemma text_split_valid s :
  utf8_valid s = true ->
  utf8_valid (take_while is_text_byte s) = true /\ utf8_valid (drop_while is_text_byte s) = true.
Proof.
  intros H. pose proof (take_drop_while is_text_byte s) as E.
  destruct (drop_while is_text_byte s) as [|c r] eqn:Ed.
  { rewrite app_nil_r in E. by rewrite E. }
  apply drop_while_head in Ed. unfold is_text_byte in Ed. bool_to_prop.
  rewrite <- E in H. apply utf8_valid_split in H; [done|]. by apply ascii_ws_is_ascii.
Qed.

Lemma drop_length_app (b : str) i w r : drop i b = w ++ r -> i <= length b ->
  i + length w <= length b.
Proof.
  intros H Hi. apply (f_equal length) in H. rewrite length_drop, length_app in H. lia.
Qed.

(** A span that the left-over text starts with slices without panicking. *)
Lemma slice_span b i w r :
  i <= length b -> drop i b = w ++ r -> utf8_valid (w ++ r) = true -> utf8_valid r = true ->
  str_slice b i (i + length w) = Some w.
Proof.
  intros Hi Hd Hv Hr. pose proof (drop_length_app b i w r Hd Hi).
  rewrite str_slice_valid; [|lia|done|by rewrite Hd|by rewrite (drop_add_app i b w r)].
  rewrite Hd. replace (i + length w - i) with (length w) by lia. by rewrite take_app_length.
Qed.

Lemma next_token_loop_spec b it st :
  read_head st <= length b -> drop (read_head st) b = it -> utf8_valid it = true ->
  match scan it with
  | ScanEnd => exists st', next_token_loop b it st = Ok (None, st') /\
      read_head st' <= length b /\ drop (read_head st') b = []
  | ScanToken r rest => exists t st', next_token_loop b it st = Ok (Some t, st') /\
      raw_of b t = Some r /\ read_head st' <= length b /\
      drop (read_head st') b = rest /\ utf8_valid rest = true
  | ScanUnterminated => exists p,
      next_token_loop b it st = Err (ParseErrorAt PE_ExpectedDoubleQuote p)
  end.
Proof.
  revert st. induction it as [|v it IH]; intros st Hle Hd Hv; [by exists st|].
  pose proof (drop_S_cons _ _ _ _ Hd) as Hd'. pose proof (drop_lt_length _ _ _ _ Hd) as Hlt.
  destruct (decide (v = LF)) as [->|Hlf].
  { eexists _, _. split_and!; [done|done|simpl; lia|done|by rewrite utf8_valid_cons_ascii in Hv]. }
  destruct (is_ascii_whitespace v) eqn:Hws.
  { assert (is_blank v = true) as Hb by (unfold is_blank; by rewrite Hws, bool_decide_eq_false_2).
    rewrite scan_blank by done. cbn [next_token_loop]. rewrite decide_False, Hws by done.
    apply IH; simpl; rewrite ?Nat.add_1_r; [lia|done|].
    rewrite utf8_valid_cons_ascii in Hv; [done|by apply ascii_ws_is_ascii]. }
  assert (drop_while is_blank (v :: it) = v :: it) as Hdw.
  { simpl. unfold is_blank. by rewrite Hws. }
  unfold scan. rewrite Hdw. cbn [next_token_loop]. rewrite !(decide_False _ _ Hlf), Hws.
  destruct (decide (v = DQUOTE)) as [->|Hq].
  - rewrite utf8_valid_cons_ascii in Hv by done.
    unfold read_quoted_text, bytes_from. simpl read_head. rewrite Nat.add_1_r.
    rewrite (proj2 (Nat.leb_le _ _)) by lia. rewrite Hd'. cbn [or_panic obind].
    pose proof (read_quoted_loop_spec it (move_read_head 1 st)) as Hloop.
    destruct (scan_quoted it) as [[q r]|] eqn:Eq.
    + destruct Hloop as (st' & -> & Hrh). simpl in Hrh. cbn [obind].
      apply scan_quoted_Some in Eq as [-> _].
      destruct (utf8_valid_split q DQUOTE r) as [_ Hr]; [done|done|].
      pose proof (drop_length_app _ _ _ _ Hd' ltac:(lia)).
      assert (drop (S (read_head st')) b = r) as Hrest.
      { apply (drop_S_cons _ _ DQUOTE). rewrite Hrh, Nat.add_1_r. by apply drop_add_app. }
      assert (read_head st' < length b).
      { apply (drop_lt_length _ b DQUOTE r). rewrite Hrh, Nat.add_1_r. by apply drop_add_app. }
      eexists _, _. split_and!; [done| | | |]; simpl; rewrite ?Nat.add_1_r.
      * rewrite Hrh, Nat.add_1_r, (slice_span b _ q (DQUOTE :: r)); [done|lia|done|done|done].
      * lia.
      * done.
      * by rewrite utf8_valid_cons_ascii in Hr.
    + destruct Hloop as [p ->]. by exists p.
  - unfold read_text, bytes_from. rewrite (proj2 (Nat.leb_le _ _)) by lia. rewrite Hd.
    cbn [or_panic obind].
    destruct (read_text_loop_spec (v :: it) st) as (st' & -> & Hrh). cbn [obind].
    destruct (text_split_valid _ Hv) as [_ Hr].
    assert (drop (read_head st) b =
      take_while is_text_byte (v :: it) ++ drop_while is_text_byte (v :: it)) as Hsp
      by (by rewrite take_drop_while).
    eexists _, _. split_and!; [done| | | |done].
    + simpl raw_of. rewrite Hrh, (slice_span b _ _ _ Hle Hsp); [done| |done].
      by rewrite take_drop_while.
    + rewrite Hrh. by apply (drop_length_app _ _ _ _ Hsp).
    + rewrite Hrh. by apply drop_add_app.
Qed.

(** What [next_token] does at a lexer with the text [s] left. *)
Lemma next_token_at l s :
  lexer_at l s ->
  match scan s with
  | ScanEnd => exists l', next_token l = Ok (None, l') /\ buffer l' = buffer l /\ lexer_at l' []
  | ScanToken r rest => exists t l', next_token l = Ok (Some t, l') /\
      raw_of (buffer l) t = Some r /\ buffer l' = buffer l /\ lexer_at l' rest
  | ScanUnterminated => exists p, next_token l = Err (ParseErrorAt PE_ExpectedDoubleQuote p)
  end.
Proof.
  intros (Hle & Hd & Hv). unfold next_token, bytes_from.
  rewrite (proj2 (Nat.leb_le _ _)) by done. rewrite Hd. cbn [or_panic obind].
  pose proof (next_token_loop_spec (buffer l) s (state l) Hle Hd Hv) as H.
  destruct (scan s) as [|r rest|].
  - destruct H as (st' & -> & H1 & H2). eexists. split_and!; [done|done|]. done.
  - destruct H as (t & st' & -> & Hr & H1 & H2 & H3). eexists _, _. split_and!; [done|done|done|].
    done.
  - destruct H as (p & ->). by exists p.
Qed.

Lemma lexer_at_new s : utf8_valid s = true -> lexer_at (Lexer_new s) s.
Proof. intros H. split_and!; simpl; [lia|done|done]. Qed.

Lemma peek_as_str_at l s : lexer_at l s -> peek_as_str l = Ok (scan_peek s).
Proof.
  intros H. apply next_token_at in H. unfold peek_as_str, peek, scan_peek.
  destruct (scan s) as [|r rest|].
  - destruct H as (l' & -> & _). done.
  - destruct H as (t & l' & -> & Hr & _). destruct t; simpl in *;
      repeat match goal with H : _ <$> ?x = Some _ |- _ => destruct x; simplify_eq/= end;
      by simplify_eq/=.
  - destruct H as (p & ->). done.
Qed.

Lemma is_finished_at l s :
  lexer_at l s -> is_finished l = Ok (match scan s with ScanToken _ _ => false | _ => true end).
Proof.
  intros H. apply next_token_at in H. unfold is_finished, peek.
  destruct (scan s) as [|r rest|].
  - destruct H as (l' & -> & _). done.
  - destruct H as (t & l' & -> & _). done.
  - destruct H as (p & ->). done.
Qed.

Lemma skip_whitespaces_loop_spec b it st :
  read_head st <= length b -> drop (read_head st) b = it ->
  read_head (skip_whitespaces_loop it st) <= length b /\
  drop (read_head (skip_whitespaces_loop it st)) b = drop_while is_ascii_whitespace it.
Proof.
  revert st. induction it as [|v it IH]; intros st Hle Hd; [done|].
  pose proof (drop_S_cons _ _ _ _ Hd). pose proof (drop_lt_length _ _ _ _ Hd). simpl.
  destruct (decide (v = LF)) as [->|].
  { apply IH; simpl; [lia|done]. }
  destruct (is_ascii_whitespace v); [|done].
  apply IH; simpl; rewrite ?Nat.add_1_r; [lia|done].
Qed.

Lemma drop_ws_valid s : utf8_valid s = true -> utf8_valid (drop_while is_ascii_whitespace s) = true.
Proof.
  induction s as [|c s IH]; [done|]. intros H. cbn [drop_while].
  destruct (is_ascii_whitespace c) eqn:E; [|done]. apply IH.
  rewrite utf8_valid_cons_ascii in H; [done|by apply ascii_ws_is_ascii].
Qed.

Lemma skip_whitespaces_at l s :
  lexer_at l s -> exists l', skip_whitespaces l = Ok l' /\ buffer l' = buffer l /\
    lexer_at l' (drop_while is_ascii_whitespace s).
Proof.
  intros (Hle & Hd & Hv). unfold skip_whitespaces, bytes_from.
  rewrite (proj2 (Nat.leb_le _ _)) by done. cbn [or_panic obind]. rewrite Hd.
  eexists. split_and!; [done|done|].
  destruct (skip_whitespaces_loop_spec (buffer l) s (state l) Hle Hd) as [? ?].
  split_and!; [done|done|by apply drop_ws_valid].
Qed.

(** ** Unescaping *)

(** The byte after a multi-byte lead is a continuation byte. *)
Lemma utf8_valid_nonascii d s :
  utf8_valid (d :: s) = true -> is_ascii d = false -> exists b r, s = b :: r /\ is_cont b = true.
Proof.
  intros Hv Hd. destruct (utf8_valid_cases _ Hv) as [|(u & r & Hu & E & _)]; [done|].
  destruct Hu as (c & conts & -> & _ & Hconts & Hlen & _). injection E as <- ->.
  destruct conts as [|b conts].
  - unfold char_width in Hlen. rewrite Hd in Hlen. simpl in Hlen. repeat case_match; lia.
  - simpl in Hconts. bool_to_prop. exists b, (conts ++ r). done.
Qed.

Lemma cont_not_boundary s i b r : 0 < i -> drop i s = b :: r -> is_cont b = true ->
  is_char_boundary s i = false.
Proof.
  intros Hi Hd Hb. unfold is_char_boundary. destruct (Nat.eqb_spec i 0); [lia|].
  assert (s !! i = Some b) as ->; [|by rewrite Hb].
  rewrite <- (Nat.add_0_r i), <- lookup_drop. by rewrite Hd.
Qed.

Lemma unescape_loop_bad text it idx ss escaped :
  is_char_boundary text ss = false -> ss < idx ->
  unescape_loop text it idx ss escaped = None \/
  unescape_loop text it idx ss escaped = Some (escaped, ss).
Proof.
  intros Hb. revert idx. induction it as [|c it IH]; intros idx Hlt; [by right|].
  simpl. destruct (decide (c = BSLASH)); [|apply IH; lia].
  left. rewrite (proj2 (Nat.ltb_lt ss idx)) by done. unfold str_slice.
  rewrite Hb, andb_false_r. done.
Qed.

Lemma char_from_u8_nonempty c : char_from_u8 c <> [].
Proof. unfold char_from_u8. by destruct (is_ascii c). Qed.

(** The slice pushed before an escape. *)
Lemma unescape_push text idx ss escaped it :
  ss <= idx -> drop idx text = BSLASH :: it -> utf8_valid (drop ss text) = true ->
  (if ss <? idx then app escaped <$> str_slice text ss idx else Some escaped) =
    Some (escaped ++ take (idx - ss) (drop ss text)) /\ utf8_valid it = true.
Proof.
  intros Hle Hit Hv.
  assert (drop ss text = take (idx - ss) (drop ss text) ++ BSLASH :: it) as Hsplit.
  { rewrite <- Hit. replace idx with (ss + (idx - ss)) at 2 by lia.
    rewrite <- drop_drop. by rewrite take_drop. }
  pose proof (drop_lt_length _ _ _ _ Hit).
  rewrite Hsplit in Hv. destruct (utf8_valid_split _ BSLASH _ eq_refl Hv) as [Hv1 Hv2].
  rewrite <- Hsplit in Hv. rewrite utf8_valid_cons_ascii in Hv2 by done. split; [|done].
  destruct (Nat.ltb_spec ss idx).
  - rewrite str_slice_valid; [done|lia|lia|done|by rewrite Hit, utf8_valid_cons_ascii].
  - replace (idx - ss) with 0 by lia. simpl. by rewrite app_nil_r.
Qed.

Lemma unescape_loop_spec text it idx ss escaped :
  ss <= idx -> drop idx text = it -> utf8_valid (drop ss text) = true ->
  escapes_paired it = true ->
  unescape_result text escaped (take (idx - ss) (drop ss text) ++ unescape_spec it)
    (escapes_ascii it) (no_backslash it) (unescape_loop text it idx ss escaped).
Proof.
  revert idx ss escaped. induction it as [|a|a d it IH1 IH2] using list_ind_two;
    intros idx ss escaped Hle Hit Hv Hp.
  - exists escaped, ss. split_and!; [done| |done|simpl; tauto]. simpl. rewrite app_nil_r. f_equal.
    rewrite take_ge; [done|]. apply (f_equal length) in Hit. rewrite length_drop in *. simpl in Hit. lia.
  - simpl in Hp. destruct (decide (a = BSLASH)) as [->|Ha]; [done|].
    unfold escapes_ascii, unescape_loop, no_backslash. simpl. rewrite !(decide_False _ _ Ha).
    rewrite bool_decide_eq_false_2 by done.
    exists escaped, ss. split_and!; [done| |done|simpl; tauto]. f_equal.
    rewrite <- Hit. replace idx with (ss + (idx - ss)) at 2 by lia.
    rewrite <- drop_drop. by rewrite take_drop.
  - pose proof (drop_lt_length _ _ _ _ Hit) as Hlt. pose proof (drop_S_cons _ _ _ _ Hit) as Hit'.
    destruct (decide (a = BSLASH)) as [->|Ha].
    + destruct (unescape_push text idx ss escaped (d :: it) Hle Hit Hv) as [Hpush Hvd].
      simpl. rewrite Hpush. pose proof (drop_S_cons _ _ _ _ Hit') as Hit''.
      replace (idx + 2) with (S (S idx)) by lia.
      set (esc' := (escaped ++ take (idx - ss) (drop ss text)) ++ char_from_u8 d).
      assert (esc' <> []) as Hesc'.
      { unfold esc'. intros [_ E]%app_eq_nil. by apply (char_from_u8_nonempty d). }
      destruct (is_ascii d) eqn:Ed.
      * rewrite utf8_valid_cons_ascii in Hvd by done. simpl in Hp.
        specialize (IH1 (S (S idx)) (S (S idx)) esc' ltac:(lia) Hit'' ltac:(by rewrite Hit'') Hp).
        unfold unescape_result in *. simpl. destruct (escapes_ascii it); [|done].
        destruct IH1 as (e & ss' & -> & Ho & Hv' & Hn). exists e, ss'. split_and!; [done| |done|].
        -- rewrite Ho. unfold esc'. rewrite char_from_ascii by done. rewrite Nat.sub_diag. simpl.
           by rewrite <- !app_assoc.
        -- rewrite Hn. split; [intros [? _]; done|intros [_ ?]; done].
      * simpl. destruct (utf8_valid_nonascii d it Hvd Ed) as (b & r & -> & Hb).
        pose proof (cont_not_boundary text (S (S idx)) b r ltac:(lia) Hit'' Hb) as Hnb.
        pose proof (drop_lt_length _ _ _ _ Hit'').
        cbn [unescape_loop]. rewrite decide_False by (intros ->; done).
        destruct (unescape_loop_bad text r (S (S idx) + 1) (S (S idx)) esc' Hnb ltac:(lia))
          as [-> | ->]; [by left|]. right. by exists esc', (S (S idx)).
    + specialize (IH2 (S idx) ss escaped ltac:(lia) Hit' Hv).
      simpl in Hp. rewrite (decide_False _ _ Ha) in Hp. specialize (IH2 Hp).
      assert (take (S idx - ss) (drop ss text) = take (idx - ss) (drop ss text) ++ [a]) as Htk.
      { replace (S idx - ss) with (S (idx - ss)) by lia. apply take_S_r.
        rewrite lookup_drop. replace (ss + (idx - ss)) with (idx + 0) by lia.
        by rewrite <- lookup_drop, Hit. }
      rewrite Htk, <- app_assoc in IH2.
      assert (unescape_spec (a :: d :: it) = [a] ++ unescape_spec (d :: it)) as ->.
      { simpl. by rewrite !(decide_False _ _ Ha). }
      assert (escapes_ascii (a :: d :: it) = escapes_ascii (d :: it)) as ->.
      { simpl. by rewrite !(decide_False _ _ Ha). }
      assert (no_backslash (a :: d :: it) = no_backslash (d :: it)) as ->.
      { simpl. by rewrite bool_decide_eq_false_2. }
      assert (unescape_loop text (a :: d :: it) idx ss escaped =
              unescape_loop text (d :: it) (S idx) ss escaped) as ->.
      { cbn [unescape_loop]. rewrite !(decide_False _ _ Ha). by rewrite Nat.add_1_r. }
      exact IH2.
Qed.

(** [unescape] on a quoted span of the lexer: the unescaped text, unless a
    backslash is followed by a non-ASCII character, which panics. *)
Lemma unescape_correct text :
  utf8_valid text = true -> escapes_paired text = true ->
  cow_str <$> unescape text =
  if escapes_ascii text then Some (unescape_spec text) else None.
Proof.
  intros Hv Hp. unfold unescape.
  pose proof (unescape_loop_spec text text 0 0 [] ltac:(lia) eq_refl Hv Hp) as H.
  unfold unescape_result in H. destruct (escapes_ascii text).
  - destruct H as (e & ss & -> & Ho & Hv' & Hn). simpl in Ho.
    destruct (decide (e = [])) as [->|He].
    + simpl. destruct Hn as [Hn _]. destruct (Hn eq_refl) as [_ Hnb]. f_equal.
      clear -Hnb. induction text as [|c text IH]; [done|]. simpl in *. bool_to_prop.
      rewrite decide_False by done. f_equal. auto.
    + rewrite bool_decide_eq_false_2 by done. destruct (Nat.ltb_spec ss (length text)).
      * unfold str_from. rewrite is_char_boundary_valid by (done || lia). simpl. by rewrite Ho.
      * rewrite drop_ge, app_nil_r in Ho by lia. simpl. by rewrite Ho.
  - destruct H as [-> | (e & ss & -> & He & Hss & Hb)]; [done|].
    rewrite bool_decide_eq_false_2 by done. rewrite (proj2 (Nat.ltb_lt _ _)) by done.
    unfold str_from. by rewrite Hb.
Qed.

Lemma drop_blank_valid s : utf8_valid s = true -> utf8_valid (drop_while is_blank s) = true.
Proof.
  induction s as [|c s IH]; [done|]. intros Hv. cbn [drop_while].
  destruct (is_blank c) eqn:E; [|done]. apply IH. rewrite utf8_valid_cons_ascii in Hv; [done|].
  apply ascii_ws_is_ascii. unfold is_blank in E. by bool_to_prop.
Qed.

Lemma scan_quoted_valid s q r :
  utf8_valid s = true -> scan s = ScanToken (RQuoted q) r ->
  utf8_valid q = true /\ escapes_paired q = true.
Proof.
  unfold scan. intros Hv.
  assert (utf8_valid (drop_while is_blank s) = true) as Hv' by (by apply drop_blank_valid).
  destruct (drop_while is_blank s) as [|c s']; [done|]. destruct (decide (c = LF)); [done|].
  destruct (decide (c = DQUOTE)) as [->|]; [|done].
  destruct (scan_quoted s') as [[q' r']|] eqn:E; [|done]. intros [= <- <-].
  apply scan_quoted_Some in E as [-> ?]. rewrite utf8_valid_cons_ascii in Hv' by done.
  by apply utf8_valid_split in Hv' as [? _].
Qed.

Lemma scan_text_valid s w r :
  utf8_valid s = true -> scan s = ScanToken (RText w) r -> utf8_valid w = true.
Proof.
  unfold scan. intros Hv.
  assert (utf8_valid (drop_while is_blank s) = true) as Hv' by (by apply drop_blank_valid).
  destruct (drop_while is_blank s) as [|c s']; [done|]. destruct (decide (c = LF)); [done|].
  destruct (decide (c = DQUOTE)); [by destruct (scan_quoted s') as [[]|]|].
  intros E. assert (w = take_while is_text_byte (c :: s')) as -> by congruence.
  by apply text_split_valid in Hv' as [? _].
Qed.

(** Extracting the token just read. *)
Lemma extract_at l s t r rest :
  utf8_valid s = true -> scan s = ScanToken r rest -> raw_of (buffer l) t = Some r ->
  omap_ok cow_str (extract_from_token l t) = or_panic (token_text r).
Proof.
  intros Hv Hs Hr. destruct t as [i j| |i j]; simpl in *.
  - destruct (str_slice (buffer l) i j) as [q|]; simplify_eq/=.
    destruct (scan_quoted_valid _ _ _ Hv Hs) as [Hq Hp].
    rewrite <- (unescape_correct q Hq Hp). by destruct (unescape q).
  - by simplify_eq/=.
  - destruct (str_slice (buffer l) i j); by simplify_eq/=.
Qed.

(** ** Properties *)

(** C1: the lexer implements the tokenizer specification. Wherever it stands in
    a valid buffer, [next_token] returns the span of the token the
    specification reads next and stops where that token ends; it returns no
    token exactly on white space alone and fails exactly on an unterminated
    quote; [peek_as_str] and [is_finished] agree with it and slicing never
    panics; each token consumes at least one byte, so reading tokens
    terminates. *)
Theorem lexer_refines_scan (l : Lexer) (s : str) (H : lexer_at l s) :
  match scan s with
  | ScanEnd => exists l', next_token l = Ok (None, l') /\ buffer l' = buffer l /\ lexer_at l' []
  | ScanToken r rest =>
      (exists t l', next_token l = Ok (Some t, l') /\ raw_of (buffer l) t = Some r /\
        buffer l' = buffer l /\ lexer_at l' rest /\
        omap_ok cow_str (extract_from_token l' t) = or_panic (token_text r)) /\
      length rest < length s
  | ScanUnterminated => exists p, next_token l = Err (ParseErrorAt PE_ExpectedDoubleQuote p)
  end /\
  peek_as_str l = Ok (scan_peek s) /\
  is_finished l = Ok (match scan s with ScanToken _ _ => false | _ => true end).
Proof.
  split; [|split; [by apply peek_as_str_at|by apply is_finished_at]].
  pose proof (next_token_at l s H) as Hn. destruct (scan s) as [|r rest|] eqn:E; [done| |done].
  split; [|by eapply scan_shorter]. destruct Hn as (t & l' & ? & Hr & Hb & Hl).
  exists t, l'. split_and!; [done|done|done|done|]. destruct H as (_ & _ & Hv).
  apply (extract_at l' s t r rest); [done|done|by rewrite Hb].
Qed.

(** C33: quoting round trip. The text that [escape_nut_str] produces, put in
    double quotes, is read back by the lexer as one quoted token whose
    extracted text is the original, whatever follows the closing quote. *)
Theorem escape_lex_roundtrip (l : Lexer) (s rest : str) (c : Cow)
  (Hc : escape_nut_str s = Some c) (Hs : utf8_valid s = true)
  (Hl : lexer_at l (DQUOTE :: cow_str c ++ DQUOTE :: rest)) :
  exists t l', next_token l = Ok (Some t, l') /\ lexer_at l' rest /\
    omap_ok cow_str (extract_from_token l' t) = Ok s.
Proof.
  pose proof (escape_nut_str_str s Hs) as Hs'. rewrite Hc in Hs'. injection Hs' as Hs'.
  rewrite Hs' in Hl. pose proof (next_token_at _ _ Hl) as Hn. rewrite scan_escaped in Hn.
  destruct Hn as (t & l' & ? & Hr & Hb & Hl'). exists t, l'. split_and!; [done|done|].
  rewrite (extract_at l' (DQUOTE :: escape_spec s ++ DQUOTE :: rest) t (RQuoted (escape_spec s)) rest);
    [|by destruct Hl as (_ & _ & ?)|apply scan_escaped|by rewrite Hb; exact Hr].
  simpl. by rewrite escape_spec_ascii, unescape_escape.
Qed.

(** C34: extracting a quoted token panics exactly when one of its backslashes
    stands before a non-ASCII character; every other extraction returns the
    unescaped text. *)
Theorem extract_quoted_panics_iff (l : Lexer) (t : Token) (s q rest : str)
  (Hv : utf8_valid s = true) (Hs : scan s = ScanToken (RQuoted q) rest)
  (Ht : raw_of (buffer l) t = Some (RQuoted q)) :
  (extract_from_token l t = Panicked <-> escapes_ascii q = false) /\
  (escapes_ascii q = true -> omap_ok cow_str (extract_from_token l t) = Ok (unescape_spec q)).
Proof.
  pose proof (extract_at l s t _ rest Hv Hs Ht) as H. simpl in H.
  destruct (escapes_ascii q); simpl in H; destruct (extract_from_token l t); simplify_eq/=;
    split; try split; congruence || done.
Qed.

(** ** Witnesses *)

Lemma lexer_refines_scan_witness :
  let l := Lexer_new (lit "VAR ups") in
  scan (lit "VAR ups") = ScanToken (RText (lit "VAR")) (lit " ups") /\
  is_finished l = Ok false.
Proof.
  split; [reflexivity|].
  refine (proj2 (proj2 (lexer_refines_scan (Lexer_new (lit "VAR ups")) (lit "VAR ups") _))).
  apply lexer_at_new. reflexivity.
Defined.

Lemma escape_lex_roundtrip_witness :
  let s := lit "a\b" in
  exists t l', next_token (Lexer_new (DQUOTE :: lit "a\\b" ++ [DQUOTE])) = Ok (Some t, l') /\
    lexer_at l' [] /\ omap_ok cow_str (extract_from_token l' t) = Ok s.
Proof.
  refine (escape_lex_roundtrip _ (lit "a\b") [] (Owned (lit "a\\b")) _ _ _).
  - reflexivity.
  - reflexivity.
  - apply lexer_at_new. reflexivity.
Defined.

Lemma extract_quoted_panics_iff_witness :
  extract_from_token (Lexer_new (DQUOTE :: BSLASH :: lit "é" ++ [DQUOTE])) (QuotedText 1 4) = Panicked.
Proof.
  refine (proj2 (proj1 (extract_quoted_panics_iff _ (QuotedText 1 4)
    (DQUOTE :: BSLASH :: lit "é" ++ [DQUOTE]) (BSLASH :: lit "é") [] _ _ _)) _); reflexivity.
Defined.
