(* ===== verification/Names.v ===== *)
(** * UPS and command names

    [ups_name.rs], [cmd_name.rs], [internal/ascii_rules.rs] and [internal.rs].
    [WireName] is what the parsers and the printers of the protocol rely on: a
    name's text is one word of the lexer, and reading it back gives the name. *)

From S2P Require Import Prelude RustStr Errors Escape Lexer.

(** [internal.rs]: [Repr]. *)
Inductive Repr (S C : Type) := Standard (s : S) | Custom (c : C).
#[global] Arguments Standard {S C} s.
#[global] Arguments Custom {S C} c.

#[global] Instance Repr_eq_dec {S C} `{EqDecision S, EqDecision C} : EqDecision (Repr S C).
Proof. solve_decision. Defined.

(** ** [internal/ascii_rules.rs] *)

(** A cell of [LOOKUP_ASCII_UPS]. *)
Definition rfc9271_cell (i : byte) : bool :=
  bool_decide (i = "-"%byte) || bool_decide (i = "."%byte) || in_range "0"%byte "9"%byte i ||
  in_range "A"%byte "Z"%byte i || bool_decide (i = "_"%byte) || in_range "a"%byte "z"%byte i.

Definition LOOKUP_ASCII_UPS : list bool := rfc9271_cell <$> take 128 all_bytes.

Definition is_ascii_rfc9271 (c : byte) : bool :=
  match LOOKUP_ASCII_UPS !! N.to_nat (Byte.to_N c) with
  | Some true => true
  | _ => false
  end.

(** ** UPS names *)

Record UpsName := mkUpsName { ups_name : str }.

#[global] Instance UpsName_eq_dec : EqDecision UpsName.
Proof. solve_decision. Defined.
#[global] Instance UpsName_countable : Countable UpsName :=
  inj_countable' ups_name mkUpsName (fun '(mkUpsName _) => eq_refl).

Definition is_ups_name (name : str) : outcome UpsNameParseError unit :=
  if bool_decide (name = []) then Err UpsNameEmpty
  else if existsb is_ascii_whitespace name then Err UpsNameInvalidName
  else Ok tt.

Definition UpsName_new (name : str) : outcome UpsNameParseError UpsName :=
  let? _ := is_ups_name name in Ok (mkUpsName name).

Definition UpsName_new_unchecked (name : str) : UpsName := mkUpsName name.

(** [TryFrom<Box<str>>] and [TryFrom<String>]. *)
Definition UpsName_try_from (value : str) : outcome UpsNameParseError UpsName :=
  let? _ := is_ups_name value in Ok (mkUpsName value).

(** [TryFrom<Cow<str>>]. *)
Definition UpsName_try_from_cow (value : Cow) : outcome UpsNameParseError UpsName :=
  match value with
  | Borrowed v => UpsName_new v
  | Owned v => UpsName_try_from v
  end.

Definition UpsName_as_str (u : UpsName) : str := ups_name u.
Definition UpsName_as_escaped_str (u : UpsName) : option Cow := escape_nut_str (ups_name u).

(** [PartialEq<&str>], [PartialEq<str>], [PartialEq<String>], [PartialEq<Box<str>>]. *)
Definition UpsName_eq_str (u : UpsName) (other : str) : bool := bool_decide (ups_name u = other).

(** [Display] and serde's [Serialize]. *)
Definition UpsName_fmt (u : UpsName) : str := ups_name u.

(** serde's visitor: [E::custom(err)] carries the error's text. *)
Definition UpsName_visit_str (v : str) : outcome str UpsName :=
  map_err UpsNameParseError_fmt (UpsName_new v).

(** ** Command names *)

Record CmdName := mkCmdName { cmd_name : str }.

#[global] Instance CmdName_eq_dec : EqDecision CmdName.
Proof. solve_decision. Defined.
#[global] Instance CmdName_countable : Countable CmdName :=
  inj_countable' cmd_name mkCmdName (fun '(mkCmdName _) => eq_refl).

Definition is_cmd_name (name : str) : outcome CmdParseError unit :=
  match name with
  | [] => Err CmdEmpty
  | first :: _ =>
      if negb (is_ascii_alphabetic first) then Err CmdInvalidName
      else if existsb (fun byte => negb (is_ascii_rfc9271 byte)) name then Err CmdInvalidName
      else Ok tt
  end.

Definition CmdName_new (name : str) : outcome CmdParseError CmdName :=
  let? _ := is_cmd_name name in Ok (mkCmdName name).

Definition CmdName_new_unchecked (name : str) : CmdName := mkCmdName name.

Definition CmdName_is_valid_name (name : str) : bool := is_ok (is_cmd_name name).

(** [TryFrom<Box<str>>] and [TryFrom<String>]. *)
Definition CmdName_try_from (value : str) : outcome CmdParseError CmdName :=
  let? _ := is_cmd_name value in Ok (mkCmdName value).

Definition CmdName_try_from_cow (value : Cow) : outcome CmdParseError CmdName :=
  match value with
  | Borrowed v => CmdName_new v
  | Owned v => CmdName_try_from v
  end.

Definition CmdName_as_str (c : CmdName) : str := cmd_name c.
Definition CmdName_eq_str (c : CmdName) (other : str) : bool := bool_decide (cmd_name c = other).
Definition CmdName_fmt (c : CmdName) : str := cmd_name c.

Definition CmdName_visit_str (v : str) : outcome str CmdName :=
  map_err CmdParseError_fmt (CmdName_new v).

(** ** The interface to the protocol's parsers and printers *)

(** One text token: white space free, not starting with a quote. *)
Definition is_word (w : str) : bool :=
  match w with
  | [] => false
  | c :: _ => negb (bool_decide (c = DQUOTE)) && forallb is_text_byte w && utf8_valid w
  end.

Class WireName (A E : Type) := {
  wn_str : A -> str;
  wn_try_from : Cow -> outcome E A;
  wn_wf : A -> Prop;
  wn_wf_word a : wn_wf a -> is_word (wn_str a) = true;
  wn_try_from_str a c : wn_wf a -> cow_str c = wn_str a -> wn_try_from c = Ok a;
  wn_str_try_from c a : wn_try_from c = Ok a -> wn_str a = cow_str c;
  wn_try_from_wf c a : is_word (cow_str c) = true -> wn_try_from c = Ok a -> wn_wf a;
  wn_total c : wn_try_from c <> Panicked /\ wn_try_from c <> OutOfFuel;
}.

(** A UPS name as the protocol carries it: it was read as one word. *)
Definition UpsName_wf (u : UpsName) : Prop := is_word (ups_name u) = true.
Definition CmdName_wf (c : CmdName) : Prop := is_cmd_name (cmd_name c) = Ok tt.

(** ** Lemmas *)

Lemma is_ascii_rfc9271_cell c : is_ascii_rfc9271 c = rfc9271_cell c.
Proof.
  pose proof (forall_byte (fun c => Bool.eqb (is_ascii_rfc9271 c) (rfc9271_cell c))
    ltac:(vm_compute; reflexivity) c) as H. by apply Bool.eqb_prop in H.
Qed.

Lemma forallb_rfc9271 s : forallb is_ascii_rfc9271 s = forallb rfc9271_cell s.
Proof. induction s as [|c s IH]; simpl; [done|]. by rewrite is_ascii_rfc9271_cell, IH. Qed.

Lemma rfc9271_text c : is_ascii_rfc9271 c = true -> is_text_byte c = true /\ is_ascii c = true.
Proof.
  intros H. pose proof (forall_byte (fun c =>
    negb (is_ascii_rfc9271 c) || (is_text_byte c && is_ascii c))
    ltac:(vm_compute; reflexivity) c) as Hc. simpl in Hc. rewrite H in Hc. simpl in Hc.
  by bool_to_prop.
Qed.

Lemma alphabetic_not_quote c : is_ascii_alphabetic c = true -> c <> DQUOTE.
Proof. intros H ->. discriminate H. Qed.

Lemma is_word_inv w : is_word w = true ->
  w <> [] /\ forallb is_text_byte w = true /\ (forall r, w <> DQUOTE :: r) /\ utf8_valid w = true.
Proof.
  destruct w as [|c w]; [done|]. unfold is_word. intros H. bool_to_prop.
  split_and!; [done|done| |done]. intros r [= -> _]. done.
Qed.

Lemma is_word_intro c w :
  c <> DQUOTE -> forallb is_text_byte (c :: w) = true -> utf8_valid (c :: w) = true ->
  is_word (c :: w) = true.
Proof.
  intros Hc Hw Hv. unfold is_word. rewrite bool_decide_eq_false_2 by done. by rewrite Hw, Hv.
Qed.

Lemma digits_text ds : forallb is_ascii_digit ds = true ->
  forallb is_text_byte ds = true /\ utf8_valid ds = true.
Proof.
  intros H. rewrite forallb_forall in H. split.
  - apply forallb_forall. intros c Hc. specialize (H c Hc).
    pose proof (forall_byte (fun c => negb (is_ascii_digit c) || is_text_byte c)
      ltac:(vm_compute; reflexivity) c) as Hb. simpl in Hb. by rewrite H in Hb.
  - apply utf8_valid_ascii, forallb_forall. intros c Hc. by apply digit_is_ascii, H.
Qed.

Lemma existsb_forallb_negb {A} (p : A -> bool) l :
  existsb p l = negb (forallb (fun x => negb (p x)) l).
Proof. induction l as [|x l IH]; simpl; [done|]. rewrite IH. by destruct (p x). Qed.

Lemma is_ups_name_ok name :
  is_ups_name name = Ok tt <-> name <> [] /\ forallb is_text_byte name = true.
Proof.
  unfold is_ups_name. rewrite existsb_forallb_negb. change (fun x => negb (is_ascii_whitespace x)) with is_text_byte.
  destruct (decide (name = [])) as [->|Hn]; [by split; [|intros [? _]]|].
  rewrite bool_decide_eq_false_2 by done.
  destruct (forallb is_text_byte name); simpl; [done|]. split; [done|by intros [_ ?]].
Qed.

Lemma is_cmd_name_ok name :
  is_cmd_name name = Ok tt <->
  exists first rest, name = first :: rest /\ is_ascii_alphabetic first = true /\
    forallb is_ascii_rfc9271 name = true.
Proof.
  destruct name as [|c r]; simpl.
  { split; [done|]. intros (? & ? & ? & _). done. }
  rewrite existsb_forallb_negb.
  assert (forall b : bool, forallb (fun x => negb (negb (is_ascii_rfc9271 x))) r =
    forallb is_ascii_rfc9271 r) as Hr.
  { intros _. induction r as [|x r IH]; simpl; [done|]. by rewrite negb_involutive, IH. }
  rewrite (Hr true). clear Hr.
  destruct (is_ascii_alphabetic c) eqn:Ea; simpl.
  2:{ split; [done|]. intros (x & y & [= <- <-] & Hx & _). congruence. }
  destruct (is_ascii_rfc9271 c) eqn:Ec, (forallb is_ascii_rfc9271 r) eqn:Er; simpl;
    split; try done; try (intros (x & y & [= <- <-] & _ & H); discriminate H).
  intros _. by exists c, r.
Qed.

Lemma is_cmd_name_word name : is_cmd_name name = Ok tt -> is_word name = true.
Proof.
  intros (c & r & -> & Ha & Hr)%is_cmd_name_ok. apply is_word_intro.
  - by apply alphabetic_not_quote.
  - rewrite forallb_forall in Hr |- *. intros x Hx. by apply rfc9271_text, Hr.
  - apply utf8_valid_ascii. rewrite forallb_forall in Hr |- *. intros x Hx. by apply rfc9271_text, Hr.
Qed.

(** Every constructor of a name runs the same check. *)
Lemma UpsName_try_from_cow_eq c : UpsName_try_from_cow c = UpsName_new (cow_str c).
Proof. by destruct c. Qed.

Lemma CmdName_try_from_cow_eq c : CmdName_try_from_cow c = CmdName_new (cow_str c).
Proof. by destruct c. Qed.

Lemma UpsName_new_ok s u :
  UpsName_new s = Ok u <-> u = mkUpsName s /\ is_ups_name s = Ok tt.
Proof.
  unfold UpsName_new. destruct (is_ups_name s) as [[]|e| |] eqn:E; simpl; [|split; [done|intros [_ ?]; done]..].
  split; [intros [= <-]; done|]. by intros [-> _].
Qed.

Lemma CmdName_new_ok s c :
  CmdName_new s = Ok c <-> c = mkCmdName s /\ is_cmd_name s = Ok tt.
Proof.
  unfold CmdName_new. destruct (is_cmd_name s) as [[]|e| |] eqn:E; simpl; [|split; [done|intros [_ ?]; done]..].
  split; [intros [= <-]; done|]. by intros [-> _].
Qed.

#[global, program] Instance UpsName_wire : WireName UpsName UpsNameParseError := {
  wn_str := UpsName_as_str;
  wn_try_from := UpsName_try_from_cow;
  wn_wf := UpsName_wf;
}.
Next Obligation. done. Qed.
Next Obligation.
  intros [u] c Hw Hc. rewrite UpsName_try_from_cow_eq, Hc. apply UpsName_new_ok. split; [done|].
  apply is_word_inv in Hw as (? & ? & _). by apply is_ups_name_ok.
Qed.
Next Obligation. intros c a H. rewrite UpsName_try_from_cow_eq in H. by apply UpsName_new_ok in H as [-> _]. Qed.
Next Obligation.
  intros c a Hw H. rewrite UpsName_try_from_cow_eq in H. by apply UpsName_new_ok in H as [-> _].
Qed.
Next Obligation.
  intros c. rewrite UpsName_try_from_cow_eq. unfold UpsName_new, is_ups_name.
  repeat case_bool_decide; simpl; try done. by destruct (existsb _ _).
Qed.

#[global, program] Instance CmdName_wire : WireName CmdName CmdParseError := {
  wn_str := CmdName_as_str;
  wn_try_from := CmdName_try_from_cow;
  wn_wf := CmdName_wf;
}.
Next Obligation. intros a. apply is_cmd_name_word. Qed.
Next Obligation.
  intros [u] c Hw Hc. rewrite CmdName_try_from_cow_eq, Hc. by apply CmdName_new_ok.
Qed.
Next Obligation. intros c a H. rewrite CmdName_try_from_cow_eq in H. by apply CmdName_new_ok in H as [-> _]. Qed.
Next Obligation.
  intros c a Hw H. rewrite CmdName_try_from_cow_eq in H. by apply CmdName_new_ok in H as [-> ?].
Qed.
Next Obligation.
  intros c. rewrite CmdName_try_from_cow_eq. unfold CmdName_new, is_cmd_name.
  destruct (cow_str c) as [|b r]; [done|]. destruct (is_ascii_alphabetic b); [|done].
  simpl. by destruct (_ || _).
Qed.

(** ** Properties *)

(** Which names are accepted, on every branch. A UPS name is rejected as
    empty, or as invalid when it holds ASCII white space; a command name must
    start with a letter and use only letters, digits, [-], [.] and [_]; an
    accepted name keeps its text, every constructor applies the same check, and
    a command name is always one word of the protocol. *)
Lemma name_constructors_spec (s : str) :
  UpsName_new s =
    (if bool_decide (s = []) then Err UpsNameEmpty
     else if forallb is_text_byte s then Ok (mkUpsName s) else Err UpsNameInvalidName) /\
  CmdName_new s =
    (match s with
     | [] => Err CmdEmpty
     | c :: _ => if is_ascii_alphabetic c && forallb rfc9271_cell s
                 then Ok (mkCmdName s) else Err CmdInvalidName
     end) /\
  CmdName_is_valid_name s = is_ok (CmdName_new s) /\
  (forall c, cow_str c = s ->
     UpsName_try_from_cow c = UpsName_new s /\ CmdName_try_from_cow c = CmdName_new s) /\
  (forall c, CmdName_new s = Ok c -> is_word (CmdName_as_str c) = true /\ CmdName_as_str c = s).
Proof.
  split_and!.
  - unfold UpsName_new, is_ups_name. case_bool_decide; [done|].
    rewrite existsb_forallb_negb. change (fun x => negb (is_ascii_whitespace x)) with is_text_byte.
    by destruct (forallb is_text_byte s).
  - destruct (is_ok (is_cmd_name s)) eqn:E.
    + destruct (is_cmd_name s) as [[]| | |] eqn:Ec; try done. clear E.
      unfold CmdName_new. rewrite Ec. simpl.
      apply is_cmd_name_ok in Ec as (c & r & -> & Ha & Hr).
      by rewrite Ha, <- forallb_rfc9271, Hr.
    + destruct s as [|c r]; [done|].
      assert (is_ascii_alphabetic c && forallb rfc9271_cell (c :: r) = false) as ->.
      { apply not_true_iff_false. intros [Ha Hr]%andb_true_iff.
        rewrite <- forallb_rfc9271 in Hr.
        assert (is_cmd_name (c :: r) = Ok tt) as Hok by (apply is_cmd_name_ok; by exists c, r).
        by rewrite Hok in E. }
      unfold CmdName_new, is_cmd_name in *. by repeat case_match.
  - unfold CmdName_is_valid_name, CmdName_new. by destruct (is_cmd_name s).
  - intros c <-. by rewrite UpsName_try_from_cow_eq, CmdName_try_from_cow_eq.
  - intros c [-> H]%CmdName_new_ok. split; [by apply is_cmd_name_word|done].
Qed.
