(* ===== verification/VarName.v ===== *)
(** * Variable names

    [var_name.rs]: the 281 standard names that [impl_standard_names!] expands
    to, custom names, and the conversions between them. A name is canonical
    when a standard text is never held as a custom one. *)

From S2P Require Import Prelude RustStr Errors Escape Lexer Names.

(** ** The generated enum *)

Module StandardName.

Inductive t :=
  | AmbientHumidity | AmbientHumidityAlarmMaximum | AmbientHumidityAlarmMinimum
  | AmbientHumidityHigh | AmbientHumidityHighCritical | AmbientHumidityHighWarning
  | AmbientHumidityLow | AmbientHumidityLowCritical | AmbientHumidityLowWarning
  | AmbientHumidityStatus | AmbientPresent | AmbientTemperature
  | AmbientTemperatureAlarmMaximum | AmbientTemperatureAlarmMinimum | AmbientTemperatureHigh
  | AmbientTemperatureHighCritical | AmbientTemperatureHighWarning | AmbientTemperatureLow
  | AmbientTemperatureLowCritical | AmbientTemperatureLowWarning | AmbientTemperatureStatus
  | BatteryAlarmThreshold | BatteryCapacity | BatteryCapacityNominal | BatteryCharge
  | BatteryChargeLow | BatteryChargeRestart | BatteryChargerStatus | BatteryChargeWarning
  | BatteryChemistry | BatteryCurrent | BatteryCurrentMaximum | BatteryCurrentMinimum
  | BatteryCurrentTotal | BatteryDate | BatteryDateMaintenance | BatteryEnergysave
  | BatteryEnergysaveDelay | BatteryEnergysaveLoad | BatteryLowbatt | BatteryMfrDate
  | BatteryPacks | BatteryPacksBad | BatteryProtection | BatteryRuntime | BatteryRuntimeElapsed
  | BatteryRuntimeLow | BatteryTemperature | BatteryTestStatus | BatteryType | BatteryVoltage
  | BatteryVoltageHigh | BatteryVoltageLow | BatteryVoltageMaximum | BatteryVoltageMinimum
  | BatteryVoltageNominal | DeviceContact | DeviceDescription | DeviceLocation | DeviceMacaddr
  | DeviceMfr | DeviceModel | DevicePart | DeviceRevision | DeviceSerial | DeviceType
  | DriverFlagAllowKillpower | DriverFlagIgnorelb | DriverFlagIgnoreoff | DriverFlagMaxreport
  | DriverFlagNolock | DriverFlagNorating | DriverFlagNoscanlangid | DriverFlagNovendor
  | DriverFlagPollonly | DriverName | DriverParameterAlarmControl | DriverParameterBattvoltmult
  | DriverParameterBattvolts | DriverParameterBaudRate | DriverParameterBaudrate
  | DriverParameterBus | DriverParameterBypassForbidding | DriverParameterCable
  | DriverParameterCablepower | DriverParameterChargetime
  | DriverParameterDefaultBatteryVoltage | DriverParameterDefaultBatteryVoltageHigh
  | DriverParameterDefaultBatteryVoltageLow | DriverParameterDefaultBatteryVoltageNominal
  | DriverParameterDefaultInputVoltage | DriverParameterDefaultInputVoltageNominal
  | DriverParameterDevice | DriverParameterFrequency | DriverParameterIdleload
  | DriverParameterLangidFix | DriverParameterLimitedRuntimeOnBattery
  | DriverParameterLinevoltage | DriverParameterLowbatt | DriverParameterLowbattPct
  | DriverParameterLowbattvolt | DriverParameterManufacturer | DriverParameterMfr
  | DriverParameterMibs | DriverParameterModel | DriverParameterModelname
  | DriverParameterNotification | DriverParameterOffdelay | DriverParameterOndelay
  | DriverParameterOverrideBatteryChargeLow | DriverParameterOverrideBatteryChargeWarning
  | DriverParameterOverrideBatteryVoltageNominal | DriverParameterPollfreq
  | DriverParameterPollinterval | DriverParameterPort | DriverParameterProduct
  | DriverParameterProductid | DriverParameterProtocol | DriverParameterRuntimecal
  | DriverParameterSdtype | DriverParameterSerial | DriverParameterSerialnumber
  | DriverParameterShutdownDelay | DriverParameterSnmpRetries | DriverParameterSnmpTimeout
  | DriverParameterSnmpVersion | DriverParameterSubdriver | DriverParameterSynchronous
  | DriverParameterType | DriverParameterUpstype | DriverParameterVendor
  | DriverParameterVendorid | DriverParameterVoltage | DriverState | DriverVersion
  | DriverVersionData | DriverVersionInternal | DriverVersionUsb | InputBypassCurrent
  | InputBypassFrequency | InputBypassFrequencyNominal | InputBypassPhases | InputBypassVoltage
  | InputCount | InputCurrent | InputCurrentHighCritical | InputCurrentHighWarning
  | InputCurrentLowWarning | InputCurrentNominal | InputCurrentStatus | InputFrequency
  | InputFrequencyExtended | InputFrequencyHigh | InputFrequencyLow | InputFrequencyNominal
  | InputFrequencyStatus | InputLoad | InputPhases | InputPower | InputPowerfactor
  | InputQuality | InputRealpower | InputSensitivity | InputSource | InputSourcePreferred
  | InputTransferBoostHigh | InputTransferBoostLow | InputTransferDelay | InputTransferHigh
  | InputTransferHighMax | InputTransferHighMin | InputTransferLow | InputTransferLowMax
  | InputTransferLowMin | InputTransferReason | InputTransferTrimHigh | InputTransferTrimLow
  | InputVoltage | InputVoltageExtended | InputVoltageFault | InputVoltageHighCritical
  | InputVoltageHighWarning | InputVoltageLowCritical | InputVoltageLowWarning
  | InputVoltageMaximum | InputVoltageMinimum | InputVoltageNominal | InputVoltageStatus
  | OutletCount | OutletCurrent | OutletDesc | OutletFrequency | OutletGroupCount | OutletId
  | OutletPower | OutletPowerfactor | OutletRealpower | OutletSwitchable | OutletVoltage
  | OutputCurrent | OutputCurrentMaximum | OutputCurrentNominal | OutputFrequency
  | OutputFrequencyMaximum | OutputFrequencyMinimum | OutputFrequencyNominal | OutputPhases
  | OutputPower | OutputPowerfactor | OutputPowerMaximumPercent | OutputPowerMinimumPercent
  | OutputPowerNominal | OutputPowerPercent | OutputRealpower | OutputRealpowerNominal
  | OutputVoltage | OutputVoltageHigh | OutputVoltageLow | OutputVoltageMaximum
  | OutputVoltageMinimum | OutputVoltageNominal | OutputVoltageTargetBattery
  | OutputVoltageTargetLine | UpsAlarm | UpsBeeperEnable | UpsBeeperStatus | UpsContacts
  | UpsDate | UpsDelayReboot | UpsDelayRestart | UpsDelayShutdown | UpsDelayStart
  | UpsDescription | UpsDevicechemistry | UpsEfficiency | UpsFirmware | UpsFirmwareAux | UpsId
  | UpsInputFrequency | UpsInputVoltage | UpsLoad | UpsLoadHigh | UpsLoadNominal | UpsMacaddr
  | UpsMfg | UpsMfr | UpsMfrDate | UpsModel | UpsModelAux | UpsModelType | UpsOutputPercentload
  | UpsOutputVoltage | UpsPower | UpsPowerNominal | UpsProduct | UpsProductid | UpsRealpower
  | UpsRealpowerNominal | UpsRuntime | UpsSerial | UpsSerialInternal | UpsShutdown
  | UpsStartAuto | UpsStartBattery | UpsStartReboot | UpsStatus | UpsTemperature
  | UpsTemperatureHigh | UpsTemperatureLow | UpsTestDate | UpsTestInterval | UpsTestResult
  | UpsTime | UpsTimerReboot | UpsTimerRestart | UpsTimerShutdown | UpsTimerStart | UpsType
  | UpsVendor | UpsVendorid | UpsVoltageNominal.

(** [as_str], [AsRef<str>] and [Display]. *)
Definition as_str_literal (n : t) : String.string :=
  match n with
  | AmbientHumidity => "ambient.humidity"
  | AmbientHumidityAlarmMaximum => "ambient.humidity.alarm.maximum"
  | AmbientHumidityAlarmMinimum => "ambient.humidity.alarm.minimum"
  | AmbientHumidityHigh => "ambient.humidity.high"
  | AmbientHumidityHighCritical => "ambient.humidity.high.critical"
  | AmbientHumidityHighWarning => "ambient.humidity.high.warning"
  | AmbientHumidityLow => "ambient.humidity.low"
  | AmbientHumidityLowCritical => "ambient.humidity.low.critical"
  | AmbientHumidityLowWarning => "ambient.humidity.low.warning"
  | AmbientHumidityStatus => "ambient.humidity.status"
  | AmbientPresent => "ambient.present"
  | AmbientTemperature => "ambient.temperature"
  | AmbientTemperatureAlarmMaximum => "ambient.temperature.alarm.maximum"
  | AmbientTemperatureAlarmMinimum => "ambient.temperature.alarm.minimum"
  | AmbientTemperatureHigh => "ambient.temperature.high"
  | AmbientTemperatureHighCritical => "ambient.temperature.high.critical"
  | AmbientTemperatureHighWarning => "ambient.temperature.high.warning"
  | AmbientTemperatureLow => "ambient.temperature.low"
  | AmbientTemperatureLowCritical => "ambient.temperature.low.critical"
  | AmbientTemperatureLowWarning => "ambient.temperature.low.warning"
  | AmbientTemperatureStatus => "ambient.temperature.status"
  | BatteryAlarmThreshold => "battery.alarm.threshold"
  | BatteryCapacity => "battery.capacity"
  | BatteryCapacityNominal => "battery.capacity.nominal"
  | BatteryCharge => "battery.charge"
  | BatteryChargeLow => "battery.charge.low"
  | BatteryChargeRestart => "battery.charge.restart"
  | BatteryChargerStatus => "battery.charger.status"
  | BatteryChargeWarning => "battery.charge.warning"
  | BatteryChemistry => "battery.chemistry"
  | BatteryCurrent => "battery.current"
  | BatteryCurrentMaximum => "battery.current.maximum"
  | BatteryCurrentMinimum => "battery.current.minimum"
  | BatteryCurrentTotal => "battery.current.total"
  | BatteryDate => "battery.date"
  | BatteryDateMaintenance => "battery.date.maintenance"
  | BatteryEnergysave => "battery.energysave"
  | BatteryEnergysaveDelay => "battery.energysave.delay"
  | BatteryEnergysaveLoad => "battery.energysave.load"
  | BatteryLowbatt => "battery.lowbatt"
  | BatteryMfrDate => "battery.mfr.date"
  | BatteryPacks => "battery.packs"
  | BatteryPacksBad => "battery.packs.bad"
  | BatteryProtection => "battery.protection"
  | BatteryRuntime => "battery.runtime"
  | BatteryRuntimeElapsed => "battery.runtime.elapsed"
  | BatteryRuntimeLow => "battery.runtime.low"
  | BatteryTemperature => "battery.temperature"
  | BatteryTestStatus => "battery.test.status"
  | BatteryType => "battery.type"
  | BatteryVoltage => "battery.voltage"
  | BatteryVoltageHigh => "battery.voltage.high"
  | BatteryVoltageLow => "battery.voltage.low"
  | BatteryVoltageMaximum => "battery.voltage.maximum"
  | BatteryVoltageMinimum => "battery.voltage.minimum"
  | BatteryVoltageNominal => "battery.voltage.nominal"
  | DeviceContact => "device.contact"
  | DeviceDescription => "device.description"
  | DeviceLocation => "device.location"
  | DeviceMacaddr => "device.macaddr"
  | DeviceMfr => "device.mfr"
  | DeviceModel => "device.model"
  | DevicePart => "device.part"
  | DeviceRevision => "device.revision"
  | DeviceSerial => "device.serial"
  | DeviceType => "device.type"
  | DriverFlagAllowKillpower => "driver.flag.allow_killpower"
  | DriverFlagIgnorelb => "driver.flag.ignorelb"
  | DriverFlagIgnoreoff => "driver.flag.ignoreoff"
  | DriverFlagMaxreport => "driver.flag.maxreport"
  | DriverFlagNolock => "driver.flag.nolock"
  | DriverFlagNorating => "driver.flag.norating"
  | DriverFlagNoscanlangid => "driver.flag.noscanlangid"
  | DriverFlagNovendor => "driver.flag.novendor"
  | DriverFlagPollonly => "driver.flag.pollonly"
  | DriverName => "driver.name"
  | DriverParameterAlarmControl => "driver.parameter.alarm_control"
  | DriverParameterBattvoltmult => "driver.parameter.battvoltmult"
  | DriverParameterBattvolts => "driver.parameter.battvolts"
  | DriverParameterBaudRate => "driver.parameter.baud_rate"
  | DriverParameterBaudrate => "driver.parameter.baudrate"
  | DriverParameterBus => "driver.parameter.bus"
  | DriverParameterBypassForbidding => "driver.parameter.bypass_forbidding"
  | DriverParameterCable => "driver.parameter.cable"
  | DriverParameterCablepower => "driver.parameter.cablepower"
  | DriverParameterChargetime => "driver.parameter.chargetime"
  | DriverParameterDefaultBatteryVoltage => "driver.parameter.default.battery.voltage"
  | DriverParameterDefaultBatteryVoltageHigh => "driver.parameter.default.battery.voltage.high"
  | DriverParameterDefaultBatteryVoltageLow => "driver.parameter.default.battery.voltage.low"
  | DriverParameterDefaultBatteryVoltageNominal => "driver.parameter.default.battery.voltage.nominal"
  | DriverParameterDefaultInputVoltage => "driver.parameter.default.input.voltage"
  | DriverParameterDefaultInputVoltageNominal => "driver.parameter.default.input.voltage.nominal"
  | DriverParameterDevice => "driver.parameter.device"
  | DriverParameterFrequency => "driver.parameter.frequency"
  | DriverParameterIdleload => "driver.parameter.idleload"
  | DriverParameterLangidFix => "driver.parameter.langid_fix"
  | DriverParameterLimitedRuntimeOnBattery => "driver.parameter.limited_runtime_on_battery"
  | DriverParameterLinevoltage => "driver.parameter.linevoltage"
  | DriverParameterLowbatt => "driver.parameter.lowbatt"
  | DriverParameterLowbattPct => "driver.parameter.lowbatt_pct"
  | DriverParameterLowbattvolt => "driver.parameter.lowbattvolt"
  | DriverParameterManufacturer => "driver.parameter.manufacturer"
  | DriverParameterMfr => "driver.parameter.mfr"
  | DriverParameterMibs => "driver.parameter.mibs"
  | DriverParameterModel => "driver.parameter.model"
  | DriverParameterModelname => "driver.parameter.modelname"
  | DriverParameterNotification => "driver.parameter.notification"
  | DriverParameterOffdelay => "driver.parameter.offdelay"
  | DriverParameterOndelay => "driver.parameter.ondelay"
  | DriverParameterOverrideBatteryChargeLow => "driver.parameter.override.battery.charge.low"
  | DriverParameterOverrideBatteryChargeWarning => "driver.parameter.override.battery.charge.warning"
  | DriverParameterOverrideBatteryVoltageNominal => "driver.parameter.override.battery.voltage.nominal"
  | DriverParameterPollfreq => "driver.parameter.pollfreq"
  | DriverParameterPollinterval => "driver.parameter.pollinterval"
  | DriverParameterPort => "driver.parameter.port"
  | DriverParameterProduct => "driver.parameter.product"
  | DriverParameterProductid => "driver.parameter.productid"
  | DriverParameterProtocol => "driver.parameter.protocol"
  | DriverParameterRuntimecal => "driver.parameter.runtimecal"
  | DriverParameterSdtype => "driver.parameter.sdtype"
  | DriverParameterSerial => "driver.parameter.serial"
  | DriverParameterSerialnumber => "driver.parameter.serialnumber"
  | DriverParameterShutdownDelay => "driver.parameter.shutdown_delay"
  | DriverParameterSnmpRetries => "driver.parameter.snmp_retries"
  | DriverParameterSnmpTimeout => "driver.parameter.snmp_timeout"
  | DriverParameterSnmpVersion => "driver.parameter.snmp_version"
  | DriverParameterSubdriver => "driver.parameter.subdriver"
  | DriverParameterSynchronous => "driver.parameter.synchronous"
  | DriverParameterType => "driver.parameter.type"
  | DriverParameterUpstype => "driver.parameter.upstype"
  | DriverParameterVendor => "driver.parameter.vendor"
  | DriverParameterVendorid => "driver.parameter.vendorid"
  | DriverParameterVoltage => "driver.parameter.voltage"
  | DriverState => "driver.state"
  | DriverVersion => "driver.version"
  | DriverVersionData => "driver.version.data"
  | DriverVersionInternal => "driver.version.internal"
  | DriverVersionUsb => "driver.version.usb"
  | InputBypassCurrent => "input.bypass.current"
  | InputBypassFrequency => "input.bypass.frequency"
  | InputBypassFrequencyNominal => "input.bypass.frequency.nominal"
  | InputBypassPhases => "input.bypass.phases"
  | InputBypassVoltage => "input.bypass.voltage"
  | InputCount => "input.count"
  | InputCurrent => "input.current"
  | InputCurrentHighCritical => "input.current.high.critical"
  | InputCurrentHighWarning => "input.current.high.warning"
  | InputCurrentLowWarning => "input.current.low.warning"
  | InputCurrentNominal => "input.current.nominal"
  | InputCurrentStatus => "input.current.status"
  | InputFrequency => "input.frequency"
  | InputFrequencyExtended => "input.frequency.extended"
  | InputFrequencyHigh => "input.frequency.high"
  | InputFrequencyLow => "input.frequency.low"
  | InputFrequencyNominal => "input.frequency.nominal"
  | InputFrequencyStatus => "input.frequency.status"
  | InputLoad => "input.load"
  | InputPhases => "input.phases"
  | InputPower => "input.power"
  | InputPowerfactor => "input.powerfactor"
  | InputQuality => "input.quality"
  | InputRealpower => "input.realpower"
  | InputSensitivity => "input.sensitivity"
  | InputSource => "input.source"
  | InputSourcePreferred => "input.source.preferred"
  | InputTransferBoostHigh => "input.transfer.boost.high"
  | InputTransferBoostLow => "input.transfer.boost.low"
  | InputTransferDelay => "input.transfer.delay"
  | InputTransferHigh => "input.transfer.high"
  | InputTransferHighMax => "input.transfer.high.max"
  | InputTransferHighMin => "input.transfer.high.min"
  | InputTransferLow => "input.transfer.low"
  | InputTransferLowMax => "input.transfer.low.max"
  | InputTransferLowMin => "input.transfer.low.min"
  | InputTransferReason => "input.transfer.reason"
  | InputTransferTrimHigh => "input.transfer.trim.high"
  | InputTransferTrimLow => "input.transfer.trim.low"
  | InputVoltage => "input.voltage"
  | InputVoltageExtended => "input.voltage.extended"
  | InputVoltageFault => "input.voltage.fault"
  | InputVoltageHighCritical => "input.voltage.high.critical"
  | InputVoltageHighWarning => "input.voltage.high.warning"
  | InputVoltageLowCritical => "input.voltage.low.critical"
  | InputVoltageLowWarning => "input.voltage.low.warning"
  | InputVoltageMaximum => "input.voltage.maximum"
  | InputVoltageMinimum => "input.voltage.minimum"
  | InputVoltageNominal => "input.voltage.nominal"
  | InputVoltageStatus => "input.voltage.status"
  | OutletCount => "outlet.count"
  | OutletCurrent => "outlet.current"
  | OutletDesc => "outlet.desc"
  | OutletFrequency => "outlet.frequency"
  | OutletGroupCount => "outlet.group.count"
  | OutletId => "outlet.id"
  | OutletPower => "outlet.power"
  | OutletPowerfactor => "outlet.powerfactor"
  | OutletRealpower => "outlet.realpower"
  | OutletSwitchable => "outlet.switchable"
  | OutletVoltage => "outlet.voltage"
  | OutputCurrent => "output.current"
  | OutputCurrentMaximum => "output.current.maximum"
  | OutputCurrentNominal => "output.current.nominal"
  | OutputFrequency => "output.frequency"
  | OutputFrequencyMaximum => "output.frequency.maximum"
  | OutputFrequencyMinimum => "output.frequency.minimum"
  | OutputFrequencyNominal => "output.frequency.nominal"
  | OutputPhases => "output.phases"
  | OutputPower => "output.power"
  | OutputPowerfactor => "output.powerfactor"
  | OutputPowerMaximumPercent => "output.power.maximum.percent"
  | OutputPowerMinimumPercent => "output.power.minimum.percent"
  | OutputPowerNominal => "output.power.nominal"
  | OutputPowerPercent => "output.power.percent"
  | OutputRealpower => "output.realpower"
  | OutputRealpowerNominal => "output.realpower.nominal"
  | OutputVoltage => "output.voltage"
  | OutputVoltageHigh => "output.voltage.high"
  | OutputVoltageLow => "output.voltage.low"
  | OutputVoltageMaximum => "output.voltage.maximum"
  | OutputVoltageMinimum => "output.voltage.minimum"
  | OutputVoltageNominal => "output.voltage.nominal"
  | OutputVoltageTargetBattery => "output.voltage.target.battery"
  | OutputVoltageTargetLine => "output.voltage.target.line"
  | UpsAlarm => "ups.alarm"
  | UpsBeeperEnable => "ups.beeper.enable"
  | UpsBeeperStatus => "ups.beeper.status"
  | UpsContacts => "ups.contacts"
  | UpsDate => "ups.date"
  | UpsDelayReboot => "ups.delay.reboot"
  | UpsDelayRestart => "ups.delay.restart"
  | UpsDelayShutdown => "ups.delay.shutdown"
  | UpsDelayStart => "ups.delay.start"
  | UpsDescription => "ups.description"
  | UpsDevicechemistry => "ups.devicechemistry"
  | UpsEfficiency => "ups.efficiency"
  | UpsFirmware => "ups.firmware"
  | UpsFirmwareAux => "ups.firmware.aux"
  | UpsId => "ups.id"
  | UpsInputFrequency => "ups.input.frequency"
  | UpsInputVoltage => "ups.input.voltage"
  | UpsLoad => "ups.load"
  | UpsLoadHigh => "ups.load.high"
  | UpsLoadNominal => "ups.load.nominal"
  | UpsMacaddr => "ups.macaddr"
  | UpsMfg => "ups.mfg"
  | UpsMfr => "ups.mfr"
  | UpsMfrDate => "ups.mfr.date"
  | UpsModel => "ups.model"
  | UpsModelAux => "ups.model.aux"
  | UpsModelType => "ups.model.type"
  | UpsOutputPercentload => "ups.output.percentload"
  | UpsOutputVoltage => "ups.output.voltage"
  | UpsPower => "ups.power"
  | UpsPowerNominal => "ups.power.nominal"
  | UpsProduct => "ups.product"
  | UpsProductid => "ups.productid"
  | UpsRealpower => "ups.realpower"
  | UpsRealpowerNominal => "ups.realpower.nominal"
  | UpsRuntime => "ups.runtime"
  | UpsSerial => "ups.serial"
  | UpsSerialInternal => "ups.serial.internal"
  | UpsShutdown => "ups.shutdown"
  | UpsStartAuto => "ups.start.auto"
  | UpsStartBattery => "ups.start.battery"
  | UpsStartReboot => "ups.start.reboot"
  | UpsStatus => "ups.status"
  | UpsTemperature => "ups.temperature"
  | UpsTemperatureHigh => "ups.temperature.high"
  | UpsTemperatureLow => "ups.temperature.low"
  | UpsTestDate => "ups.test.date"
  | UpsTestInterval => "ups.test.interval"
  | UpsTestResult => "ups.test.result"
  | UpsTime => "ups.time"
  | UpsTimerReboot => "ups.timer.reboot"
  | UpsTimerRestart => "ups.timer.restart"
  | UpsTimerShutdown => "ups.timer.shutdown"
  | UpsTimerStart => "ups.timer.start"
  | UpsType => "ups.type"
  | UpsVendor => "ups.vendor"
  | UpsVendorid => "ups.vendorid"
  | UpsVoltageNominal => "ups.voltage.nominal"
  end%string.

Definition as_str (n : t) : str := lit (as_str_literal n).

(** The rows of the macro's argument, in its order. *)
Definition rows_ambient_battery_device : list t :=
  [AmbientHumidity; AmbientHumidityAlarmMaximum; AmbientHumidityAlarmMinimum;
   AmbientHumidityHigh; AmbientHumidityHighCritical; AmbientHumidityHighWarning;
   AmbientHumidityLow; AmbientHumidityLowCritical; AmbientHumidityLowWarning;
   AmbientHumidityStatus; AmbientPresent; AmbientTemperature; AmbientTemperatureAlarmMaximum;
   AmbientTemperatureAlarmMinimum; AmbientTemperatureHigh; AmbientTemperatureHighCritical;
   AmbientTemperatureHighWarning; AmbientTemperatureLow; AmbientTemperatureLowCritical;
   AmbientTemperatureLowWarning; AmbientTemperatureStatus; BatteryAlarmThreshold;
   BatteryCapacity; BatteryCapacityNominal; BatteryCharge; BatteryChargeLow;
   BatteryChargeRestart; BatteryChargerStatus; BatteryChargeWarning; BatteryChemistry;
   BatteryCurrent; BatteryCurrentMaximum; BatteryCurrentMinimum; BatteryCurrentTotal;
   BatteryDate; BatteryDateMaintenance; BatteryEnergysave; BatteryEnergysaveDelay;
   BatteryEnergysaveLoad; BatteryLowbatt; BatteryMfrDate; BatteryPacks; BatteryPacksBad;
   BatteryProtection; BatteryRuntime; BatteryRuntimeElapsed; BatteryRuntimeLow;
   BatteryTemperature; BatteryTestStatus; BatteryType; BatteryVoltage; BatteryVoltageHigh;
   BatteryVoltageLow; BatteryVoltageMaximum; BatteryVoltageMinimum; BatteryVoltageNominal;
   DeviceContact; DeviceDescription; DeviceLocation; DeviceMacaddr; DeviceMfr; DeviceModel;
   DevicePart; DeviceRevision; DeviceSerial; DeviceType].

Definition rows_driver : list t :=
  [DriverFlagAllowKillpower; DriverFlagIgnorelb; DriverFlagIgnoreoff; DriverFlagMaxreport;
   DriverFlagNolock; DriverFlagNorating; DriverFlagNoscanlangid; DriverFlagNovendor;
   DriverFlagPollonly; DriverName; DriverParameterAlarmControl; DriverParameterBattvoltmult;
   DriverParameterBattvolts; DriverParameterBaudRate; DriverParameterBaudrate;
   DriverParameterBus; DriverParameterBypassForbidding; DriverParameterCable;
   DriverParameterCablepower; DriverParameterChargetime; DriverParameterDefaultBatteryVoltage;
   DriverParameterDefaultBatteryVoltageHigh; DriverParameterDefaultBatteryVoltageLow;
   DriverParameterDefaultBatteryVoltageNominal; DriverParameterDefaultInputVoltage;
   DriverParameterDefaultInputVoltageNominal; DriverParameterDevice; DriverParameterFrequency;
   DriverParameterIdleload; DriverParameterLangidFix; DriverParameterLimitedRuntimeOnBattery;
   DriverParameterLinevoltage; DriverParameterLowbatt; DriverParameterLowbattPct;
   DriverParameterLowbattvolt; DriverParameterManufacturer; DriverParameterMfr;
   DriverParameterMibs; DriverParameterModel; DriverParameterModelname;
   DriverParameterNotification; DriverParameterOffdelay; DriverParameterOndelay;
   DriverParameterOverrideBatteryChargeLow; DriverParameterOverrideBatteryChargeWarning;
   DriverParameterOverrideBatteryVoltageNominal; DriverParameterPollfreq;
   DriverParameterPollinterval; DriverParameterPort; DriverParameterProduct;
   DriverParameterProductid; DriverParameterProtocol; DriverParameterRuntimecal;
   DriverParameterSdtype; DriverParameterSerial; DriverParameterSerialnumber;
   DriverParameterShutdownDelay; DriverParameterSnmpRetries; DriverParameterSnmpTimeout;
   DriverParameterSnmpVersion; DriverParameterSubdriver; DriverParameterSynchronous;
   DriverParameterType; DriverParameterUpstype; DriverParameterVendor; DriverParameterVendorid;
   DriverParameterVoltage; DriverState; DriverVersion; DriverVersionData;
   DriverVersionInternal; DriverVersionUsb].

Definition rows_input : list t :=
  [InputBypassCurrent; InputBypassFrequency; InputBypassFrequencyNominal; InputBypassPhases;
   InputBypassVoltage; InputCount; InputCurrent; InputCurrentHighCritical;
   InputCurrentHighWarning; InputCurrentLowWarning; InputCurrentNominal; InputCurrentStatus;
   InputFrequency; InputFrequencyExtended; InputFrequencyHigh; InputFrequencyLow;
   InputFrequencyNominal; InputFrequencyStatus; InputLoad; InputPhases; InputPower;
   InputPowerfactor; InputQuality; InputRealpower; InputSensitivity; InputSource;
   InputSourcePreferred; InputTransferBoostHigh; InputTransferBoostLow; InputTransferDelay;
   InputTransferHigh; InputTransferHighMax; InputTransferHighMin; InputTransferLow;
   InputTransferLowMax; InputTransferLowMin; InputTransferReason; InputTransferTrimHigh;
   InputTransferTrimLow; InputVoltage; InputVoltageExtended; InputVoltageFault;
   InputVoltageHighCritical; InputVoltageHighWarning; InputVoltageLowCritical;
   InputVoltageLowWarning; InputVoltageMaximum; InputVoltageMinimum; InputVoltageNominal;
   InputVoltageStatus].

Definition rows_output : list t :=
  [OutletCount; OutletCurrent; OutletDesc; OutletFrequency; OutletGroupCount; OutletId;
   OutletPower; OutletPowerfactor; OutletRealpower; OutletSwitchable; OutletVoltage;
   OutputCurrent; OutputCurrentMaximum; OutputCurrentNominal; OutputFrequency;
   OutputFrequencyMaximum; OutputFrequencyMinimum; OutputFrequencyNominal; OutputPhases;
   OutputPower; OutputPowerfactor; OutputPowerMaximumPercent; OutputPowerMinimumPercent;
   OutputPowerNominal; OutputPowerPercent; OutputRealpower; OutputRealpowerNominal;
   OutputVoltage; OutputVoltageHigh; OutputVoltageLow; OutputVoltageMaximum;
   OutputVoltageMinimum; OutputVoltageNominal; OutputVoltageTargetBattery;
   OutputVoltageTargetLine].

Definition rows_ups : list t :=
  [UpsAlarm; UpsBeeperEnable; UpsBeeperStatus; UpsContacts; UpsDate; UpsDelayReboot;
   UpsDelayRestart; UpsDelayShutdown; UpsDelayStart; UpsDescription; UpsDevicechemistry;
   UpsEfficiency; UpsFirmware; UpsFirmwareAux; UpsId; UpsInputFrequency; UpsInputVoltage;
   UpsLoad; UpsLoadHigh; UpsLoadNominal; UpsMacaddr; UpsMfg; UpsMfr; UpsMfrDate; UpsModel;
   UpsModelAux; UpsModelType; UpsOutputPercentload; UpsOutputVoltage; UpsPower;
   UpsPowerNominal; UpsProduct; UpsProductid; UpsRealpower; UpsRealpowerNominal; UpsRuntime;
   UpsSerial; UpsSerialInternal; UpsShutdown; UpsStartAuto; UpsStartBattery; UpsStartReboot;
   UpsStatus; UpsTemperature; UpsTemperatureHigh; UpsTemperatureLow; UpsTestDate;
   UpsTestInterval; UpsTestResult; UpsTime; UpsTimerReboot; UpsTimerRestart; UpsTimerShutdown;
   UpsTimerStart; UpsType; UpsVendor; UpsVendorid; UpsVoltageNominal].

Definition all : list t :=
  rows_ambient_battery_device ++ rows_driver ++ rows_input ++ rows_output ++ rows_ups.

(** [TryFrom<&str>]: the arms of the [match], in order. *)
Definition try_from (value : str) : option t :=
  list_find (fun n => as_str n = value) all ≫= fun '(_, n) => Some n.

Lemma try_from_as_str n : try_from (as_str n) = Some n.
Proof. destruct n; vm_compute; reflexivity. Qed.

Lemma as_str_inj a b : as_str a = as_str b -> a = b.
Proof. intros H. apply (f_equal try_from) in H. rewrite !try_from_as_str in H. congruence. Qed.

Lemma try_from_Some s n : try_from s = Some n <-> as_str n = s.
Proof.
  split; [|intros <-; apply try_from_as_str].
  unfold try_from. destruct (list_find _ all) as [[i m]|] eqn:E; simpl; [|done].
  intros [= ->]. by apply list_find_Some in E as (_ & ? & _).
Qed.

End StandardName.


#[global] Instance StandardName_eq_dec : EqDecision StandardName.t := fun a b =>
  match decide (StandardName.as_str a = StandardName.as_str b) with
  | left H => left (StandardName.as_str_inj a b H)
  | right H => right (fun E => H (f_equal StandardName.as_str E))
  end.

#[global] Instance StandardName_countable : Countable StandardName.t :=
  inj_countable StandardName.as_str StandardName.try_from StandardName.try_from_as_str.

(** ** Variable names *)

Record VarName := mkVarName { var_repr : Repr StandardName.t str }.

#[global] Instance VarName_eq_dec : EqDecision VarName.
Proof. solve_decision. Defined.

#[global] Instance VarName_countable : Countable VarName :=
  inj_countable'
    (fun v => match var_repr v with Standard n => inl n | Custom s => inr s end)
    (fun x => match x with inl n => mkVarName (Standard n) | inr s => mkVarName (Custom s) end)
    (fun v => match v with mkVarName (Standard _) => eq_refl | mkVarName (Custom _) => eq_refl end).

Definition is_var_name (name : str) : outcome VarNameParseError unit :=
  match name with
  | [] => Err VarNameEmpty
  | first :: _ =>
      if negb (is_ascii_alphabetic first) then Err VarNameInvalidName
      else if existsb (fun byte => negb (is_ascii_rfc9271 byte)) name then Err VarNameInvalidName
      else Ok tt
  end.

Definition VarName_new (name : str) : outcome VarNameParseError VarName :=
  match StandardName.try_from name with
  | Some n => Ok (mkVarName (Standard n))
  | None => let? _ := is_var_name name in Ok (mkVarName (Custom name))
  end.

Definition VarName_new_unchecked (name : str) : VarName :=
  match StandardName.try_from name with
  | Some n => mkVarName (Standard n)
  | None => mkVarName (Custom name)
  end.

Definition VarName_is_valid_name (name : str) : bool := is_ok (is_var_name name).

(** [as_str], [AsRef<str>], [Display], [into_box_str] and serde's [Serialize]. *)
Definition VarName_as_str (v : VarName) : str :=
  match var_repr v with
  | Standard n => StandardName.as_str n
  | Custom s => s
  end.

(** [FromStr], [TryFrom<Box<str>>] and [TryFrom<String>]. *)
Definition VarName_from_str (value : str) : outcome VarNameParseError VarName := VarName_new value.

Definition VarName_try_from (value : str) : outcome VarNameParseError VarName :=
  match StandardName.try_from value with
  | Some n => Ok (mkVarName (Standard n))
  | None => let? _ := is_var_name value in Ok (mkVarName (Custom value))
  end.

Definition VarName_try_from_string (value : str) : outcome VarNameParseError VarName :=
  match StandardName.try_from value with
  | Some n => Ok (mkVarName (Standard n))
  | None => let? _ := is_var_name value in Ok (mkVarName (Custom value))
  end.

(** An owned [Cow<str>] holds a [String]. *)
Definition VarName_try_from_cow (value : Cow) : outcome VarNameParseError VarName :=
  match value with
  | Borrowed v => VarName_new v
  | Owned v => VarName_try_from_string v
  end.

(** [PartialEq<str>] and the implementations that go through it. *)
Definition VarName_eq_str (v : VarName) (other : str) : bool :=
  match var_repr v with
  | Standard n => bool_decide (StandardName.as_str n = other)
  | Custom s => bool_decide (s = other)
  end.

(** [PartialEq<VarName>]. *)
Definition VarName_eq (a b : VarName) : bool :=
  match var_repr a, var_repr b with
  | Standard lhs, Standard rhs => bool_decide (lhs = rhs)
  | _, _ => bool_decide (VarName_as_str a = VarName_as_str b)
  end.

(** [Ord]. *)
Definition VarName_cmp (a b : VarName) : comparison :=
  str_cmp (VarName_as_str a) (VarName_as_str b).

(** serde's visitor. *)
Definition VarName_visit_borrowed_str (v : str) : outcome str VarName :=
  map_err VarNameParseError_fmt (VarName_new v).
Definition VarName_visit_string (v : str) : outcome str VarName :=
  map_err VarNameParseError_fmt (VarName_try_from_string v).
Definition VarName_visit_str (v : str) : outcome str VarName :=
  map_err VarNameParseError_fmt (VarName_new v).

(** A standard text is held as the standard name. *)
Definition canonical (v : VarName) : bool :=
  match var_repr v with
  | Standard _ => true
  | Custom s => bool_decide (StandardName.try_from s = None)
  end.

(** What the protocol's parsers produce. *)
Definition VarName_wf (v : VarName) : Prop :=
  canonical v = true /\ is_var_name (VarName_as_str v) = Ok tt.

(** ** Lemmas *)

Lemma is_var_name_ok name : is_var_name name = Ok tt <-> is_cmd_name name = Ok tt.
Proof. destruct name as [|c r]; simpl; [done|]. by repeat case_match. Qed.

Lemma standard_is_var_name n : is_var_name (StandardName.as_str n) = Ok tt.
Proof. destruct n; vm_compute; reflexivity. Qed.

Lemma VarName_try_from_cow_eq c : VarName_try_from_cow c = VarName_new (cow_str c).
Proof. by destruct c. Qed.

Lemma VarName_new_spec s :
  VarName_new s =
  match is_var_name s with
  | Ok _ => Ok (VarName_new_unchecked s)
  | Err e => Err e
  | Panicked => Panicked
  | OutOfFuel => OutOfFuel
  end.
Proof.
  unfold VarName_new, VarName_new_unchecked. destruct (StandardName.try_from s) as [n|] eqn:E.
  - apply StandardName.try_from_Some in E as <-. by rewrite standard_is_var_name.
  - by destruct (is_var_name s).
Qed.

Lemma VarName_unchecked_str s : VarName_as_str (VarName_new_unchecked s) = s.
Proof.
  unfold VarName_new_unchecked, VarName_as_str. destruct (StandardName.try_from s) eqn:E; simpl; [|done].
  by apply StandardName.try_from_Some.
Qed.

Lemma VarName_unchecked_canonical s : canonical (VarName_new_unchecked s) = true.
Proof.
  unfold VarName_new_unchecked, canonical. destruct (StandardName.try_from s) eqn:E; simpl; [done|].
  by apply bool_decide_eq_true.
Qed.

(** A canonical name is determined by its text. *)
Lemma canonical_unchecked v : canonical v = true -> VarName_new_unchecked (VarName_as_str v) = v.
Proof.
  destruct v as [[n|s]]; unfold canonical, VarName_as_str, VarName_new_unchecked; simpl; intros H.
  - by rewrite StandardName.try_from_as_str.
  - apply bool_decide_eq_true in H. by rewrite H.
Qed.

Lemma canonical_inj a b :
  canonical a = true -> canonical b = true -> VarName_as_str a = VarName_as_str b -> a = b.
Proof. intros Ha Hb E. rewrite <- (canonical_unchecked a Ha), <- (canonical_unchecked b Hb). by rewrite E. Qed.

Lemma VarName_eq_iff a b : VarName_eq a b = true <-> VarName_as_str a = VarName_as_str b.
Proof.
  destruct a as [[n|s]], b as [[m|t]]; unfold VarName_eq, VarName_as_str; simpl;
    rewrite bool_decide_eq_true; [|done..].
  split; [by intros ->|apply StandardName.as_str_inj].
Qed.

Lemma VarName_new_ok s v : VarName_new s = Ok v -> VarName_wf v /\ VarName_as_str v = s.
Proof.
  rewrite VarName_new_spec. destruct (is_var_name s) as [[]| | |] eqn:E; try done. intros [= <-].
  split; [split|]; [apply VarName_unchecked_canonical| |apply VarName_unchecked_str].
  by rewrite VarName_unchecked_str.
Qed.

Lemma VarName_new_iff s v :
  VarName_new s = Ok v <-> is_var_name s = Ok tt /\ canonical v = true /\ VarName_as_str v = s.
Proof.
  split.
  - intros [[Hc Hw] Hs]%VarName_new_ok. by rewrite Hs in Hw.
  - intros (Hw & Hc & <-). rewrite VarName_new_spec, Hw. by rewrite canonical_unchecked.
Qed.
Lemma VarName_new_err s e : VarName_new s = Err e <-> is_var_name s = Err e.
Proof. rewrite VarName_new_spec. destruct (is_var_name s); split; intros H; first [discriminate H | by injection H as ->]. Qed.

#[global, program] Instance VarName_wire : WireName VarName VarNameParseError := {
  wn_str := VarName_as_str;
  wn_try_from := VarName_try_from_cow;
  wn_wf := VarName_wf;
}.
Next Obligation. intros a [_ H]. by apply is_cmd_name_word, is_var_name_ok. Qed.
Next Obligation.
  intros a c [Ha Hw] Hc. rewrite VarName_try_from_cow_eq, Hc, VarName_new_spec, Hw.
  by rewrite canonical_unchecked.
Qed.
Next Obligation. intros c a H. rewrite VarName_try_from_cow_eq in H. by apply VarName_new_ok in H as [_ ?]. Qed.
Next Obligation. intros c a _ H. rewrite VarName_try_from_cow_eq in H. by apply VarName_new_ok in H as [? _]. Qed.
Next Obligation.
  intros c. rewrite VarName_try_from_cow_eq, VarName_new_spec. unfold is_var_name.
  destruct (cow_str c) as [|b r]; [done|]. destruct (is_ascii_alphabetic b); [|done].
  simpl. by destruct (_ || _).
Qed.

(** ** Properties *)

(** C39: Standard names are recognised in both directions. Every constructor of [VarName], [new] and [FromStr], the
    three [TryFrom], of a box, a string and a borrowed or owned [Cow], and the three methods of serde's
    visitor, accepts exactly the texts [is_var_name] accepts (each of the 281 standard names is one), with the
    same error for the others, keeps the text, and yields the canonical value, as [new_unchecked] does for any
    text: a standard text never becomes a custom name. Hence on the names the program builds, the derived
    structural equality that the hash map uses, the hand-written [PartialEq] and equality of texts are the same
    relation, and [cmp] is [Equal] exactly on equal names. *)
Theorem var_name_canonical (s : str) (a b : VarName)
  (Ha : canonical a = true) (Hb : canonical b = true) :
  (forall construct, construct ∈ [VarName_new; VarName_from_str; VarName_try_from; VarName_try_from_string;
       fun s => VarName_try_from_cow (Borrowed s); fun s => VarName_try_from_cow (Owned s)] ->
     (forall v, construct s = Ok v <-> is_var_name s = Ok tt /\ canonical v = true /\ VarName_as_str v = s) /\
     (forall e, construct s = Err e <-> is_var_name s = Err e)) /\
  (forall visit, visit ∈ [VarName_visit_borrowed_str; VarName_visit_string; VarName_visit_str] ->
     (forall v, visit s = Ok v <-> is_var_name s = Ok tt /\ canonical v = true /\ VarName_as_str v = s) /\
     (forall text, visit s = Err text <-> exists e, is_var_name s = Err e /\ text = VarNameParseError_fmt e)) /\
  (canonical (VarName_new_unchecked s) = true /\ VarName_as_str (VarName_new_unchecked s) = s) /\
  (forall n, is_var_name (StandardName.as_str n) = Ok tt /\
     VarName_new (StandardName.as_str n) = Ok (mkVarName (Standard n))) /\
  (VarName_eq a b = true <-> a = b) /\
  (VarName_eq_str a (VarName_as_str b) = true <-> a = b) /\
  (VarName_cmp a b = Eq <-> a = b).
Proof.
  assert (VarName_as_str a = VarName_as_str b <-> a = b) as Hab.
  { split; [by apply canonical_inj|by intros ->]. }
  split_and!.
  - intros construct Hc. assert (Hn : construct s = VarName_new s).
    { repeat (apply elem_of_cons in Hc as [->|Hc]; [done|]). by apply not_elem_of_nil in Hc. }
    rewrite Hn. split; [intros v; apply VarName_new_iff|intros e; apply VarName_new_err].
  - intros visit Hv. assert (Hn : visit s = map_err VarNameParseError_fmt (VarName_new s)).
    { repeat (apply elem_of_cons in Hv as [->|Hv]; [done|]). by apply not_elem_of_nil in Hv. }
    rewrite Hn. split.
    + intros v. rewrite <- VarName_new_iff.
      destruct (VarName_new s); split; intros H; first [discriminate H | by injection H as ->].
    + intros text. setoid_rewrite <- VarName_new_err.
      destruct (VarName_new s) as [|e| |]; cbn; (split; [intros H; first [discriminate H | injection H as <-; by exists e]
        | intros (e' & H & ->); first [discriminate H | by injection H as ->]]).
  - apply VarName_unchecked_canonical.
  - apply VarName_unchecked_str.
  - intros n. split; [apply standard_is_var_name|]. unfold VarName_new. by rewrite StandardName.try_from_as_str.
  - by rewrite VarName_eq_iff.
  - rewrite <- Hab. destruct a as [[n|t]]; unfold VarName_eq_str, VarName_as_str; simpl;
      apply bool_decide_eq_true.
  - rewrite <- Hab. apply str_cmp_eq.
Qed.

Lemma var_name_canonical_witness :
  VarName_eq (mkVarName (Standard StandardName.UpsStatus)) (VarName_new_unchecked (lit "ups.status")) = true /\
  exists v, VarName_visit_string (lit "ups.custom") = Ok v /\ canonical v = true.
Proof.
  destruct (var_name_canonical (lit "ups.custom")
    (mkVarName (Standard StandardName.UpsStatus)) (VarName_new_unchecked (lit "ups.status")) ltac:(vm_compute; reflexivity)
    ltac:(vm_compute; reflexivity)) as (_ & Hvisit & [Hc Ht] & _ & Heq & _).
  split; [apply Heq; vm_compute; reflexivity|].
  exists (VarName_new_unchecked (lit "ups.custom")). split; [|exact Hc].
  apply (Hvisit VarName_visit_string); [by right; left|]. split; [vm_compute; reflexivity|]. split; [exact Hc|exact Ht].
Defined.
