(* ===== verification/Value.v ===== *)
(** * Variable values

    [value.rs]: the [Value] type, type inference from protocol text, printing,
    conversions and equality. Doubles are [spec_float]s of precision 53. *)

From S2P Require Import Prelude RustStr Numbers Errors Escape.
From Stdlib Require Import SpecFloat.

Inductive Value :=
  | VFloat (num : spec_float)
  | VInt (num : Z)
  | VString (text : str).

Inductive InferredType := InferInt | InferFloat | InferString.

#[global] Instance InferredType_eq_dec : EqDecision InferredType.
Proof. solve_decision. Defined.

#[global] Instance spec_float_eq_dec : EqDecision spec_float.
Proof. solve_decision. Defined.

#[global] Instance Value_eq_dec : EqDecision Value.
Proof. solve_decision. Defined.

(** ** Reading and printing *)

Definition is_numeric (v : Value) : bool :=
  match v with VFloat _ | VInt _ => true | _ => false end.

Definition is_text (v : Value) : bool :=
  match v with VString _ => true | _ => false end.

Definition Value_as_escaped_str (v : Value) : option Cow :=
  match v with
  | VFloat num => Some (Owned (format_f64_2 num))
  | VInt num => Some (Owned (show_Z num))
  | VString text => escape_nut_str text
  end.

(** [Value::as_str]. *)
Definition Value_as_str (v : Value) : Cow :=
  match v with
  | VFloat num => Owned (format_f64_2 num)
  | VInt num => Owned (show_Z num)
  | VString text => Borrowed text
  end.

(** [Display]. *)
Definition Value_fmt (v : Value) : str :=
  match v with
  | VFloat v => format_f64_2 v
  | VInt v => show_Z v
  | VString v => v
  end.

Definition as_lossly_i64 (v : Value) : option Z :=
  match v with
  | VFloat num => Some (i64_of_f64 num)
  | VInt num => Some num
  | _ => None
  end.

Definition as_lossly_f64 (v : Value) : option spec_float :=
  match v with
  | VFloat num => Some num
  | VInt num => Some (f64_of_Z num)
  | _ => None
  end.

(** The [for] loop of [infer_type]. *)
Fixpoint infer_type_loop (it : str) (inferred_type : InferredType) : InferredType :=
  match it with
  | [] => inferred_type
  | byte :: it' =>
      if bool_decide (byte = "."%byte) && bool_decide (inferred_type = InferInt)
      then infer_type_loop it' InferFloat
      else if is_ascii_digit byte then infer_type_loop it' inferred_type
      else InferString
  end.

Definition infer_type (input : str) : InferredType :=
  match input with
  | "-"%byte :: it => infer_type_loop it InferInt
  | "0"%byte :: "."%byte :: it => infer_type_loop it InferFloat
  | ["0"%byte] => InferInt
  | "0"%byte :: _ :: _ => InferString
  | c :: it => if is_ascii_digit c then infer_type_loop it InferInt else InferString
  | [] => InferString
  end.

(** [infer_from], for [Box<str>], [String], [&str] and [Cow<str>] alike. *)
Definition infer_from (value : str) : Value :=
  match infer_type value with
  | InferInt => match parse_i64 value with Some v => VInt v | None => VString value end
  | InferFloat => match parse_f64 value with Some v => VFloat v | None => VString value end
  | InferString => VString value
  end.

Definition infer_number_from (value : str) : outcome NumberParseError Value :=
  if bool_decide ("."%byte ∈ value) then
    match parse_f64 value with Some v => Ok (VFloat v) | None => Err mkNumberParseError end
  else
    match parse_i64 value with Some v => Ok (VInt v) | None => Err mkNumberParseError end.

(** ** Conversions *)

(** [From<i8>], [From<i16>], [From<i32>], [From<i64>], [From<u8>], [From<u16>],
    [From<u32>] and [From<u64>]: [as i64]. *)
Definition Value_from_int (value : Z) : Value := VInt (wrap_i64 value).
Definition Value_from_f64 (value : spec_float) : Value := VFloat value.
(** [From<String>], [From<Box<str>>], [From<&str>], [From<Cow<str>>]. *)
Definition Value_from_str (value : str) : Value := VString value.

(** serde's visitor: what JSON scalar becomes which value. *)
Definition Value_visit_str (v : str) : Value := VString v.
Definition Value_visit_int (v : Z) : Value := Value_from_int v.
Definition Value_visit_f64 (v : spec_float) : Value := Value_from_f64 v.

(** ** Equality *)

(** The derived [PartialEq]: IEEE equality on doubles. *)
Definition Value_eq (a b : Value) : bool :=
  match a, b with
  | VFloat x, VFloat y => SFeqb x y
  | VInt x, VInt y => (x =? y)%Z
  | VString x, VString y => bool_decide (x = y)
  | _, _ => false
  end.

Definition Value_eq_i64 (v : Value) (other : Z) : bool :=
  match v with VFloat _ => false | VInt val => (val =? other)%Z | VString _ => false end.
Definition Value_eq_f64 (v : Value) (other : spec_float) : bool :=
  match v with VFloat val => SFeqb val other | VInt _ => false | VString _ => false end.
Definition Value_eq_str (v : Value) (other : str) : bool :=
  match v with VFloat _ => false | VInt _ => false | VString inner => bool_decide (inner = other) end.

(** ** Specification of the inference *)

(** A sign or a first digit that starts a number: no leading zero before a digit. *)
Definition number_start (s : str) : bool :=
  match s with
  | "-"%byte :: _ => true
  | ["0"%byte] => true
  | "0"%byte :: c :: _ => bool_decide (c = "."%byte)
  | c :: _ => is_ascii_digit c
  | [] => false
  end.

Definition dots (s : str) : nat := length (filter (fun c => c = "."%byte) s).

Definition digits_and_dots (s : str) : bool :=
  forallb (fun c => is_ascii_digit c || bool_decide (c = "."%byte)) s.

(** Digits after an optional [-], at most one dot, not in first place. *)
Definition infer_type_spec (s : str) : InferredType :=
  if number_start s && digits_and_dots (tail s) then
    match dots (tail s) with 0 => InferInt | 1 => InferFloat | _ => InferString end
  else InferString.

(** ** Lemmas *)


#[local] Arguments dots : simpl never.

Lemma digit_not_dot c : is_ascii_digit c = true -> c <> "."%byte.
Proof. intros H ->. discriminate H. Qed.

Lemma dots_cons c s : dots (c :: s) = (if decide (c = "."%byte) then 1 else 0) + dots s.
Proof. unfold dots. rewrite filter_cons. by destruct (decide (c = "."%byte)). Qed.

Lemma infer_type_loop_spec it t :
  t <> InferString ->
  infer_type_loop it t =
  if digits_and_dots it then
    match t, dots it with
    | InferInt, 0 => InferInt
    | InferInt, 1 => InferFloat
    | InferFloat, 0 => InferFloat
    | _, _ => InferString
    end
  else InferString.
Proof.
  revert t. induction it as [|c it IH]; intros t Ht; [by destruct t|].
  cbn [infer_type_loop digits_and_dots forallb]. fold (digits_and_dots it).
  rewrite dots_cons. destruct (decide (c = "."%byte)) as [->|Hc].
  - simpl. destruct t; simpl; [|by destruct (digits_and_dots it)|done].
    rewrite IH by done. destruct (digits_and_dots it); [|done]. by destruct (dots it) as [|[|n]].
  - rewrite bool_decide_eq_false_2 by done. simpl. rewrite orb_false_r.
    destruct (is_ascii_digit c); simpl; [by apply IH|done].
Qed.

Lemma infer_type_correct s : infer_type s = infer_type_spec s.
Proof.
  assert (forall c it, c <> "-"%byte -> c <> "0"%byte ->
    (if is_ascii_digit c then infer_type_loop it InferInt else InferString) = infer_type_spec (c :: it))
    as Hgen.
  { intros c it H1 H2. unfold infer_type_spec.
    assert (number_start (c :: it) = is_ascii_digit c) as -> by (destruct c; done).
    destruct (is_ascii_digit c); simpl; [|done]. rewrite infer_type_loop_spec by done.
    destruct (digits_and_dots it); [|done]. by destruct (dots it) as [|[|n]]. }
  destruct s as [|c it]; [done|].
  destruct (decide (c = "-"%byte)) as [->|H1].
  { unfold infer_type_spec. simpl. rewrite infer_type_loop_spec by done.
    destruct (digits_and_dots it); [|done]. by destruct (dots it) as [|[|n]]. }
  destruct (decide (c = "0"%byte)) as [->|H2].
  { destruct it as [|d it]; [done|]. unfold infer_type_spec. cbn [number_start tail].
    destruct (decide (d = "."%byte)) as [->|Hd].
    - rewrite dots_cons. cbn [infer_type]. rewrite infer_type_loop_spec by done. simpl.
      destruct (digits_and_dots it); [|done]. by destruct (dots it).
    - rewrite bool_decide_eq_false_2 by done. destruct d; done. }
  rewrite <- Hgen by done. destruct c; done.
Qed.

Lemma digits_no_dots s : forallb is_ascii_digit s = true -> dots s = 0 /\ digits_and_dots s = true.
Proof.
  induction s as [|c s IH]; [done|]. cbn [forallb digits_and_dots]. fold (digits_and_dots s).
  intros H. bool_to_prop. destruct IH as [? ->]; [done|]. rewrite dots_cons.
  rewrite decide_False by (by apply digit_not_dot). rewrite H. done.
Qed.

Lemma infer_type_show_Z z : infer_type (show_Z z) = InferInt.
Proof.
  rewrite infer_type_correct. unfold show_Z, infer_type_spec.
  destruct (Z.ltb_spec z 0).
  - destruct (show_nat_Z_spec (- z)) as (ds & -> & Hne & Hd & _); [lia|]. simpl.
    destruct (digits_no_dots ds Hd) as [-> ->]. done.
  - destruct (show_nat_Z_spec z) as (ds & E & Hne & Hd & _); [lia|].
    destruct (Z.eq_dec z 0%Z) as [->|Hz]; [done|].
    destruct ds as [|c ds]; [done|]. pose proof (show_nat_Z_head z ltac:(lia) c ds E) as Hh.
    rewrite E. simpl in Hd. bool_to_prop.
    assert (number_start (c :: ds) = true) as -> by (destruct c; done).
    simpl. destruct (digits_no_dots ds) as [-> ->]; [done|]. done.
Qed.

Lemma no_dot_dots s : dots s = 0 <-> "."%byte ∉ s.
Proof.
  induction s as [|c s IH]; [split; [intros _; apply not_elem_of_nil|done]|].
  rewrite dots_cons, not_elem_of_cons. destruct (decide (c = "."%byte)) as [->|]; simpl.
  - split; [done|]. by intros [].
  - rewrite IH. split; [intros ?; split; congruence|by intros [_ ?]].
Qed.

Lemma show_Z_no_dot z : "."%byte ∉ show_Z z.
Proof.
  apply no_dot_dots. unfold show_Z. destruct (Z.ltb_spec z 0).
  - destruct (show_nat_Z_spec (- z)) as (ds & -> & _ & Hd & _); [lia|].
    rewrite dots_cons. simpl. by apply digits_no_dots.
  - destruct (show_nat_Z_spec z) as (ds & -> & _ & Hd & _); [lia|]. by apply digits_no_dots.
Qed.

Lemma show_Z_ascii z : forallb is_ascii (show_Z z) = true.
Proof.
  assert (forall n, (0 <= n)%Z -> forallb is_ascii (show_nat_Z n) = true) as Hn.
  { intros n H. destruct (show_nat_Z_spec n H) as (ds & -> & _ & Hd & _).
    rewrite forallb_forall in *. intros c Hc. by apply digit_is_ascii, Hd. }
  unfold show_Z. destruct (Z.ltb_spec z 0); simpl; apply Hn; lia.
Qed.

Lemma show_Z_plain z : existsb needs_escape (show_Z z) = false.
Proof.
  assert (forall n, (0 <= n)%Z -> existsb needs_escape (show_nat_Z n) = false) as Hn.
  { intros n H. destruct (show_nat_Z_spec n H) as (ds & -> & _ & Hd & _).
    apply not_true_iff_false. intros (c & Hc & Hb)%existsb_exists.
    rewrite forallb_forall in Hd. specialize (Hd c Hc).
    pose proof (forall_byte (fun c => negb (is_ascii_digit c) || negb (needs_escape c))
      ltac:(vm_compute; reflexivity) c) as Hx. simpl in Hx. by rewrite Hd, Hb in Hx. }
  unfold show_Z. destruct (Z.ltb_spec z 0); simpl; apply Hn; lia.
Qed.

Lemma infer_from_show_Z z : is_i64 z -> infer_from (show_Z z) = VInt z.
Proof. intros H. unfold infer_from. by rewrite infer_type_show_Z, show_Z_parse_i64. Qed.

(** ** Properties *)

(** Inference reads protocol values as the grammar says. A text is taken
    for an integer exactly when it is digits after an optional minus sign,
    without a leading zero before a digit, for a float when it holds one dot
    besides; a number that does not parse (an integer outside 64 bits, a lone
    sign) and every other text are kept unchanged as text, so no text is lost. *)
Lemma infer_from_spec (s : str) :
  infer_type s = infer_type_spec s /\
  match infer_from s with
  | VInt z => infer_type_spec s = InferInt /\ parse_i64 s = Some z /\ is_i64 z
  | VFloat f => infer_type_spec s = InferFloat /\ parse_f64 s = Some f
  | VString t => t = s /\
      (infer_type_spec s = InferInt -> parse_i64 s = None) /\
      (infer_type_spec s = InferFloat -> parse_f64 s = None)
  end.
Proof.
  split; [apply infer_type_correct|]. unfold infer_from. rewrite infer_type_correct.
  destruct (infer_type_spec s) eqn:E.
  - destruct (parse_i64 s) as [z|] eqn:Ez; [|by split_and!]. split_and!; [done|done|].
    by apply (parse_i64_bounds s).
  - destruct (parse_f64 s) as [f|] eqn:Ef; by split_and!.
  - by split_and!.
Qed.

(** Integers survive the wire. The text printed for a 64-bit integer is
    inferred back as that integer, by [infer_from] and by [infer_number_from],
    and needs no escaping; a JSON number within the range of [i64] is kept. *)
Lemma value_int_roundtrip (z : Z) (Hz : is_i64 z) :
  infer_from (cow_str (Value_as_str (VInt z))) = VInt z /\
  infer_number_from (cow_str (Value_as_str (VInt z))) = Ok (VInt z) /\
  cow_str <$> Value_as_escaped_str (VInt z) = Some (show_Z z) /\
  escape_spec (show_Z z) = show_Z z /\
  Value_visit_int z = VInt z.
Proof.
  split_and!.
  - by apply infer_from_show_Z.
  - unfold infer_number_from. simpl.
    rewrite bool_decide_eq_false_2 by apply show_Z_no_dot. by rewrite show_Z_parse_i64.
  - done.
  - apply escape_spec_plain, show_Z_plain.
  - unfold Value_visit_int, Value_from_int. by rewrite wrap_i64_id.
Qed.

Lemma value_int_roundtrip_witness : infer_from (lit "-230") = VInt (-230).
Proof. refine (proj1 (value_int_roundtrip (-230) _)). split; discriminate. Defined.

(** An unsigned JSON number above the range of [i64] wraps to another
    number: exactly 2^64 less. *)
Lemma value_from_u64_wraps (z : Z) (Hz : is_u64 z) :
  Value_from_int z = VInt (if (z <=? i64_max)%Z then z else z - 2 ^ 64)%Z.
Proof.
  unfold Value_from_int, wrap_i64, is_u64, u64_max in *. rewrite Z.mod_small by lia. done.
Qed.

Lemma value_from_u64_wraps_witness : Value_from_int u64_max = VInt (-1).
Proof. refine (value_from_u64_wraps u64_max _). split; discriminate. Defined.
