(* ===== verification/ParserUtils.v ===== *)
(** * The line parser

    [internal/parser_utils.rs]: the [extract_*] functions, [cmp_literal],
    [end_parser] and the [parse_line!] macro, as operations of a parser monad on
    the lexer. [parses p s a rest] is the specification: on the text [s], [p]
    yields [a] and leaves [rest]; [safe] says that [p] neither panics nor runs
    out of fuel. *)

From S2P Require Import Prelude RustStr Numbers Errors Escape Lexer Names VarName Value.

(** ** The monad *)

Definition parser (A : Type) : Type := Lexer -> outcome ErrorKind (A * Lexer).

#[global] Instance parser_ret : MRet parser := fun A a l => Ok (a, l).
#[global] Instance parser_bind : MBind parser := fun A B f p l =>
  let? r := p l in f r.1 r.2.

Definition parse_err {A} (e : ParseError) : parser A := fun l =>
  Err (ParseErrorAt e (get_positon l)).

Definition lift {A} (m : outcome ErrorKind A) : parser A := fun l => let? a := m in Ok (a, l).

(** ** The operations *)

Definition extract_text : parser Cow := fun l =>
  let? r := next_token l in
  let '(t, l) := r in
  match t with
  | Some (Text i j) => let? c := extract_from_token l (Text i j) in Ok (c, l)
  | Some _ => parse_err PE_InvalidToken l
  | None => parse_err PE_ExpectedTextToken l
  end.

Definition extract_quoted_text : parser Cow := fun l =>
  let? r := next_token l in
  let '(t, l) := r in
  match t with
  | Some (QuotedText i j) => let? c := extract_from_token l (QuotedText i j) in Ok (c, l)
  | Some _ => parse_err PE_InvalidToken l
  | None => parse_err PE_ExpectedDoubleQuotedTextToken l
  end.

Definition extract_value : parser Value :=
  text ← extract_quoted_text; mret (infer_from (cow_str text)).

Definition extract_numeric_value : parser Value :=
  text ← extract_quoted_text;
  match infer_number_from (cow_str text) with
  | Ok v => mret v
  | _ => parse_err PE_InvalidNumber
  end.

(** What [extract_ups_name], [extract_cmd_name] and [extract_var_name] share. *)
Definition extract_name {A E} (try_from : Cow -> outcome E A) (wrap : E -> ParseError)
    (missing : ParseError) : parser A := fun l =>
  let? r := next_token l in
  let '(t, l) := r in
  match t with
  | Some (Text i j) =>
      let? name := extract_from_token l (Text i j) in
      let? a := map_err (fun e => ParseErrorAt (wrap e) (get_positon l)) (try_from name) in
      Ok (a, l)
  | Some _ => parse_err PE_InvalidToken l
  | None => parse_err missing l
  end.

Definition extract_ups_name : parser UpsName :=
  extract_name UpsName_try_from_cow PE_UpsName PE_ExpectedDoubleQuotedTextToken.
Definition extract_cmd_name : parser CmdName :=
  extract_name CmdName_try_from_cow PE_CmdName PE_ExpectedTextToken.
Definition extract_var_name : parser VarName :=
  extract_name VarName_try_from_cow PE_VarName PE_ExpectedTextToken.

Definition cmp_literal (cmp : str) : parser unit := fun l =>
  let? r := next_token l in
  let '(t, l) := r in
  match t with
  | Some (Text i j) =>
      let? name := extract_from_token l (Text i j) in
      if bool_decide (cmp = cow_str name) then Ok (tt, l) else parse_err PE_InvalidToken l
  | Some _ => parse_err PE_InvalidToken l
  | None => parse_err PE_ExpectedTextToken l
  end.

Definition end_parser : parser unit := fun l =>
  let? r := next_token l in
  let '(t, l) := r in
  match t with
  | Some TokLF => let? l := skip_whitespaces l in Ok (tt, l)
  | Some _ => parse_err PE_InvalidToken l
  | None => Ok (tt, l)
  end.

(** [parse_line!]: the captures of [rules], then the end of the line. *)
Definition parse_line {A} (rules : parser A) : parser A :=
  a ← rules; end_parser;; mret a.

(** [{TEXT, name = x}] and [{QUOTED_TEXT, name = x}]: boxed text. *)
Definition capture_text : parser str := text ← extract_text; mret (cow_str text).
Definition capture_quoted : parser str := text ← extract_quoted_text; mret (cow_str text).

(** [while let Some("KW") = lexer.peek_as_str() { body }], on the accumulated
    variables; every iteration reads a token, so the length of the buffer is
    enough fuel. *)
Fixpoint while_peek_loop {B} (fuel : nat) (kw : str) (body : B -> parser B) (acc : B) : parser B :=
  fun l =>
  match fuel with
  | O => OutOfFuel
  | S f =>
      let? p := peek_as_str l in
      if bool_decide (p = Some kw) then
        let? r := body acc l in while_peek_loop f kw body r.1 r.2
      else Ok (acc, l)
  end.

Definition while_peek {B} (kw : str) (body : B -> parser B) (acc : B) : parser B := fun l =>
  while_peek_loop (S (length (buffer l))) kw body acc l.

(** [if lexer.is_finished() { Ok(a) } else { Err(InvalidToken) }]. *)
Definition finish {A} (a : A) : parser A := fun l =>
  let? f := is_finished l in
  if f then Ok (a, l) else parse_err PE_InvalidToken l.

(** ** Specification *)

Definition parses {A} (p : parser A) (s : str) (a : A) (rest : str) : Prop :=
  forall l, lexer_at l s -> exists l', p l = Ok (a, l') /\ buffer l' = buffer l /\ lexer_at l' rest.

(** No backslash stands before a non-ASCII byte. *)
Fixpoint no_bad_escape (s : str) : bool :=
  match s with
  | [] => true
  | c :: s' =>
      (if bool_decide (c = BSLASH) then match s' with d :: _ => is_ascii d | [] => true end
       else true) && no_bad_escape s'
  end.

(** On a text without bad escapes [p] returns or fails, and does not give back
    text; [strict] when it also consumes some. *)
Definition safe {A} (strict : bool) (p : parser A) : Prop :=
  forall l s, lexer_at l s -> no_bad_escape s = true ->
  match p l with
  | Ok (_, l') => buffer l' = buffer l /\ exists s', lexer_at l' s' /\ no_bad_escape s' = true /\
      (if strict then length s' < length s else length s' <= length s)
  | Err _ => True
  | Panicked | OutOfFuel => False
  end.

(** What follows a word: white space or nothing. *)
Definition ends_word (r : str) : bool :=
  match r with [] => true | c :: _ => is_ascii_whitespace c end.

(** The text of a quoted string as the daemon writes it. *)
Definition quoted (s : str) : str := DQUOTE :: escape_spec s ++ [DQUOTE].

(** ** Lemmas: scanning the printed forms *)

Lemma scan_sp s : scan (SP :: s) = scan s.
Proof. by apply scan_blank. Qed.

Lemma scan_is_word w r :
  is_word w = true -> ends_word r = true -> scan (w ++ r) = ScanToken (RText w) r.
Proof.
  intros Hw Hr. apply is_word_inv in Hw as (? & ? & ? & _). apply scan_word; [done|done|done|].
  intros c r' ->. done.
Qed.

Lemma scan_quoted_text d r : scan (quoted d ++ r) = ScanToken (RQuoted (escape_spec d)) r.
Proof. unfold quoted. simpl app. rewrite <- app_assoc. apply scan_escaped. Qed.

Lemma is_word_ws_id w r : is_word w = true -> drop_while is_ascii_whitespace (w ++ r) = w ++ r.
Proof.
  intros H. apply drop_while_id. intros c r' E. apply is_word_inv in H as (Hne & Hw & _).
  destruct w as [|c' w]; [done|]. simpl in *. injection E as -> _. bool_to_prop.
  unfold is_text_byte in *. by bool_to_prop.
Qed.

Lemma no_bad_escape_app a b : no_bad_escape (a ++ b) = true -> no_bad_escape b = true.
Proof. induction a as [|c a IH]; simpl; [done|]. intros H. bool_to_prop. auto. Qed.

Lemma no_bad_escape_prefix q r : no_bad_escape (q ++ r) = true -> escapes_ascii q = true.
Proof.
  induction q as [|c|c d q IH1 IH2] using list_ind_two; [done| |].
  - intros _. simpl. by destruct (decide _).
  - intros H. simpl. destruct (decide (c = BSLASH)) as [->|Hc].
    + simpl in H. bool_to_prop. apply andb_true_iff; split; [done|]. apply IH1.
      by bool_to_prop.
    + change (escapes_ascii (d :: q) = true). apply IH2. simpl in H. bool_to_prop.
      simpl. by apply andb_true_iff.
Qed.

(** The rest after a token is a suffix of the text, so bad escapes are not new. *)
Lemma scan_suffix s t r : scan s = ScanToken t r -> exists p, s = p ++ r.
Proof.
  unfold scan. intros H.
  pose proof (take_drop_while is_blank s) as E.
  destruct (drop_while is_blank s) as [|c s']; [done|].
  destruct (decide (c = LF)) as [->|]; [injection H as <- <-; exists (take_while is_blank s ++ [LF]);
    by rewrite <- app_assoc|].
  destruct (decide (c = DQUOTE)) as [->|].
  { destruct (scan_quoted s') as [[q r']|] eqn:Eq; [|done]. injection H as <- <-.
    apply scan_quoted_Some in Eq as [-> _]. exists (take_while is_blank s ++ DQUOTE :: q ++ [DQUOTE]).
    rewrite <- E at 1. by simpl; rewrite <- !app_assoc; simpl; rewrite <- !app_assoc. }
  assert (r = drop_while is_text_byte (c :: s')) as -> by congruence.
  exists (take_while is_blank s ++ take_while is_text_byte (c :: s')).
  rewrite <- E at 1. rewrite <- app_assoc. f_equal. symmetry. apply take_drop_while.
Qed.

Lemma scan_no_bad_escape s t r :
  scan s = ScanToken t r -> no_bad_escape s = true -> no_bad_escape r = true.
Proof. intros [p ->]%scan_suffix. apply no_bad_escape_app. Qed.

Lemma scan_quoted_no_bad s q r :
  scan s = ScanToken (RQuoted q) r -> no_bad_escape s = true -> escapes_ascii q = true.
Proof.
  unfold scan. intros H Hs.
  assert (no_bad_escape (drop_while is_blank s) = true) as Hd.
  { pose proof (take_drop_while is_blank s) as E. rewrite <- E in Hs. by apply no_bad_escape_app in Hs. }
  destruct (drop_while is_blank s) as [|c s']; [done|]. destruct (decide (c = LF)); [done|].
  destruct (decide (c = DQUOTE)) as [->|]; [|done].
  destruct (scan_quoted s') as [[q' r']|] eqn:Eq; [|done]. injection H as -> ->.
  apply scan_quoted_Some in Eq as [-> _]. simpl in Hd. by apply no_bad_escape_prefix in Hd.
Qed.

(** ** Lemmas: the parsers meet their specification *)

(** A parser that starts with [next_token]. *)
Lemma raw_of_inv b t r : raw_of b t = Some r ->
  match r with
  | RLF => t = TokLF
  | RText _ => exists i j, t = Text i j
  | RQuoted _ => exists i j, t = QuotedText i j
  end.
Proof.
  destruct t as [i j| |i j]; simpl; [|by intros [= <-]|]; destruct (str_slice b i j); try done;
    intros [= <-]; by exists i, j.
Qed.

(** What the token just read is, and the text extracted from it. *)
Lemma token_at l s r rest :
  lexer_at l s -> scan s = ScanToken r rest ->
  exists t l', next_token l = Ok (Some t, l') /\ buffer l' = buffer l /\ lexer_at l' rest /\
    match r with
    | RLF => t = TokLF
    | RText w => exists i j, t = Text i j /\
        (exists c, extract_from_token l' t = Ok c /\ cow_str c = w)
    | RQuoted q => exists i j, t = QuotedText i j /\
        (escapes_ascii q = true -> exists c, extract_from_token l' t = Ok c /\ cow_str c = unescape_spec q)
    end.
Proof.
  intros Hl Hs. pose proof (next_token_at l s Hl) as Hn. rewrite Hs in Hn.
  destruct Hn as (t & l' & Hn & Hr & Hb & Hl'). exists t, l'. split_and!; [done|done|done|].
  pose proof (raw_of_inv _ _ _ Hr) as Ht. destruct Hl as (_ & _ & Hv).
  rewrite <- Hb in Hr. pose proof (extract_at l' s t r rest Hv Hs Hr) as He.
  destruct r as [|w|q]; [done| |].
  - destruct Ht as (i & j & ->). exists i, j. split; [done|]. simpl token_text in He.
    destruct (extract_from_token l' (Text i j)) as [c| | |]; simplify_eq/=. by exists c.
  - destruct Ht as (i & j & ->). exists i, j. split; [done|]. intros Ha. simpl token_text in He.
    rewrite Ha in He.
    destruct (extract_from_token l' (QuotedText i j)) as [c| | |]; simplify_eq/=. by exists c.
Qed.

Lemma token_end l s : lexer_at l s -> scan s = ScanEnd ->
  exists l', next_token l = Ok (None, l') /\ buffer l' = buffer l /\ lexer_at l' [].
Proof. intros Hl Hs. pose proof (next_token_at l s Hl) as Hn. by rewrite Hs in Hn. Qed.

Lemma parses_ret {A} (a : A) s : parses (mret a) s a s.
Proof. intros l Hl. by exists l. Qed.

Lemma parses_bind {A B} (p : parser A) (f : A -> parser B) s a r b r' :
  parses p s a r -> parses (f a) r b r' -> parses (p ≫= f) s b r'.
Proof.
  intros Hp Hf l Hl. destruct (Hp l Hl) as (l1 & E1 & Hb1 & Hl1).
  destruct (Hf l1 Hl1) as (l2 & E2 & Hb2 & Hl2). exists l2. unfold mbind, parser_bind.
  rewrite E1. simpl. rewrite E2. split_and!; [done|congruence|done].
Qed.

Lemma parses_cmp_literal w s r : scan s = ScanToken (RText w) r -> parses (cmp_literal w) s tt r.
Proof.
  intros Hs l Hl. destruct (token_at l s _ _ Hl Hs) as (t & l' & E & Hb & Hl' & i & j & -> & c & Ec & Hc).
  exists l'. unfold cmp_literal. rewrite E. cbn [obind]. rewrite Ec. cbn [obind].
  by rewrite bool_decide_eq_true_2.
Qed.

Lemma parses_extract_name {A E} `{!WireName A E} wrap missing (a : A) s r :
  wn_wf a -> scan s = ScanToken (RText (wn_str a)) r ->
  parses (extract_name wn_try_from wrap missing) s a r.
Proof.
  intros Ha Hs l Hl. destruct (token_at l s _ _ Hl Hs) as (t & l' & En & Hb & Hl' & i & j & -> & c & Ec & Hc).
  exists l'. unfold extract_name. rewrite En. cbn [obind]. rewrite Ec. cbn [obind].
  rewrite (wn_try_from_str a c Ha Hc). done.
Qed.

Lemma parses_ups_name u s r : UpsName_wf u -> scan s = ScanToken (RText (ups_name u)) r ->
  parses extract_ups_name s u r.
Proof. exact (@parses_extract_name _ _ UpsName_wire _ _ u s r). Qed.

Lemma parses_cmd_name c s r : CmdName_wf c -> scan s = ScanToken (RText (cmd_name c)) r ->
  parses extract_cmd_name s c r.
Proof. exact (@parses_extract_name _ _ CmdName_wire _ _ c s r). Qed.

Lemma parses_var_name v s r : VarName_wf v -> scan s = ScanToken (RText (VarName_as_str v)) r ->
  parses extract_var_name s v r.
Proof. exact (@parses_extract_name _ _ VarName_wire _ _ v s r). Qed.

Lemma parses_capture_text w s r : scan s = ScanToken (RText w) r -> parses capture_text s w r.
Proof.
  intros Hs l Hl. destruct (token_at l s _ _ Hl Hs) as (t & l' & E & Hb & Hl' & i & j & -> & c & Ec & <-).
  exists l'. unfold capture_text, mbind, parser_bind, extract_text. rewrite E. cbn [obind]. rewrite Ec.
  done.
Qed.

Lemma parses_quoted_text d s r : scan s = ScanToken (RQuoted (escape_spec d)) r ->
  forall l, lexer_at l s -> exists c l', extract_quoted_text l = Ok (c, l') /\ cow_str c = d /\
    buffer l' = buffer l /\ lexer_at l' r.
Proof.
  intros Hs l Hl. destruct (token_at l s _ _ Hl Hs) as (t & l' & E & Hb & Hl' & i & j & -> & Hq).
  destruct (Hq (escape_spec_ascii d)) as (c & Ec & Hc). rewrite unescape_escape in Hc.
  exists c, l'. unfold extract_quoted_text. rewrite E. cbn [obind]. by rewrite Ec.
Qed.

Lemma parses_capture_quoted d s r :
  scan s = ScanToken (RQuoted (escape_spec d)) r -> parses capture_quoted s d r.
Proof.
  intros Hs l Hl. destruct (parses_quoted_text d s r Hs l Hl) as (c & l' & E & <- & Hb & Hl').
  exists l'. unfold capture_quoted, mbind, parser_bind. by rewrite E.
Qed.

Lemma parses_value d s r :
  scan s = ScanToken (RQuoted (escape_spec d)) r -> parses extract_value s (infer_from d) r.
Proof.
  intros Hs l Hl. destruct (parses_quoted_text d s r Hs l Hl) as (c & l' & E & <- & Hb & Hl').
  exists l'. unfold extract_value, mbind, parser_bind. by rewrite E.
Qed.

Lemma parses_numeric_value d v s r :
  infer_number_from d = Ok v -> scan s = ScanToken (RQuoted (escape_spec d)) r ->
  parses extract_numeric_value s v r.
Proof.
  intros Hv Hs l Hl. destruct (parses_quoted_text d s r Hs l Hl) as (c & l' & E & <- & Hb & Hl').
  exists l'. unfold extract_numeric_value, mbind, parser_bind. rewrite E. simpl. by rewrite Hv.
Qed.

Lemma parses_end s r : scan s = ScanToken RLF r ->
  parses end_parser s tt (drop_while is_ascii_whitespace r).
Proof.
  intros Hs l Hl. destruct (token_at l s _ _ Hl Hs) as (t & l' & E & Hb & Hl' & ->).
  destruct (skip_whitespaces_at l' r Hl') as (l2 & E2 & Hb2 & Hl2).
  exists l2. unfold end_parser. rewrite E. cbn [obind]. rewrite E2. simpl.
  split_and!; [done|congruence|done].
Qed.

Lemma parses_line {A} (rules : parser A) s a r r' :
  parses rules s a r -> scan r = ScanToken RLF r' ->
  parses (parse_line rules) s a (drop_while is_ascii_whitespace r').
Proof.
  intros Hr Hs. eapply parses_bind; [exact Hr|]. eapply parses_bind; [by apply parses_end|].
  apply parses_ret.
Qed.

Lemma parses_finish {A} (a : A) : parses (finish a) [] a [].
Proof.
  intros l Hl. exists l. unfold finish. rewrite (is_finished_at l [] Hl). done.
Qed.

Lemma concat_fmap_cons {I} (text : I -> str) i items :
  concat (text <$> i :: items) = text i ++ concat (text <$> items).
Proof. done. Qed.

Lemma concat_fmap_length {I} (text : I -> str) items :
  (forall i, i ∈ items -> text i <> []) -> length items <= length (concat (text <$> items)).
Proof.
  induction items as [|i items IH]; intros Hne; [simpl; lia|].
  rewrite concat_fmap_cons, length_app. simpl.
  assert (length (text i) <> 0).
  { intros E%length_zero_iff_nil. apply (Hne i); [left|done]. }
  specialize (IH (fun j Hj => Hne j (list_elem_of_further _ _ _ Hj))). lia.
Qed.

Lemma concat_ws_id {I} (text : I -> str) items rest :
  (forall i s, i ∈ items -> drop_while is_ascii_whitespace (text i ++ s) = text i ++ s) ->
  drop_while is_ascii_whitespace rest = rest ->
  drop_while is_ascii_whitespace (concat (text <$> items) ++ rest) = concat (text <$> items) ++ rest.
Proof.
  intros Hws Hr. destruct items as [|i items]; [done|]. rewrite concat_fmap_cons, <- app_assoc.
  apply Hws. left.
Qed.

(** The loop, on the texts of a list of items. *)
Lemma parses_while {B I} kw (body : B -> parser B) (step : B -> I -> B) (text : I -> str)
    (items : list I) (acc : B) (rest : str) :
  scan_peek rest <> Some kw ->
  (forall i s, i ∈ items -> scan_peek (text i ++ s) = Some kw) ->
  (forall i acc s, i ∈ items -> drop_while is_ascii_whitespace s = s ->
     parses (body acc) (text i ++ s) (step acc i) s) ->
  (forall i s, i ∈ items -> drop_while is_ascii_whitespace (text i ++ s) = text i ++ s) ->
  drop_while is_ascii_whitespace rest = rest ->
  (forall i, i ∈ items -> text i <> []) ->
  parses (while_peek kw body acc) (concat (text <$> items) ++ rest)
    (fold_left step items acc) rest.
Proof.
  intros Hrest Hpeek Hbody Hws Hwsr Hne l Hl. unfold while_peek.
  assert (length items < S (length (buffer l))) as Hfuel.
  { destruct Hl as (_ & Hd & _). apply (f_equal length) in Hd.
    rewrite length_drop, length_app in Hd.
    pose proof (concat_fmap_length text items Hne). lia. }
  revert Hfuel. generalize (S (length (buffer l))) as fuel. revert acc l Hl.
  induction items as [|i items IH]; intros acc l Hl fuel Hfuel; (destruct fuel as [|f]; [lia|]);
    cbn [while_peek_loop]; rewrite (peek_as_str_at l _ Hl); cbn [obind].
  - simpl. rewrite bool_decide_eq_false_2 by done. by exists l.
  - rewrite concat_fmap_cons, <- app_assoc in *. rewrite (Hpeek i) by left. rewrite bool_decide_eq_true_2 by done.
    assert (drop_while is_ascii_whitespace (concat (text <$> items) ++ rest) =
            concat (text <$> items) ++ rest) as Hw
      by (apply concat_ws_id; [intros; apply Hws; by right|done]).
    destruct (Hbody i acc _ ltac:(left) Hw l Hl) as (l1 & E1 & Hb1 & Hl1). rewrite E1. simpl.
    destruct (IH ltac:(intros; apply Hpeek; by right) ltac:(intros; apply Hbody; [by right|done])
      ltac:(intros; apply Hws; by right) ltac:(intros; apply Hne; by right) (step acc i) l1 Hl1 f
      ltac:(simpl in Hfuel; lia)) as (l2 & E2 & Hb2 & Hl2).
    exists l2. split_and!; [done|congruence|done].
Qed.

(** ** Lemmas: the parsers are safe *)

Lemma next_token_safe l s :
  lexer_at l s -> no_bad_escape s = true ->
  match next_token l with
  | Ok (None, l') => buffer l' = buffer l /\ lexer_at l' []
  | Ok (Some t, l') => buffer l' = buffer l /\ (exists c, extract_from_token l' t = Ok c) /\
      exists s', lexer_at l' s' /\ no_bad_escape s' = true /\ length s' < length s
  | Err _ => True
  | Panicked | OutOfFuel => False
  end.
Proof.
  intros Hl Hn. pose proof (next_token_at l s Hl) as H. destruct (scan s) as [|r rest|] eqn:E.
  - destruct H as (l' & -> & ? & ?). done.
  - destruct H as (t & l' & -> & Hr & Hb & Hl').
    split; [done|]. split; [|exists rest; split_and!;
      [done|by eapply scan_no_bad_escape|by eapply scan_shorter]].
    destruct Hl as (_ & _ & Hv). rewrite <- Hb in Hr.
    pose proof (extract_at l' s t r rest Hv E Hr) as He.
    assert (exists w, token_text r = Some w) as [w Hw].
    { destruct r as [|w|q]; simpl; [by eexists|by eexists|].
      rewrite (scan_quoted_no_bad _ _ _ E Hn). by eexists. }
    rewrite Hw in He. destruct (extract_from_token l' t); simplify_eq/=. by eexists.
  - by destruct H as (p & ->).
Qed.

Lemma safe_ret {A} (a : A) : safe false (mret a).
Proof. intros l s Hl Hn. split; [done|]. by exists s. Qed.

Lemma safe_err {A} b e : safe b (parse_err e : parser A).
Proof. intros l s Hl Hn. done. Qed.

Lemma safe_weaken {A} (p : parser A) : safe true p -> safe false p.
Proof.
  intros H l s Hl Hn. specialize (H l s Hl Hn). destruct (p l) as [[a l']| | |]; [|done..].
  destruct H as (? & s' & ? & ? & ?). split; [done|]. exists s'. split_and!; [done|done|lia].
Qed.

Lemma safe_bind {A B} b1 b2 (p : parser A) (f : A -> parser B) :
  safe b1 p -> (forall a, safe b2 (f a)) -> safe (b1 || b2) (p ≫= f).
Proof.
  intros Hp Hf l s Hl Hn. specialize (Hp l s Hl Hn). unfold mbind, parser_bind.
  destruct (p l) as [[a l1]| | |]; simpl; [|done..].
  destruct Hp as (Hb1 & s1 & Hl1 & Hn1 & Hlen1). specialize (Hf a l1 s1 Hl1 Hn1).
  destruct (f a l1) as [[b l2]| | |]; [|done..].
  destruct Hf as (Hb2 & s2 & Hl2 & Hn2 & Hlen2). split; [congruence|]. exists s2.
  split_and!; [done|done|]. destruct b1, b2; simpl; lia.
Qed.

Lemma safe_bind_strict {A B} b (p : parser A) (f : A -> parser B) :
  safe true p -> (forall a, safe b (f a)) -> safe true (p ≫= f).
Proof. apply (safe_bind true b). Qed.

Lemma safe_cmp_literal w : safe true (cmp_literal w).
Proof.
  intros l s Hl Hn. pose proof (next_token_safe l s Hl Hn) as H. unfold cmp_literal.
  destruct (next_token l) as [[[t|] l']| | |]; cbn [obind]; [|done..].
  destruct H as (Hb & (c & Hc) & s' & Hl' & Hn' & Hlen). destruct t; [done|done|].
  rewrite Hc. cbn [obind]. case_bool_decide; [|done]. split; [done|]. by exists s'.
Qed.

Lemma safe_extract_name {A E} `{!WireName A E} wrap missing :
  safe true (extract_name wn_try_from wrap missing).
Proof.
  intros l s Hl Hn. pose proof (next_token_safe l s Hl Hn) as H. unfold extract_name.
  destruct (next_token l) as [[[t|] l']| | |]; cbn [obind]; [|done..].
  destruct H as (Hb & (c & Hc) & s' & Hl' & Hn' & Hlen). destruct t; [done|done|].
  rewrite Hc. cbn [obind]. destruct (wn_total c) as [H1 H2].
  destruct (wn_try_from c) as [a| | |]; simpl; [|done..]. split; [done|]. by exists s'.
Qed.

Lemma safe_ups_name : safe true extract_ups_name.
Proof. exact (@safe_extract_name _ _ UpsName_wire _ _). Qed.
Lemma safe_cmd_name : safe true extract_cmd_name.
Proof. exact (@safe_extract_name _ _ CmdName_wire _ _). Qed.
Lemma safe_var_name : safe true extract_var_name.
Proof. exact (@safe_extract_name _ _ VarName_wire _ _). Qed.

Lemma safe_extract_text : safe true extract_text.
Proof.
  intros l s Hl Hn. pose proof (next_token_safe l s Hl Hn) as H. unfold extract_text.
  destruct (next_token l) as [[[t|] l']| | |]; cbn [obind]; [|done..].
  destruct H as (Hb & (c & Hc) & s' & Hl' & Hn' & Hlen). destruct t; [done|done|].
  rewrite Hc. cbn [obind]. split; [done|]. by exists s'.
Qed.

Lemma safe_extract_quoted_text : safe true extract_quoted_text.
Proof.
  intros l s Hl Hn. pose proof (next_token_safe l s Hl Hn) as H. unfold extract_quoted_text.
  destruct (next_token l) as [[[t|] l']| | |]; cbn [obind]; [|done..].
  destruct H as (Hb & (c & Hc) & s' & Hl' & Hn' & Hlen). destruct t; [|done..].
  rewrite Hc. cbn [obind]. split; [done|]. by exists s'.
Qed.

Lemma safe_capture_text : safe true capture_text.
Proof. eapply safe_bind_strict; [apply safe_extract_text|intros; apply safe_ret]. Qed.
Lemma safe_capture_quoted : safe true capture_quoted.
Proof. eapply safe_bind_strict; [apply safe_extract_quoted_text|intros; apply safe_ret]. Qed.
Lemma safe_value : safe true extract_value.
Proof. eapply safe_bind_strict; [apply safe_extract_quoted_text|intros; apply safe_ret]. Qed.

Lemma safe_numeric_value : safe true extract_numeric_value.
Proof.
  eapply (safe_bind_strict false); [apply safe_extract_quoted_text|]. intros t.
  destruct (infer_number_from _); [apply safe_ret|apply safe_err..].
Qed.

Lemma no_bad_escape_drop_ws s :
  no_bad_escape s = true -> no_bad_escape (drop_while is_ascii_whitespace s) = true.
Proof.
  intros H. rewrite <- (take_drop_while is_ascii_whitespace s) in H. by apply no_bad_escape_app in H.
Qed.

Lemma safe_end_parser : safe false end_parser.
Proof.
  intros l s Hl Hn. pose proof (next_token_safe l s Hl Hn) as H. unfold end_parser.
  destruct (next_token l) as [[[t|] l']| | |]; cbn [obind]; [| |done..].
  - destruct H as (Hb & _ & s' & Hl' & Hn' & Hlen). destruct t; [done| |done].
    destruct (skip_whitespaces_at l' s' Hl') as (l2 & -> & Hb2 & Hl2). simpl.
    split; [congruence|]. exists (drop_while is_ascii_whitespace s').
    pose proof (drop_while_length is_ascii_whitespace s').
    split_and!; [done|by apply no_bad_escape_drop_ws|lia].
  - destruct H as [? ?]. split; [done|]. exists []. split_and!; [done|done|simpl; lia].
Qed.

Lemma safe_parse_line {A} (rules : parser A) : safe true rules -> safe true (parse_line rules).
Proof.
  intros H. unfold parse_line. eapply (safe_bind_strict (false || false)); [done|]. intros a.
  apply safe_bind; [apply safe_end_parser|intros _; apply safe_ret].
Qed.

Lemma safe_finish {A} (a : A) : safe false (finish a).
Proof.
  intros l s Hl Hn. unfold finish. rewrite (is_finished_at l s Hl). simpl.
  destruct (scan s); simpl; [split; [done|]; by exists s|done|split; [done|]; by exists s].
Qed.

Lemma safe_while {B} kw (body : B -> parser B) acc :
  (forall acc, safe true (body acc)) -> safe false (while_peek kw body acc).
Proof.
  intros Hbody l s Hl Hn. unfold while_peek.
  assert (length s < S (length (buffer l))) as Hfuel.
  { destruct Hl as (_ & Hd & _). apply (f_equal length) in Hd. rewrite length_drop in Hd. lia. }
  revert Hfuel. generalize (S (length (buffer l))) as fuel. intros fuel. revert acc l s Hl Hn.
  induction fuel as [|f IH]; intros acc l s Hl Hn Hfuel; [lia|]. cbn [while_peek_loop].
  rewrite (peek_as_str_at l s Hl). cbn [obind]. case_bool_decide.
  - specialize (Hbody acc l s Hl Hn). destruct (body acc l) as [[b l1]| | |]; simpl; [|done..].
    destruct Hbody as (Hb1 & s1 & Hl1 & Hn1 & Hlen1).
    specialize (IH b l1 s1 Hl1 Hn1 ltac:(lia)).
    destruct (while_peek_loop f kw body b l1) as [[b2 l2]| | |]; [|done..].
    destruct IH as (? & s2 & ? & ? & ?). split; [congruence|]. exists s2. split_and!; [done|done|lia].
  - split; [done|]. exists s. split_and!; [done|done|lia].
Qed.

#[export] Hint Resolve safe_cmp_literal safe_ups_name safe_cmd_name safe_var_name
  safe_capture_text safe_capture_quoted safe_value safe_numeric_value safe_parse_line
  safe_finish safe_while safe_err safe_ret safe_end_parser : rust.

(** Proves [safe]: a bind is as strict as its first step. *)
Ltac solve_safe :=
  intros; cbv beta;
  lazymatch goal with
  | |- safe _ (match ?x with _ => _ end) => destruct x; solve_safe
  | |- safe true (parse_line _) => apply safe_parse_line; solve_safe
  | |- safe false (parse_line _) => apply safe_weaken, safe_parse_line; solve_safe
  | |- safe _ (while_peek _ _ _) => apply safe_while; solve_safe
  | |- safe true (_ ≫= _) => eapply (safe_bind_strict false); [solve_safe|solve_safe]
  | |- safe false (_ ≫= _) => eapply (safe_bind false false); [solve_safe|solve_safe]
  | |- safe false _ => first [solve [auto with rust] | apply safe_weaken; solve [auto with rust]]
  | |- _ => solve [auto with rust]
  end.
