(* ===== verification/Ip.v ===== *)
(** * IP addresses as Rust's standard library parses them

    [std::net::IpAddr] and its [FromStr], which [list_client.rs] applies to the
    addresses of the clients of a UPS. A reader takes the text left and returns
    what it read and the text after it; [None] leaves the text untouched. *)

From S2P Require Import Prelude RustStr Numbers.

Inductive IpAddr :=
  | V4 (octets : list Z)
  | V6 (segments : list Z).

#[global] Instance IpAddr_eq_dec : EqDecision IpAddr.
Proof. solve_decision. Defined.

(** [IpAddr::is_loopback]. *)
Definition is_loopback (ip : IpAddr) : bool :=
  match ip with
  | V4 (first :: _) => (first =? 127)%Z
  | V4 [] => false
  | V6 segments => bool_decide (segments = [0; 0; 0; 0; 0; 0; 0; 1]%Z)
  end.

(** [char::to_digit]. *)
Definition to_digit (radix : Z) (c : byte) : option Z :=
  let lower := to_ascii_lowercase c in
  let d := if is_ascii_digit c then Some (Z.of_N (Byte.to_N c) - 48)%Z
           else if is_ascii_lowercase lower then Some (Z.of_N (Byte.to_N lower) - 87)%Z
           else None in
  match d with
  | Some d => if (d <? radix)%Z then Some d else None
  | None => None
  end.

(** The digits at the head of the text: their value and number, and the rest;
    [None] once there are more than [max_digits] or the value exceeds [max]. *)
Fixpoint read_digits (radix max : Z) (max_digits : nat) (s : str) (value : Z) (count : nat)
    : option (Z * nat * str) :=
  match s with
  | [] => Some (value, count, s)
  | c :: s' =>
      match to_digit radix c with
      | None => Some (value, count, s)
      | Some d =>
          let value := (value * radix + d)%Z in
          if (max <? value)%Z then None
          else if max_digits <? S count then None
          else read_digits radix max max_digits s' value (S count)
      end
  end.

Definition read_number (radix max : Z) (max_digits : nat) (allow_zero_prefix : bool) (s : str)
    : option (Z * str) :=
  let has_leading_zero := match s with "0"%byte :: _ => true | _ => false end in
  match read_digits radix max max_digits s 0 0 with
  | None => None
  | Some (value, count, r) =>
      if count =? 0 then None
      else if negb allow_zero_prefix && has_leading_zero && (1 <? count) then None
      else Some (value, r)
  end.

(** [read_separator]: no separator before the first element. *)
Definition read_separator {A} (sep : byte) (index : nat) (inner : str -> option (A * str)) (s : str)
    : option (A * str) :=
  if 0 <? index then
    match s with
    | c :: s' => if bool_decide (c = sep) then inner s' else None
    | [] => None
    end
  else inner s.

Fixpoint read_octets (n index : nat) (s : str) : option (list Z * str) :=
  match n with
  | O => Some ([], s)
  | S n' =>
      match read_separator "."%byte index (read_number 10 u8_max 3 false) s with
      | None => None
      | Some (o, r) =>
          match read_octets n' (S index) r with
          | None => None
          | Some (os, r) => Some (o :: os, r)
          end
      end
  end.

Definition read_ipv4_addr (s : str) : option (list Z * str) := read_octets 4 0 s.

(** [read_groups] with [n] slots left at index [i]: the groups, whether they
    end in an embedded IPv4 address, and the rest. *)
Fixpoint read_groups (n i : nat) (s : str) : list Z * bool * str :=
  match n with
  | O => ([], false, s)
  | S n' =>
      match (if 0 <? n' then read_separator ":"%byte i read_ipv4_addr s else None) with
      | Some ([a; b; c; d], r) => ([a * 256 + b; c * 256 + d]%Z, true, r)
      | _ =>
          match read_separator ":"%byte i (read_number 16 u16_max 4 true) s with
          | None => ([], false, s)
          | Some (g, r) => let '(gs, v4, r) := read_groups n' (S i) r in (g :: gs, v4, r)
          end
      end
  end.

Definition read_ipv6_addr (s : str) : option (list Z * str) :=
  let '(head, head_ipv4, r) := read_groups 8 0 s in
  if length head =? 8 then Some (head, r)
  else if head_ipv4 then None
  else match r with
       | c1 :: c2 :: r =>
           if bool_decide (c1 = ":"%byte) && bool_decide (c2 = ":"%byte) then
             let '(tail, _, r) := read_groups (8 - (length head + 1)) 0 r in
             Some (head ++ replicate (8 - length head - length tail) 0%Z ++ tail, r)
           else None
       | _ => None
       end.

(** [IpAddr::from_str]. *)
Definition IpAddr_parse (s : str) : option IpAddr :=
  match read_ipv4_addr s with
  | Some (os, r) => if bool_decide (r = []) then Some (V4 os) else None
  | None =>
      match read_ipv6_addr s with
      | Some (ss, r) => if bool_decide (r = []) then Some (V6 ss) else None
      | None => None
      end
  end.

Example parse_v4 : IpAddr_parse (lit "192.168.1.20") = Some (V4 [192; 168; 1; 20]%Z).
Proof. reflexivity. Qed.
Example parse_v4_zero_prefix : IpAddr_parse (lit "127.0.0.01") = None.
Proof. reflexivity. Qed.
Example parse_v6_loopback : IpAddr_parse (lit "::1") = Some (V6 [0; 0; 0; 0; 0; 0; 0; 1]%Z).
Proof. reflexivity. Qed.
Example parse_v6_mapped :
  IpAddr_parse (lit "::ffff:10.0.0.1") = Some (V6 [0; 0; 0; 0; 0; 65535; 2560; 1]%Z).
Proof. reflexivity. Qed.
Example parse_v6_full :
  IpAddr_parse (lit "2001:db8:0:0:0:0:2:1") = Some (V6 [8193; 3512; 0; 0; 0; 0; 2; 1]%Z).
Proof. reflexivity. Qed.

(** ** Every parsed address is well formed *)

Definition IpAddr_wf (ip : IpAddr) : Prop :=
  match ip with
  | V4 os => length os = 4 /\ Forall (fun o => 0 <= o <= u8_max)%Z os
  | V6 ss => length ss = 8 /\ Forall (fun o => 0 <= o <= u16_max)%Z ss
  end.

Lemma to_digit_bound radix c d : to_digit radix c = Some d -> (0 <= d < radix)%Z.
Proof.
  unfold to_digit. intros H.
  assert (forall d', (if is_ascii_digit c then Some (Z.of_N (Byte.to_N c) - 48)%Z
           else if is_ascii_lowercase (to_ascii_lowercase c)
           then Some (Z.of_N (Byte.to_N (to_ascii_lowercase c)) - 87)%Z else None) = Some d' ->
           (0 <= d')%Z) as Hnn.
  { intros d'. clear H. destruct c; simpl; intros H; try discriminate H; injection H as <-; lia. }
  destruct (if is_ascii_digit c then _ else _) as [d'|]; [|done].
  destruct (Z.ltb_spec d' radix); [|done]. injection H as <-. specialize (Hnn d' eq_refl). lia.
Qed.

Lemma read_digits_bound radix max md s v n v' n' r :
  (0 <= v <= max)%Z -> (0 < radix)%Z ->
  read_digits radix max md s v n = Some (v', n', r) -> (0 <= v' <= max)%Z.
Proof.
  revert v n. induction s as [|c s IH]; intros v n Hv Hr; simpl; [by intros [= <- _ _]|].
  destruct (to_digit radix c) as [d|] eqn:Ed; [|by intros [= <- _ _]].
  apply to_digit_bound in Ed. destruct (Z.ltb_spec max (v * radix + d)); [done|].
  case_match; [done|]. apply IH; [nia|done].
Qed.

Lemma read_number_bound radix max md z s v r :
  (0 <= max)%Z -> (0 < radix)%Z -> read_number radix max md z s = Some (v, r) -> (0 <= v <= max)%Z.
Proof.
  unfold read_number. intros Hm Hr. destruct (read_digits _ _ _ _ _ _) as [[[v' n'] r']|] eqn:E; [|done].
  apply read_digits_bound in E; [|lia|done]. repeat case_match; by intros [= <- <-].
Qed.

Lemma read_separator_inner {A} sep i (inner : str -> option (A * str)) s a r :
  read_separator sep i inner s = Some (a, r) -> exists s', inner s' = Some (a, r).
Proof.
  unfold read_separator. destruct (0 <? i); [|by exists s].
  destruct s as [|c s]; [done|]. case_bool_decide; [by exists s|done].
Qed.

Lemma read_octets_wf n i s os r :
  read_octets n i s = Some (os, r) -> length os = n /\ Forall (fun o => 0 <= o <= u8_max)%Z os.
Proof.
  revert i s os. induction n as [|n IH]; intros i s os; simpl; [by intros [= <- <-]|].
  destruct (read_separator _ _ _ _) as [[o r1]|] eqn:E; [|done].
  apply read_separator_inner in E as [s' E]. apply read_number_bound in E; [|done..].
  destruct (read_octets n (S i) r1) as [[os' r']|] eqn:E'; [|done]. intros [= <- <-].
  apply IH in E' as [<- ?]. split; [done|]. by constructor.
Qed.

Lemma read_groups_wf n i s gs v r :
  read_groups n i s = (gs, v, r) -> length gs <= n /\ Forall (fun o => 0 <= o <= u16_max)%Z gs.
Proof.
  revert i s gs v r. induction n as [|n IH]; intros i s gs v r; cbn [read_groups]; [intros [= <- _ _]; by split|].
  set (v4 := if 0 <? n then _ else _).
  assert (match v4 with Some ([a; b; c; d], _) => 0 < n /\ Forall (fun o => 0 <= o <= u8_max)%Z [a; b; c; d]
          | _ => True end) as Hv4.
  { unfold v4. destruct (Nat.ltb_spec 0 n); [|done].
    destruct (read_separator _ _ _ _) as [[os r']|] eqn:E; [|done].
    apply read_separator_inner in E as [s' E]. apply read_octets_wf in E as [Hlen Hf].
    by destruct os as [|a [|b [|c [|d [|]]]]]. }
  clearbody v4.
  assert (forall gs v r, match read_separator ":"%byte i (read_number 16 u16_max 4 true) s with
    | None => ([], false, s)
    | Some (g, r) => let '(gs, v4, r) := read_groups n (S i) r in (g :: gs, v4, r) end = (gs, v, r) ->
    length gs <= S n /\ Forall (fun o => 0 <= o <= u16_max)%Z gs) as Hrec.
  { intros gs' v' r'. destruct (read_separator _ _ _ _) as [[g r1]|] eqn:E.
    2:{ intros [= <- _ _]. split; [simpl; lia|done]. }
    apply read_separator_inner in E as [s' E]. apply read_number_bound in E; [|done..].
    destruct (read_groups n (S i) r1) as [[gs1 v1] r2] eqn:E'. intros [= <- _ _].
    apply IH in E' as [? ?]. split; [simpl; lia|by constructor]. }
  destruct v4 as [[os r']|]; [|apply Hrec].
  destruct os as [|a [|b [|c [|d [|]]]]]; try apply Hrec.
  intros [= <- _ _]. destruct Hv4 as [? Hf]. unfold u8_max in Hf.
  repeat match goal with H : Forall _ (_ :: _) |- _ => apply Forall_cons_iff in H as [? ?] end.
  split; [simpl; lia|]. unfold u16_max. repeat constructor; lia.
Qed.

#[local] Strategy 1000 [read_groups read_octets read_ipv4_addr].

Lemma IpAddr_parse_wf s ip : IpAddr_parse s = Some ip -> IpAddr_wf ip.
Proof.
  unfold IpAddr_parse. destruct (read_ipv4_addr s) as [[os r]|] eqn:E4.
  { case_bool_decide; [|done]. intros [= <-]. by apply read_octets_wf in E4. }
  destruct (read_ipv6_addr s) as [[ss r]|] eqn:E6; [|done]. case_bool_decide; [|done].
  intros [= <-]. unfold read_ipv6_addr in E6.
  destruct (read_groups 8 0 s) as [[head v4] r1] eqn:Eh. apply read_groups_wf in Eh as [Hlen Hh].
  destruct (Nat.eqb_spec (length head) 8) as [H8|H8]; [by injection E6 as <- <-|].
  destruct v4; [done|]. destruct r1 as [|c1 [|c2 r2]]; [done|done|].
  destruct (bool_decide _ && bool_decide _); [|done].
  destruct (read_groups (8 - (length head + 1)) 0 r2) as [[tail v] r3] eqn:Et.
  apply read_groups_wf in Et as [Htl Ht]. injection E6 as <- <-. split.
  - rewrite !length_app, length_replicate. lia.
  - apply Forall_app; split; [done|]. apply Forall_app; split; [|done].
    apply Forall_replicate. unfold u16_max. lia.
Qed.
