(* ===== verification/VarType.v ===== *)
(** * Variable types

    [var_type.rs]: parsing and printing of the types of a [GET TYPE] response. *)

From S2P Require Import Prelude RustStr Numbers Errors.

Inductive VarType :=
  | ReadWrite
  | TEnum
  | TRange
  | TString (max_len : Z)
  | TNumber.

#[global] Instance VarType_eq_dec : EqDecision VarType.
Proof. solve_decision. Defined.

(** [usize] on the 64-bit targets the program is built for. *)
Definition usize_max : Z := u64_max.

Definition STR_START : str := lit "STRING:".

(** [FromStr]. *)
Definition VarType_from_str (s : str) : outcome VarTypeParseError VarType :=
  if bool_decide (s = []) then Err VarTypeEmpty
  else if bool_decide (s = lit "RW") then Ok ReadWrite
  else if bool_decide (s = lit "ENUM") then Ok TEnum
  else if bool_decide (s = lit "RANGE") then Ok TRange
  else if bool_decide (s = lit "NUMBER") then Ok TNumber
  else if (length STR_START <? length s) && starts_with STR_START s then
    let? text := or_panic (str_from s (length STR_START)) in
    match parse_unsigned usize_max text with
    | Some v => Ok (TString v)
    | None => Err VarTypeInvalidType
    end
  else Err VarTypeInvalidType.

(** [Display]. *)
Definition VarType_fmt (t : VarType) : str :=
  match t with
  | ReadWrite => lit "RW"
  | TEnum => lit "RW"
  | TRange => lit "RANGE"
  | TString max_len => STR_START ++ show_nat_Z max_len
  | TNumber => lit "NUMBER"
  end.

(** The type's name in the protocol. *)
Definition VarType_wire (t : VarType) : str :=
  match t with TEnum => lit "ENUM" | t => VarType_fmt t end.

Definition VarType_wf (t : VarType) : Prop :=
  match t with TString n => (0 <= n <= usize_max)%Z | _ => True end.

(** ** Lemmas *)

Lemma starts_with_app p s : starts_with p (p ++ s) = true.
Proof. apply starts_with_iff. by exists s. Qed.

Lemma str_start_split s : starts_with STR_START s = true ->
  exists r, s = STR_START ++ r /\ drop (length STR_START) s = r.
Proof. intros (r & ->)%starts_with_iff. exists r. split; [done|]. by rewrite drop_app_length. Qed.

Lemma VarType_from_wire t : VarType_wf t -> VarType_from_str (VarType_wire t) = Ok t.
Proof.
  destruct t as [| | |n|]; try reflexivity. intros Hn. simpl in Hn.
  unfold VarType_from_str, VarType_wire, VarType_fmt.
  destruct (show_nat_Z_spec n) as (ds & E & Hne & Hd & _); [lia|].
  assert (str_from (STR_START ++ show_nat_Z n) (length STR_START) = Some (show_nat_Z n)) as Hs.
  { unfold str_from. rewrite is_char_boundary_drop; [by rewrite drop_app_length| |].
    - rewrite length_app. lia.
    - intros a r Ed. rewrite drop_app_length, E in Ed. subst ds. rewrite Ed in Hd. simpl in Hd. bool_to_prop.
      by apply is_ascii_not_cont, digit_is_ascii. }
  repeat (rewrite bool_decide_eq_false_2 by done).
  rewrite starts_with_app, Hs, (proj2 (Nat.ltb_lt _ _)).
  - simpl. rewrite show_nat_parse_unsigned; [done|]. unfold usize_max in *. lia.
  - rewrite length_app, E. destruct ds; [done|]. simpl. lia.
Qed.

Lemma VarType_from_str_safe s :
  utf8_valid s = true -> VarType_from_str s <> Panicked /\ VarType_from_str s <> OutOfFuel.
Proof.
  intros Hv. unfold VarType_from_str. repeat (case_bool_decide; [done|]).
  destruct (_ && _) eqn:E; [|done]. bool_to_prop. destruct (str_start_split s) as (r & -> & Hr); [done|].
  unfold str_from. rewrite is_char_boundary_valid.
  - simpl. by destruct (parse_unsigned _ _).
  - rewrite length_app. lia.
  - rewrite Hr. by simpl in Hv.
Qed.

(** ** Properties *)

(** Types are parsed back from their protocol names, every length that fits
    a [usize] included; parsing valid text never panics; and [Display] prints
    the protocol name of every type except [Enum], for which it prints [RW]. *)
Lemma var_type_roundtrip (t : VarType) (Ht : VarType_wf t) :
  VarType_from_str (VarType_wire t) = Ok t /\
  (forall s, utf8_valid s = true ->
     VarType_from_str s <> Panicked /\ VarType_from_str s <> OutOfFuel) /\
  (VarType_fmt t = VarType_wire t <-> t <> TEnum) /\
  VarType_from_str (VarType_fmt TEnum) = Ok ReadWrite.
Proof.
  split_and!; [by apply VarType_from_wire|apply VarType_from_str_safe| |reflexivity].
  destruct t; split; done.
Qed.

Lemma var_type_roundtrip_witness : VarType_from_str (lit "STRING:64") = Ok (TString 64).
Proof. refine (proj1 (var_type_roundtrip (TString 64) _)). split; discriminate. Defined.
