(* ===== verification/UpsVariables.v ===== *)
(** * Variable maps

    [ups_variables.rs]: a wrapper of [HashMap<VarName, Value>]. The map is a
    [gmap]; the names the program builds are canonical, and on those the key
    equality of the hash map is equality ([VarName.var_name_canonical]). The
    order in which a hash map is iterated is unspecified and nothing here
    depends on it. *)

From S2P Require Import Prelude RustStr Errors VarName Value.

Abbreviation UpsVariables := (gmap VarName Value).

Definition UpsVariables_new : UpsVariables := ∅.
Definition UpsVariables_get (m : UpsVariables) (name : VarName) : option Value := m !! name.

(** [insert]: the previous value and the new map. *)
Definition UpsVariables_insert (m : UpsVariables) (name : VarName) (value : Value)
    : option Value * UpsVariables := (m !! name, <[name := value]> m).

Definition UpsVariables_clear (m : UpsVariables) : UpsVariables := ∅.

(** [remove]: the removed entry and the new map. *)
Definition UpsVariables_remove (m : UpsVariables) (name : VarName)
    : option (VarName * Value) * UpsVariables :=
  ((fun v => (name, v)) <$> m !! name, delete name m).

Definition UpsVariables_len (m : UpsVariables) : nat := size m.
Definition UpsVariables_is_empty (m : UpsVariables) : bool := size m =? 0.
Definition UpsVariables_contains_key (m : UpsVariables) (name : VarName) : bool :=
  bool_decide (is_Some (m !! name)).

(** [From<[(VarName, Value); N]>] and serde's [visit_map]: inserts in order, so
    the last entry of a name wins. *)
Definition UpsVariables_from (entries : list (VarName * Value)) : UpsVariables :=
  fold_left (fun vars e => (UpsVariables_insert vars e.1 e.2).2) entries UpsVariables_new.

(** The last entry of a name. *)
Definition last_entry (name : VarName) (entries : list (VarName * Value)) : option Value :=
  option_map snd (list.last (filter (fun e => e.1 = name) entries)).

(** ** Lemmas *)

Lemma fold_insert_lookup entries (m : UpsVariables) name :
  fold_left (fun vars e => (UpsVariables_insert vars e.1 e.2).2) entries m !! name =
  match last_entry name entries with Some v => Some v | None => m !! name end.
Proof.
  revert m. induction entries as [|[k v] entries IH]; intros m; [done|].
  cbn [fold_left]. rewrite IH. cbn [UpsVariables_insert fst snd]. unfold last_entry. rewrite filter_cons. cbn [fst]. destruct (decide (k = name)) as [->|Hk].
  - rewrite last_cons. destruct (list.last (filter _ entries)); simpl; [done|]. by rewrite lookup_insert_eq.
  - destruct (list.last (filter _ entries)); simpl; [done|]. by rewrite lookup_insert_ne.
Qed.

Lemma UpsVariables_from_lookup entries name :
  UpsVariables_get (UpsVariables_from entries) name = last_entry name entries.
Proof.
  unfold UpsVariables_get, UpsVariables_from. rewrite fold_insert_lookup.
  by destruct (last_entry name entries).
Qed.

(** ** Properties *)

(** A variable map is a finite map. [insert] returns the previous value of
    the name and changes that name only, [remove] gives back what [get] saw, the
    length and membership agree with [get], and building a map from entries
    keeps the last one of each name. *)
Lemma ups_variables_map (m : UpsVariables) (name other : VarName) (value : Value)
  (entries : list (VarName * Value)) :
  let '(previous, m') := UpsVariables_insert m name value in
  let '(removed, m'') := UpsVariables_remove m name in
  previous = UpsVariables_get m name /\
  UpsVariables_get m' other = (if decide (other = name) then Some value else UpsVariables_get m other) /\
  UpsVariables_len m' = UpsVariables_len m + (if UpsVariables_contains_key m name then 0 else 1) /\
  snd <$> removed = UpsVariables_get m name /\
  UpsVariables_get m'' other = (if decide (other = name) then None else UpsVariables_get m other) /\
  UpsVariables_contains_key m other = bool_decide (is_Some (UpsVariables_get m other)) /\
  UpsVariables_is_empty m = bool_decide (m = UpsVariables_new) /\
  UpsVariables_get (UpsVariables_from entries) name = last_entry name entries.
Proof.
  unfold UpsVariables_insert, UpsVariables_remove, UpsVariables_get, UpsVariables_len,
    UpsVariables_contains_key, UpsVariables_is_empty, UpsVariables_new.
  split_and!; try done.
  - destruct (decide (other = name)) as [->|]; [by rewrite lookup_insert_eq|by rewrite lookup_insert_ne].
  - rewrite map_size_insert. destruct (m !! name); simpl; [by rewrite Nat.add_0_r|lia].
  - by destruct (m !! name).
  - destruct (decide (other = name)) as [->|]; [by rewrite lookup_delete_eq|by rewrite lookup_delete_ne].
  - apply Bool.eq_iff_eq_true. rewrite Nat.eqb_eq, bool_decide_eq_true. apply map_size_empty_iff.
  - apply UpsVariables_from_lookup.
Qed.
