(* ===== verification/Response.v ===== *)
(** * Responses of the UPS daemon

    [src/response/]: the [Deserialize] implementations, one definition each, and
    the texts the daemon sends as their specification. *)

From S2P Require Import Prelude RustStr Numbers Errors Escape Lexer Names VarName Value ParserUtils Ip VarType UpsVariables.

(** ** Single-line responses *)

Record CmdDesc := mkCmdDesc { cd_cmd : CmdName; cd_ups_name : UpsName; cd_desc : str }.
Record UpsDesc := mkUpsDesc { ud_desc : str; ud_ups_name : UpsName }.
Record UpsVar := mkUpsVar { uv_value : Value; uv_name : VarName; uv_ups_name : UpsName }.
Record UpsVarDesc := mkUpsVarDesc { vd_name : VarName; vd_desc : str; vd_ups_name : UpsName }.
Record UpsVarType := mkUpsVarType {
  vt_var_types : list VarType; vt_name : VarName; vt_ups_name : UpsName }.

(** [get_cmd_desc.rs]. *)
Definition CmdDesc_deserialize : parser CmdDesc :=
  '(ups_name, cmd, desc) ← parse_line (
    cmp_literal (lit "CMDDESC");; ups_name ← extract_ups_name; cmd_name ← extract_cmd_name;
    desc ← capture_quoted; mret (ups_name, cmd_name, desc));
  finish (mkCmdDesc cmd ups_name desc).

(** [get_ups_desc.rs]. *)
Definition UpsDesc_deserialize : parser UpsDesc :=
  '(ups_name, desc) ← parse_line (
    cmp_literal (lit "UPSDESC");; ups_name ← extract_ups_name; desc ← capture_quoted;
    mret (ups_name, desc));
  finish (mkUpsDesc desc ups_name).

(** [get_var.rs]. *)
Definition UpsVar_deserialize : parser UpsVar :=
  '(ups_name, name, value) ← parse_line (
    cmp_literal (lit "VAR");; ups_name ← extract_ups_name; var_name ← extract_var_name;
    value ← extract_value; mret (ups_name, var_name, value));
  finish (mkUpsVar value name ups_name).

(** [get_var_desc.rs]. *)
Definition UpsVarDesc_deserialize : parser UpsVarDesc :=
  '(ups_name, name, desc) ← parse_line (
    cmp_literal (lit "DESC");; ups_name ← extract_ups_name; var_name ← extract_var_name;
    desc ← capture_quoted; mret (ups_name, var_name, desc));
  finish (mkUpsVarDesc name desc ups_name).

(** [get_var_type.rs]: [while let Some(token) = lexer.next_token()?]. *)
Fixpoint var_types_loop (fuel : nat) (var_types : list VarType) : parser (list VarType) := fun l =>
  match fuel with
  | O => OutOfFuel
  | S f =>
      let? r := next_token l in
      let '(t, l) := r in
      match t with
      | None => Ok (var_types, l)
      | Some (Text i j) =>
          let? text := extract_from_token l (Text i j) in
          let? type_info := map_err (fun err => ParseErrorAt (PE_VarType err) (get_positon l))
                                    (VarType_from_str (cow_str text)) in
          var_types_loop f (var_types ++ [type_info]) l
      | Some TokLF => Ok (var_types, l)
      | Some (QuotedText _ _) => parse_err PE_InvalidToken l
      end
  end.

Definition UpsVarType_deserialize : parser UpsVarType :=
  cmp_literal (lit "TYPE");;
  ups_name ← extract_ups_name;
  name ← extract_var_name;
  var_types ← (fun l => var_types_loop (S (length (buffer l))) [] l : outcome ErrorKind _);
  finish (mkUpsVarType var_types name ups_name).

(** [misc.rs]: [impl_ok_parser!]. *)
Fixpoint cmp_literals (tokens : list str) : parser unit :=
  match tokens with
  | [] => mret tt
  | t :: tokens => cmp_literal t;; cmp_literals tokens
  end.

Definition ok_deserialize (tokens : list str) : parser unit :=
  parse_line (cmp_literals tokens);; finish tt.

Definition ProtOk_deserialize : parser unit := ok_deserialize [lit "OK"].
Definition ProtOkFsd_deserialize : parser unit := ok_deserialize [lit "OK"; lit "FSD-SET"].
Definition ProtOkDetach_deserialize : parser unit := ok_deserialize [lit "OK"; lit "Goodbye"].
Definition ProtOkTls_deserialize : parser unit := ok_deserialize [lit "OK"; lit "STARTTLS"].

(** ** List responses *)

Record ClientList := mkClientList { cl_ups_name : UpsName; cl_ips : list IpAddr }.
Record CmdList := mkCmdList { cml_ups_name : UpsName; cml_cmds : list CmdName }.
Record EnumList := mkEnumList { el_name : VarName; el_ups_name : UpsName; el_values : list Value }.
Record RangeList := mkRangeList {
  rl_ups_name : UpsName; rl_ranges : list (Value * Value); rl_name : VarName }.
Record RwList := mkRwList { rwl_variables : UpsVariables; rwl_ups_name : UpsName }.
Record UpsVarList := mkUpsVarList { vl_variables : UpsVariables; vl_ups_name : UpsName }.
Record UpsDevice := mkUpsDevice { dev_ups_name : UpsName; dev_desc : str }.
Record UpsList := mkUpsList { ul_devices : list UpsDevice }.

(** [list_client.rs]. *)
Definition ClientList_deserialize : parser ClientList :=
  ups_name ← parse_line (
    cmp_literal (lit "BEGIN");; cmp_literal (lit "LIST");; cmp_literal (lit "CLIENT");;
    extract_ups_name);
  ips ← while_peek (lit "CLIENT") (fun ips =>
    ip_text ← parse_line (
      cmp_literal (lit "CLIENT");; cmp_literal (UpsName_as_str ups_name);; capture_text);
    match IpAddr_parse ip_text with
    | Some ip => mret (ips ++ [ip])
    | None => parse_err PE_InvalidToken
    end) [];
  parse_line (
    cmp_literal (lit "END");; cmp_literal (lit "LIST");; cmp_literal (lit "CLIENT");;
    cmp_literal (UpsName_as_str ups_name));;
  finish (mkClientList ups_name ips).

(** [list_cmd.rs]. *)
Definition CmdList_deserialize : parser CmdList :=
  ups_name ← parse_line (
    cmp_literal (lit "BEGIN");; cmp_literal (lit "LIST");; cmp_literal (lit "CMD");;
    extract_ups_name);
  cmds ← while_peek (lit "CMD") (fun cmds =>
    cmd_name ← parse_line (
      cmp_literal (lit "CMD");; cmp_literal (UpsName_as_str ups_name);; extract_cmd_name);
    mret (cmds ++ [cmd_name])) [];
  parse_line (
    cmp_literal (lit "END");; cmp_literal (lit "LIST");; cmp_literal (lit "CMD");;
    cmp_literal (UpsName_as_str ups_name));;
  finish (mkCmdList ups_name cmds).

(** [VarName::try_from] on a captured text, in [list_enum.rs] and [list_range.rs]. *)
Definition var_name_of_text (text : str) : parser VarName := fun l =>
  let? name := map_err (fun err => ParseErrorAt (PE_VarName err) (get_positon l))
                       (VarName_try_from text) in
  Ok (name, l).

(** [list_enum.rs]. *)
Definition EnumList_deserialize : parser EnumList :=
  '(ups_name, var_name) ← parse_line (
    cmp_literal (lit "BEGIN");; cmp_literal (lit "LIST");; cmp_literal (lit "ENUM");;
    ups_name ← extract_ups_name; var_name ← capture_text; mret (ups_name, var_name));
  name ← var_name_of_text var_name;
  values ← while_peek (lit "ENUM") (fun values =>
    value ← parse_line (
      cmp_literal (lit "ENUM");; cmp_literal (UpsName_as_str ups_name);;
      cmp_literal (VarName_as_str name);; extract_value);
    mret (values ++ [value])) [];
  parse_line (
    cmp_literal (lit "END");; cmp_literal (lit "LIST");; cmp_literal (lit "ENUM");;
    cmp_literal (UpsName_as_str ups_name);; cmp_literal (VarName_as_str name));;
  finish (mkEnumList name ups_name values).

(** [list_range.rs]. *)
Definition RangeList_deserialize : parser RangeList :=
  '(ups_name, var_name) ← parse_line (
    cmp_literal (lit "BEGIN");; cmp_literal (lit "LIST");; cmp_literal (lit "RANGE");;
    ups_name ← extract_ups_name; var_name ← capture_text; mret (ups_name, var_name));
  name ← var_name_of_text var_name;
  ranges ← while_peek (lit "RANGE") (fun ranges =>
    range ← parse_line (
      cmp_literal (lit "RANGE");; cmp_literal (UpsName_as_str ups_name);;
      cmp_literal (VarName_as_str name);;
      min ← extract_numeric_value; max ← extract_numeric_value; mret (min, max));
    mret (ranges ++ [range])) [];
  parse_line (
    cmp_literal (lit "END");; cmp_literal (lit "LIST");; cmp_literal (lit "RANGE");;
    cmp_literal (UpsName_as_str ups_name);; cmp_literal (VarName_as_str name));;
  finish (mkRangeList ups_name ranges name).

(** What [list_rw.rs] and [list_var.rs] share, up to the keyword. *)
Definition variables_deserialize (kw : str) : parser (UpsName * UpsVariables) :=
  ups_name ← parse_line (
    cmp_literal (lit "BEGIN");; cmp_literal (lit "LIST");; cmp_literal kw;; extract_ups_name);
  variables ← while_peek kw (fun variables =>
    '(name, value) ← parse_line (
      cmp_literal kw;; cmp_literal (UpsName_as_str ups_name);;
      name ← extract_var_name; value ← extract_value; mret (name, value));
    mret (UpsVariables_insert variables name value).2) UpsVariables_new;
  parse_line (
    cmp_literal (lit "END");; cmp_literal (lit "LIST");; cmp_literal kw;;
    cmp_literal (UpsName_as_str ups_name));;
  finish (ups_name, variables).

(** [list_rw.rs]. *)
Definition RwList_deserialize : parser RwList :=
  '(ups_name, variables) ← variables_deserialize (lit "RW");
  mret (mkRwList variables ups_name).

(** [list_var.rs]. *)
Definition UpsVarList_deserialize : parser UpsVarList :=
  '(ups_name, variables) ← variables_deserialize (lit "VAR");
  mret (mkUpsVarList variables ups_name).

(** [list_ups.rs]. *)
Definition UpsList_deserialize : parser UpsList :=
  parse_line (cmp_literal (lit "BEGIN");; cmp_literal (lit "LIST");; cmp_literal (lit "UPS"));;
  devices ← while_peek (lit "UPS") (fun devices =>
    '(ups_name, desc) ← parse_line (
      cmp_literal (lit "UPS");; ups_name ← extract_ups_name; desc ← capture_quoted;
      mret (ups_name, desc));
    mret (devices ++ [mkUpsDevice ups_name desc])) [];
  parse_line (cmp_literal (lit "END");; cmp_literal (lit "LIST");; cmp_literal (lit "UPS"));;
  finish (mkUpsList devices).

(** What the client does with a response: a lexer on its text, the value alone. *)
Definition parse_response {A} (p : parser A) (text : str) : outcome ErrorKind A :=
  omap_ok fst (p (Lexer_new text)).

(** ** The texts the daemon sends *)

Definition words (ws : list str) (rest : str) : str :=
  match ws with
  | [] => rest
  | w :: ws => w ++ foldr (fun w r => SP :: w ++ r) rest ws
  end.

(** A line: its words, then quoted texts. *)
Definition line (ws : list str) (qs : list str) : str :=
  words ws (foldr (fun q r => SP :: quoted q ++ r) [LF] qs).

(** A list response: [BEGIN LIST <head>], the items, [END LIST <head>]. *)
Definition list_text (head : list str) (items : list str) : str :=
  line (lit "BEGIN" :: lit "LIST" :: head) [] ++ concat items ++
  line (lit "END" :: lit "LIST" :: head) [].

Definition ups_list_text (ds : list UpsDevice) : str :=
  list_text [lit "UPS"]
    ((fun d => line [lit "UPS"; ups_name (dev_ups_name d)] [dev_desc d]) <$> ds).

Definition variables_text (kw : str) (u : UpsName) (vars : list (VarName * str)) : str :=
  list_text [kw; ups_name u]
    ((fun v => line [kw; ups_name u; VarName_as_str v.1] [v.2]) <$> vars).

Definition cmd_list_text (u : UpsName) (cmds : list CmdName) : str :=
  list_text [lit "CMD"; ups_name u]
    ((fun c => line [lit "CMD"; ups_name u; cmd_name c] []) <$> cmds).

Definition client_list_text (u : UpsName) (ips : list str) : str :=
  list_text [lit "CLIENT"; ups_name u]
    ((fun ip => line [lit "CLIENT"; ups_name u; ip] []) <$> ips).

Definition enum_list_text (u : UpsName) (n : VarName) (values : list str) : str :=
  list_text [lit "ENUM"; ups_name u; VarName_as_str n]
    ((fun v => line [lit "ENUM"; ups_name u; VarName_as_str n] [v]) <$> values).

Definition range_list_text (u : UpsName) (n : VarName) (ranges : list (str * str)) : str :=
  list_text [lit "RANGE"; ups_name u; VarName_as_str n]
    ((fun r => line [lit "RANGE"; ups_name u; VarName_as_str n] [r.1; r.2]) <$> ranges).

Definition type_text (u : UpsName) (n : VarName) (ts : list VarType) : str :=
  line ([lit "TYPE"; ups_name u; VarName_as_str n] ++ (VarType_wire <$> ts)) [].

(** ** Lemmas: reading the words of a line *)

Lemma ends_word_tail ws rest :
  ends_word rest = true -> ends_word (foldr (fun w r => SP :: w ++ r) rest ws) = true.
Proof. by destruct ws. Qed.

Lemma foldr_words_app ws rest s :
  foldr (fun w r => SP :: w ++ r) rest ws ++ s = foldr (fun w r => SP :: w ++ r) (rest ++ s) ws.
Proof. induction ws as [|w ws IH]; simpl; [done|]. by rewrite <- app_assoc, IH. Qed.

Lemma foldr_quoted_app qs rest s :
  foldr (fun q r => SP :: quoted q ++ r) rest qs ++ s =
  foldr (fun q r => SP :: quoted q ++ r) (rest ++ s) qs.
Proof. induction qs as [|q qs IH]; cbn [foldr app]; [done|]. by rewrite <- app_assoc, IH. Qed.

(** A line followed by more text. *)
Lemma line_app w ws qs s :
  line (w :: ws) qs ++ s =
  w ++ foldr (fun w r => SP :: w ++ r) (foldr (fun q r => SP :: quoted q ++ r) (LF :: s) qs) ws.
Proof.
  unfold line, words. by rewrite <- app_assoc, foldr_words_app, foldr_quoted_app.
Qed.

Lemma line_not_nil w ws qs : is_word w = true -> line (w :: ws) qs <> [].
Proof. by destruct w. Qed.

Lemma line_ws w ws qs s : is_word w = true ->
  drop_while is_ascii_whitespace (line (w :: ws) qs ++ s) = line (w :: ws) qs ++ s.
Proof. intros H. rewrite line_app. by apply is_word_ws_id. Qed.

Lemma line_peek w ws qs s : is_word w = true ->
  scan_peek (line (w :: ws) qs ++ s) = Some w.
Proof.
  intros H. rewrite line_app. unfold scan_peek. rewrite scan_is_word; [done|done|].
  apply ends_word_tail. by destruct qs.
Qed.

Lemma VarName_wf_word v : VarName_wf v -> is_word (VarName_as_str v) = true.
Proof. exact (@wn_wf_word _ _ VarName_wire v). Qed.

Lemma parses_line_to {A} (rules : parser A) s a r r' :
  parses rules s a (LF :: r) -> drop_while is_ascii_whitespace r = r' ->
  parses (parse_line rules) s a r'.
Proof. intros H <-. by apply (parses_line rules s a (LF :: r)). Qed.

Lemma fold_snoc {A B} (f : A -> B) l acc :
  fold_left (fun acc x => acc ++ [f x]) l acc = acc ++ (f <$> l).
Proof.
  revert acc. induction l as [|x l IH]; intros acc; simpl; [by rewrite app_nil_r|].
  by rewrite IH, <- app_assoc.
Qed.

Lemma drop_ws_nil : drop_while is_ascii_whitespace [] = [].
Proof. done. Qed.

#[export] Hint Resolve is_cmd_name_word VarName_wf_word : rust.

Ltac solve_word := first [assumption | reflexivity | solve [auto with rust]].

(** The next token of a printed line. *)
Ltac solve_scan :=
  rewrite ?scan_sp;
  first [ apply scan_LF
        | apply scan_quoted_text
        | apply scan_is_word; [solve_word | first [reflexivity | by apply ends_word_tail]] ].

Ltac parse_step :=
  cbv beta iota;
  lazymatch goal with
  | |- parses (mret _) _ _ _ => apply parses_ret
  | |- parses (_ ≫= _) _ _ _ => eapply parses_bind; [parse_step|]
  | |- parses (cmp_literal _) _ _ _ => eapply parses_cmp_literal; solve_scan
  | |- parses extract_ups_name _ _ _ => eapply parses_ups_name; [|solve_scan]; assumption
  | |- parses extract_cmd_name _ _ _ => eapply parses_cmd_name; [|solve_scan]; assumption
  | |- parses extract_var_name _ _ _ => eapply parses_var_name; [|solve_scan]; assumption
  | |- parses capture_text _ _ _ => eapply parses_capture_text; solve_scan
  | |- parses capture_quoted _ _ _ => eapply parses_capture_quoted; solve_scan
  | |- parses extract_value _ _ _ => eapply parses_value; solve_scan
  | |- parses (finish _) _ _ _ => apply parses_finish
  end.

(** A whole line, from [line_app]'s form. *)
Ltac parse_rules := cbn [foldr]; repeat parse_step.

(** The loop over lines that start with its keyword, before a line that does not. *)
Lemma parses_item_lines {B I} kw (body : B -> parser B) (step : B -> I -> B) ws qs
    (items : list I) (acc : B) w' ws' s :
  is_word kw = true -> is_word w' = true -> kw <> w' ->
  (forall i acc s, i ∈ items -> drop_while is_ascii_whitespace s = s ->
     parses (body acc) (line (kw :: ws i) (qs i) ++ s) (step acc i) s) ->
  parses (while_peek kw body acc)
    (concat ((fun i => line (kw :: ws i) (qs i)) <$> items) ++ line (w' :: ws') [] ++ s)
    (fold_left step items acc) (line (w' :: ws') [] ++ s).
Proof.
  intros Hkw Hw' Hne Hbody. apply parses_while.
  - rewrite line_peek by done. congruence.
  - intros i s' _. by apply line_peek.
  - exact Hbody.
  - intros i s' _. by apply line_ws.
  - by apply line_ws.
  - intros i _. by apply line_not_nil.
Qed.

Lemma parses_footer {A} (footer : parser unit) (a : A) w ws :
  parses footer (line (w :: ws) [] ++ []) tt [] ->
  parses (footer;; finish a) (line (w :: ws) [] ++ []) a [].
Proof. intros H. eapply parses_bind; [exact H|]. apply parses_finish. Qed.

Lemma list_text_eq {I} head (text : I -> str) items :
  list_text head (text <$> items) =
  line (lit "BEGIN" :: lit "LIST" :: head) [] ++ concat (text <$> items) ++
  line (lit "END" :: lit "LIST" :: head) [] ++ [].
Proof. unfold list_text. by rewrite app_nil_r. Qed.

Lemma items_ws {I} kw ws qs (items : list I) w' ws' s :
  is_word kw = true -> is_word w' = true ->
  let t := concat ((fun i => line (kw :: ws i) (qs i)) <$> items) ++ line (w' :: ws') [] ++ s in
  drop_while is_ascii_whitespace t = t.
Proof. intros Hk Hw. apply concat_ws_id; [intros; by apply line_ws|by apply line_ws]. Qed.

(** Proves that a printed line is parsed. *)
Ltac parse_a_line ws :=
  rewrite line_app; eapply parses_line_to; [parse_rules|first [exact ws | exact drop_ws_nil]].

Lemma UpsList_parses ds :
  (forall d, d ∈ ds -> UpsName_wf (dev_ups_name d)) ->
  parses UpsList_deserialize (ups_list_text ds) (mkUpsList ds) [].
Proof.
  intros Hds. unfold UpsList_deserialize, ups_list_text. rewrite list_text_eq.
  eapply parses_bind; [parse_a_line (items_ws (lit "UPS") (fun d => [ups_name (dev_ups_name d)])
    (fun d => [dev_desc d]) ds (lit "END") [lit "LIST"; lit "UPS"] [] eq_refl eq_refl)|].
  eapply parses_bind.
  - apply (parses_item_lines (lit "UPS") _ (fun acc d => acc ++ [id d])
      (fun d => [ups_name (dev_ups_name d)]) (fun d => [dev_desc d])); [done|done|done|].
    intros d acc s Hd Hs. specialize (Hds d Hd). eapply parses_bind; [parse_a_line Hs|].
    destruct d. apply parses_ret.
  - rewrite fold_snoc, list_fmap_id. apply parses_footer. parse_a_line drop_ws_nil.
Qed.

Lemma variables_parses kw u (vars : list (VarName * str)) :
  is_word kw = true -> kw <> lit "END" -> UpsName_wf u ->
  (forall v, v ∈ vars -> VarName_wf v.1) ->
  parses (variables_deserialize kw) (variables_text kw u vars)
    (u, UpsVariables_from ((fun v => (v.1, infer_from v.2)) <$> vars)) [].
Proof.
  intros Hkw Hend Hu Hvars. unfold variables_deserialize, variables_text. rewrite list_text_eq.
  eapply parses_bind; [parse_a_line (items_ws kw (fun v => [ups_name u; VarName_as_str v.1])
    (fun v => [v.2]) vars (lit "END") [lit "LIST"; kw; ups_name u] [] Hkw eq_refl)|].
  eapply parses_bind.
  - apply (parses_item_lines kw _ (fun acc v => (UpsVariables_insert acc v.1 (infer_from v.2)).2)
      (fun v => [ups_name u; VarName_as_str v.1]) (fun v => [v.2])); [done|done|done|].
    intros v acc s Hv Hs. specialize (Hvars v Hv). eapply parses_bind; [parse_a_line Hs|].
    apply parses_ret.
  - assert (fold_left (fun acc v => (UpsVariables_insert acc v.1 (infer_from v.2)).2) vars
      UpsVariables_new = UpsVariables_from ((fun v => (v.1, infer_from v.2)) <$> vars)) as ->.
    { unfold UpsVariables_from. generalize UpsVariables_new as m. clear.
      induction vars as [|v vars IH]; intros m; [done|]. apply IH. }
    apply parses_footer. parse_a_line drop_ws_nil.
Qed.

Lemma CmdList_parses u cmds :
  UpsName_wf u -> (forall c, c ∈ cmds -> CmdName_wf c) ->
  parses CmdList_deserialize (cmd_list_text u cmds) (mkCmdList u cmds) [].
Proof.
  intros Hu Hc. unfold CmdList_deserialize, cmd_list_text. rewrite list_text_eq.
  eapply parses_bind; [parse_a_line (items_ws (lit "CMD") (fun c => [ups_name u; cmd_name c])
    (fun c => []) cmds (lit "END") [lit "LIST"; lit "CMD"; ups_name u] [] eq_refl eq_refl)|].
  eapply parses_bind.
  - apply (parses_item_lines (lit "CMD") _ (fun acc c => acc ++ [id c])
      (fun c => [ups_name u; cmd_name c]) (fun c => [])); [done|done|done|].
    intros c acc s Hin Hs. specialize (Hc c Hin). eapply parses_bind; [parse_a_line Hs|].
    apply parses_ret.
  - rewrite fold_snoc, list_fmap_id. apply parses_footer. parse_a_line drop_ws_nil.
Qed.

Lemma ClientList_parses u (ips : list (str * IpAddr)) :
  UpsName_wf u -> (forall ip, ip ∈ ips -> is_word ip.1 = true /\ IpAddr_parse ip.1 = Some ip.2) ->
  parses ClientList_deserialize (client_list_text u (fst <$> ips)) (mkClientList u (snd <$> ips)) [].
Proof.
  intros Hu Hip. unfold ClientList_deserialize, client_list_text.
  rewrite <- list_fmap_compose, list_text_eq. unfold compose.
  eapply parses_bind; [parse_a_line (items_ws (lit "CLIENT") (fun ip : str * IpAddr => [ups_name u; ip.1])
    (fun ip => []) ips (lit "END") [lit "LIST"; lit "CLIENT"; ups_name u] [] eq_refl eq_refl)|].
  eapply parses_bind.
  - apply (parses_item_lines (lit "CLIENT") _ (fun acc ip => acc ++ [ip.2])
      (fun ip : str * IpAddr => [ups_name u; ip.1]) (fun ip => [])); [done|done|done|].
    intros ip acc s Hin Hs. destruct (Hip ip Hin) as [Hw Hparse].
    eapply parses_bind; [parse_a_line Hs|]. rewrite Hparse. apply parses_ret.
  - rewrite fold_snoc. apply parses_footer. parse_a_line drop_ws_nil.
Qed.

Lemma parses_var_name_of_text n s : VarName_wf n ->
  parses (var_name_of_text (VarName_as_str n)) s n s.
Proof.
  intros Hn l Hl. exists l. unfold var_name_of_text.
  pose proof (@wn_try_from_str _ _ VarName_wire n (Owned (VarName_as_str n)) Hn eq_refl) as H.
  simpl in H. change (VarName_try_from_string (VarName_as_str n)) with (VarName_try_from (VarName_as_str n)) in H.
  rewrite H. done.
Qed.

Lemma EnumList_parses u n values :
  UpsName_wf u -> VarName_wf n ->
  parses EnumList_deserialize (enum_list_text u n values) (mkEnumList n u (infer_from <$> values)) [].
Proof.
  intros Hu Hn. unfold EnumList_deserialize, enum_list_text. rewrite list_text_eq.
  eapply parses_bind; [parse_a_line (items_ws (lit "ENUM") (fun v : str => [ups_name u; VarName_as_str n])
    (fun v => [v]) values (lit "END") [lit "LIST"; lit "ENUM"; ups_name u; VarName_as_str n] []
    eq_refl eq_refl)|].
  cbv beta iota. eapply parses_bind; [by apply parses_var_name_of_text|].
  eapply parses_bind.
  - apply (parses_item_lines (lit "ENUM") _ (fun acc v => acc ++ [infer_from v])
      (fun v => [ups_name u; VarName_as_str n]) (fun v => [v])); [done|done|done|].
    intros v acc s Hin Hs. eapply parses_bind; [parse_a_line Hs|]. apply parses_ret.
  - rewrite fold_snoc. apply parses_footer. parse_a_line drop_ws_nil.
Qed.

Lemma RangeList_parses u n (ranges : list (str * str)) (values : str -> Value) :
  UpsName_wf u -> VarName_wf n ->
  (forall r, r ∈ ranges -> infer_number_from r.1 = Ok (values r.1) /\
                           infer_number_from r.2 = Ok (values r.2)) ->
  parses RangeList_deserialize (range_list_text u n ranges)
    (mkRangeList u ((fun r => (values r.1, values r.2)) <$> ranges) n) [].
Proof.
  intros Hu Hn Hr. unfold RangeList_deserialize, range_list_text. rewrite list_text_eq.
  eapply parses_bind; [parse_a_line (items_ws (lit "RANGE")
    (fun v : str * str => [ups_name u; VarName_as_str n])
    (fun r => [r.1; r.2]) ranges (lit "END") [lit "LIST"; lit "RANGE"; ups_name u; VarName_as_str n] []
    eq_refl eq_refl)|].
  cbv beta iota. eapply parses_bind; [by apply parses_var_name_of_text|].
  eapply parses_bind.
  - apply (parses_item_lines (lit "RANGE") _ (fun acc r => acc ++ [(values r.1, values r.2)])
      (fun r => [ups_name u; VarName_as_str n]) (fun r => [r.1; r.2])); [done|done|done|].
    intros r acc s Hin Hs. destruct (Hr r Hin) as [H1 H2]. rewrite line_app.
    eapply parses_bind; [|apply parses_ret]. eapply parses_line_to; [|exact Hs]. cbn [foldr].
    repeat (eapply parses_bind; [parse_step|]).
    eapply parses_bind; [eapply parses_numeric_value; [exact H1|solve_scan]|].
    eapply parses_bind; [eapply parses_numeric_value; [exact H2|solve_scan]|]. apply parses_ret.
  - rewrite fold_snoc. apply parses_footer. parse_a_line drop_ws_nil.
Qed.

(** ** Lemmas: single-line responses *)

Lemma CmdDesc_parses u c d : UpsName_wf u -> CmdName_wf c ->
  parses CmdDesc_deserialize (line [lit "CMDDESC"; ups_name u; cmd_name c] [d] ++ [])
    (mkCmdDesc c u d) [].
Proof.
  intros Hu Hc. eapply parses_bind; [parse_a_line drop_ws_nil|]. apply parses_finish.
Qed.

Lemma UpsDesc_parses u d : UpsName_wf u ->
  parses UpsDesc_deserialize (line [lit "UPSDESC"; ups_name u] [d] ++ []) (mkUpsDesc d u) [].
Proof. intros Hu. eapply parses_bind; [parse_a_line drop_ws_nil|]. apply parses_finish. Qed.

Lemma UpsVar_parses u n t : UpsName_wf u -> VarName_wf n ->
  parses UpsVar_deserialize (line [lit "VAR"; ups_name u; VarName_as_str n] [t] ++ [])
    (mkUpsVar (infer_from t) n u) [].
Proof. intros Hu Hn. eapply parses_bind; [parse_a_line drop_ws_nil|]. apply parses_finish. Qed.

Lemma UpsVarDesc_parses u n d : UpsName_wf u -> VarName_wf n ->
  parses UpsVarDesc_deserialize (line [lit "DESC"; ups_name u; VarName_as_str n] [d] ++ [])
    (mkUpsVarDesc n d u) [].
Proof. intros Hu Hn. eapply parses_bind; [parse_a_line drop_ws_nil|]. apply parses_finish. Qed.

Lemma VarType_wire_word t : is_word (VarType_wire t) = true.
Proof.
  destruct t as [| | |n|]; try reflexivity.
  assert (forallb is_text_byte (VarType_wire (TString n)) && utf8_valid (VarType_wire (TString n)) = true)
    as [H1 H2]%andb_true_iff.
  { destruct (digits_text (show_nat_Z n) (show_nat_Z_digits n)) as [H1 H2]. unfold VarType_wire, VarType_fmt.
    apply andb_true_iff; split; [by rewrite forallb_app, H1|]. by apply utf8_valid_app. }
  by apply is_word_intro.
Qed.

Lemma var_types_loop_parses ts acc fuel l :
  (forall t, t ∈ ts -> VarType_wf t) -> length ts < fuel ->
  lexer_at l (foldr (fun w r => SP :: w ++ r) [LF] (VarType_wire <$> ts)) ->
  exists l', var_types_loop fuel acc l = Ok (acc ++ ts, l') /\ buffer l' = buffer l /\ lexer_at l' [].
Proof.
  revert acc fuel l. induction ts as [|t ts IH]; intros acc fuel l Hts Hf Hl;
    (destruct fuel as [|f]; [lia|]); cbn [var_types_loop].
  - destruct (token_at l _ _ _ Hl (scan_LF [])) as (t & l' & -> & Hb & Hl' & ->).
    exists l'. rewrite app_nil_r. done.
  - assert (scan (foldr (fun w r => SP :: w ++ r) [LF] (VarType_wire <$> t :: ts)) =
      ScanToken (RText (VarType_wire t)) (foldr (fun w r => SP :: w ++ r) [LF] (VarType_wire <$> ts)))
      as Hs.
    { cbn [fmap list_fmap foldr]. rewrite scan_sp. apply scan_is_word; [apply VarType_wire_word|].
      by apply ends_word_tail. }
    destruct (token_at l _ _ _ Hl Hs) as (tk & l' & -> & Hb & Hl' & i & j & -> & c & Ec & Hc).
    cbn [obind]. rewrite Ec. cbn [obind]. rewrite Hc, VarType_from_wire by (apply Hts; left).
    simpl. destruct (IH (acc ++ [t]) f l') as (l2 & -> & Hb2 & Hl2);
      [intros; apply Hts; by right|simpl in Hf; lia|done|].
    exists l2. rewrite <- app_assoc. split_and!; [done|congruence|done].
Qed.

Lemma UpsVarType_parses u n ts : UpsName_wf u -> VarName_wf n ->
  (forall t, t ∈ ts -> VarType_wf t) ->
  parses UpsVarType_deserialize (type_text u n ts) (mkUpsVarType ts n u) [].
Proof.
  intros Hu Hn Hts. unfold UpsVarType_deserialize, type_text.
  change (line (([lit "TYPE"; ups_name u; VarName_as_str n]) ++ (VarType_wire <$> ts)) []) with
    (lit "TYPE" ++ SP :: ups_name u ++ SP :: VarName_as_str n ++
      foldr (fun w r => SP :: w ++ r) [LF] (VarType_wire <$> ts)).
  repeat (eapply parses_bind; [parse_step|]).
  eapply parses_bind; [|apply parses_finish]. intros l Hl.
  destruct (var_types_loop_parses ts [] (S (length (buffer l))) l Hts) as (l' & -> & Hb & Hl');
    [|done|by exists l'].
  destruct Hl as (_ & Hd & _). apply (f_equal length) in Hd. rewrite length_drop in Hd.
  assert (length ts <= length (foldr (fun w r => SP :: w ++ r) [LF] (VarType_wire <$> ts))); [|lia].
  clear. induction ts as [|t ts IH]; [simpl; lia|]. cbn [fmap list_fmap foldr length].
  rewrite length_app. lia.
Qed.

Lemma ok_parses ts : ts <> [] -> Forall (fun t => is_word t = true) ts ->
  parses (ok_deserialize ts) (line ts [] ++ []) tt [].
Proof.
  intros Hne Hts. unfold ok_deserialize. destruct ts as [|t ts]; [done|].
  apply Forall_cons_iff in Hts as [Ht Hts]. rewrite line_app. cbn [foldr].
  eapply parses_bind; [eapply parses_line_to; [|exact drop_ws_nil]|apply parses_finish].
  cbn [cmp_literals]. eapply parses_bind.
  { eapply parses_cmp_literal, scan_is_word; [done|by apply ends_word_tail]. }
  clear Hne Ht. induction ts as [|t' ts IH]; [apply parses_ret|].
  apply Forall_cons_iff in Hts as [Ht' Hts]. cbn [cmp_literals foldr]. eapply parses_bind; [|by apply IH].
  eapply parses_cmp_literal. rewrite scan_sp. apply scan_is_word; [done|by apply ends_word_tail].
Qed.

(** ** Lemmas: printed texts are valid UTF-8 *)

Lemma is_word_valid w : is_word w = true -> utf8_valid w = true.
Proof. by intros (_ & _ & _ & ?)%is_word_inv. Qed.

Lemma quoted_valid q : utf8_valid q = true -> utf8_valid (quoted q) = true.
Proof.
  intros H. unfold quoted. rewrite utf8_valid_cons_ascii by done.
  apply utf8_valid_app; [by apply escape_spec_valid|done].
Qed.

Lemma foldr_valid (f : str -> str) xs rest :
  (forall x, x ∈ xs -> utf8_valid (f x) = true) -> utf8_valid rest = true ->
  utf8_valid (foldr (fun w r => SP :: f w ++ r) rest xs) = true.
Proof.
  intros Hx Hr. induction xs as [|x xs IH]; [done|]. cbn [foldr].
  rewrite utf8_valid_cons_ascii by done. apply utf8_valid_app; [apply Hx; left|].
  apply IH. intros y Hy. apply Hx. by right.
Qed.

Lemma line_valid ws qs :
  (forall w, w ∈ ws -> is_word w = true) -> (forall q, q ∈ qs -> utf8_valid q = true) ->
  utf8_valid (line ws qs) = true.
Proof.
  intros Hw Hq. unfold line, words.
  assert (utf8_valid (foldr (fun q r => SP :: quoted q ++ r) [LF] qs) = true) as Hqs.
  { apply foldr_valid; [|done]. intros q Hin. by apply quoted_valid, Hq. }
  destruct ws as [|w ws]; [done|].
  apply utf8_valid_app; [apply is_word_valid, Hw; left|].
  apply (foldr_valid id); [|done]. intros x Hx. apply is_word_valid, Hw. by right.
Qed.

Lemma concat_valid {I} (text : I -> str) items :
  (forall i, i ∈ items -> utf8_valid (text i) = true) -> utf8_valid (concat (text <$> items)) = true.
Proof.
  intros H. induction items as [|i items IH]; [done|]. rewrite concat_fmap_cons.
  apply utf8_valid_app; [apply H; left|]. apply IH. intros j Hj. apply H. by right.
Qed.

Lemma list_text_valid {I} head (ws qs : I -> list str) items :
  (forall w, w ∈ head -> is_word w = true) ->
  (forall i w, i ∈ items -> w ∈ ws i -> is_word w = true) ->
  (forall i q, i ∈ items -> q ∈ qs i -> utf8_valid q = true) ->
  utf8_valid (list_text head ((fun i => line (ws i) (qs i)) <$> items)) = true.
Proof.
  intros Hh Hw Hq. unfold list_text.
  assert (forall w, w ∈ lit "LIST" :: head -> is_word w = true) as Hh'
    by (intros w [->|Hin]%elem_of_cons; [done|by apply Hh]).
  apply utf8_valid_app; [|apply utf8_valid_app].
  - apply line_valid; [|by intros q ?%elem_of_nil].
    intros w [->|Hin]%elem_of_cons; [done|by apply Hh'].
  - apply concat_valid. intros i Hi. apply line_valid; eauto.
  - apply line_valid; [|by intros q ?%elem_of_nil].
    intros w [->|Hin]%elem_of_cons; [done|by apply Hh'].
Qed.

Lemma head2_words a b : is_word a = true -> is_word b = true ->
  forall w, w ∈ [a; b] -> is_word w = true.
Proof. by intros Ha Hb w [-> | ->%list_elem_of_singleton]%elem_of_cons. Qed.

Lemma head3_words a b c : is_word a = true -> is_word b = true -> is_word c = true ->
  forall w, w ∈ [a; b; c] -> is_word w = true.
Proof. intros Ha Hb Hc w [-> | Hw]%elem_of_cons; [done|by apply (head2_words b c)]. Qed.

(** From the specification to [parse_response]. *)
Lemma parse_response_of {A} (p : parser A) s a :
  utf8_valid s = true -> parses p s a [] -> parse_response p s = Ok a.
Proof.
  intros Hv Hp. destruct (Hp _ (lexer_at_new s Hv)) as (l' & E & _). unfold parse_response.
  by rewrite E.
Qed.

Lemma parse_response_map {B} (p : parser (UpsName * UpsVariables)) (f : UpsName * UpsVariables -> B) s a :
  parse_response p s = Ok a -> parse_response ('(u, m) ← p; mret (f (u, m))) s = Ok (f a).
Proof.
  unfold parse_response, mbind, parser_bind. destruct (p (Lexer_new s)) as [[[u m] l]| | |]; simpl;
    [|done..]. by intros [= <-].
Qed.

Lemma variables_text_valid kw u vars :
  is_word kw = true -> UpsName_wf u ->
  (forall v, v ∈ vars -> VarName_wf v.1 /\ utf8_valid v.2 = true) ->
  utf8_valid (variables_text kw u vars) = true.
Proof.
  intros Hkw Hu Hv.
  apply (list_text_valid _ (fun v => [kw; ups_name u; VarName_as_str v.1]) (fun v => [v.2])).
  - by intros w [->| ->%list_elem_of_singleton]%elem_of_cons.
  - intros v w Hin [-> | [->| ->%list_elem_of_singleton]%elem_of_cons]%elem_of_cons; [done|done|].
    by apply VarName_wf_word, Hv.
  - intros v q Hin ->%list_elem_of_singleton. by apply Hv.
Qed.

Lemma last_entry_fmap n (vars : list (VarName * str)) :
  last_entry n ((fun v => (v.1, infer_from v.2)) <$> vars) =
  infer_from <$> option_map snd (list.last (filter (fun v => v.1 = n) vars)).
Proof.
  unfold last_entry. induction vars as [|[k v] vars IH]; [done|].
  rewrite fmap_cons, !filter_cons. cbn [fst snd]. destruct (decide (k = n)); [|exact IH].
  rewrite !last_cons. destruct (list.last (filter _ vars)), (list.last (filter _ _)); simpl in *; congruence.
Qed.

(** ** Lemmas: safety *)

Lemma safe_var_name_of_text t : safe false (var_name_of_text t).
Proof.
  intros l s Hl Hn. unfold var_name_of_text.
  pose proof (@wn_total _ _ VarName_wire (Owned t)) as [H1 H2]. simpl in H1, H2.
  change (VarName_try_from_string t) with (VarName_try_from t) in H1, H2. destruct (VarName_try_from t); simpl; try done. split; [done|]. by exists s.
Qed.

Lemma safe_var_types_loop fuel acc l s :
  lexer_at l s -> no_bad_escape s = true -> length s < fuel ->
  match var_types_loop fuel acc l with
  | Ok (_, l') => buffer l' = buffer l /\ exists s', lexer_at l' s' /\ no_bad_escape s' = true /\
      length s' <= length s
  | Err _ => True
  | Panicked | OutOfFuel => False
  end.
Proof.
  revert acc l s. induction fuel as [|f IH]; intros acc l s Hl Hn Hf; [lia|]. cbn [var_types_loop].
  pose proof (next_token_safe l s Hl Hn) as H. pose proof (next_token_at l s Hl) as Hs.
  destruct (next_token l) as [[[t|] l']| | |] eqn:En; cbn [obind]; [| |done..].
  - destruct H as (Hb & (c & Hc) & s' & Hl' & Hn' & Hlen).
    destruct t as [i j| |i j]; [done|split; [done|]; exists s'; split_and!; [done|done|lia]|].
    rewrite Hc. cbn [obind].
    assert (utf8_valid (cow_str c) = true) as Hvc.
    { simpl in Hc. destruct (str_slice (buffer l') i j) as [w|] eqn:Ew; simplify_eq/=.
      destruct (scan s) as [|r rest|] eqn:Es; [by destruct Hs as (? & ? & _)| |by destruct Hs as (? & ?)].
      destruct Hs as (t & l2 & ? & Hr & ? & _). simplify_eq. simpl in Hr. rewrite Hb in Ew.
      rewrite Ew in Hr. injection Hr as <-. destruct Hl as (_ & _ & Hv). clear -Hv Es.
      by apply (scan_text_valid s w rest). }
    destruct (VarType_from_str_safe _ Hvc) as [H1 H2].
    destruct (VarType_from_str (cow_str c)) as [ty| | |]; simpl; [|done..].
    specialize (IH (acc ++ [ty]) l' s' Hl' Hn' ltac:(lia)).
    destruct (var_types_loop f _ l') as [[ts l2]| | |]; [|done..].
    destruct IH as (? & s2 & ? & ? & ?). split; [congruence|]. exists s2. split_and!; [done|done|lia].
  - destruct H as [? ?]. split; [done|]. exists []. split_and!; [done|done|simpl; lia].
Qed.

Lemma safe_var_types acc :
  safe false (fun l => var_types_loop (S (length (buffer l))) acc l).
Proof.
  intros l s Hl Hn. apply safe_var_types_loop; [done|done|].
  destruct Hl as (_ & Hd & _). apply (f_equal length) in Hd. rewrite length_drop in Hd. lia.
Qed.

Lemma safe_cmp_literals ts : safe false (cmp_literals ts).
Proof.
  induction ts as [|t ts IH]; [apply safe_ret|]. apply safe_weaken.
  by eapply safe_bind_strict; [apply safe_cmp_literal|].
Qed.

Lemma safe_ok t ts : safe true (ok_deserialize (t :: ts)).
Proof.
  unfold ok_deserialize. eapply safe_bind_strict; [|intros; apply safe_finish].
  apply safe_parse_line. eapply safe_bind_strict; [apply safe_cmp_literal|].
  intros _. apply safe_cmp_literals.
Qed.

#[export] Hint Resolve safe_var_name_of_text safe_var_types safe_ok : rust.

(** A safe parser returns or fails on valid text without bad escapes. *)
Lemma safe_response {A} b (p : parser A) s :
  safe b p -> utf8_valid s = true -> no_bad_escape s = true ->
  parse_response p s <> Panicked /\ parse_response p s <> OutOfFuel.
Proof.
  intros Hp Hv Hn. specialize (Hp _ s (lexer_at_new s Hv) Hn). unfold parse_response.
  by destruct (p (Lexer_new s)) as [[a l']| | |].
Qed.

Lemma safe_all :
  safe true CmdDesc_deserialize /\ safe true UpsDesc_deserialize /\ safe true UpsVar_deserialize /\
  safe true UpsVarDesc_deserialize /\ safe true UpsVarType_deserialize /\
  safe true ClientList_deserialize /\ safe true CmdList_deserialize /\
  safe true EnumList_deserialize /\ safe true RangeList_deserialize /\
  safe true RwList_deserialize /\ safe true UpsVarList_deserialize /\ safe true UpsList_deserialize.
Proof.
  unfold CmdDesc_deserialize, UpsDesc_deserialize, UpsVar_deserialize, UpsVarDesc_deserialize,
    UpsVarType_deserialize, ClientList_deserialize, CmdList_deserialize, EnumList_deserialize,
    RangeList_deserialize, RwList_deserialize, UpsVarList_deserialize, UpsList_deserialize,
    variables_deserialize. split_and!; solve_safe.
Qed.

(** ** Properties *)

(** The device list is read back. For any devices with names read from the
    wire and any valid descriptions (quotes, backslashes and line feeds
    included), parsing the text the daemon sends for [LIST UPS] gives exactly
    those devices, in order. *)
Lemma ups_list_roundtrip (ds : list UpsDevice)
  (Hds : forall d, d ∈ ds -> UpsName_wf (dev_ups_name d) /\ utf8_valid (dev_desc d) = true) :
  parse_response UpsList_deserialize (ups_list_text ds) = Ok (mkUpsList ds).
Proof.
  apply parse_response_of; [|apply UpsList_parses; intros d Hd; by apply Hds].
  apply (list_text_valid _ (fun d => [lit "UPS"; ups_name (dev_ups_name d)]) (fun d => [dev_desc d])).
  - by intros w ->%list_elem_of_singleton.
  - intros d w Hd [->| ->%list_elem_of_singleton]%elem_of_cons; [done|by apply Hds].
  - intros d q Hd ->%list_elem_of_singleton. by apply Hds.
Qed.

(** Variable lists are read back as maps. Parsing the texts of [LIST VAR]
    and [LIST RW] gives, for each name, the value inferred from the text of its
    last line; no other name is in the map. *)
Lemma var_list_roundtrip (u : UpsName) (vars : list (VarName * str))
  (Hu : UpsName_wf u) (Hv : forall v, v ∈ vars -> VarName_wf v.1 /\ utf8_valid v.2 = true) :
  exists m, parse_response UpsVarList_deserialize (variables_text (lit "VAR") u vars)
      = Ok (mkUpsVarList m u) /\
    parse_response RwList_deserialize (variables_text (lit "RW") u vars) = Ok (mkRwList m u) /\
    forall n, UpsVariables_get m n = infer_from <$> option_map snd (list.last (filter (fun v => v.1 = n) vars)).
Proof.
  exists (UpsVariables_from ((fun v => (v.1, infer_from v.2)) <$> vars)).
  assert (forall kw, is_word kw = true -> kw <> lit "END" ->
    parse_response (variables_deserialize kw) (variables_text kw u vars) =
    Ok (u, UpsVariables_from ((fun v => (v.1, infer_from v.2)) <$> vars))) as H.
  { intros kw Hkw Hne. apply parse_response_of; [|apply variables_parses; [done|done|done|by intros; apply Hv]].
    by apply variables_text_valid. }
  split_and!.
  - exact (parse_response_map _ (fun r => mkUpsVarList r.2 r.1) _ _ (H (lit "VAR") eq_refl ltac:(done))).
  - exact (parse_response_map _ (fun r => mkRwList r.2 r.1) _ _ (H (lit "RW") eq_refl ltac:(done))).
  - intros n. rewrite UpsVariables_from_lookup. apply last_entry_fmap.
Qed.

(** Enumerations and ranges are read back. The values of a [LIST ENUM]
    response are inferred from the texts in order; those of a [LIST RANGE]
    response are read as numbers, a text that is no number being the only
    reason to fail. *)
Lemma enum_range_roundtrip (u : UpsName) (n : VarName) (values : list str)
  (ranges : list (str * str)) (num : str -> Value)
  (Hu : UpsName_wf u) (Hn : VarName_wf n)
  (Hv : forall v, v ∈ values -> utf8_valid v = true)
  (Hr : forall r, r ∈ ranges -> utf8_valid r.1 = true /\ utf8_valid r.2 = true /\
          infer_number_from r.1 = Ok (num r.1) /\ infer_number_from r.2 = Ok (num r.2)) :
  parse_response EnumList_deserialize (enum_list_text u n values)
    = Ok (mkEnumList n u (infer_from <$> values)) /\
  parse_response RangeList_deserialize (range_list_text u n ranges)
    = Ok (mkRangeList u ((fun r => (num r.1, num r.2)) <$> ranges) n).
Proof.
  pose proof (VarName_wf_word n Hn) as Hnw. split.
  - apply parse_response_of; [|by apply EnumList_parses].
    apply (list_text_valid _ (fun v => [lit "ENUM"; ups_name u; VarName_as_str n]) (fun v => [v])).
    + by apply head3_words.
    + intros v. intros w _. revert w. by apply head3_words.
    + intros v q Hin ->%list_elem_of_singleton. by apply Hv.
  - apply parse_response_of; [|by apply RangeList_parses; [done|done|intros r Hin; apply Hr]].
    apply (list_text_valid _ (fun r => [lit "RANGE"; ups_name u; VarName_as_str n]) (fun r => [r.1; r.2])).
    + by apply head3_words.
    + intros v. intros w _. revert w. by apply head3_words.
    + intros r q Hin [-> | ->%list_elem_of_singleton]%elem_of_cons; by apply Hr.
Qed.

(** Command and client lists are read back, in order: every command name
    with its text, every client address as the address its text denotes. *)
Lemma cmd_client_list_roundtrip (u : UpsName) (cmds : list CmdName) (ips : list (str * IpAddr))
  (Hu : UpsName_wf u) (Hc : forall c, c ∈ cmds -> CmdName_wf c)
  (Hip : forall ip, ip ∈ ips -> is_word ip.1 = true /\ IpAddr_parse ip.1 = Some ip.2) :
  parse_response CmdList_deserialize (cmd_list_text u cmds) = Ok (mkCmdList u cmds) /\
  parse_response ClientList_deserialize (client_list_text u (fst <$> ips))
    = Ok (mkClientList u (snd <$> ips)) /\
  Forall IpAddr_wf (snd <$> ips).
Proof.
  split_and!.
  - apply parse_response_of; [|by apply CmdList_parses].
    apply (list_text_valid _ (fun c => [lit "CMD"; ups_name u; cmd_name c]) (fun c => [])).
    + by apply head2_words.
    + intros c w Hin. revert w. apply head3_words; [done|done|]. by apply is_cmd_name_word, Hc.
    + by intros c q _ ?%elem_of_nil.
  - apply parse_response_of; [|by apply ClientList_parses].
    apply (list_text_valid _ (fun ip => [lit "CLIENT"; ups_name u; ip]) (fun ip => [])).
    + by apply head2_words.
    + intros ip w [x [-> Hin]]%list_elem_of_fmap. revert w. apply head3_words; [done|done|]. by apply Hip.
    + by intros c q _ ?%elem_of_nil.
  - apply list.Forall_forall. intros ip [x [-> Hin]]%list_elem_of_fmap.
    by eapply IpAddr_parse_wf, Hip.
Qed.

(** The single-line responses are read back: descriptions of devices,
    commands and variables, values, types and the four acknowledgements. *)
Lemma get_response_roundtrip (u : UpsName) (n : VarName) (c : CmdName) (d : str) (ts : list VarType)
  (Hu : UpsName_wf u) (Hn : VarName_wf n) (Hc : CmdName_wf c) (Hd : utf8_valid d = true)
  (Hts : forall t, t ∈ ts -> VarType_wf t) :
  parse_response UpsDesc_deserialize (line [lit "UPSDESC"; ups_name u] [d]) = Ok (mkUpsDesc d u) /\
  parse_response CmdDesc_deserialize (line [lit "CMDDESC"; ups_name u; cmd_name c] [d])
    = Ok (mkCmdDesc c u d) /\
  parse_response UpsVarDesc_deserialize (line [lit "DESC"; ups_name u; VarName_as_str n] [d])
    = Ok (mkUpsVarDesc n d u) /\
  parse_response UpsVar_deserialize (line [lit "VAR"; ups_name u; VarName_as_str n] [d])
    = Ok (mkUpsVar (infer_from d) n u) /\
  parse_response UpsVarType_deserialize (type_text u n ts) = Ok (mkUpsVarType ts n u) /\
  parse_response ProtOk_deserialize (lit "OK" ++ [LF]) = Ok tt /\
  parse_response ProtOkFsd_deserialize (line [lit "OK"; lit "FSD-SET"] []) = Ok tt /\
  parse_response ProtOkDetach_deserialize (line [lit "OK"; lit "Goodbye"] []) = Ok tt /\
  parse_response ProtOkTls_deserialize (line [lit "OK"; lit "STARTTLS"] []) = Ok tt.
Proof.
  pose proof (VarName_wf_word n Hn) as Hnw. pose proof (is_cmd_name_word _ Hc) as Hcw.
  assert (forall q, q ∈ [d] -> utf8_valid q = true) as Hq by (by intros q ->%list_elem_of_singleton).
  split_and!; [ | | | | | vm_compute; reflexivity ..].
  - rewrite <- (app_nil_r (line _ _)). apply parse_response_of; [|by apply UpsDesc_parses].
    rewrite app_nil_r. apply line_valid; [by apply head2_words|done].
  - rewrite <- (app_nil_r (line _ _)). apply parse_response_of; [|by apply CmdDesc_parses].
    rewrite app_nil_r. apply line_valid; [by apply head3_words|done].
  - rewrite <- (app_nil_r (line _ _)). apply parse_response_of; [|by apply UpsVarDesc_parses].
    rewrite app_nil_r. apply line_valid; [by apply head3_words|done].
  - rewrite <- (app_nil_r (line _ _)). apply parse_response_of; [|by apply UpsVar_parses].
    rewrite app_nil_r. apply line_valid; [by apply head3_words|done].
  - apply parse_response_of; [|by apply UpsVarType_parses]. apply line_valid; [|by intros q ?%elem_of_nil].
    intros w [Hin|Hin]%elem_of_app; [by eapply head3_words in Hin|].
    apply list_elem_of_fmap in Hin as (t & -> & _). apply VarType_wire_word.
Qed.

(** C17: parsing always comes back. On any valid text in which no backslash
    stands before a non-ASCII character, every deserializer returns a response
    or an error: none panics, and no loop runs forever. *)
Theorem responses_total (s : str) (Hs : utf8_valid s = true) (He : no_bad_escape s = true) :
  let comes_back {A} (p : parser A) :=
    parse_response p s <> Panicked /\ parse_response p s <> OutOfFuel in
  comes_back CmdDesc_deserialize /\ comes_back UpsDesc_deserialize /\
  comes_back UpsVar_deserialize /\ comes_back UpsVarDesc_deserialize /\
  comes_back UpsVarType_deserialize /\ comes_back ClientList_deserialize /\
  comes_back CmdList_deserialize /\ comes_back EnumList_deserialize /\
  comes_back RangeList_deserialize /\ comes_back RwList_deserialize /\
  comes_back UpsVarList_deserialize /\ comes_back UpsList_deserialize /\
  (forall t ts, comes_back (ok_deserialize (t :: ts))).
Proof.
  destruct safe_all as (? & ? & ? & ? & ? & ? & ? & ? & ? & ? & ? & ?).
  split_and!; try (by eapply safe_response). intros t ts. eapply safe_response; [|done|done]. apply safe_ok.
Qed.

(** An acknowledgement followed by an unterminated quoted text is accepted:
    [peek] reads the lexer's error as the end of the text. *)
Lemma unterminated_tail_accepted (s : str) (Hs : utf8_valid s = true) (Hq : scan_quoted s = None) :
  parse_response ProtOk_deserialize (lit "OK" ++ LF :: DQUOTE :: s) = Ok tt.
Proof.
  assert (lexer_at (Lexer_new (lit "OK" ++ LF :: DQUOTE :: s)) (lit "OK" ++ LF :: DQUOTE :: s)) as Hl
    by (by apply lexer_at_new).
  assert (parses (parse_line (cmp_literals [lit "OK"])) (lit "OK" ++ LF :: DQUOTE :: s) tt (DQUOTE :: s))
    as Hp.
  { eapply (parses_line_to _ _ _ (DQUOTE :: s)); [|reflexivity]. eapply parses_bind; [|apply parses_ret].
    eapply parses_cmp_literal, scan_is_word; reflexivity. }
  unfold parse_response, ProtOk_deserialize, ok_deserialize, mbind, parser_bind.
  destruct (Hp _ Hl) as (l' & -> & _ & Hl'). simpl. unfold finish.
  rewrite (is_finished_at _ _ Hl'). by rewrite scan_quote, Hq.
Qed.

(** ** Witnesses *)

Definition demo_ups : UpsName := mkUpsName (lit "bx1600mi").

Lemma ups_list_roundtrip_witness :
  parse_response UpsList_deserialize (ups_list_text [mkUpsDevice demo_ups (lit "rack \ one")])
    = Ok (mkUpsList [mkUpsDevice demo_ups (lit "rack \ one")]).
Proof.
  refine (ups_list_roundtrip [mkUpsDevice demo_ups (lit "rack \ one")] _).
  intros d Hd. apply list_elem_of_singleton in Hd. rewrite Hd. split; reflexivity.
Defined.

Lemma var_list_roundtrip_witness :
  exists m, parse_response UpsVarList_deserialize
      (variables_text (lit "VAR") demo_ups [(mkVarName (Standard StandardName.UpsStatus), lit "OL")])
      = Ok (mkUpsVarList m demo_ups).
Proof.
  destruct (var_list_roundtrip demo_ups [(mkVarName (Standard StandardName.UpsStatus), lit "OL")]
    ltac:(reflexivity)) as (m & H & _).
  - intros v Hv. apply list_elem_of_singleton in Hv. rewrite Hv. split; [split|]; reflexivity.
  - exists m. exact H.
Defined.

Lemma enum_range_roundtrip_witness :
  parse_response EnumList_deserialize
    (enum_list_text demo_ups (mkVarName (Standard StandardName.UpsStatus)) [lit "1"; lit "off"])
  = Ok (mkEnumList (mkVarName (Standard StandardName.UpsStatus)) demo_ups [VInt 1; VString (lit "off")]).
Proof.
  refine (proj1 (enum_range_roundtrip demo_ups (mkVarName (Standard StandardName.UpsStatus))
    [lit "1"; lit "off"] [] (fun _ => VInt 0) _ _ _ _)).
  - reflexivity.
  - split; reflexivity.
  - intros v Hv. apply elem_of_cons in Hv as [-> | Hv]; [reflexivity|].
    apply list_elem_of_singleton in Hv. rewrite Hv. reflexivity.
  - intros r Hr. apply elem_of_nil in Hr. destruct Hr.
Defined.

Lemma cmd_client_list_roundtrip_witness :
  parse_response ClientList_deserialize (client_list_text demo_ups [lit "::1"])
    = Ok (mkClientList demo_ups [V6 [0; 0; 0; 0; 0; 0; 0; 1]%Z]).
Proof.
  refine (proj1 (proj2 (cmd_client_list_roundtrip demo_ups []
    [(lit "::1", V6 [0; 0; 0; 0; 0; 0; 0; 1]%Z)] _ _ _))).
  - reflexivity.
  - intros c Hc. apply elem_of_nil in Hc. destruct Hc.
  - intros ip Hip. apply list_elem_of_singleton in Hip. rewrite Hip. split; reflexivity.
Defined.

Lemma get_response_roundtrip_witness :
  parse_response UpsDesc_deserialize (line [lit "UPSDESC"; lit "bx1600mi"] [lit "UPS"])
    = Ok (mkUpsDesc (lit "UPS") demo_ups).
Proof.
  refine (proj1 (get_response_roundtrip demo_ups (mkVarName (Standard StandardName.UpsStatus))
    (mkCmdName (lit "test")) (lit "UPS") [ReadWrite] _ _ _ _ _)).
  - reflexivity.
  - split; reflexivity.
  - reflexivity.
  - reflexivity.
  - intros t Ht. apply list_elem_of_singleton in Ht. rewrite Ht. exact I.
Defined.

Lemma responses_total_witness :
  parse_response UpsList_deserialize (lit "BEGIN LIST UPS") <> OutOfFuel.
Proof.
  refine (proj2 (proj1 (proj2 (proj2 (proj2 (proj2 (proj2 (proj2 (proj2 (proj2 (proj2 (proj2
    (proj2 (responses_total (lit "BEGIN LIST UPS") _ _))))))))))))));
  reflexivity.
Defined.

Lemma unterminated_tail_accepted_witness :
  parse_response ProtOk_deserialize (lit "OK" ++ LF :: DQUOTE :: lit "garbage") = Ok tt.
Proof. refine (unterminated_tail_accepted (lit "garbage") _ _); reflexivity. Defined.
