(* ===== verification/Command.v ===== *)
(** * Commands to the UPS daemon

    [command.rs]: the [Serialize] implementations. [None] is a panic of
    [escape_nut_str], which valid text never reaches. *)

From S2P Require Import Prelude RustStr Numbers Errors Escape Lexer Names VarName Value.

(** The command structs. *)
Inductive Command :=
  | AttachCommand (ups : UpsName)
  | DetachCommand
  | FsdCommand (ups : UpsName)
  | GetCmdDesc (ups : UpsName) (cmd : CmdName)
  | GetVarDesc (ups : UpsName) (var : VarName)
  | GetVarType (ups : UpsName) (var : VarName)
  | GetUpsDesc (ups : UpsName)
  | GetVar (ups : UpsName) (var : VarName)
  | InstCmd (ups : UpsName) (cmd : CmdName)
  | ListClient (ups : UpsName)
  | ListCmd (ups : UpsName)
  | ListVar (ups : UpsName)
  | ListEnum (ups : UpsName) (var : VarName)
  | ListRange (ups : UpsName) (var : VarName)
  | ListRw (ups : UpsName)
  | ListUps
  | Password (password : str)
  | Username (username : str)
  | SetVariable (ups : UpsName) (var : VarName) (value : Value)
  | GetDaemonVer
  | GetProtVer
  | StartTls.

(** [format!("<prefix> {}\n", ups.as_escaped_str())]. *)
Definition format_ups (prefix : str) (ups : UpsName) : option str :=
  (fun e => prefix ++ SP :: cow_str e ++ [LF]) <$> UpsName_as_escaped_str ups.

(** [format!("<prefix> {ups_name} {arg}\n", ups.as_escaped_str(), arg)]. *)
Definition format_ups_arg (prefix : str) (ups : UpsName) (arg : str) : option str :=
  (fun e => prefix ++ SP :: cow_str e ++ SP :: arg ++ [LF]) <$> UpsName_as_escaped_str ups.

Definition AttachCommand_serialize (ups : UpsName) := format_ups (lit "LOGIN") ups.
Definition DetachCommand_serialize : str := lit "LOGOUT" ++ [LF].
Definition FsdCommand_serialize (ups : UpsName) := format_ups (lit "FSD") ups.
Definition GetCmdDesc_serialize (ups : UpsName) (cmd : CmdName) :=
  format_ups_arg (lit "GET CMDDESC") ups (CmdName_fmt cmd).
Definition GetVarDesc_serialize (ups : UpsName) (var : VarName) :=
  format_ups_arg (lit "GET DESC") ups (VarName_as_str var).
Definition GetVarType_serialize (ups : UpsName) (var : VarName) :=
  format_ups_arg (lit "GET TYPE") ups (VarName_as_str var).
Definition GetUpsDesc_serialize (ups : UpsName) := format_ups (lit "GET UPSDESC") ups.
Definition GetVar_serialize (ups : UpsName) (var : VarName) :=
  format_ups_arg (lit "GET VAR") ups (VarName_as_str var).
Definition InstCmd_serialize (ups : UpsName) (cmd : CmdName) :=
  format_ups_arg (lit "INSTCMD") ups (CmdName_fmt cmd).
Definition ListClient_serialize (ups : UpsName) := format_ups (lit "LIST CLIENT") ups.
Definition ListCmd_serialize (ups : UpsName) := format_ups (lit "LIST CMD") ups.
Definition ListVar_serialize (ups : UpsName) := format_ups (lit "LIST VAR") ups.
Definition ListEnum_serialize (ups : UpsName) (var : VarName) :=
  format_ups_arg (lit "LIST ENUM") ups (VarName_as_str var).
Definition ListRange_serialize (ups : UpsName) (var : VarName) :=
  format_ups_arg (lit "LIST RANGE") ups (VarName_as_str var).
Definition ListRw_serialize (ups : UpsName) := format_ups (lit "LIST RW") ups.
Definition ListUps_serialize : str := lit "LIST UPS" ++ [LF].
Definition Password_serialize (password : str) : str := lit "PASSWORD " ++ password ++ [LF].
Definition Username_serialize (username : str) : str := lit "USERNAME " ++ username ++ [LF].

(** [format!("SET VAR {ups_name} {var_name} \"{value}\"\n", ...)]. *)
Definition SetVariable_serialize (ups : UpsName) (var : VarName) (value : Value) : option str :=
  match UpsName_as_escaped_str ups, Value_as_escaped_str value with
  | Some ups_name, Some value =>
      Some (lit "SET VAR " ++ cow_str ups_name ++ SP :: VarName_as_str var ++
            SP :: DQUOTE :: cow_str value ++ [DQUOTE; LF])
  | _, _ => None
  end.

Definition GetDaemonVer_serialize : str := lit "VER" ++ [LF].
Definition GetProtVer_serialize : str := lit "NETVER" ++ [LF].
Definition StartTls_serialize : str := lit "STARTTLS" ++ [LF].

Definition serialize (c : Command) : option str :=
  match c with
  | AttachCommand ups => AttachCommand_serialize ups
  | DetachCommand => Some DetachCommand_serialize
  | FsdCommand ups => FsdCommand_serialize ups
  | GetCmdDesc ups cmd => GetCmdDesc_serialize ups cmd
  | GetVarDesc ups var => GetVarDesc_serialize ups var
  | GetVarType ups var => GetVarType_serialize ups var
  | GetUpsDesc ups => GetUpsDesc_serialize ups
  | GetVar ups var => GetVar_serialize ups var
  | InstCmd ups cmd => InstCmd_serialize ups cmd
  | ListClient ups => ListClient_serialize ups
  | ListCmd ups => ListCmd_serialize ups
  | ListVar ups => ListVar_serialize ups
  | ListEnum ups var => ListEnum_serialize ups var
  | ListRange ups var => ListRange_serialize ups var
  | ListRw ups => ListRw_serialize ups
  | ListUps => Some ListUps_serialize
  | Password password => Some (Password_serialize password)
  | Username username => Some (Username_serialize username)
  | SetVariable ups var value => SetVariable_serialize ups var value
  | GetDaemonVer => Some GetDaemonVer_serialize
  | GetProtVer => Some GetProtVer_serialize
  | StartTls => Some StartTls_serialize
  end.

(** ** Specification *)

(** The text of a command that its sender chooses freely. *)
Definition free_text (c : Command) : str :=
  match c with
  | Password s | Username s => s
  | SetVariable _ _ (VString s) => s
  | _ => []
  end.

(** The names are ones the constructors accept, the free text is valid. *)
Definition Command_wf (c : Command) : Prop :=
  let ups_wf u := is_ups_name (ups_name u) = Ok tt /\ utf8_valid (ups_name u) = true in
  match c with
  | AttachCommand u | FsdCommand u | GetUpsDesc u | ListClient u | ListCmd u | ListVar u | ListRw u =>
      ups_wf u
  | GetCmdDesc u c | InstCmd u c => ups_wf u /\ CmdName_wf c
  | GetVarDesc u v | GetVarType u v | GetVar u v | ListEnum u v | ListRange u v =>
      ups_wf u /\ VarName_wf v
  | SetVariable u v value => ups_wf u /\ VarName_wf v /\
      match value with VString s => utf8_valid s = true | _ => True end
  | Password s | Username s => utf8_valid s = true
  | _ => True
  end.

Definition lf_count (s : str) : nat := length (filter (fun c => c = LF) s).

(** ** Lemmas *)

Lemma lf_count_app a b : lf_count (a ++ b) = lf_count a + lf_count b.
Proof. unfold lf_count. by rewrite list.filter_app, length_app. Qed.

Lemma lf_count_cons c s : lf_count (c :: s) = (if decide (c = LF) then 1 else 0) + lf_count s.
Proof. unfold lf_count. rewrite filter_cons. by destruct (decide (c = LF)). Qed.

Lemma lf_count_text w : forallb is_text_byte w = true -> lf_count w = 0.
Proof.
  induction w as [|c w IH]; [done|]. cbn [forallb]. intros H. bool_to_prop. rewrite lf_count_cons, IH by done.
  rewrite decide_False; [done|]. by intros ->.
Qed.

Lemma lf_count_escape s : lf_count (escape_spec s) = lf_count s.
Proof.
  induction s as [|c s IH]; [done|]. cbn [escape_spec]. rewrite (lf_count_cons c s).
  destruct (needs_escape c); rewrite !lf_count_cons, IH; done.
Qed.

Lemma lf_count_zero s : lf_count s = 0 <-> LF ∉ s.
Proof.
  induction s as [|c s IH]; [split; [intros _; apply not_elem_of_nil|done]|].
  rewrite lf_count_cons, not_elem_of_cons. destruct (decide (c = LF)) as [->|]; simpl.
  - split; [done|]. by intros [].
  - rewrite IH. split; [intros ?; split; congruence|by intros [_ ?]].
Qed.

Lemma ups_escaped u : is_ups_name (ups_name u) = Ok tt -> utf8_valid (ups_name u) = true ->
  exists e, UpsName_as_escaped_str u = Some e /\ cow_str e = escape_spec (ups_name u) /\
    lf_count (cow_str e) = 0 /\ utf8_valid (cow_str e) = true.
Proof.
  intros Hu Hv. unfold UpsName_as_escaped_str. pose proof (escape_nut_str_str _ Hv) as He.
  destruct (escape_nut_str (ups_name u)) as [e|]; simplify_eq/=. exists e.
  apply is_ups_name_ok in Hu as [_ Hu]. split_and!; [done|done| |].
  - rewrite He, lf_count_escape. by apply lf_count_text.
  - rewrite He. by apply escape_spec_valid.
Qed.

(** A command is one line when its arguments hold no line feed. *)
Definition one_line (o : option str) (free : str) : Prop :=
  exists l, o = Some (l ++ [LF]) /\ lf_count l = lf_count free /\ utf8_valid l = true.

Lemma format_ups_line prefix u :
  is_ups_name (ups_name u) = Ok tt -> utf8_valid (ups_name u) = true ->
  lf_count prefix = 0 -> utf8_valid prefix = true -> one_line (format_ups prefix u) [].
Proof.
  intros Hu Hv Hp Hpv. destruct (ups_escaped u Hu Hv) as (e & He & _ & Hl & Hve).
  exists (prefix ++ SP :: cow_str e). unfold format_ups. rewrite He. split_and!.
  - simpl. by rewrite <- app_assoc.
  - rewrite lf_count_app, lf_count_cons, Hp, Hl. done.
  - by apply utf8_valid_app.
Qed.

Lemma format_ups_arg_line prefix u arg :
  is_ups_name (ups_name u) = Ok tt -> utf8_valid (ups_name u) = true ->
  lf_count prefix = 0 -> utf8_valid prefix = true -> is_word arg = true ->
  one_line (format_ups_arg prefix u arg) [].
Proof.
  intros Hu Hv Hp Hpv Ha. destruct (ups_escaped u Hu Hv) as (e & He & _ & Hl & Hve).
  apply is_word_inv in Ha as (_ & Hat & _ & Hav).
  exists (prefix ++ SP :: cow_str e ++ SP :: arg). unfold format_ups_arg. rewrite He. split_and!.
  - simpl. rewrite <- app_assoc. simpl. by rewrite <- app_assoc.
  - rewrite lf_count_app, lf_count_cons, lf_count_app, lf_count_cons, Hp, Hl, lf_count_text by done. done.
  - apply utf8_valid_app; [done|]. rewrite utf8_valid_cons_ascii by done. by apply utf8_valid_app.
Qed.

Lemma VarName_word v : VarName_wf v -> is_word (VarName_as_str v) = true.
Proof. exact (@wn_wf_word _ _ VarName_wire v). Qed.

Lemma ascii_no_lf s : forallb (fun c => is_ascii_digit c || in_range "+"%byte "z"%byte c) s = true ->
  lf_count s = 0 /\ utf8_valid s = true.
Proof.
  intros H. rewrite forallb_forall in H. split.
  - apply lf_count_zero. intros Hin%list_elem_of_In. by specialize (H _ Hin).
  - apply utf8_valid_ascii, forallb_forall. intros c Hc. specialize (H c Hc).
    pose proof (forall_byte (fun c => negb (is_ascii_digit c || in_range "+"%byte "z"%byte c) || is_ascii c)
      ltac:(vm_compute; reflexivity) c) as Hb. simpl in Hb. by rewrite H in Hb.
Qed.

Lemma digits_plain ds : forallb is_ascii_digit ds = true ->
  forallb (fun c => is_ascii_digit c || in_range "+"%byte "z"%byte c) ds = true.
Proof.
  rewrite !forallb_forall. intros H c Hc. by rewrite (H c Hc).
Qed.

Lemma format_f64_2_plain x : lf_count (format_f64_2 x) = 0 /\ utf8_valid (format_f64_2 x) = true.
Proof.
  assert (forall (sign : bool) v, forallb (fun c => is_ascii_digit c || in_range "+"%byte "z"%byte c)
    ((if sign then ["-"%byte] else []) ++ show_nat_Z (v / 100) ++ ["."%byte] ++
    [digit_byte (v / 10 mod 10); digit_byte (v mod 10)]) = true) as Hshow.
  { intros sign v. rewrite !forallb_app. rewrite (digits_plain _ (show_nat_Z_digits _)).
    destruct (digit_byte_spec (v / 10 mod 10)) as [_ H1]; [apply Z.mod_pos_bound; lia|].
    destruct (digit_byte_spec (v mod 10)) as [_ H2]; [apply Z.mod_pos_bound; lia|].
    cbn [forallb]. rewrite H1, H2. by destruct sign. }
  apply ascii_no_lf. destruct x as [s|s| |s m e]; unfold format_f64_2.
  - apply Hshow.
  - by destruct s.
  - done.
  - apply Hshow.
Qed.

Lemma show_Z_no_lf z : lf_count (show_Z z) = 0 /\ utf8_valid (show_Z z) = true.
Proof.
  apply ascii_no_lf. unfold show_Z. pose proof (digits_plain _ (show_nat_Z_digits (- z))) as H1.
  pose proof (digits_plain _ (show_nat_Z_digits z)) as H2. destruct (Z.ltb z 0); [|done].
  cbn [forallb]. by rewrite H1.
Qed.

Lemma value_escaped v (Hv : match v with VString s => utf8_valid s = true | _ => True end) :
  exists e, Value_as_escaped_str v = Some e /\ utf8_valid (cow_str e) = true /\
    lf_count (cow_str e) = match v with VString s => lf_count s | _ => 0 end.
Proof.
  destruct v as [x|z|s]; simpl.
  - eexists. split; [done|]. simpl. by destruct (format_f64_2_plain x).
  - eexists. split; [done|]. simpl. by destruct (show_Z_no_lf z).
  - pose proof (escape_nut_str_str s Hv) as He. destruct (escape_nut_str s) as [e|]; simplify_eq/=.
    exists e. split; [done|]. rewrite He, lf_count_escape. split; [by apply escape_spec_valid|done].
Qed.

Lemma serialize_line c : Command_wf c -> one_line (serialize c) (free_text c).
Proof.
  destruct c; simpl; intros Hwf; repeat match goal with H : _ /\ _ |- _ => destruct H end;
    try (by apply format_ups_line);
    try (apply format_ups_arg_line; first [done | by apply is_cmd_name_word | by apply VarName_word]).
  - by exists (lit "LOGOUT").
  - by exists (lit "LIST UPS").
  - exists (lit "PASSWORD " ++ password). split_and!; [by rewrite <- app_assoc|by rewrite lf_count_app|].
    by apply utf8_valid_app.
  - exists (lit "USERNAME " ++ username). split_and!; [by rewrite <- app_assoc|by rewrite lf_count_app|].
    by apply utf8_valid_app.
  - destruct (ups_escaped ups) as (e & He & _ & Hl & Hve); [done|done|].
    destruct (value_escaped value) as (ev & Hev & Hvv & Hvl); [done|].
    unfold SetVariable_serialize. rewrite He, Hev.
    assert (is_word (VarName_as_str var) = true) as Hw by (by apply VarName_word).
    apply is_word_inv in Hw as (_ & Hwt & _ & Hwv).
    exists (lit "SET VAR " ++ cow_str e ++ SP :: VarName_as_str var ++ SP :: DQUOTE :: cow_str ev ++ [DQUOTE]).
    split_and!.
    + do 4 (rewrite <- ?app_assoc; cbn [app]). done.
    + rewrite !lf_count_app, !lf_count_cons, !lf_count_app, !lf_count_cons, !lf_count_app.
      rewrite Hl, Hvl, (lf_count_text _ Hwt). destruct value; simpl; rewrite ?Nat.add_0_r; done.
    + repeat first [apply utf8_valid_app; [first [done | reflexivity]|] | rewrite utf8_valid_cons_ascii by done].
      done.
  - by exists (lit "VER").
  - by exists (lit "NETVER").
  - by exists (lit "STARTTLS").
Qed.

(** ** Properties *)

(** C24: a command is exactly one line. Every command built from names the
    constructors accept serializes without panic to valid text that ends in a
    line feed, and holds a line feed before its end exactly for those in the
    free text of a variable's value, a user name or a password: none otherwise.
    (The daemon reads one command per line, so a line feed in that text starts
    another command.) *)
Theorem command_one_line (c : Command) (Hc : Command_wf c) :
  exists l, serialize c = Some (l ++ [LF]) /\ utf8_valid l = true /\
    lf_count l = lf_count (free_text c) /\
    (LF ∉ l <-> LF ∉ free_text c).
Proof.
  destruct (serialize_line c Hc) as (l & Hs & Hl & Hv). exists l. split_and!; [done|done|done|].
  by rewrite <- !lf_count_zero, Hl.
Qed.

Lemma command_one_line_witness :
  exists l, serialize (SetVariable (mkUpsName (lit "ups")) (mkVarName (Custom (lit "a.b")))
      (VString (lit "x" ++ LF :: lit "FSD ups"))) = Some (l ++ [LF]) /\ lf_count l = 1.
Proof.
  destruct (command_one_line (SetVariable (mkUpsName (lit "ups")) (mkVarName (Custom (lit "a.b")))
    (VString (lit "x" ++ LF :: lit "FSD ups")))) as (l & H1 & _ & H2 & _).
  - split; [split; reflexivity|]. split; [split; vm_compute; reflexivity|reflexivity].
  - exists l. split; [exact H1|exact H2].
Defined.
