(* ===== verification/Client.v ===== *)
(** * The protocol client

    [client/client_base.rs], [client/client_auth.rs] and the call macro of
    [client/client_pool.rs]. A connection is the text sent so far, the bytes
    that arrive from the daemon within the time-out, and whether the daemon
    closes after them; a read that neither finds a line feed nor the end waits,
    and the time-out ends it. *)

From S2P Require Import Prelude RustStr Numbers Errors Escape Lexer Names VarName Value.
From S2P Require Import ParserUtils Ip VarType UpsVariables Response Command.

(** ** Connections *)

Record Stream := mkStream {
  sent : str;
  incoming : str;
  eof : bool;                       (** the daemon closes after [incoming] *)
  write_error : option ErrorKind;   (** what the next write fails with *)
}.

Inductive polled (A : Type) :=
  | Ready (a : A)
  | Pending.
#[global] Arguments Ready {A} a.
#[global] Arguments Pending {A}.

Definition with_incoming (s : Stream) (i : str) : Stream :=
  mkStream (sent s) i (eof s) (write_error s).

(** [write_all] and [flush]. *)
Definition write_all (s : Stream) (bytes : str) : outcome ErrorKind unit * Stream :=
  match write_error s with
  | Some e => (Err e, s)
  | None => (Ok tt, mkStream (sent s ++ bytes) (incoming s) (eof s) (write_error s))
  end.

Definition InvalidData : ErrorKind := IOError (lit "stream did not contain valid UTF-8").

(** [BufReader::read_line]: appends a line, its line feed included, or what is
    left at the end; the number of bytes read. *)
Definition read_line (s : Stream) (buf : str) : polled (outcome ErrorKind (nat * str)) * Stream :=
  let line := take_while (fun c => negb (bool_decide (c = LF))) (incoming s) in
  let finish read rest :=
    (Ready (if utf8_valid read then Ok (length read, buf ++ read) else Err InvalidData),
     with_incoming s rest) in
  match drop_while (fun c => negb (bool_decide (c = LF))) (incoming s) with
  | c :: rest => finish (line ++ [c]) rest
  | [] => if eof s then finish line [] else (Pending, with_incoming s [])
  end.

(** ** [NutClient] *)

Definition LIST_START : str := lit "BEGIN LIST".
Definition LIST_END : str := lit "END LIST".
Definition PROT_ERR : str := lit "ERR".

(** The [loop] of [inner_send_raw]. *)
Fixpoint list_loop (fuel : nat) (s : Stream) (response_buf : str) (start_pos : nat)
    : polled (outcome ErrorKind str) * Stream :=
  match fuel with
  | O => (Ready OutOfFuel, s)
  | S f =>
      match read_line s response_buf with
      | (Pending, s) => (Pending, s)
      | (Ready (Ok (read, response_buf)), s) =>
          match str_from response_buf start_pos with
          | None => (Ready Panicked, s)
          | Some line =>
              if starts_with LIST_END line then (Ready (Ok response_buf), s)
              else list_loop f s response_buf (start_pos + read)
          end
      | (Ready (Err e), s) => (Ready (Err e), s)
      | (Ready Panicked, s) => (Ready Panicked, s)
      | (Ready OutOfFuel, s) => (Ready OutOfFuel, s)
      end
  end.

(** Every line of the loop consumes a byte unless the end is reached. *)
Definition inner_send_raw (s : Stream) (send : str) : polled (outcome ErrorKind str) * Stream :=
  match write_all s send with
  | (Err e, s) => (Ready (Err e), s)
  | (_, s) =>
      match read_line s [] with
      | (Pending, s) => (Pending, s)
      | (Ready (Ok (start_pos, response_buf)), s) =>
          if starts_with LIST_START response_buf then
            list_loop (S (length (incoming s))) s response_buf start_pos
          else
            match strip_prefix PROT_ERR response_buf with
            | Some prot_err => (Ready (Err (ProtocolErr (ProtocolError_from (trim prot_err)))), s)
            | None => (Ready (Ok response_buf), s)
            end
      | (Ready (Err e), s) => (Ready (Err e), s)
      | (Ready Panicked, s) => (Ready Panicked, s)
      | (Ready OutOfFuel, s) => (Ready OutOfFuel, s)
      end
  end.

(** A computation on a connection. *)
Definition io (A : Type) : Type := Stream -> outcome ErrorKind A * Stream.

#[global] Instance io_ret : MRet io := fun A a s => (Ok a, s).
#[global] Instance io_bind : MBind io := fun A B f m s =>
  match m s with
  | (Ok a, s) => f a s
  | (Err e, s) => (Err e, s)
  | (Panicked, s) => (Panicked, s)
  | (OutOfFuel, s) => (OutOfFuel, s)
  end.

Definition io_err {A} (e : ErrorKind) : io A := fun s => (Err e, s).

(** [send_raw]: the time-out ends a read that waits and a loop that does not end. *)
Definition send_raw (send : str) : io str := fun s =>
  match inner_send_raw s send with
  | (Pending, s) => (Err RequestTimeout, s)
  | (Ready OutOfFuel, s) => (Err RequestTimeout, s)
  | (Ready r, s) => (r, s)
  end.

Definition send {R} (p : parser R) (command : option str) : io R :=
  match command with
  | None => fun s => (Panicked, s)
  | Some command =>
      response ← send_raw command;
      if bool_decide (response = []) then io_err EmptyResponse
      else fun s => (parse_response p response, s)
  end.

(** [get_protver] and [get_ver]. *)
Definition send_trimmed (command : str) : io str :=
  response ← send_raw command;
  if bool_decide (response = []) then io_err EmptyResponse
  else mret (trim response).

Definition get_protver : io str := send_trimmed GetProtVer_serialize.
Definition get_ver : io str := send_trimmed GetDaemonVer_serialize.

Definition is_open : Stream -> bool * Stream := fun s =>
  match send_raw GetProtVer_serialize s with
  | (Ok response, s) => (negb (bool_decide (response = [])), s)
  | (_, s) => (false, s)
  end.

Definition get_cmd_desc (ups : UpsName) (cmd : CmdName) : io CmdDesc :=
  send CmdDesc_deserialize (GetCmdDesc_serialize ups cmd).
Definition get_ups_desc (ups : UpsName) : io UpsDesc :=
  send UpsDesc_deserialize (GetUpsDesc_serialize ups).
Definition get_var (ups : UpsName) (var : VarName) : io UpsVar :=
  send UpsVar_deserialize (GetVar_serialize ups var).
Definition get_var_type (ups : UpsName) (var : VarName) : io UpsVarType :=
  send UpsVarType_deserialize (GetVarType_serialize ups var).
Definition get_var_desc (ups : UpsName) (var : VarName) : io UpsVarDesc :=
  send UpsVarDesc_deserialize (GetVarDesc_serialize ups var).
Definition list_client (ups : UpsName) : io ClientList :=
  send ClientList_deserialize (ListClient_serialize ups).
Definition list_cmd (ups : UpsName) : io CmdList :=
  send CmdList_deserialize (ListCmd_serialize ups).
Definition list_enum (ups : UpsName) (var : VarName) : io EnumList :=
  send EnumList_deserialize (ListEnum_serialize ups var).
Definition list_range (ups : UpsName) (var : VarName) : io RangeList :=
  send RangeList_deserialize (ListRange_serialize ups var).
Definition list_rw (ups : UpsName) : io RwList :=
  send RwList_deserialize (ListRw_serialize ups).
Definition list_ups : io UpsList := send UpsList_deserialize (Some ListUps_serialize).
Definition list_var (ups : UpsName) : io UpsVarList :=
  send UpsVarList_deserialize (ListVar_serialize ups).

(** ** [NutAuthClient] *)

Definition authenticate (username password : str) : io unit :=
  send ProtOk_deserialize (Some (Username_serialize username));;
  send ProtOk_deserialize (Some (Password_serialize password)).

Definition attach (ups : UpsName) : io unit :=
  send ProtOk_deserialize (AttachCommand_serialize ups).
Definition fsd (ups : UpsName) : io unit :=
  send ProtOkFsd_deserialize (FsdCommand_serialize ups).
Definition set_var (ups : UpsName) (var : VarName) (value : Value) : io unit :=
  send ProtOk_deserialize (SetVariable_serialize ups var value).
Definition instcmd (ups : UpsName) (cmd : CmdName) : io unit :=
  send ProtOk_deserialize (InstCmd_serialize ups cmd).

(** [writer.shutdown()]: no byte is sent; an error of the socket is reported. *)
Definition shutdown : io unit := fun s =>
  match write_error s with Some e => (Err e, s) | None => (Ok tt, s) end.

(** [close] and [detach]. *)
Definition auth_close : io unit :=
  send ProtOkDetach_deserialize (Some DetachCommand_serialize);;
  shutdown.

(** [NutClient::connect_with_tls] up to the handshake. *)
Definition starttls : io unit := send ProtOkTls_deserialize (Some StartTls_serialize).

(** ** [impl_pooled_call!]

    The guards taken from the pool are numbered; a call ends by releasing its
    guard (the connection goes back to the pool) or by dropping it. *)

Inductive pool_event := EvGet | EvGetChecked | EvRelease | EvDrop.

#[global] Instance pool_event_eq_dec : EqDecision pool_event.
Proof. solve_decision. Defined.

(** The errors after which the connection is dropped, and retried. *)
Definition drops_client (e : ErrorKind) : bool :=
  match e with
  | IOError _ | ConnectionPoolClosed | EmptyResponse | RequestTimeout => true
  | _ => false
  end.
Definition retries (e : ErrorKind) : bool :=
  match e with IOError _ | EmptyResponse | RequestTimeout => true | _ => false end.

(** [@action]: the call on one guard. *)
Definition pooled_action {A} (r : outcome ErrorKind A) : outcome ErrorKind A * list pool_event :=
  match r with
  | Ok a => (Ok a, [EvRelease])
  | Err e => (Err e, [if drops_client e then EvDrop else EvRelease])
  | r => (r, [EvDrop])
  end.

(** [get] and [get_checked] give a guard or the pool's error; [first] and
    [second] are the results of the call on each. *)
Definition pooled_call {A} (get get_checked : option ErrorKind) (first second : outcome ErrorKind A)
    : outcome ErrorKind A * list pool_event :=
  match get with
  | Some err => (Err err, [])
  | None =>
      match pooled_action first with
      | (Err err, evs) =>
          if retries err then
            match get_checked with
            | Some err => (Err err, EvGet :: evs)
            | None => let '(r, evs2) := pooled_action second in (r, EvGet :: evs ++ EvGetChecked :: evs2)
            end
          else (Err err, EvGet :: evs)
      | (r, evs) => (r, EvGet :: evs)
      end
  end.

(** ** Specification *)

(** A text of one line. *)
Definition is_line (i : str) : Prop :=
  exists l, i = l ++ [LF] /\ (LF ∉ l) /\ utf8_valid l = true.

(** A line of a list response before its last one. *)
Definition is_item_line (i : str) : Prop := is_line i /\ starts_with LIST_END i = false.

Definition not_lf (c : byte) : bool := negb (bool_decide (c = LF)).

(** ** Lemmas: reading *)

Lemma not_lf_forallb l : LF ∉ l -> forallb not_lf l = true.
Proof.
  intros H. apply forallb_forall. intros c Hc. unfold not_lf. rewrite bool_decide_eq_false_2; [done|].
  intros ->. apply H. by apply list_elem_of_In.
Qed.

Lemma read_line_line s buf i rest :
  is_line i -> incoming s = i ++ rest ->
  read_line s buf = (Ready (Ok (length i, buf ++ i)), with_incoming s rest).
Proof.
  intros (l & -> & Hl & Hv) Hi. unfold read_line. rewrite Hi, <- app_assoc. fold not_lf.
  pose proof (not_lf_forallb l Hl) as Hf. rewrite take_while_app, drop_while_app by done.
  simpl. rewrite app_nil_r. by rewrite utf8_valid_app.
Qed.

Lemma read_line_eof s buf : incoming s = [] -> eof s = true ->
  read_line s buf = (Ready (Ok (0, buf ++ [])), with_incoming s []).
Proof. intros Hi He. unfold read_line. by rewrite Hi, He. Qed.

Lemma is_line_valid i : is_line i -> utf8_valid i = true.
Proof. intros (l & -> & _ & Hv). by apply utf8_valid_app. Qed.

Lemma is_line_length i : is_line i -> 0 < length i.
Proof. intros (l & -> & _). rewrite length_app. simpl. lia. Qed.

Lemma str_from_app buf i : utf8_valid i = true -> str_from (buf ++ i) (length buf) = Some i.
Proof.
  intros Hv. unfold str_from. rewrite is_char_boundary_valid.
  - by rewrite drop_app_length.
  - rewrite length_app. lia.
  - by rewrite drop_app_length.
Qed.

Lemma with_incoming_twice s a b : with_incoming (with_incoming s a) b = with_incoming s b.
Proof. done. Qed.

(** The loop reads up to the line that ends the list, and no further. *)
Lemma list_loop_reads items last rest s buf fuel :
  Forall is_item_line items -> is_line last -> starts_with LIST_END last = true ->
  incoming s = concat items ++ last ++ rest -> length items < fuel ->
  list_loop fuel s buf (length buf) =
  (Ready (Ok (buf ++ concat items ++ last)), with_incoming s rest).
Proof.
  intros Hitems Hlast Hend. revert s buf fuel.
  induction Hitems as [|i items [Hi Hni] Hitems IH]; intros s buf fuel Hs Hf;
    (destruct fuel as [|f]; [lia|]); cbn [list_loop].
  - simpl in Hs. rewrite (read_line_line s buf last rest Hlast Hs).
    rewrite str_from_app by (by apply is_line_valid). by rewrite Hend.
  - simpl concat in *. rewrite <- app_assoc in Hs.
    rewrite (read_line_line s buf i _ Hi Hs). rewrite str_from_app by (by apply is_line_valid).
    rewrite Hni. rewrite <- length_app. simpl in Hf.
    rewrite (IH (with_incoming s (concat items ++ last ++ rest)) (buf ++ i) f eq_refl ltac:(lia)).
    by rewrite <- !app_assoc.
Qed.

(** Without that line, and the daemon gone, it never ends. *)
Lemma list_loop_eof_spins s buf fuel :
  incoming s = [] -> eof s = true -> (list_loop fuel s buf (length buf)).1 = Ready OutOfFuel.
Proof.
  revert s buf. induction fuel as [|f IH]; intros s buf Hi He; [done|]. cbn [list_loop].
  rewrite (read_line_eof s buf Hi He), app_nil_r. rewrite <- (app_nil_r buf) at 1.
  rewrite str_from_app by done. simpl. rewrite Nat.add_0_r. by apply IH.
Qed.

Lemma list_loop_never_ends items s buf fuel :
  Forall is_item_line items -> incoming s = concat items -> eof s = true ->
  (list_loop fuel s buf (length buf)).1 = Ready OutOfFuel.
Proof.
  intros Hitems. revert s buf fuel.
  induction Hitems as [|i items [Hi Hni] Hitems IH]; intros s buf fuel Hs He;
    [by apply list_loop_eof_spins|].
  destruct fuel as [|f]; [done|]. cbn [list_loop]. simpl in Hs.
  rewrite (read_line_line s buf i _ Hi Hs). rewrite str_from_app by (by apply is_line_valid).
  rewrite Hni, <- length_app. by apply IH.
Qed.

(** Every line is at least one byte, so the fuel of [inner_send_raw] is enough. *)
Lemma items_fuel items r : Forall is_item_line items -> length items <= length (concat items ++ r).
Proof.
  induction 1 as [|i items [Hi _] _ IH]; simpl; [lia|]. rewrite <- app_assoc, length_app.
  apply is_line_length in Hi. lia.
Qed.

Lemma write_all_ok s c : write_error s = None ->
  write_all s c = (Ok tt, mkStream (sent s ++ c) (incoming s) (eof s) None).
Proof. intros H. unfold write_all. by rewrite H. Qed.

(** A list response followed by [rest]. *)
Lemma send_raw_list s c first items last rest :
  write_error s = None -> is_line first -> starts_with LIST_START first = true ->
  Forall is_item_line items -> is_line last -> starts_with LIST_END last = true ->
  incoming s = first ++ concat items ++ last ++ rest ->
  send_raw c s = (Ok (first ++ concat items ++ last), mkStream (sent s ++ c) rest (eof s) None).
Proof.
  intros Hw Hf Hfs Hit Hl Hle Hi. unfold send_raw, inner_send_raw. rewrite write_all_ok by done.
  rewrite (read_line_line _ [] first (concat items ++ last ++ rest) Hf) by done. simpl app.
  rewrite Hfs. rewrite (list_loop_reads items last rest); [done|done|done|done|done|].
  simpl. pose proof (items_fuel items (last ++ rest) Hit). lia.
Qed.

(** A single line that starts no list and is no error. *)
Lemma send_raw_line s c i rest :
  write_error s = None -> is_line i -> starts_with LIST_START i = false -> strip_prefix PROT_ERR i = None ->
  incoming s = i ++ rest ->
  send_raw c s = (Ok i, mkStream (sent s ++ c) rest (eof s) None).
Proof.
  intros Hw Hl Hs He Hi. unfold send_raw, inner_send_raw. rewrite write_all_ok by done.
  rewrite (read_line_line _ [] i rest Hl) by done. simpl app. by rewrite Hs, He.
Qed.

Lemma line_is_line ws qs :
  (forall w, w ∈ ws -> is_word w = true) -> (forall q, q ∈ qs -> utf8_valid q = true /\ LF ∉ q) ->
  is_line (line ws qs).
Proof.
  intros Hw Hq.
  assert (forall q, LF ∉ q -> LF ∉ quoted q) as Hquoted.
  { intros q H. apply lf_count_zero. unfold quoted. rewrite lf_count_cons, lf_count_app, lf_count_escape.
    by apply lf_count_zero in H as ->. }
  exists (words ws (foldr (fun q r => SP :: quoted q ++ r) [] qs)). split_and!.
  - unfold line. destruct ws as [|w ws]; unfold words; rewrite <- ?app_assoc, ?foldr_words_app;
      by rewrite foldr_quoted_app.
  - assert (LF ∉ foldr (fun q r => SP :: quoted q ++ r) [] qs) as Hqs.
    { induction qs as [|q qs IH]; [apply not_elem_of_nil|]. cbn [foldr].
      intros [? | [? | ?]%elem_of_app]%elem_of_cons; [done| |].
      - by apply (Hquoted q); [apply Hq; left|].
      - apply IH; [intros; apply Hq; by right|done]. }
    assert (forall w, w ∈ ws -> LF ∉ w) as Hwl.
    { intros w Hin. apply lf_count_zero, lf_count_text. apply Hw, is_word_inv in Hin as (_ & ? & _). done. }
    destruct ws as [|w ws]; [done|]. unfold words. rewrite elem_of_app.
    intros [?|H]; [by apply (Hwl w); [left|]|].
    assert (forall w, w ∈ ws -> LF ∉ w) as Hwl' by (intros; apply Hwl; by right). clear Hw Hwl.
    induction ws as [|w' ws IH]; [done|]. cbn [foldr] in H. apply elem_of_cons in H as [?|H]; [done|].
    apply elem_of_app in H as [?|H]; [by apply (Hwl' w'); [left|]|].
    apply (IH H). intros; apply Hwl'; by right.
  - assert (utf8_valid (foldr (fun q r => SP :: quoted q ++ r) [] qs) = true) as Hqs.
    { apply foldr_valid; [|done]. intros q Hin. by apply quoted_valid, Hq. }
    destruct ws as [|w ws]; [done|]. apply utf8_valid_app; [apply is_word_valid, Hw; left|].
    apply (foldr_valid id); [|done]. intros x Hx. apply is_word_valid, Hw. by right.
Qed.

(** A list text with LF-free quotes, as the answer to a command. *)
Lemma send_list {R I} (p : parser R) c head kw (ws qs : I -> list str) (items : list I) s rest :
  write_error s = None -> kw <> lit "END" -> is_word kw = true ->
  (forall w, w ∈ head -> is_word w = true) ->
  (forall i w, i ∈ items -> w ∈ ws i -> is_word w = true) ->
  (forall i q, i ∈ items -> q ∈ qs i -> utf8_valid q = true /\ LF ∉ q) ->
  (forall i, i ∈ items -> starts_with LIST_END (line (kw :: ws i) (qs i)) = false) ->
  let text := list_text head ((fun i => line (kw :: ws i) (qs i)) <$> items) in
  incoming s = text ++ rest ->
  send p (Some c) s = (parse_response p text, mkStream (sent s ++ c) rest (eof s) None).
Proof.
  intros Hw Hkw Hkww Hh Hws Hqs Hni text Hi. unfold send, mbind, io_bind.
  assert (forall w, w ∈ lit "LIST" :: head -> is_word w = true) as Hh'
    by (intros w [-> | Hin]%elem_of_cons; [done|by apply Hh]).
  rewrite (send_raw_list s c (line (lit "BEGIN" :: lit "LIST" :: head) [])
    ((fun i => line (kw :: ws i) (qs i)) <$> items) (line (lit "END" :: lit "LIST" :: head) []) rest).
  - by rewrite bool_decide_eq_false_2.
  - done.
  - apply line_is_line; [|by intros q ?%elem_of_nil].
    intros w [-> | Hin]%elem_of_cons; [done|by apply Hh'].
  - done.
  - apply list.Forall_forall. intros l (i & -> & Hin)%list_elem_of_fmap. split; [|by apply Hni].
    apply line_is_line; [|by intros; eapply Hqs].
    intros w [-> | Hin']%elem_of_cons; [done|by eapply Hws].
  - apply line_is_line; [|by intros q ?%elem_of_nil].
    intros w [-> | Hin]%elem_of_cons; [done|by apply Hh'].
  - done.
  - rewrite Hi. unfold text, list_text. by rewrite <- !app_assoc.
Qed.

(** The answers with an error code. *)
Lemma protocol_row_spec e text : (e, text) ∈ protocol_error_table ->
  ProtocolError_from (trim (SP :: text ++ [LF])) = e /\
  starts_with LIST_START (lit "ERR " ++ text ++ [LF]) = false /\ (LF ∉ text) /\ utf8_valid text = true.
Proof.
  intros He.
  assert (forallb (fun x : ProtocolError * str =>
    bool_decide (ProtocolError_from (trim (SP :: x.2 ++ [LF])) = x.1) &&
    negb (starts_with LIST_START (lit "ERR " ++ x.2 ++ [LF])) &&
    bool_decide (LF ∉ x.2) && utf8_valid x.2) protocol_error_table = true) as Hall
    by (vm_compute; reflexivity).
  rewrite forallb_forall in Hall. specialize (Hall (e, text) ltac:(by apply list_elem_of_In)).
  cbn [fst snd] in Hall. by bool_to_prop.
Qed.

(** ** Properties *)

(** End to end, the device list and the variables of a device reach the
    caller exactly. When the daemon answers with the texts of the devices and
    of the variables (descriptions and values without line feeds), the client
    sends one command each, returns the devices in order and the map of the
    values, and leaves what follows each answer for the next call. *)
Lemma client_list_end_to_end (s : Stream) (ds : list UpsDevice) (u : UpsName)
  (vars : list (VarName * str)) (rest : str)
  (Hw : write_error s = None) (Hu : UpsName_wf u)
  (Hds : forall d, d ∈ ds ->
     UpsName_wf (dev_ups_name d) /\ utf8_valid (dev_desc d) = true /\ (LF ∉ dev_desc d))
  (Hvars : forall v, v ∈ vars -> VarName_wf v.1 /\ utf8_valid v.2 = true /\ (LF ∉ v.2)) :
  (forall r1, incoming s = ups_list_text ds ++ r1 ->
     list_ups s = (Ok (mkUpsList ds), mkStream (sent s ++ lit "LIST UPS" ++ [LF]) r1 (eof s) None)) /\
  (incoming s = variables_text (lit "VAR") u vars ++ rest ->
     list_var u s = (Ok (mkUpsVarList (UpsVariables_from ((fun v => (v.1, infer_from v.2)) <$> vars)) u),
       mkStream (sent s ++ lit "LIST VAR " ++ escape_spec (ups_name u) ++ [LF]) rest (eof s) None)).
Proof.
  split.
  - intros r1 Hi. unfold list_ups. rewrite (send_list _ _ [lit "UPS"] (lit "UPS")
      (fun d => [ups_name (dev_ups_name d)]) (fun d => [dev_desc d]) ds s r1); try done.
    + f_equal. apply parse_response_of; [|apply UpsList_parses; intros d Hd; by apply Hds].
      apply (list_text_valid _ (fun d => [lit "UPS"; ups_name (dev_ups_name d)]) (fun d => [dev_desc d])).
      * by intros w ->%list_elem_of_singleton.
      * intros d w Hd. revert w. apply head2_words; [done|]. by apply Hds.
      * intros d q Hd ->%list_elem_of_singleton. by apply Hds.
    + by intros w ->%list_elem_of_singleton.
    + intros d w Hd ->%list_elem_of_singleton. by apply Hds.
    + intros d q Hd ->%list_elem_of_singleton. by apply Hds.
  - intros Hi. unfold list_var.
    assert (exists e, UpsName_as_escaped_str u = Some e /\ cow_str e = escape_spec (ups_name u))
      as (e & He & Hes).
    { pose proof (escape_nut_str_str _ (is_word_valid _ Hu)) as Hs. unfold UpsName_as_escaped_str.
      destruct (escape_nut_str (ups_name u)) as [e|]; simplify_eq/=. by exists e. }
    assert (ListVar_serialize u = Some (lit "LIST VAR " ++ escape_spec (ups_name u) ++ [LF])) as ->
      by (unfold ListVar_serialize, format_ups; rewrite He; simpl; by rewrite Hes).
    rewrite (send_list _ _ [lit "VAR"; ups_name u] (lit "VAR")
      (fun v => [ups_name u; VarName_as_str v.1]) (fun v => [v.2]) vars s rest); try done.
    + f_equal. apply (parse_response_map _ (fun r => mkUpsVarList r.2 r.1) _ (u, _)).
      apply parse_response_of.
      * apply variables_text_valid; [done|done|]. intros v Hv. by destruct (Hvars v Hv) as (? & ? & _).
      * apply variables_parses; [done|done|done|]. intros v Hv. by apply Hvars.
    + by apply head2_words.
    + intros v w Hv. revert w. apply head2_words; [done|]. by apply VarName_wf_word, Hvars.
    + intros v q Hv ->%list_elem_of_singleton. by apply Hvars.
Qed.

(** Every protocol error of the table reaches the caller as that error, in
    whatever way the answer was asked for, and only its line is consumed. *)
Lemma client_protocol_error {R} (p : parser R) (s : Stream) (c : str) (e : ProtocolError) (text rest : str)
  (Hw : write_error s = None) (He : (e, text) ∈ protocol_error_table)
  (Hi : incoming s = lit "ERR " ++ text ++ LF :: rest) :
  send p (Some c) s = (Err (ProtocolErr e), mkStream (sent s ++ c) rest (eof s) None).
Proof.
  destruct (protocol_row_spec e text He) as (Hfrom & Hst & Hlf & Hv).
  unfold send, mbind, io_bind, send_raw, inner_send_raw. rewrite write_all_ok by done.
  rewrite (read_line_line _ [] (lit "ERR " ++ text ++ [LF]) rest).
  - cbn [app]. rewrite Hst. change (strip_prefix PROT_ERR _) with (Some (SP :: text ++ [LF])).
    cbv iota. by rewrite Hfrom.
  - exists (lit "ERR " ++ text). split_and!.
    + by rewrite <- app_assoc.
    + rewrite elem_of_app. intros [Hin|Hin]; [|done].
      by apply (bool_decide_unpack (LF ∉ lit "ERR ")); [vm_compute; exact I|].
    + by apply utf8_valid_app.
  - simpl incoming. rewrite Hi. by rewrite <- !app_assoc.
Qed.

(** A daemon that closes the connection inside a list keeps the reading
    loop busy forever: the end of the stream reads as an empty line that does
    not end the list, whatever the number of iterations; only the time-out
    ends the call. *)
Lemma client_eof_in_list_spins (s : Stream) (c first : str) (items : list str) (fuel : nat)
  (Hw : write_error s = None) (He : eof s = true)
  (Hf : is_line first) (Hs : starts_with LIST_START first = true) (Hit : Forall is_item_line items)
  (Hi : incoming s = first ++ concat items) :
  (list_loop fuel (mkStream (sent s ++ c) (concat items) true None) first (length first)).1
    = Ready OutOfFuel /\
  (send_raw c s).1 = Err RequestTimeout.
Proof.
  assert (forall fuel, (list_loop fuel (mkStream (sent s ++ c) (concat items) true None) first
    (length first)).1 = Ready OutOfFuel) as Hloop
    by (intros f; by apply (list_loop_never_ends items)).
  split; [apply Hloop|]. unfold send_raw, inner_send_raw. rewrite write_all_ok by done.
  rewrite (read_line_line _ [] first (concat items) Hf) by done. simpl app. rewrite Hs, He.
  specialize (Hloop (S (length (concat items)))). unfold with_incoming. simpl sent. simpl eof. simpl write_error.
  simpl incoming. by destruct (list_loop _ _ _ _) as [[[]|] s']; simplify_eq/=.
Qed.

(** A pooled call ends with every guard it took given back exactly once,
    and is made again at most once, only after an I/O error, an empty response
    or a time-out; the connection returns to the pool exactly when its call
    succeeded or failed in a way that leaves it usable. *)
Lemma pooled_call_accounts {A} (get get_checked : option ErrorKind) (first second : outcome ErrorKind A) :
  let '(r, evs) := pooled_call get get_checked first second in
  length (filter (fun e => e = EvGet \/ e = EvGetChecked) evs) =
    length (filter (fun e => e = EvRelease \/ e = EvDrop) evs) /\
  (EvGetChecked ∈ evs <-> get = None /\ get_checked = None /\
     exists e, first = Err e /\ retries e = true) /\
  r = match get, first, get_checked with
      | Some e, _, _ => Err e
      | None, Err e, Some e' => if retries e then Err e' else Err e
      | None, Err e, None => if retries e then second else Err e
      | None, _, _ => first
      end /\
  (forall e, first = Err e -> get = None -> nth_error evs 1 = Some (if drops_client e then EvDrop else EvRelease)).
Proof.
  assert (forall e, retries e = true -> drops_client e = true) as Hrd by (by intros []).
  destruct get as [e|]; simpl.
  { split_and!; [done| |by destruct get_checked|done]. split; [by intros ?%elem_of_nil|by intros [? _]]. }
  destruct first as [a|e| |]; simpl.
  2: destruct (retries e) eqn:Er; [rewrite (Hrd e Er); destruct get_checked as [e'|];
       [|destruct second as [b|e2| |]; simpl; [|destruct (drops_client e2)|..]]
     |destruct (drops_client e) eqn:Ed; destruct get_checked].
  all: split_and!; [done|split; [intros Hin|intros (_ & ? & e3 & ? & ?)]|done|].
  all: try (by intros ? [= <-] _; rewrite ?(Hrd e Er), ?Ed).
  all: try (exfalso; match type of Hin with ?P => exact (bool_decide_unpack (~ P) I Hin) end).
  all: try (simplify_eq/=; congruence).
  all: try done.
  all: try (split_and!; [done|done|by exists e]).
  all: apply (bool_decide_unpack _); exact I.
Qed.

(** ** Witnesses *)

Definition demo_stream (i : str) (closed : bool) : Stream := mkStream [] i closed None.

Lemma client_list_end_to_end_witness :
  let ds := [mkUpsDevice (mkUpsName (lit "ups")) (lit "rack")] in
  list_ups (demo_stream (ups_list_text ds ++ lit "OK") false)
    = (Ok (mkUpsList ds), mkStream (lit "LIST UPS" ++ [LF]) (lit "OK") false None).
Proof.
  refine (proj1 (client_list_end_to_end
    (demo_stream (ups_list_text [mkUpsDevice (mkUpsName (lit "ups")) (lit "rack")] ++ lit "OK") false)
    [mkUpsDevice (mkUpsName (lit "ups")) (lit "rack")] (mkUpsName (lit "ups")) [] [] _ _ _ _) (lit "OK") _).
  - reflexivity.
  - reflexivity.
  - intros d Hd. apply list_elem_of_singleton in Hd. rewrite Hd.
    split; [reflexivity|]. split; [reflexivity|]. apply (bool_decide_unpack _). vm_compute. exact I.
  - intros v Hv. apply elem_of_nil in Hv. destruct Hv.
  - reflexivity.
Defined.

Lemma client_protocol_error_witness :
  (list_ups (demo_stream (lit "ERR ACCESS-DENIED" ++ [LF]) false)).1 = Err (ProtocolErr AccessDenied).
Proof.
  unfold list_ups.
  rewrite (client_protocol_error UpsList_deserialize
    (demo_stream (lit "ERR ACCESS-DENIED" ++ [LF]) false) ListUps_serialize AccessDenied
    (lit "ACCESS-DENIED") []).
  - reflexivity.
  - reflexivity.
  - apply (bool_decide_unpack _). vm_compute. exact I.
  - reflexivity.
Defined.

Lemma client_eof_in_list_spins_witness :
  (send_raw (lit "LIST UPS" ++ [LF]) (demo_stream (lit "BEGIN LIST UPS" ++ [LF]) true)).1
    = Err RequestTimeout.
Proof.
  refine (proj2 (client_eof_in_list_spins (demo_stream (lit "BEGIN LIST UPS" ++ [LF]) true)
    (lit "LIST UPS" ++ [LF]) (lit "BEGIN LIST UPS" ++ [LF]) [] 0 _ _ _ _ _ _)).
  - reflexivity.
  - reflexivity.
  - exists (lit "BEGIN LIST UPS"). split; [reflexivity|]. split; [|reflexivity].
    apply (bool_decide_unpack _). vm_compute. exact I.
  - reflexivity.
  - constructor.
  - reflexivity.
Defined.
