(* ===== verification/ItemPool.v ===== *)
(** * The connection pool

    [internal/item_pool.rs] and the allocator of [client/client_pool.rs], as a
    concurrent state machine. A state holds the semaphore (free permits and
    whether it is closed), the queue of idle items, the queue's lock when a
    [clear] holds it across its awaits, and where every task is between two
    awaits. An action is one atomic step of one task; the allocator's answers
    (a connection opened or not, an idle one still usable or not) and
    cancellation of a task at an await are actions of their own, so a sequence
    of actions is an interleaving. Items are numbered in the order in which the
    allocator made them. *)

From S2P Require Import Prelude.

(** Where a task is. [get] and [get_checked] hold a permit from [WantPop] on. *)
Inductive Pc :=
  | WantPop (checked : bool)       (** permit acquired, about to pop *)
  | Checking (item : nat)          (** in [prealloc_check] *)
  | Destroying (item : nat)        (** in [dealloc], after [Destroy] *)
  | Initing                        (** in [allocator.init] *)
  | Guard (item : nat)             (** the caller has a [PoolGuard] *)
  | ReleaseOpen (item : nat)       (** [release] saw the semaphore open *)
  | ReleaseClosed (item : nat)     (** [release] saw it closed: in [dealloc] *)
  | Pushed                         (** item pushed, the permit is still held *)
  | CloseClear                     (** [close] has closed the semaphore *)
  | Clearing.                      (** [clear] holds the lock *)

#[global] Instance Pc_eq_dec : EqDecision Pc.
Proof. solve_decision. Defined.

Record PoolState := mkPool {
  available : nat;
  closed : bool;
  items : list nat;
  lock : option nat;
  tasks : gmap nat Pc;
  next_item : nat;
}.

(** [ItemPool::new]. *)
Definition ItemPool_new (limit : nat) : PoolState := mkPool limit false [] None ∅ 0.

Inductive Action :=
  | Acquire (checked : bool)   (** [acquire_owned().await?] of [get]/[get_checked] *)
  | Pop                        (** lock, [pop_front], unlock *)
  | CheckReady | CheckDestroy  (** [prealloc_check] *)
  | Dealloced                  (** a [dealloc] finished *)
  | InitOk | InitErr           (** [allocator.init] *)
  | Release                    (** [PoolGuard::release] up to [is_closed] *)
  | Push                       (** lock, [push_back], unlock *)
  | DropPermit                 (** the end of [PoolGuard::release] *)
  | DropGuard                  (** the guard is dropped *)
  | IntoInner                  (** [PoolGuard::into_inner] *)
  | Clear                      (** [clear]: lock *)
  | Close                      (** [close]: [permits.close()] *)
  | ClearLock                  (** [close]: lock *)
  | ClearPop                   (** [pop_back] and [dealloc] *)
  | ClearEnd                   (** the queue is empty: unlock *)
  | Cancel.                    (** the task's future is dropped at an await *)

Definition holds_permit (pc : Pc) : bool :=
  match pc with CloseClear | Clearing => false | _ => true end.

Definition pc_item (pc : Pc) : option nat :=
  match pc with
  | Checking i | Destroying i | Guard i | ReleaseOpen i | ReleaseClosed i => Some i
  | _ => None
  end.

(** State changes. *)
Definition set_task (t : nat) (pc : Pc) (s : PoolState) : PoolState :=
  mkPool (available s) (closed s) (items s) (lock s) (<[t := pc]> (tasks s)) (next_item s).
Definition end_task (t : nat) (s : PoolState) : PoolState :=
  mkPool (available s) (closed s) (items s) (lock s) (delete t (tasks s)) (next_item s).
Definition add_permit (s : PoolState) : PoolState :=
  mkPool (S (available s)) (closed s) (items s) (lock s) (tasks s) (next_item s).
Definition set_items (l : list nat) (s : PoolState) : PoolState :=
  mkPool (available s) (closed s) l (lock s) (tasks s) (next_item s).
Definition set_lock (o : option nat) (s : PoolState) : PoolState :=
  mkPool (available s) (closed s) (items s) o (tasks s) (next_item s).

(** Dropping a task's future: its permit, its item and its lock go. *)
Definition drop_task (t : nat) (pc : Pc) (s : PoolState) : PoolState :=
  let s := end_task t s in
  let s := if holds_permit pc then add_permit s else s in
  match pc with Clearing => set_lock None s | _ => s end.

(** One step of task [t]; [None] when the action is not enabled. *)
Definition step (s : PoolState) (t : nat) (a : Action) : option PoolState :=
  match a, tasks s !! t with
  | Acquire checked, None =>
      if closed s then None
      else match available s with
           | O => None
           | S n => Some (mkPool n false (items s) (lock s) (<[t := WantPop checked]> (tasks s)) (next_item s))
           end
  | Pop, Some (WantPop checked) =>
      match lock s with
      | Some _ => None
      | None =>
          match items s with
          | [] => Some (set_task t Initing s)
          | item :: rest =>
              Some (set_task t (if checked then Checking item else Guard item) (set_items rest s))
          end
      end
  | CheckReady, Some (Checking item) => Some (set_task t (Guard item) s)
  | CheckDestroy, Some (Checking item) => Some (set_task t (Destroying item) s)
  | Dealloced, Some (Destroying item) => Some (set_task t (WantPop true) s)
  | Dealloced, Some (ReleaseClosed item) => Some (set_task t Pushed s)
  | InitOk, Some Initing =>
      Some (mkPool (available s) (closed s) (items s) (lock s)
                   (<[t := Guard (next_item s)]> (tasks s)) (S (next_item s)))
  | InitErr, Some Initing => Some (add_permit (end_task t s))
  | Release, Some (Guard item) =>
      Some (set_task t (if closed s then ReleaseClosed item else ReleaseOpen item) s)
  | Push, Some (ReleaseOpen item) =>
      match lock s with
      | Some _ => None
      | None => Some (set_task t Pushed (set_items (items s ++ [item]) s))
      end
  | DropPermit, Some Pushed => Some (add_permit (end_task t s))
  | DropGuard, Some (Guard item) => Some (add_permit (end_task t s))
  | IntoInner, Some (Guard item) => Some (add_permit (end_task t s))
  | Clear, None =>
      match lock s with
      | Some _ => None
      | None => Some (set_task t Clearing (set_lock (Some t) s))
      end
  | Close, None =>
      Some (mkPool (available s) true (items s) (lock s) (<[t := CloseClear]> (tasks s)) (next_item s))
  | ClearLock, Some CloseClear =>
      match lock s with
      | Some _ => None
      | None => Some (set_task t Clearing (set_lock (Some t) s))
      end
  | ClearPop, Some Clearing =>
      match reverse (items s) with
      | [] => None
      | _ :: rest => Some (set_items (reverse rest) s)
      end
  | ClearEnd, Some Clearing =>
      match items s with
      | [] => Some (set_lock None (end_task t s))
      | _ => None
      end
  | Cancel, Some pc => Some (drop_task t pc s)
  | _, _ => None
  end.

Fixpoint run (s : PoolState) (trace : list (nat * Action)) : option PoolState :=
  match trace with
  | [] => Some s
  | (t, a) :: trace => match step s t a with Some s => run s trace | None => None end
  end.

(** The states of a pool with [limit] permits. *)
Inductive reachable (limit : nat) : PoolState -> Prop :=
  | reach_new : reachable limit (ItemPool_new limit)
  | reach_step s t a s' : reachable limit s -> step s t a = Some s' -> reachable limit s'.

(** ** Counting tasks *)

Definition count (p : Pc -> bool) (m : gmap nat Pc) : nat :=
  size (filter (fun kv : nat * Pc => p kv.2 = true) m).

(** A task that has an item or is about to. *)
Definition has_item (pc : Pc) : bool :=
  match pc with
  | Checking _ | Destroying _ | Guard _ | ReleaseOpen _ | ReleaseClosed _ | Initing => true
  | _ => false
  end.

(** Every item is in one place: once in the queue, or with one task. *)
Definition own_inv (q : list nat) (m : gmap nat Pc) (n : nat) : Prop :=
  NoDup q /\
  (forall i, i ∈ q -> i < n) /\
  (forall t pc i, m !! t = Some pc -> pc_item pc = Some i -> (i ∉ q) /\ i < n) /\
  (forall t1 t2 pc1 pc2 i, m !! t1 = Some pc1 -> pc_item pc1 = Some i ->
     m !! t2 = Some pc2 -> pc_item pc2 = Some i -> t1 = t2).

Definition lock_inv (l : option nat) (m : gmap nat Pc) : Prop :=
  forall t, l = Some t <-> m !! t = Some Clearing.

(** The invariant of a pool with [limit] permits. *)
Record pool_inv (limit : nat) (s : PoolState) : Prop := {
  inv_permits : available s + count holds_permit (tasks s) = limit;
  inv_items : length (items s) + count has_item (tasks s) <= limit;
  inv_lock : lock_inv (lock s) (tasks s);
  inv_own : own_inv (items s) (tasks s) (next_item s);
}.

(** ** Lemmas: counting *)

Lemma count_delete p m t pc : m !! t = Some pc ->
  count p m = (if p pc then 1 else 0) + count p (delete t m).
Proof.
  intros H. unfold count. rewrite <- (insert_delete_id m t pc H) at 1.
  destruct (p pc) eqn:E.
  - rewrite map_filter_insert_True by done. rewrite map_size_insert_None; [done|].
    apply map_lookup_filter_None. left. apply lookup_delete_eq.
  - rewrite map_filter_insert_False by (simpl; congruence). by rewrite delete_delete_eq.
Qed.

Lemma count_insert_fresh p m t pc : m !! t = None ->
  count p (<[t := pc]> m) = (if p pc then 1 else 0) + count p m.
Proof.
  intros H. rewrite (count_delete p (<[t := pc]> m) t pc) by apply lookup_insert_eq.
  by rewrite delete_insert_id.
Qed.

Lemma count_insert p m t old pc : m !! t = Some old ->
  count p (<[t := pc]> m) + (if p old then 1 else 0) = count p m + (if p pc then 1 else 0).
Proof.
  intros H. rewrite (count_delete p m t old) by done.
  rewrite (count_delete p (<[t := pc]> m) t pc) by apply lookup_insert_eq.
  rewrite delete_insert_eq. lia.
Qed.

Lemma has_item_permit pc : has_item pc = true -> holds_permit pc = true.
Proof. by destruct pc. Qed.

Lemma count_le m p q : (forall pc, p pc = true -> q pc = true) -> count p m <= count q m.
Proof.
  intros H. unfold count. apply map_subseteq_size, map_subseteq_spec.
  intros t pc. rewrite !map_lookup_filter_Some. intros [? ?]. split; [done|by apply H].
Qed.

(** A task with a permit and no item leaves room for one more. *)
Lemma count_room m t pc : m !! t = Some pc -> holds_permit pc = true -> has_item pc = false ->
  count has_item m < count holds_permit m.
Proof.
  intros H Hp Hi. rewrite (count_delete has_item m t pc H), (count_delete holds_permit m t pc H), Hp, Hi.
  pose proof (count_le (delete t m) _ _ has_item_permit). lia.
Qed.

(** ** Lemmas: ownership *)

Section own.
Context (q : list nat) (m : gmap nat Pc) (n : nat) (t : nat).
Implicit Types pc : Pc.

Lemma own_keep old pc : m !! t = Some old -> pc_item pc = pc_item old ->
  own_inv q m n -> own_inv q (<[t := pc]> m) n.
Proof.
  intros Ht Hi (H1 & H2 & H3 & H4). split_and!; [done|done| |].
  - intros t' pc' i [[<- <-]|[? ?]]%lookup_insert_Some Hp; [|by eapply H3].
    rewrite Hi in Hp. by eapply H3.
  - intros t1 t2 pc1 pc2 i [[<- <-]|[? Hl1]]%lookup_insert_Some Hp1
      [[<- <-]|[? Hl2]]%lookup_insert_Some Hp2; [done| | |by eapply H4];
      rewrite Hi in *; by eapply H4.
Qed.

Lemma own_none pc : pc_item pc = None -> own_inv q m n -> own_inv q (<[t := pc]> m) n.
Proof.
  intros Hi (H1 & H2 & H3 & H4). split_and!; [done|done| |].
  - intros t' pc' i [[<- <-]|[? ?]]%lookup_insert_Some Hp; [congruence|by eapply H3].
  - intros t1 t2 pc1 pc2 i [[<- <-]|[? Hl1]]%lookup_insert_Some Hp1
      [[<- <-]|[? Hl2]]%lookup_insert_Some Hp2; [congruence..|by eapply H4].
Qed.

Lemma own_delete : own_inv q m n -> own_inv q (delete t m) n.
Proof.
  intros (H1 & H2 & H3 & H4). split_and!; [done|done| |].
  - intros t' pc' i [? ?]%lookup_delete_Some Hp; by eapply H3.
  - intros t1 t2 pc1 pc2 i [? Hl1]%lookup_delete_Some Hp1 [? Hl2]%lookup_delete_Some Hp2. by eapply H4.
Qed.

Lemma own_pop x pc : pc_item pc = Some x -> own_inv (x :: q) m n -> own_inv q (<[t := pc]> m) n.
Proof.
  intros Hi (H1 & H2 & H3 & H4). apply list.NoDup_cons in H1 as [Hx H1].
  split_and!; [done|intros i ?; apply H2; by right| |].
  - intros t' pc' i [[<- <-]|[? Hl]]%lookup_insert_Some Hp.
    + assert (i = x) as -> by congruence. split; [done|apply H2; left].
    + destruct (H3 _ _ _ Hl Hp) as [Hn ?]. split; [|done]. intros ?. apply Hn. by right.
  - intros t1 t2 pc1 pc2 i [[<- <-]|[? Hl1]]%lookup_insert_Some Hp1
      [[<- <-]|[? Hl2]]%lookup_insert_Some Hp2; [done| | |by eapply H4].
    + assert (i = x) as -> by congruence. destruct (H3 _ _ _ Hl2 Hp2) as [[] _]. left.
    + assert (i = x) as -> by congruence. destruct (H3 _ _ _ Hl1 Hp1) as [[] _]. left.
Qed.

Lemma own_push old x pc : m !! t = Some old -> pc_item old = Some x -> pc_item pc = None ->
  own_inv q m n -> own_inv (q ++ [x]) (<[t := pc]> m) n.
Proof.
  intros Ht Ho Hi (H1 & H2 & H3 & H4). destruct (H3 _ _ _ Ht Ho) as [Hx Hn]. split_and!.
  - apply list.NoDup_app. split_and!; [done| |apply list.NoDup_singleton].
    intros i Hin ->%list_elem_of_singleton. done.
  - intros i [?| ->%list_elem_of_singleton]%elem_of_app; [by apply H2|done].
  - intros t' pc' i [[<- <-]|[Hne Hl]]%lookup_insert_Some Hp; [congruence|].
    destruct (H3 _ _ _ Hl Hp) as [Hq ?]. split; [|done].
    intros [?| ->%list_elem_of_singleton]%elem_of_app; [done|]. apply Hne. by eapply H4.
  - intros t1 t2 pc1 pc2 i [[<- <-]|[? Hl1]]%lookup_insert_Some Hp1
      [[<- <-]|[? Hl2]]%lookup_insert_Some Hp2; [congruence..|by eapply H4].
Qed.

Lemma own_new pc : pc_item pc = Some n -> own_inv q m n -> own_inv q (<[t := pc]> m) (S n).
Proof.
  intros Hi (H1 & H2 & H3 & H4). split_and!; [done|intros i Hin; specialize (H2 i Hin); lia| |].
  - intros t' pc' i [[<- <-]|[? Hl]]%lookup_insert_Some Hp.
    + assert (i = n) as -> by congruence. split; [|lia]. intros Hin. specialize (H2 _ Hin). lia.
    + destruct (H3 _ _ _ Hl Hp) as [? ?]. split; [done|lia].
  - intros t1 t2 pc1 pc2 i [[<- <-]|[? Hl1]]%lookup_insert_Some Hp1
      [[<- <-]|[? Hl2]]%lookup_insert_Some Hp2; [done| | |by eapply H4].
    + destruct (H3 _ _ _ Hl2 Hp2). assert (i = n) by congruence. lia.
    + destruct (H3 _ _ _ Hl1 Hp1). assert (i = n) by congruence. lia.
Qed.

Lemma own_pop_back x : own_inv (q ++ [x]) m n -> own_inv q m n.
Proof.
  intros (H1 & H2 & H3 & H4). apply list.NoDup_app in H1 as (H1 & _ & _). split_and!; [done| | |done].
  - intros i ?. apply H2, elem_of_app. by left.
  - intros t' pc i Hl Hp. destruct (H3 _ _ _ Hl Hp) as [Hn ?]. split; [|done].
    intros ?. apply Hn, elem_of_app. by left.
Qed.
End own.

(** ** Lemmas: the lock *)

Lemma lock_keep l m t pc : m !! t <> Some Clearing -> pc <> Clearing ->
  lock_inv l m -> lock_inv l (<[t := pc]> m).
Proof.
  intros Hold Hpc H t'. rewrite (H t'). destruct (decide (t' = t)) as [->|].
  - rewrite lookup_insert_eq. split; [done|congruence].
  - by rewrite lookup_insert_ne.
Qed.

Lemma lock_delete l m t : m !! t <> Some Clearing -> lock_inv l m -> lock_inv l (delete t m).
Proof.
  intros Hold H t'. rewrite (H t'). destruct (decide (t' = t)) as [->|].
  - by rewrite lookup_delete_eq.
  - by rewrite lookup_delete_ne.
Qed.

Lemma lock_take m t : lock_inv None m -> lock_inv (Some t) (<[t := Clearing]> m).
Proof.
  intros H t'. destruct (decide (t' = t)) as [->|].
  - by rewrite lookup_insert_eq.
  - rewrite lookup_insert_ne by done. rewrite <- (H t'). split; congruence.
Qed.

Lemma lock_free l m t : m !! t = Some Clearing -> lock_inv l m -> lock_inv None (delete t m).
Proof.
  intros Ht H t'. split; [done|]. intros [Hne Hl]%lookup_delete_Some. apply H in Ht, Hl. congruence.
Qed.

(** ** The invariant holds of every reachable state *)

Lemma pool_inv_new limit : pool_inv limit (ItemPool_new limit).
Proof.
  split; simpl.
  - unfold count. rewrite map_filter_empty, map_size_empty. lia.
  - unfold count. rewrite map_filter_empty, map_size_empty. lia.
  - intros t. by rewrite lookup_empty.
  - split_and!; [constructor|by intros i ?%elem_of_nil| |]; intros *; by rewrite lookup_empty.
Qed.

(** Moving task [t] between two points that differ in neither permit nor item. *)
Lemma pool_inv_set limit s t old pc :
  tasks s !! t = Some old -> holds_permit pc = holds_permit old -> has_item pc = has_item old ->
  pc_item pc = pc_item old -> old <> Clearing -> pc <> Clearing ->
  pool_inv limit s -> pool_inv limit (set_task t pc s).
Proof.
  intros Ht Hp Hh Hi Hc Hc' [I1 I2 I3 I4]. split; simpl.
  - pose proof (count_insert holds_permit _ _ old pc Ht) as H. rewrite Hp in H. lia.
  - pose proof (count_insert has_item _ _ old pc Ht) as H. rewrite Hh in H. lia.
  - apply lock_keep; [congruence|done|done].
  - by apply (own_keep _ _ _ _ old).
Qed.

(** A task with a permit ends. *)
Lemma pool_inv_end limit s t old :
  tasks s !! t = Some old -> holds_permit old = true ->
  pool_inv limit s -> pool_inv limit (add_permit (end_task t s)).
Proof.
  intros Ht Hp [I1 I2 I3 I4]. split; simpl.
  - pose proof (count_delete holds_permit _ _ old Ht) as H. rewrite Hp in H. lia.
  - pose proof (count_delete has_item _ _ old Ht) as H. lia.
  - apply lock_delete; [|done]. intros E. rewrite E in Ht. by injection Ht as <-.
  - by apply own_delete.
Qed.

Lemma pool_inv_drop limit s t old :
  tasks s !! t = Some old -> pool_inv limit s -> pool_inv limit (drop_task t old s).
Proof.
  intros Ht HI. unfold drop_task. destruct (holds_permit old) eqn:Hp.
  { pose proof (pool_inv_end limit s t old Ht Hp HI). by destruct old. }
  destruct HI as [I1 I2 I3 I4].
  pose proof (count_delete holds_permit _ _ old Ht) as H1. rewrite Hp in H1.
  pose proof (count_delete has_item _ _ old Ht) as H2.
  destruct old; try discriminate Hp; split; simpl; try lia; try (by apply own_delete).
  - apply lock_delete; [congruence|done].
  - by eapply lock_free.
Qed.

(** [clear] starts: by a new task, or by [close] after it closed the semaphore. *)
Lemma pool_inv_clear limit s t :
  (tasks s !! t = None \/ tasks s !! t = Some CloseClear) -> lock s = None ->
  pool_inv limit s -> pool_inv limit (set_task t Clearing (set_lock (Some t) s)).
Proof.
  intros Ht Hl [I1 I2 I3 I4]. rewrite Hl in I3. split; simpl; [| |by apply lock_take|by apply own_none].
  - destruct Ht as [Ht|Ht]; [by rewrite count_insert_fresh|].
    pose proof (count_insert holds_permit _ _ _ Clearing Ht) as H. simpl in H. lia.
  - destruct Ht as [Ht|Ht]; [by rewrite count_insert_fresh|].
    pose proof (count_insert has_item _ _ _ Clearing Ht) as H. simpl in H. lia.
Qed.

Lemma pool_inv_acquire limit s t c n :
  tasks s !! t = None -> available s = S n -> pool_inv limit s ->
  pool_inv limit (mkPool n false (items s) (lock s) (<[t := WantPop c]> (tasks s)) (next_item s)).
Proof.
  intros Ht Ha [I1 I2 I3 I4]. split; simpl.
  - rewrite count_insert_fresh by done. simpl. lia.
  - by rewrite count_insert_fresh.
  - apply lock_keep; [congruence|done|done].
  - by apply own_none.
Qed.

Lemma pool_inv_pop limit s t c :
  tasks s !! t = Some (WantPop c) -> pool_inv limit s ->
  match items s with
  | [] => pool_inv limit (set_task t Initing s)
  | i :: rest => pool_inv limit (set_task t (if c then Checking i else Guard i) (set_items rest s))
  end.
Proof.
  intros Ht [I1 I2 I3 I4]. destruct (items s) as [|i rest] eqn:Ei; split; simpl.
  - pose proof (count_insert holds_permit _ _ _ Initing Ht) as H. simpl in H. lia.
  - pose proof (count_insert has_item _ _ _ Initing Ht) as H. simpl in H.
    pose proof (count_room _ _ _ Ht eq_refl eq_refl). rewrite Ei. simpl. lia.
  - apply lock_keep; [congruence|done|done].
  - rewrite Ei. by apply own_none.
  - pose proof (count_insert holds_permit _ _ _ (if c then Checking i else Guard i) Ht) as H.
    destruct c; simpl in H; lia.
  - pose proof (count_insert has_item _ _ _ (if c then Checking i else Guard i) Ht) as H.
    destruct c; simpl in H, I2; lia.
  - apply lock_keep; [congruence|by destruct c|done].
  - apply (own_pop _ _ _ _ i); [by destruct c|done].
Qed.

Lemma pool_inv_init limit s t :
  tasks s !! t = Some Initing -> pool_inv limit s ->
  pool_inv limit (mkPool (available s) (closed s) (items s) (lock s)
                   (<[t := Guard (next_item s)]> (tasks s)) (S (next_item s))).
Proof.
  intros Ht [I1 I2 I3 I4]. split; simpl.
  - pose proof (count_insert holds_permit _ _ _ (Guard (next_item s)) Ht) as H. simpl in H. lia.
  - pose proof (count_insert has_item _ _ _ (Guard (next_item s)) Ht) as H. simpl in H. lia.
  - apply lock_keep; [congruence|done|done].
  - by apply own_new.
Qed.

Lemma pool_inv_push limit s t i :
  tasks s !! t = Some (ReleaseOpen i) -> pool_inv limit s ->
  pool_inv limit (set_task t Pushed (set_items (items s ++ [i]) s)).
Proof.
  intros Ht [I1 I2 I3 I4]. split; simpl.
  - pose proof (count_insert holds_permit _ _ _ Pushed Ht) as H. simpl in H. lia.
  - pose proof (count_insert has_item _ _ _ Pushed Ht) as H. simpl in H. rewrite length_app. simpl. lia.
  - apply lock_keep; [congruence|done|done].
  - by apply (own_push _ _ _ _ (ReleaseOpen i)).
Qed.

Lemma pool_inv_close limit s t :
  tasks s !! t = None -> pool_inv limit s ->
  pool_inv limit (mkPool (available s) true (items s) (lock s) (<[t := CloseClear]> (tasks s)) (next_item s)).
Proof.
  intros Ht [I1 I2 I3 I4]. split; simpl.
  - by rewrite count_insert_fresh.
  - by rewrite count_insert_fresh.
  - apply lock_keep; [congruence|done|done].
  - by apply own_none.
Qed.

(** After its item was deallocated, [release] ends without one. *)
Lemma pool_inv_gone limit s t old pc :
  tasks s !! t = Some old -> holds_permit old = true -> holds_permit pc = true ->
  has_item pc = false -> pc_item pc = None -> old <> Clearing -> pc <> Clearing ->
  pool_inv limit s -> pool_inv limit (set_task t pc s).
Proof.
  intros Ht Hp Hp' Hi Hi' Hc Hc' [I1 I2 I3 I4]. split; simpl.
  - pose proof (count_insert holds_permit _ _ old pc Ht) as H. rewrite Hp, Hp' in H. lia.
  - pose proof (count_insert has_item _ _ old pc Ht) as H. rewrite Hi in H. lia.
  - apply lock_keep; [congruence|done|done].
  - by apply own_none.
Qed.

Lemma pool_inv_clear_pop limit s i rest :
  reverse (items s) = i :: rest -> pool_inv limit s -> pool_inv limit (set_items (reverse rest) s).
Proof.
  intros Hr [I1 I2 I3 I4].
  assert (items s = reverse rest ++ [i]) as E
    by (rewrite <- (reverse_involutive (items s)), Hr; apply reverse_cons).
  rewrite E in *. split; simpl; [done| |done|].
  - rewrite length_app in I2. lia.
  - by eapply own_pop_back.
Qed.

Lemma pool_inv_clear_end limit s t :
  tasks s !! t = Some Clearing -> pool_inv limit s -> pool_inv limit (set_lock None (end_task t s)).
Proof. intros Ht. apply (pool_inv_drop limit s t Clearing Ht). Qed.

Lemma step_inv limit s t a s' : step s t a = Some s' -> pool_inv limit s -> pool_inv limit s'.
Proof.
  intros Hs HI. destruct a; simpl in Hs; destruct (tasks s !! t) as [pc|] eqn:Ht; try discriminate Hs;
    try (destruct pc; try discriminate Hs).
  all: try (injection Hs as <-).
  all: try (by eapply pool_inv_end).
  all: try (by eapply pool_inv_drop).
  all: try (by eapply pool_inv_set).
  all: try (by eapply pool_inv_gone).
  - destruct (closed s); [done|]. destruct (available s) eqn:Ha; [done|]. injection Hs as <-.
    by apply pool_inv_acquire.
  - pose proof (pool_inv_pop limit s t checked Ht HI) as H. destruct (lock s); [done|].
    destruct (items s); by injection Hs as <-.
  - by apply pool_inv_init.
  - destruct (closed s); by eapply pool_inv_set.
  - destruct (lock s); [done|]. injection Hs as <-. by apply pool_inv_push.
  - destruct (lock s) eqn:Hl; [done|]. injection Hs as <-. apply pool_inv_clear; [by left|done|done].
  - by apply pool_inv_close.
  - destruct (lock s) eqn:Hl; [done|]. injection Hs as <-. apply pool_inv_clear; [by right|done|done].
  - destruct (reverse (items s)) as [|i rest] eqn:Hr; [done|]. injection Hs as <-.
    by eapply pool_inv_clear_pop.
  - destruct (items s); [|done]. injection Hs as <-. by apply pool_inv_clear_end.
  - exact (pool_inv_drop limit s t CloseClear Ht HI).
  - exact (pool_inv_drop limit s t Clearing Ht HI).
Qed.

Lemma reachable_inv limit s : reachable limit s -> pool_inv limit s.
Proof. induction 1 as [|s t a s' _ IH Hs]; [apply pool_inv_new|by eapply step_inv]. Qed.

Lemma run_reachable limit s trace s' : reachable limit s -> run s trace = Some s' -> reachable limit s'.
Proof.
  revert s. induction trace as [|[t a] trace IH]; intros s Hr; simpl; [by intros [= <-]|].
  destruct (step s t a) as [s1|] eqn:E; [|done]. apply IH. by eapply reach_step.
Qed.

(** A closed semaphore stays closed and hands out no permit. *)
Lemma step_closed s t a s' : step s t a = Some s' -> closed s = true ->
  closed s' = true /\ (forall c, a <> Acquire c).
Proof.
  intros Hs Hc. destruct a; simpl in Hs; destruct (tasks s !! t) as [pc|]; try discriminate Hs;
    try (destruct pc; try discriminate Hs); rewrite ?Hc in Hs; try discriminate Hs;
    repeat case_match; simplify_eq/=; try done.
Qed.

(** ** Properties *)

(** C6: the pool never exceeds its limit. In every interleaving of any number
    of tasks, cancellations included, the permits given out and the free ones
    add up to the limit, and the connections the pool accounts for (idle in
    the queue, being opened, checked, used or closed) never exceed it; a
    permit is back as soon as its task ends, so none leaks. *)
Theorem pool_limit (limit : nat) (s : PoolState) (Hr : reachable limit s) :
  available s + count holds_permit (tasks s) = limit /\
  length (items s) + count has_item (tasks s) <= limit /\
  (tasks s = ∅ -> available s = limit).
Proof.
  destruct (reachable_inv limit s Hr) as [I1 I2 _ _]. split_and!; [done|done|].
  intros E. rewrite E in I1. unfold count in I1. rewrite map_filter_empty, map_size_empty in I1. lia.
Qed.

(** C7: a connection has one user. In every reachable state a connection is
    in the queue at most once, is with at most one task, and never in both
    places; and the queue's lock is held by the one task that clears. *)
Theorem pool_exclusive (limit : nat) (s : PoolState) (Hr : reachable limit s) :
  NoDup (items s) /\
  (forall t1 t2 i, tasks s !! t1 = Some (Guard i) -> tasks s !! t2 = Some (Guard i) -> t1 = t2) /\
  (forall t i, tasks s !! t = Some (Guard i) -> i ∉ items s) /\
  (forall t1 t2, tasks s !! t1 = Some Clearing -> tasks s !! t2 = Some Clearing -> t1 = t2).
Proof.
  destruct (reachable_inv limit s Hr) as [_ _ I3 (H1 & H2 & H3 & H4)]. split_and!; [done| | |].
  - intros t1 t2 i Ht1 Ht2. by eapply H4.
  - intros t i Ht. by eapply H3.
  - intros t1 t2 [= Ht1]%I3 [= Ht2]%I3. congruence.
Qed.

(** Closing is final: after [close] no task gets a permit again, whatever
    the others do; a guard released from then on is deallocated, not queued. *)
Lemma pool_close_final (s s' : PoolState) (t : nat) (a : Action)
  (Hc : closed s = true) (Hs : step s t a = Some s') :
  closed s' = true /\ (forall c, a <> Acquire c) /\
  (forall i, tasks s !! t = Some (Guard i) -> a = Release -> tasks s' !! t = Some (ReleaseClosed i)).
Proof.
  destruct (step_closed s t a s' Hs Hc) as [? ?]. split_and!; [done|done|].
  intros i Ht ->. simpl in Hs. rewrite Ht, Hc in Hs. injection Hs as <-. apply lookup_insert_eq.
Qed.

(** [release] looks at the semaphore before it takes the lock, so a
    [close] that runs in between leaves its connection in the queue of a
    closed pool: there is an interleaving, with every task finished, after
    which the pool is closed, no task can reach the queue through it, and a
    connection was never deallocated. *)
Lemma pool_close_race :
  exists trace s, run (ItemPool_new 1) trace = Some s /\
    closed s = true /\ tasks s = ∅ /\ items s = [0].
Proof.
  exists [(0, Acquire false); (0, Pop); (0, InitOk); (0, Release);
          (1, Close); (1, ClearLock); (1, ClearEnd); (0, Push); (0, DropPermit)].
  eexists. split; [vm_compute; reflexivity|]. split_and!; reflexivity.
Qed.

(** ** Witnesses *)

Definition demo_trace : list (nat * Action) :=
  [(0, Acquire true); (0, Pop); (0, InitOk); (1, Acquire false); (0, Release); (0, Push);
   (1, Pop); (0, DropPermit)].

Definition demo_state : PoolState := default (ItemPool_new 2) (run (ItemPool_new 2) demo_trace).

Lemma demo_reachable : reachable 2 demo_state.
Proof. apply (run_reachable 2 (ItemPool_new 2) demo_trace); [constructor|vm_compute; reflexivity]. Qed.

Lemma pool_limit_witness : available demo_state + count holds_permit (tasks demo_state) = 2.
Proof. exact (proj1 (pool_limit 2 demo_state demo_reachable)). Defined.

Lemma pool_exclusive_witness : NoDup (items demo_state).
Proof. exact (proj1 (pool_exclusive 2 demo_state demo_reachable)). Defined.

Lemma pool_close_final_witness :
  exists s', step (mkPool 1 true [] None ∅ 0) 0 Clear = Some s' /\ closed s' = true.
Proof.
  eexists. split; [reflexivity|].
  exact (proj1 (pool_close_final (mkPool 1 true [] None ∅ 0) _ 0 Clear eq_refl eq_refl)).
Defined.
