(* ===== verification/Status.v ===== *)
(** * Device status flags and status events

    [ups_status.rs] and [ups_event.rs]: the [u32] of status flags with its set
    operations, its iterator, its text form and its parser, and the events
    that a change of status raises. *)

From S2P Require Import Prelude RustStr Numbers Value.

#[local] Open Scope Z_scope.

(** [struct UpsStatus(u32)]. *)
Record UpsStatus := mkStatus { bits : Z }.

#[global] Instance UpsStatus_eq_dec : EqDecision UpsStatus.
Proof. solve_decision. Defined.

Definition u32_max : Z := 4294967295.
Definition is_u32 (z : Z) : Prop := 0 <= z <= u32_max.

(** [!x] on [u32]. *)
Definition u32_not (x : Z) : Z := Z.lxor x u32_max.
(** [count_ones] and [trailing_zeros]. *)
Definition bit_indices : list Z := seqZ 0 32.
Definition count_ones (x : Z) : nat := length (filter (fun i => Z.testbit x i = true) bit_indices).
Definition trailing_zeros (x : Z) : Z :=
  default 32 (head (filter (fun i => Z.testbit x i = true) bit_indices)).

(** [const_val]: the flag of order [n]. *)
Definition flag (order : Z) : UpsStatus := mkStatus (Z.shiftl 1 order).

Definition ALARM := flag 0.
Definition BOOST := flag 1.
Definition BYPASS := flag 2.
Definition CALIBRATING := flag 3.
Definition CHARGING := flag 4.
Definition COMM := flag 5.
Definition DISCHARGE := flag 6.
Definition FORCED_SHUTDOWN := flag 7.
Definition LOW_BATTERY := flag 8.
Definition NOCOMM := flag 9.
Definition OFFLINE := flag 10.
Definition ONLINE := flag 11.
Definition ON_BATTERY := flag 12.
Definition OVERLOADED := flag 13.
Definition REPLACE_BATTERY := flag 14.
Definition TEST := flag 15.
Definition TICK := flag 16.
Definition TOCK := flag 17.
Definition TRIM := flag 18.

(** The rows of [impl_status!]. *)
Definition status_table : list (UpsStatus * str) :=
  [ (ALARM, lit "ALARM"); (BOOST, lit "BOOST"); (BYPASS, lit "BYPASS");
    (CALIBRATING, lit "CAL"); (CHARGING, lit "CHRG"); (COMM, lit "COMM");
    (DISCHARGE, lit "DISCHRG"); (FORCED_SHUTDOWN, lit "FSD"); (LOW_BATTERY, lit "LB");
    (NOCOMM, lit "NOCOMM"); (OFFLINE, lit "OFF"); (ONLINE, lit "OL"); (ON_BATTERY, lit "OB");
    (OVERLOADED, lit "OVER"); (REPLACE_BATTERY, lit "RB"); (TEST, lit "TEST");
    (TICK, lit "TICK"); (TOCK, lit "TOCK"); (TRIM, lit "TRIM") ].

Definition status_default : UpsStatus := mkStatus 0.
Definition bitor (a b : UpsStatus) : UpsStatus := mkStatus (Z.lor (bits a) (bits b)).
Definition bitand (a b : UpsStatus) : UpsStatus := mkStatus (Z.land (bits a) (bits b)).
Definition bitxor (a b : UpsStatus) : UpsStatus := mkStatus (Z.lxor (bits a) (bits b)).

Definition has (s rhs : UpsStatus) : bool := bool_decide (Z.land (bits s) (bits rhs) = bits rhs).
Definition set (s value : UpsStatus) : UpsStatus := mkStatus (Z.lor (bits s) (bits value)).
Definition unset (s value : UpsStatus) : UpsStatus :=
  mkStatus (Z.land (bits s) (u32_not (bits value))).
Definition status_len (s : UpsStatus) : nat := count_ones (bits s).
Definition status_is_empty (s : UpsStatus) : bool := bool_decide (bits s = 0).

(** The flag a word names. *)
Definition word_flag (status : str) : option UpsStatus :=
  match find (fun row => bool_decide (row.2 = status)) status_table with
  | Some row => Some row.1
  | None => None
  end.

(** [UpsStatus::new]: unknown words are skipped. *)
Definition UpsStatus_new (value : str) : UpsStatus :=
  foldl (fun result status =>
           match word_flag status with Some f => bitor result f | None => result end)
        status_default (split_whitespace value).

Definition get_state_str (value : UpsStatus) : str :=
  if decide (value = mkStatus 0) then []
  else match find (fun row => bool_decide (row.1 = value)) status_table with
       | Some row => row.2
       | None => lit "UnknownStatus"
       end.

(** [Iter::next]: the yielded flag and the iterator's next state. *)
Definition status_next (state : UpsStatus) : option (UpsStatus * UpsStatus) :=
  if decide (bits state = 0) then None
  else
    let mask := Z.shiftl 1 (trailing_zeros (bits state)) in
    let yield_val := mkStatus (Z.land (bits state) mask) in
    Some (yield_val, unset state yield_val).

(** A [for] loop over a status. *)
Fixpoint status_for {A} (fuel : nat) (state : UpsStatus) (f : A -> UpsStatus -> A) (acc : A)
  : option A :=
  match fuel with
  | O => None
  | S fuel =>
      match status_next state with
      | None => Some acc
      | Some (value, state) => status_for fuel state f (f acc value)
      end
  end.
Definition iter_fuel : nat := 33.

(** The [while let] of [Display], with [peek] deciding about the separator. *)
Fixpoint fmt_loop (fuel : nat) (state : UpsStatus) (out : str) : option str :=
  match fuel with
  | O => None
  | S fuel =>
      match status_next state with
      | None => Some out
      | Some (value, state) =>
          let out := out ++ get_state_str value in
          let out := match status_next state with Some _ => out ++ [SP] | None => out end in
          fmt_loop fuel state out
      end
  end.

(** [Display for UpsStatus]. *)
Definition UpsStatus_fmt (s : UpsStatus) : option str :=
  if decide (1 < status_len s)%nat then fmt_loop iter_fuel s []
  else Some (get_state_str s).

(** [From<&Value>] and the serde visitor. *)
Definition UpsStatus_from_value (value : Value) : UpsStatus :=
  match value with VString text => UpsStatus_new text | _ => status_default end.
Definition UpsStatus_visit_str (v : str) : UpsStatus := UpsStatus_new v.

(** ** Events *)

Inductive UpsEvent :=
  | AlarmOn | AlarmOff | Boosting | BoostingEnded | BypassOn | BypassOff
  | Calibrating | CalibrationCompleted | Charging | ChargingEnded
  | Discharging | DischargingEnded | EvFSD | LowBattery | LowBatteryEnded
  | DeviceOff | DeviceOn | Online | OnBattery | Overloaded | OverloadEnded
  | ReplaceBattery | ReplaceBatteryEnded | Testing | TestCompleted
  | Trimming | TrimmingEnded | EvNoCOMM | EvCOMM.

#[global] Instance UpsEvent_eq_dec : EqDecision UpsEvent.
Proof. solve_decision. Defined.

Definition UpsEvent_as_str (e : UpsEvent) : str :=
  match e with
  | AlarmOn => lit "AlarmOn" | AlarmOff => lit "AlarmOff"
  | Boosting => lit "Boosting" | BoostingEnded => lit "BoostingEnded"
  | BypassOn => lit "BypassOn" | BypassOff => lit "BypassOff"
  | Calibrating => lit "Calibrating" | CalibrationCompleted => lit "CalibrationCompleted"
  | Charging => lit "Charging" | ChargingEnded => lit "ChargingEnded"
  | Discharging => lit "Discharging" | DischargingEnded => lit "DischargingEnded"
  | EvFSD => lit "FSD" | LowBattery => lit "LowBattery" | LowBatteryEnded => lit "LowBatteryEnded"
  | DeviceOff => lit "DeviceOff" | DeviceOn => lit "DeviceOn" | Online => lit "Online"
  | OnBattery => lit "OnBattery" | Overloaded => lit "Overloaded"
  | OverloadEnded => lit "OverloadEnded" | ReplaceBattery => lit "ReplaceBattery"
  | ReplaceBatteryEnded => lit "ReplaceBatteryEnded" | Testing => lit "Testing"
  | TestCompleted => lit "TestCompleted" | Trimming => lit "Trimming"
  | TrimmingEnded => lit "TrimmingEnded" | EvNoCOMM => lit "NoCOMM" | EvCOMM => lit "COMM"
  end.

Definition all_events : list UpsEvent :=
  [ AlarmOn; AlarmOff; Boosting; BoostingEnded; BypassOn; BypassOff; Calibrating;
    CalibrationCompleted; Charging; ChargingEnded; Discharging; DischargingEnded; EvFSD;
    LowBattery; LowBatteryEnded; DeviceOff; DeviceOn; Online; OnBattery; Overloaded;
    OverloadEnded; ReplaceBattery; ReplaceBatteryEnded; Testing; TestCompleted; Trimming;
    TrimmingEnded; EvNoCOMM; EvCOMM ].

Definition event_of_str (s : str) : option UpsEvent :=
  find (fun e => bool_decide (UpsEvent_as_str e = s)) all_events.

Lemma event_of_as_str e : event_of_str (UpsEvent_as_str e) = Some e.
Proof. by destruct e. Qed.

#[global] Instance UpsEvent_countable : Countable UpsEvent :=
  inj_countable UpsEvent_as_str event_of_str event_of_as_str.

(** The arms of the two matches of [UpsEvents::new]. *)
Definition removed_arms : list (UpsStatus * UpsEvent) :=
  [ (ALARM, AlarmOff); (BOOST, BoostingEnded); (BYPASS, BypassOff);
    (CALIBRATING, CalibrationCompleted); (CHARGING, ChargingEnded);
    (DISCHARGE, DischargingEnded); (LOW_BATTERY, LowBatteryEnded); (OFFLINE, DeviceOn);
    (OVERLOADED, OverloadEnded); (REPLACE_BATTERY, ReplaceBatteryEnded);
    (TEST, TestCompleted); (TRIM, TrimmingEnded) ].

Definition added_arms : list (UpsStatus * UpsEvent) :=
  [ (ALARM, AlarmOn); (BOOST, Boosting); (BYPASS, BypassOn); (CALIBRATING, Calibrating);
    (CHARGING, Charging); (COMM, EvCOMM); (DISCHARGE, Discharging); (FORCED_SHUTDOWN, EvFSD);
    (LOW_BATTERY, LowBattery); (NOCOMM, EvNoCOMM); (OFFLINE, DeviceOff); (ONLINE, Online);
    (ON_BATTERY, OnBattery); (OVERLOADED, Overloaded); (REPLACE_BATTERY, ReplaceBattery);
    (TEST, Testing); (TRIM, Trimming) ].

Definition insert_event (arms : list (UpsStatus * UpsEvent)) (events : gset UpsEvent)
  (status : UpsStatus) : gset UpsEvent :=
  match find (fun arm => bool_decide (arm.1 = status)) arms with
  | Some arm => {[ arm.2 ]} ∪ events
  | None => events
  end.

(** [UpsEvents::new]. *)
Definition UpsEvents_new (old_status new_status : UpsStatus) : option (gset UpsEvent) :=
  let removed := unset old_status new_status in
  events ← status_for iter_fuel removed (insert_event removed_arms) ∅;
  let added := unset new_status old_status in
  status_for iter_fuel added (insert_event added_arms) events.

Definition UpsEvents_contains (events : gset UpsEvent) (e : UpsEvent) : bool :=
  bool_decide (e ∈ events).
Definition UpsEvents_len (events : gset UpsEvent) : nat := size events.
Definition UpsEvents_is_empty (events : gset UpsEvent) : bool := bool_decide (events = ∅).

(** ** Specification *)

Definition status_wf (s : UpsStatus) : Prop := is_u32 (bits s).

(** Only flags of the table. *)
Definition known (s : UpsStatus) : Prop := 0 <= bits s < 2 ^ 19.

(** The flags of a status, lowest first. *)
Definition flags (s : UpsStatus) : list UpsStatus :=
  flag <$> filter (fun i => Z.testbit (bits s) i = true) bit_indices.

(** The change of status that raises an event. *)
Inductive change := Set_ (f : UpsStatus) | Cleared (f : UpsStatus).

Definition event_cause (e : UpsEvent) : change :=
  match e with
  | AlarmOn => Set_ ALARM | AlarmOff => Cleared ALARM
  | Boosting => Set_ BOOST | BoostingEnded => Cleared BOOST
  | BypassOn => Set_ BYPASS | BypassOff => Cleared BYPASS
  | Calibrating => Set_ CALIBRATING | CalibrationCompleted => Cleared CALIBRATING
  | Charging => Set_ CHARGING | ChargingEnded => Cleared CHARGING
  | Discharging => Set_ DISCHARGE | DischargingEnded => Cleared DISCHARGE
  | EvFSD => Set_ FORCED_SHUTDOWN
  | LowBattery => Set_ LOW_BATTERY | LowBatteryEnded => Cleared LOW_BATTERY
  | DeviceOff => Set_ OFFLINE | DeviceOn => Cleared OFFLINE
  | Online => Set_ ONLINE | OnBattery => Set_ ON_BATTERY
  | Overloaded => Set_ OVERLOADED | OverloadEnded => Cleared OVERLOADED
  | ReplaceBattery => Set_ REPLACE_BATTERY | ReplaceBatteryEnded => Cleared REPLACE_BATTERY
  | Testing => Set_ TEST | TestCompleted => Cleared TEST
  | Trimming => Set_ TRIM | TrimmingEnded => Cleared TRIM
  | EvNoCOMM => Set_ NOCOMM | EvCOMM => Set_ COMM
  end.

Definition happened (c : change) (old new : UpsStatus) : bool :=
  match c with
  | Set_ f => has new f && negb (has old f)
  | Cleared f => has old f && negb (has new f)
  end.

Example fmt_ex : UpsStatus_fmt (UpsStatus_new (lit "OB TEST ECO  ALARM")) = Some (lit "ALARM OB TEST").
Proof. vm_compute. reflexivity. Qed.
Example events_ex :
  elements <$> UpsEvents_new (UpsStatus_new (lit "OL CHRG")) (UpsStatus_new (lit "OB DISCHRG"))
  = Some (elements ({[ ChargingEnded; OnBattery; Discharging ]} : gset UpsEvent)).
Proof. vm_compute. reflexivity. Qed.

(** ** Lemmas: bits *)

Lemma u32_bits x i : is_u32 x -> 32 <= i -> Z.testbit x i = false.
Proof.
  intros [H1 H2] Hi. destruct (decide (x = 0)) as [->|]; [apply Z.testbit_0_l|].
  apply Z.bits_above_log2; [lia|]. apply Z.log2_lt_pow2; [lia|].
  apply Z.lt_le_trans with (2 ^ 32); [unfold u32_max in *; lia|apply Z.pow_le_mono_r; lia].
Qed.

Lemma u32_max_bits i : 0 <= i -> Z.testbit u32_max i = bool_decide (i < 32).
Proof.
  intros Hi. change u32_max with (Z.ones 32). rewrite Z.testbit_ones by lia.
  repeat case_bool_decide; lia.
Qed.

Lemma bit_index i : i ∈ bit_indices <-> 0 <= i < 32.
Proof. unfold bit_indices. rewrite elem_of_seqZ. lia. Qed.

(** Two words are equal when their 32 bits are. *)
Lemma u32_ext x y : is_u32 x -> is_u32 y ->
  (forall i, 0 <= i < 32 -> Z.testbit x i = Z.testbit y i) -> x = y.
Proof.
  intros Hx Hy H. apply Z.bits_inj'. intros i Hi. destruct (decide (i < 32)); [apply H; lia|].
  by rewrite !u32_bits by (done || lia).
Qed.

Lemma flag_bits i j : 0 <= i -> 0 <= j -> Z.testbit (bits (flag i)) j = bool_decide (i = j).
Proof.
  intros Hi Hj. simpl. rewrite Z.shiftl_1_l, Z.pow2_bits_eqb by lia.
  case_bool_decide; [by apply Z.eqb_eq|by apply Z.eqb_neq].
Qed.

Lemma has_flag s i : 0 <= i -> has s (flag i) = Z.testbit (bits s) i.
Proof.
  intros Hi. unfold has. apply eq_bool_prop_intro. rewrite bool_decide_spec. split.
  - intros H%(f_equal (fun z => Z.testbit z i)). rewrite Z.land_spec, flag_bits in H by done.
    rewrite bool_decide_eq_true_2, andb_true_r in H by done. by rewrite H.
  - intros H%Is_true_true. apply Z.bits_inj'. intros j Hj. rewrite Z.land_spec, flag_bits by done.
    case_bool_decide; [subst; by rewrite H|apply andb_false_r].
Qed.

Lemma set_bits s v i : Z.testbit (bits (set s v)) i = Z.testbit (bits s) i || Z.testbit (bits v) i.
Proof. apply Z.lor_spec. Qed.

Lemma unset_bits s v i : 0 <= i < 32 ->
  Z.testbit (bits (unset s v)) i = Z.testbit (bits s) i && negb (Z.testbit (bits v) i).
Proof.
  intros Hi. simpl. unfold u32_not. rewrite Z.land_spec, Z.lxor_spec, u32_max_bits by lia.
  rewrite bool_decide_eq_true_2 by lia. by rewrite xorb_true_r.
Qed.

Lemma pow2_u32 n z : 0 <= n <= 32 -> 0 <= z < 2 ^ n -> is_u32 z.
Proof.
  intros Hn Hz. assert (2 ^ n <= 2 ^ 32) by (apply Z.pow_le_mono_r; lia).
  unfold is_u32, u32_max. lia.
Qed.

(** A non-negative number without bits from [n] on is below [2 ^ n]. *)
Lemma bits_below z n : 0 <= n -> 0 <= z ->
  (forall i, n <= i -> Z.testbit z i = false) -> z < 2 ^ n.
Proof.
  intros Hn Hz H. destruct (decide (z = 0)) as [->|]; [lia|].
  apply Z.log2_lt_pow2; [lia|]. destruct (decide (Z.log2 z < n)); [done|exfalso].
  pose proof (Z.bit_log2 z ltac:(lia)) as E. rewrite H in E by lia. done.
Qed.

Lemma set_wf s v : status_wf s -> status_wf v -> status_wf (set s v).
Proof.
  intros Hs Hv. apply (pow2_u32 32); [lia|]. pose proof Hs as [? _]. pose proof Hv as [? _]. split.
  - by apply Z.lor_nonneg.
  - apply bits_below; [lia|by apply Z.lor_nonneg|]. intros i Hi.
    by rewrite set_bits, !u32_bits by done.
Qed.

Lemma unset_wf s v : status_wf s -> status_wf (unset s v).
Proof.
  intros Hs. apply (pow2_u32 32); [lia|]. pose proof Hs as [? _].
  assert (0 <= bits (unset s v)) by (apply Z.land_nonneg; by left). split; [done|].
  apply bits_below; [lia|done|]. intros i Hi. unfold unset. simpl.
  by rewrite Z.land_spec, u32_bits by done.
Qed.

(** ** Lemmas: the iterator *)

Lemma filter_ext_in (P Q : Z -> Prop) {HP : forall i, Decision (P i)} {HQ : forall i, Decision (Q i)} (l : list Z) :
  (forall i, i ∈ l -> P i <-> Q i) -> filter P l = filter Q l.
Proof.
  induction l as [|i l IH]; intros Hpq; [done|]. rewrite !filter_cons.
  rewrite (IH ltac:(intros j Hj; apply Hpq; by right)).
  repeat case_decide; [done| | |done]; exfalso; pose proof (Hpq i ltac:(left)); tauto.
Qed.

Lemma filter_all_in (P : Z -> Prop) {HP : forall i, Decision (P i)} (l : list Z) :
  (forall i, i ∈ l -> P i) -> filter P l = l.
Proof.
  intros Hp. induction l as [|i l IH]; [done|]. rewrite filter_cons_True by (apply Hp; left).
  f_equal. apply IH. intros j Hj. apply Hp. by right.
Qed.

Lemma filter_tail (P : Z -> Prop) {HP : forall i, Decision (P i)} (l : list Z) i rest : NoDup l ->
  filter P l = i :: rest -> filter (fun j => j <> i /\ P j) l = rest.
Proof.
  intros Hl H. rewrite <- list_filter_filter, H.
  assert (Hnd : NoDup (i :: rest)) by (rewrite <- H; by apply list.NoDup_filter).
  apply list.NoDup_cons in Hnd as [Hi Hnd]. rewrite filter_cons_False by tauto.
  apply filter_all_in. intros j Hj ->. done.
Qed.

Lemma flags_nil s : status_wf s -> (flags s = [] <-> bits s = 0).
Proof.
  intros Hs. unfold flags. split.
  - intros H%fmap_nil_inv. apply u32_ext; [done|by vm_compute|]. intros i Hi.
    rewrite Z.testbit_0_l. destruct (Z.testbit (bits s) i) eqn:E; [|done].
    assert (Hin : i ∈ (filter (fun i => Z.testbit (bits s) i = true) bit_indices))
      by (apply list_elem_of_filter; by rewrite bit_index).
    rewrite H in Hin. by apply not_elem_of_nil in Hin.
  - intros ->. by vm_compute.
Qed.

Lemma status_next_spec s : status_wf s ->
  match flags s with
  | [] => status_next s = None
  | f :: rest => exists s', status_next s = Some (f, s') /\ flags s' = rest /\ status_wf s'
  end.
Proof.
  intros Hs. pose proof (flags_nil s Hs) as Hnil. unfold status_next. unfold flags in *.
  unfold trailing_zeros.
  destruct (filter _ bit_indices) as [|i rest] eqn:E; cbn [fmap list_fmap] in *.
  { rewrite decide_True by tauto. done. }
  rewrite decide_False by (intros H; by apply Hnil in H). change (default 32 (head (i :: rest))) with i. cbv zeta.
  assert (Hi : i ∈ filter (fun i => Z.testbit (bits s) i = true) bit_indices)
    by (rewrite E; by left).
  apply list_elem_of_filter in Hi as [Hbit Hi%bit_index].
  assert (Hy : mkStatus (Z.land (bits s) (Z.shiftl 1 i)) = flag i).
  { unfold flag. f_equal. change (Z.shiftl 1 i) with (bits (flag i)).
    pose proof (has_flag s i ltac:(lia)) as Hf. rewrite Hbit in Hf. by apply bool_decide_eq_true in Hf. }
  rewrite Hy. eexists. split; [done|]. split; [|by apply unset_wf]. f_equal.
  rewrite <- (filter_tail _ _ _ _ (NoDup_seqZ 0 32) E).
  apply filter_ext_in. intros j Hj%bit_index.
  rewrite unset_bits, flag_bits, andb_true_iff, negb_true_iff, bool_decide_eq_false by lia.
  intuition congruence.
Qed.

Lemma flags_length s : (length (flags s) <= 32)%nat.
Proof.
  unfold flags. rewrite length_fmap. etrans; [apply length_filter|].
  unfold bit_indices. by rewrite length_seqZ.
Qed.

Lemma elem_of_flags s f :
  f ∈ flags s <-> exists i, 0 <= i < 32 /\ f = flag i /\ Z.testbit (bits s) i = true.
Proof.
  unfold flags. rewrite list_elem_of_fmap. split.
  - intros (i & -> & [Hb Hi%bit_index]%list_elem_of_filter). eauto.
  - intros (i & Hi & -> & Hb). exists i. split; [done|]. by apply list_elem_of_filter; rewrite bit_index.
Qed.

Lemma flags_flag i : 0 <= i < 32 -> flags (flag i) = [flag i] /\ status_wf (flag i).
Proof.
  intros Hi. split.
  - assert (H : forallb (fun i => bool_decide (flags (flag i) = [flag i])) bit_indices = true)
      by (vm_compute; reflexivity).
    rewrite forallb_Forall_iff, list.Forall_forall in H. apply bit_index in Hi. apply H, bool_decide_eq_true in Hi. done.
  - apply (pow2_u32 32); [lia|]. cbn. rewrite Z.shiftl_1_l.
    split; [lia|apply Z.pow_lt_mono_r; lia].
Qed.

Lemma flag_inj i j : 0 <= i -> 0 <= j -> flag i = flag j -> i = j.
Proof.
  intros Hi Hj H. pose proof (flag_bits i i Hi Hi) as E. rewrite H, flag_bits in E by done.
  rewrite (bool_decide_eq_true_2 (i = i) eq_refl) in E. by apply bool_decide_eq_true in E.
Qed.

Lemma flags_inj s s' : status_wf s -> status_wf s' -> flags s = flags s' -> s = s'.
Proof.
  assert (Hin : forall s i, 0 <= i < 32 -> flag i ∈ flags s <-> Z.testbit (bits s) i = true).
  { intros u i Hi. rewrite elem_of_flags. split; [|by eauto].
    intros (j & Hj & ->%flag_inj & Hb); [done|lia..]. }
  intros Hs Hs' H. destruct s as [x], s' as [y]. f_equal. apply u32_ext; [done..|].
  intros i Hi. pose proof (Hin (mkStatus x) i Hi) as H1. pose proof (Hin (mkStatus y) i Hi) as H2.
  simpl in *. apply eq_true_iff_eq. by rewrite <- H1, H, H2.
Qed.

(** A [for] loop visits the flags, lowest first, and ends. *)
Lemma status_for_spec {A} (f : A -> UpsStatus -> A) s acc fuel : status_wf s ->
  (length (flags s) < fuel)%nat -> status_for fuel s f acc = Some (foldl f acc (flags s)).
Proof.
  revert s acc. induction fuel as [|fuel IH]; intros s acc Hs Hl; [lia|].
  pose proof (status_next_spec s Hs) as H. cbn [status_for].
  destruct (flags s) as [|g rest]; [by rewrite H|].
  destruct H as (s' & -> & <- & Hs'). rewrite IH by (done || simpl in Hl; lia). done.
Qed.

Lemma status_for_all {A} (f : A -> UpsStatus -> A) s acc : status_wf s ->
  status_for iter_fuel s f acc = Some (foldl f acc (flags s)).
Proof. intros Hs. apply status_for_spec; [done|]. pose proof (flags_length s). unfold iter_fuel. lia. Qed.

(** ** Lemmas: text *)

Fixpoint join_sp (words : list str) : str :=
  match words with
  | [] => []
  | [w] => w
  | w :: words => w ++ SP :: join_sp words
  end.

Lemma fmt_loop_spec s out fuel : status_wf s -> (length (flags s) < fuel)%nat ->
  fmt_loop fuel s out = Some (out ++ join_sp (get_state_str <$> flags s)).
Proof.
  revert s out. induction fuel as [|fuel IH]; intros s out Hs Hl; [lia|].
  pose proof (status_next_spec s Hs) as H. cbn [fmt_loop].
  destruct (flags s) as [|g rest]; [by rewrite H, app_nil_r|].
  destruct H as (s' & -> & Hf & Hs'). pose proof (status_next_spec s' Hs') as H'.
  cbn [fmap list_fmap] in *. rewrite IH by (done || rewrite Hf; simpl in Hl; lia). rewrite Hf in *.
  destruct rest as [|g' rest].
  - rewrite H'. simpl. by rewrite app_nil_r.
  - destruct H' as (? & -> & _). cbn [fmap list_fmap join_sp]. by rewrite <- !app_assoc.
Qed.

Lemma UpsStatus_fmt_spec s : status_wf s ->
  UpsStatus_fmt s = Some (join_sp (get_state_str <$> flags s)).
Proof.
  intros Hs. unfold UpsStatus_fmt. assert (Hl : status_len s = length (flags s))
    by (unfold flags; by rewrite length_fmap).
  rewrite Hl. case_decide.
  - rewrite fmt_loop_spec; [done..|]. pose proof (flags_length s). unfold iter_fuel. lia.
  - pose proof (flags_nil s Hs) as Hn. destruct (flags s) as [|f [|]] eqn:E; [| |simpl in *; lia].
    + destruct s as [z]. simpl in Hn. by rewrite (proj1 Hn eq_refl).
    + assert (Hin : f ∈ flags s) by (rewrite E; by left).
      apply elem_of_flags in Hin as (i & Hi & -> & _). destruct (flags_flag i Hi) as [Hf Hw].
      by rewrite (flags_inj s (flag i) Hs Hw) by (by rewrite Hf).
Qed.

(** A word: not empty, ASCII, no white space. *)
Definition plain_byte (c : byte) : bool := is_ascii c && negb (char_is_whitespace [c]).
Definition plain_word (w : str) : bool := negb (bool_decide (w = [])) && forallb plain_byte w.

Lemma chars_plain w s : forallb plain_byte w = true ->
  chars (w ++ s) = ((fun c => [c]) <$> w) ++ chars s.
Proof.
  induction w as [|c w IH]; intros H; [done|]. cbn [forallb] in H. apply andb_prop in H as [Hc Hw].
  apply andb_prop in Hc as [Ha _]. cbn [fmap list_fmap app]. rewrite chars_ascii, IH by done. done.
Qed.

Lemma split_ws_plain w cs acc : forallb plain_byte w = true ->
  split_ws_loop (((fun c => [c]) <$> w) ++ cs) acc = split_ws_loop cs (acc ++ w).
Proof.
  revert acc. induction w as [|c w IH]; intros acc H; [by rewrite app_nil_r|].
  cbn [forallb] in H. apply andb_prop in H as [Hc Hw]. apply andb_prop in Hc as [_ Hc].
  apply negb_true_iff in Hc. cbn [fmap list_fmap app split_ws_loop]. rewrite Hc, IH by done.
  by rewrite <- app_assoc.
Qed.

Lemma split_join words : Forall (fun w => plain_word w = true) words ->
  split_whitespace (join_sp words) = words.
Proof.
  assert (Hne : forall w, plain_word w = true -> w <> [] /\ forallb plain_byte w = true).
  { intros w [H1 H2]%andb_prop. by apply negb_true_iff, bool_decide_eq_false in H1. }
  induction 1 as [|w words [Hn Hw]%Hne Hws IH]; [done|].
  unfold split_whitespace in *. destruct words as [|w' words].
  - cbn [join_sp]. rewrite <- (app_nil_r w) at 1. rewrite chars_plain, split_ws_plain by done.
    change (chars []) with (@nil str). cbn [app split_ws_loop]. rewrite decide_False by done. done.
  - change (join_sp (w :: w' :: words)) with (w ++ SP :: join_sp (w' :: words)).
    revert IH. generalize (join_sp (w' :: words)). intros text IH.
    rewrite chars_plain, split_ws_plain, chars_ascii by done. cbn [app split_ws_loop].
    change (char_is_whitespace [SP]) with true. cbn iota. rewrite decide_False, IH by done. done.
Qed.

(** ** Lemmas: the table *)

Lemma word_flag_row w f : word_flag w = Some f <-> (f, w) ∈ status_table.
Proof.
  split.
  - unfold word_flag. destruct (find _ status_table) as [[f' w']|] eqn:E; [|done].
    apply find_some in E as [Hin Hw]. apply bool_decide_eq_true in Hw. simpl in Hw.
    intros [= <-]. subst w. by apply list_elem_of_In.
  - assert (H : forallb (fun row => bool_decide (word_flag row.2 = Some row.1)) status_table = true)
      by (vm_compute; reflexivity).
    rewrite forallb_Forall_iff, list.Forall_forall in H. intros Hin.
    apply H, bool_decide_eq_true in Hin. done.
Qed.

Lemma row_flag f w : (f, w) ∈ status_table ->
  get_state_str f = w /\ plain_word w = true /\ exists i, 0 <= i < 19 /\ f = flag i.
Proof.
  assert (H : forallb (fun row => bool_decide (get_state_str row.1 = row.2) && plain_word row.2 &&
     existsb (fun i => bool_decide (row.1 = flag i)) (seqZ 0 19)) status_table = true)
    by (vm_compute; reflexivity).
  rewrite forallb_Forall_iff, list.Forall_forall in H. intros [[H1 H2]%andb_prop H3]%H%andb_prop.
  apply bool_decide_eq_true in H1. apply existsb_exists in H3 as (i & Hi & Hf).
  apply list_elem_of_In, elem_of_seqZ in Hi. apply bool_decide_eq_true in Hf.
  split_and!; [done..|]. exists i. split; [lia|done].
Qed.

Lemma flag_row i : 0 <= i < 19 -> (flag i, get_state_str (flag i)) ∈ status_table.
Proof.
  assert (H : forallb (fun i => bool_decide (word_flag (get_state_str (flag i)) = Some (flag i)))
                (seqZ 0 19) = true) by (vm_compute; reflexivity).
  rewrite forallb_Forall_iff, list.Forall_forall in H. intros Hi. apply word_flag_row.
  assert (Hin : i ∈ seqZ 0 19) by (apply elem_of_seqZ; lia).
  apply H, bool_decide_eq_true in Hin. done.
Qed.

Lemma known_wf s : known s -> status_wf s.
Proof. apply pow2_u32. lia. Qed.

Lemma known_bit s i : known s -> Z.testbit (bits s) i = true -> i < 19.
Proof.
  intros [H1 H2] Hb. destruct (decide (i < 19)); [done|exfalso].
  destruct (decide (bits s = 0)) as [E|]; [by rewrite E, Z.testbit_0_l in Hb|].
  rewrite Z.bits_above_log2 in Hb; [done|lia|].
  apply Z.lt_le_trans with 19; [apply Z.log2_lt_pow2; lia|lia].
Qed.

Definition add_word (result : UpsStatus) (status : str) : UpsStatus :=
  match word_flag status with Some f => bitor result f | None => result end.

Lemma add_words_spec words acc i : 0 <= i ->
  Z.testbit (bits (foldl add_word acc words)) i = true <->
  Z.testbit (bits acc) i = true \/ exists w, w ∈ words /\ word_flag w = Some (flag i).
Proof.
  intros Hi. revert acc. induction words as [|w words IH]; intros acc.
  { simpl. split; [by left|]. intros [|(w & H & _)]; [done|by apply not_elem_of_nil in H]. }
  cbn [foldl]. rewrite IH. clear IH. unfold add_word.
  destruct (word_flag w) as [f|] eqn:E.
  - pose proof E as Hrow. apply word_flag_row, row_flag in Hrow as (_ & _ & j & Hj & ->).
    change (bits (bitor acc (flag j))) with (bits (set acc (flag j))).
    rewrite set_bits, flag_bits, orb_true_iff, bool_decide_eq_true by lia. split.
    + intros [[?| ->]|(w' & ? & ?)]; [by left|right; exists w; split; [by left|done]|].
      right. exists w'. split; [by right|done].
    + intros [?|(w' & [->|]%elem_of_cons & Hw)]; [by left; left| |right; by eauto].
      rewrite E in Hw. injection Hw as Hw. left. right. apply flag_inj; [lia|lia|].
      unfold flag. by rewrite Hw.
  - split.
    + intros [?|(w' & ? & ?)]; [by left|]. right. exists w'. split; [by right|done].
    + intros [?|(w' & [->|]%elem_of_cons & Hw)]; [by left|congruence|right; by eauto].
Qed.

Lemma new_known t : known (UpsStatus_new t).
Proof.
  unfold UpsStatus_new. fold add_word. generalize (split_whitespace t). intros words.
  assert (H : 0 <= bits (foldl add_word status_default words)).
  { assert (Hg : forall acc, 0 <= bits acc -> 0 <= bits (foldl add_word acc words)); [|by apply Hg].
    induction words as [|w words IH]; intros acc Ha; [done|]. apply IH. unfold add_word.
    destruct (word_flag w) as [f|] eqn:E; [|done].
    apply word_flag_row, row_flag in E as (_ & _ & j & Hj & ->). apply Z.lor_nonneg. split; [done|].
    apply Z.shiftl_nonneg. lia. }
  split; [done|]. apply bits_below; [lia|done|]. intros i Hi.
  apply not_true_iff_false. rewrite add_words_spec by lia.
  intros [Hb|(w & _ & (_ & _ & j & Hj & Hf)%word_flag_row%row_flag)]; [by rewrite Z.testbit_0_l in Hb|].
  apply flag_inj in Hf; lia.
Qed.

Lemma new_has t f w : (f, w) ∈ status_table ->
  has (UpsStatus_new t) f = true <-> w ∈ split_whitespace t.
Proof.
  intros Hrow. destruct (row_flag f w Hrow) as (Hs & _ & i & Hi & ->).
  rewrite has_flag by lia. unfold UpsStatus_new. fold add_word. rewrite add_words_spec by lia.
  split.
  - intros [Hb|(w' & Hin & Hr%word_flag_row)]; [by rewrite Z.testbit_0_l in Hb|].
    apply row_flag in Hr as (Hs' & _). by rewrite <- Hs, Hs'.
  - intros Hin. right. exists w. split; [done|]. by apply word_flag_row.
Qed.

(** ** Lemmas: events *)

Lemma insert_events arms l acc e :
  e ∈ foldl (insert_event arms) acc l <->
  e ∈ acc \/ exists f, f ∈ l /\ e ∈ insert_event arms ∅ f.
Proof.
  revert acc. induction l as [|g l IH]; intros acc.
  { simpl. split; [by left|]. intros [|(f & H & _)]; [done|by apply not_elem_of_nil in H]. }
  cbn [foldl]. rewrite IH.
  assert (Hg : e ∈ insert_event arms acc g <-> e ∈ acc \/ e ∈ insert_event arms ∅ g).
  { unfold insert_event. destruct (find _ arms) as [arm|];
      rewrite ?elem_of_union, ?elem_of_singleton, ?elem_of_empty; tauto. }
  rewrite Hg. split.
  - intros [[?|?]|(f & ? & ?)]; [by left|right; exists g; split; [by left|done]|].
    right. exists f. split; [by right|done].
  - intros [?|(f & [->|?]%elem_of_cons & ?)]; [by left; left|by left; right|right; by eauto].
Qed.

Lemma flag_cases (p : Z -> bool) : forallb p bit_indices = true ->
  forall i, 0 <= i < 32 -> p i = true.
Proof. intros H i Hi%bit_index. rewrite forallb_Forall_iff, list.Forall_forall in H. by apply H. Qed.

Lemma all_events_in e : e ∈ all_events.
Proof. apply (bool_decide_unpack (e ∈ all_events)). by destruct e. Qed.

(** The arm of a flag inserts the events that the flag causes. *)
Lemma arms_cause e i : 0 <= i < 32 ->
  (e ∈ insert_event removed_arms ∅ (flag i) <-> event_cause e = Cleared (flag i)) /\
  (e ∈ insert_event added_arms ∅ (flag i) <-> event_cause e = Set_ (flag i)).
Proof.
  intros Hi.
  pose (arm arms := find (fun arm => bool_decide (arm.1 = flag i)) arms : option (UpsStatus * UpsEvent)).
  assert (Hin : forall arms, e ∈ insert_event arms ∅ (flag i) <->
    (snd <$> find (fun arm => bool_decide (arm.1 = flag i)) arms) = Some e).
  { intros arms. unfold insert_event. destruct (find _ arms) as [a|]; simpl.
    - rewrite elem_of_union, elem_of_singleton, elem_of_empty.
      split; [by intros [-> |[]]|intros [= ->]; by left].
    - rewrite elem_of_empty. by split. }
  rewrite !Hin. clear Hin arm. revert i Hi.
  assert (Hc : forall i, 0 <= i < 32 ->
    eqb (bool_decide ((snd <$> find (fun arm => bool_decide (arm.1 = flag i)) removed_arms) = Some e))
        (match event_cause e with Cleared f => bool_decide (f = flag i) | _ => false end) &&
    eqb (bool_decide ((snd <$> find (fun arm => bool_decide (arm.1 = flag i)) added_arms) = Some e))
        (match event_cause e with Set_ f => bool_decide (f = flag i) | _ => false end) = true).
  { apply flag_cases. destruct e; vm_compute; reflexivity. }
  intros i Hi. destruct (andb_prop _ _ (Hc i Hi)) as [H1%eqb_prop H2%eqb_prop].
  split; rewrite <- (bool_decide_eq_true (_ = Some e)).
  - rewrite H1. destruct (event_cause e); [by split|]. rewrite bool_decide_eq_true. split; congruence.
  - rewrite H2. destruct (event_cause e); [|by split]. rewrite bool_decide_eq_true. split; congruence.
Qed.

(** The flag of a cause is one of the 32. *)
Lemma cause_flag e : exists i, 0 <= i < 32 /\
  (event_cause e = Set_ (flag i) \/ event_cause e = Cleared (flag i)).
Proof.
  assert (H : existsb (fun i => match event_cause e with Set_ f | Cleared f => bool_decide (f = flag i) end)
                bit_indices = true) by (destruct e; vm_compute; reflexivity).
  apply existsb_exists in H as (i & Hi & Hf). apply list_elem_of_In, bit_index in Hi.
  exists i. split; [done|]. destruct (event_cause e); apply bool_decide_eq_true in Hf; subst; auto.
Qed.

Lemma events_ok old new : status_wf old -> status_wf new ->
  UpsEvents_new old new =
  Some (foldl (insert_event added_arms)
          (foldl (insert_event removed_arms) ∅ (flags (unset old new))) (flags (unset new old))).
Proof.
  intros Ho Hn. unfold UpsEvents_new. rewrite status_for_all by (by apply unset_wf).
  cbn [mbind option_bind]. by rewrite status_for_all by (by apply unset_wf).
Qed.

Lemma flags_unset s v i : 0 <= i < 32 ->
  flag i ∈ flags (unset s v) <-> has s (flag i) && negb (has v (flag i)) = true.
Proof.
  intros Hi. rewrite elem_of_flags, !has_flag, <- unset_bits by lia. split; [|by eauto].
  intros (j & Hj & ->%flag_inj & Hb); [done|lia..].
Qed.

Lemma cause_happened e old new events : status_wf old -> status_wf new ->
  UpsEvents_new old new = Some events -> e ∈ events <-> happened (event_cause e) old new = true.
Proof.
  intros Ho Hn H. rewrite events_ok in H by done. injection H as <-.
  rewrite !insert_events. rewrite elem_of_empty. split.
  - intros [[[]|(f & Hf & He)]|(f & Hf & He)]; pose proof Hf as (i & Hi & -> & _)%elem_of_flags;
      apply (arms_cause e i Hi) in He; rewrite He; by apply flags_unset.
  - destruct (cause_flag e) as (i & Hi & [E|E]); rewrite E; cbn [happened]; rewrite <- flags_unset by done.
    + intros Hf. right. exists (flag i). split; [done|]. by apply arms_cause.
    + intros Hf. left. right. exists (flag i). split; [done|]. by apply arms_cause.
Qed.

(** * Theorems *)

(** Status flags are a set of 32 bits: setting, clearing and testing act bit by bit and stay in
    the word, and a [for] loop over a status ends after visiting each of its flags
    exactly once, from the lowest. *)
Lemma status_flag_set (s v : UpsStatus) (Hs : status_wf s) (Hv : status_wf v) :
  status_wf (set s v) /\ status_wf (unset s v) /\ set s v = bitor s v /\
  (forall i, 0 <= i < 32 ->
     has (set s v) (flag i) = has s (flag i) || has v (flag i) /\
     has (unset s v) (flag i) = has s (flag i) && negb (has v (flag i))) /\
  (forall f, f ∈ flags s -> has s f = true) /\ NoDup (flags s) /\ status_len s = length (flags s) /\
  (forall A (f : A -> UpsStatus -> A) acc, status_for iter_fuel s f acc = Some (foldl f acc (flags s))).
Proof.
  split_and!; [by apply set_wf|by apply unset_wf|done| | | | |].
  - intros i Hi. by rewrite !has_flag, set_bits, unset_bits by lia.
  - intros f (i & Hi & -> & Hb)%elem_of_flags. rewrite has_flag by lia. done.
  - unfold flags. apply NoDup_fmap_2_strong; [|apply list.NoDup_filter, (NoDup_seqZ 0 32)].
    intros i j [_ Hi%bit_index]%list_elem_of_filter [_ Hj%bit_index]%list_elem_of_filter.
    apply flag_inj; lia.
  - unfold flags, status_len, count_ones. by rewrite length_fmap.
  - intros A f acc. by apply status_for_all.
Qed.

(** Parsing a status text yields exactly the flags whose words occur in it, in any order, with
    unknown words ignored. *)
Lemma status_parse_spec (t : str) :
  known (UpsStatus_new t) /\
  (forall f w, (f, w) ∈ status_table ->
     has (UpsStatus_new t) f = true <-> w ∈ split_whitespace t) /\
  UpsStatus_from_value (VString t) = UpsStatus_new t.
Proof. split_and!; [apply new_known|apply new_has|done]. Qed.

(** A status made of table flags is printed as their words and parsed back to itself; printing
    any parsed status ends. *)
Lemma status_text_roundtrip (s : UpsStatus) (Hs : known s) :
  exists text, UpsStatus_fmt s = Some text /\ UpsStatus_new text = s /\
    split_whitespace text = get_state_str <$> flags s.
Proof.
  pose proof (known_wf s Hs) as Hw. eexists. split; [by apply UpsStatus_fmt_spec|].
  assert (Hsplit : split_whitespace (join_sp (get_state_str <$> flags s)) = get_state_str <$> flags s).
  { apply split_join, Forall_fmap, list.Forall_forall. intros f (i & Hi & -> & Hb)%elem_of_flags.
    simpl. apply known_bit in Hb; [|done]. apply (row_flag (flag i)), flag_row; lia. }
  split; [|done]. set (text := join_sp _) in *.
  assert (Hk : known (UpsStatus_new text)) by apply new_known.
  destruct s as [x], (UpsStatus_new text) as [y] eqn:E. f_equal.
  apply u32_ext; [by apply (known_wf (mkStatus y))|done|]. intros i Hi. apply eq_true_iff_eq.
  destruct (decide (i < 19)) as [Hlt|Hge].
  - pose proof (new_has text _ _ (flag_row i ltac:(lia))) as Hh.
    rewrite E, has_flag, Hsplit in Hh by lia. cbn [bits] in Hh. rewrite Hh. split.
    + intros (f & Hf & Hin)%list_elem_of_fmap. apply elem_of_flags in Hin as (j & Hj & -> & Hb).
      pose proof (known_bit _ _ Hs Hb) as Hlj.
      pose proof (flag_row i ltac:(lia)) as Hri%word_flag_row.
      pose proof (flag_row j ltac:(lia)) as Hrj%word_flag_row.
      rewrite Hf, Hrj in Hri. injection Hri as Hij. cbn [bits] in Hb.
      rewrite (flag_inj i j); [done|lia..|]. unfold flag. by rewrite Hij.
    + intros Hb. apply list_elem_of_fmap_2, elem_of_flags. eauto.
  - split; intros Hb.
    + pose proof (known_bit (mkStatus y) i Hk Hb). lia.
    + pose proof (known_bit (mkStatus x) i Hs Hb). lia.
Qed.

(** A change of status raises exactly the events whose cause, a flag set or a flag cleared,
    happened between the two statuses. *)
Lemma ups_events_spec (old new : UpsStatus) (Ho : status_wf old) (Hn : status_wf new) :
  exists events, UpsEvents_new old new = Some events /\
    (forall e, UpsEvents_contains events e = happened (event_cause e) old new) /\
    (old = new -> events = ∅).
Proof.
  eexists. split; [by apply events_ok|].
  pose proof (events_ok old new Ho Hn) as E. split.
  - intros e. apply eq_true_iff_eq. unfold UpsEvents_contains. rewrite bool_decide_eq_true.
    by apply cause_happened.
  - intros <-. apply elem_of_equiv_empty_L. intros e He. apply (cause_happened e) in E; [|done..].
    apply E in He. destruct (event_cause e); simpl in He; by rewrite andb_negb_r in He.
Qed.

(** ** Witnesses *)

Lemma status_flag_set_witness :
  has (unset (mkStatus 7) BOOST) BYPASS = true /\ status_len (mkStatus 7) = 3%nat /\
  has (unset (mkStatus 7) BOOST) (flag 1) = has (mkStatus 7) (flag 1) && negb (has BOOST (flag 1)).
Proof.
  split; [vm_compute; reflexivity|]. split; [vm_compute; reflexivity|].
  apply (status_flag_set (mkStatus 7) BOOST); [split; by vm_compute..|lia].
Defined.

Lemma status_text_roundtrip_witness :
  exists text, UpsStatus_fmt (mkStatus 4099) = Some text /\ UpsStatus_new text = mkStatus 4099.
Proof.
  destruct (status_text_roundtrip (mkStatus 4099)) as (text & H1 & H2 & _); [split; by vm_compute|].
  exists text. split; [exact H1|exact H2].
Defined.

Lemma ups_events_spec_witness :
  exists events, UpsEvents_new ONLINE ON_BATTERY = Some events /\ UpsEvents_contains events OnBattery = true.
Proof.
  destruct (ups_events_spec ONLINE ON_BATTERY) as (ev & H1 & H2 & _); [split; by vm_compute..|].
  exists ev. split; [exact H1|]. rewrite H2. vm_compute. reflexivity.
Defined.
