(* ===== verification/Auth.v ===== *)
(** * Permissions, tokens and users

    [auth/permission.rs], [auth/access_token.rs], [auth/user_session.rs],
    [auth/token_signer.rs], [auth/username.rs], [auth/password_str.rs] and
    [auth/user_store.rs] of the web server. Wall-clock time and nonces are
    arguments; HMAC-SHA256 and scrypt are parameters of the definitions that
    call them. *)

From S2P Require Import Prelude RustStr Numbers.

#[local] Open Scope Z_scope.

(** ** Little-endian integers *)

Definition byte_of_Z (z : Z) : byte := byte_of_N (Z.to_N (z mod 256)).
Definition Z_of_byte (b : byte) : Z := Z.of_N (Byte.to_N b).

(** [BufMut::put_u64_le], [u64::from_le_bytes] and the like. *)
Fixpoint put_le (n : nat) (z : Z) : str :=
  match n with
  | O => []
  | S n => byte_of_Z z :: put_le n (Z.shiftr z 8)
  end.
Fixpoint le_value (bytes : str) : Z :=
  match bytes with
  | [] => 0
  | b :: bytes => Z.lor (Z_of_byte b) (Z.shiftl (le_value bytes) 8)
  end.

(** [&bytes[i..j]]. *)
Definition bytes_slice (bytes : str) (i j : nat) : option str :=
  if decide (i <= j /\ j <= length bytes)%nat then Some (take (j - i) (drop i bytes)) else None.

(** ** [permission.rs] *)

(** [struct Permissions(u8)]. *)
Record Permissions := mkPermissions { perm_bits : Z }.

#[global] Instance Permissions_eq_dec : EqDecision Permissions.
Proof. solve_decision. Defined.

Definition perm_default : Permissions := mkPermissions 0.
Definition FSD : Permissions := mkPermissions 1.
Definition INSTCMD : Permissions := mkPermissions 2.
Definition SETVAR : Permissions := mkPermissions 4.
Definition READONLY : Permissions := mkPermissions 0.

Definition perm_has (s rhs : Permissions) : bool :=
  bool_decide (Z.land (perm_bits s) (perm_bits rhs) = perm_bits rhs).
Definition perm_set (s value : Permissions) : Permissions :=
  mkPermissions (Z.lor (perm_bits s) (perm_bits value)).
Definition u8_not (x : Z) : Z := Z.lxor x u8_max.
Definition perm_unset (s value : Permissions) : Permissions :=
  mkPermissions (Z.land (perm_bits s) (u8_not (perm_bits value))).
Definition perm_all : Permissions := perm_set (perm_set FSD INSTCMD) SETVAR.

Definition perm_indices : list Z := seqZ 0 8.
Definition perm_len (s : Permissions) : nat :=
  length (filter (fun i => Z.testbit (perm_bits s) i = true) perm_indices).
Definition perm_as_str (s : Permissions) : str :=
  if decide (s = FSD) then lit "fsd"
  else if decide (s = INSTCMD) then lit "instcmd"
  else if decide (s = SETVAR) then lit "setvar"
  else lit "unknown permission".

(** [Permissions::from(u8)] and [v as u8]. *)
Definition perm_from (value : Z) : Permissions := mkPermissions value.
(** [|], [&] and [^], and the assignments. *)
Definition perm_bitor (a b : Permissions) : Permissions := mkPermissions (Z.lor (perm_bits a) (perm_bits b)).
Definition perm_bitand (a b : Permissions) : Permissions := mkPermissions (Z.land (perm_bits a) (perm_bits b)).
Definition perm_bitxor (a b : Permissions) : Permissions := mkPermissions (Z.lxor (perm_bits a) (perm_bits b)).
Definition as_u8 (v : Z) : Z := v mod 256.

(** [Iter::next]. *)
Definition perm_next (state : Permissions) : option (Permissions * Permissions) :=
  if decide (perm_bits state = 0) then None
  else
    let zeros := default 8 (head (filter (fun i => Z.testbit (perm_bits state) i = true) perm_indices)) in
    let mask := Z.shiftl 1 zeros in
    let yield_val := mkPermissions (Z.land (perm_bits state) mask) in
    Some (yield_val, perm_unset state yield_val).

(** [Display] and [FastWritable]. *)
Fixpoint perm_fmt_loop (fuel : nat) (state : Permissions) (out : str) : option str :=
  match fuel with
  | O => None
  | S fuel =>
      match perm_next state with
      | None => Some out
      | Some (value, state) =>
          let out := out ++ perm_as_str value in
          let out := match perm_next state with Some _ => out ++ [SP] | None => out end in
          perm_fmt_loop fuel state out
      end
  end.
Definition perm_fmt (s : Permissions) : option str :=
  if decide (1 < perm_len s)%nat then perm_fmt_loop 9 s [] else Some (perm_as_str s).

(** The methods of [PermissionVisitor]. *)
Fixpoint perm_visit_seq (permission : Permissions) (elements : list str) : outcome str Permissions :=
  match elements with
  | [] => Ok permission
  | element :: elements =>
      if eq_ignore_ascii_case element (lit "fsd") then perm_visit_seq (perm_set permission FSD) elements
      else if eq_ignore_ascii_case element (lit "instcmd")
      then perm_visit_seq (perm_set permission INSTCMD) elements
      else if eq_ignore_ascii_case element (lit "setvar")
      then perm_visit_seq (perm_set permission SETVAR) elements
      else Err (lit "invalid permission type")
  end.
Definition perm_visit_u64 (v : Z) : Permissions := perm_from (as_u8 v).
Definition perm_from_str (s : str) : option Permissions := perm_from <$> parse_unsigned u8_max s.

(** ** [username.rs], [password_str.rs] *)

Record Username := mkUsername { username_str : str }.
Record PasswordStr := mkPassword { password_text : str }.

#[global] Instance Username_eq_dec : EqDecision Username.
Proof. solve_decision. Defined.

Inductive EmptyUsername := mkEmptyUsername.
Inductive EmptyPasswordStr := mkEmptyPasswordStr.

(** [Username::new] and the [TryFrom]s. *)
Definition Username_new (username : str) : outcome EmptyUsername Username :=
  if decide (trim username = []) then Err mkEmptyUsername else Ok (mkUsername username).
Definition Username_try_from (value : str) : outcome EmptyUsername Username :=
  if decide (trim value = []) then Err mkEmptyUsername else Ok (mkUsername value).
Definition Username_fmt (u : Username) : str := username_str u.
(** The visitor of [Deserialize]. *)
Definition Username_visit_str (v : str) : outcome str Username :=
  map_err (fun _ => lit "empty username string") (Username_new v).
Definition Username_visit_string (v : str) : outcome str Username :=
  map_err (fun _ => lit "empty username string") (Username_try_from v).
Definition EmptyUsername_fmt (e : EmptyUsername) : str := lit "username cannot be empty".
Definition EmptyPasswordStr_fmt (e : EmptyPasswordStr) : str := lit "password string cannot be empty or whitespace only".

(** [get_initials]: [&self.0[0..2]] panics inside a character. *)
Definition get_initials (u : Username) : outcome unit str :=
  match length (username_str u) with
  | O => Ok []
  | 1%nat => Ok (username_str u)
  | _ => or_panic (str_slice (username_str u) 0 2)
  end.

Definition PasswordStr_try_from (value : str) : outcome EmptyPasswordStr PasswordStr :=
  if decide (trim value = []) then Err mkEmptyPasswordStr else Ok (mkPassword value).
Definition PasswordStr_visit_str (v : str) : outcome EmptyPasswordStr PasswordStr := Ok (mkPassword v).
Definition PasswordStr_visit_string (v : str) : outcome EmptyPasswordStr PasswordStr :=
  PasswordStr_try_from v.

(** ** [auth.rs]: the interface of binary tokens *)

Class BinaryToken (T E : Type) := {
  as_bytes : T -> str;
  from_bytes : str -> outcome E T;
}.

(** What a token format promises: the accepted bytes are exactly the bytes of
    well-formed tokens, and reading never panics. *)
Class BinaryTokenLaws (T E : Type) `{BinaryToken T E} := {
  token_wf : T -> Prop;
  from_bytes_iff : forall bytes t, from_bytes bytes = Ok t <-> token_wf t /\ bytes = as_bytes t;
  from_bytes_total : forall bytes, from_bytes bytes <> Panicked /\ from_bytes bytes <> OutOfFuel;
}.

(** ** [access_token.rs] *)

Record AccessToken := mkAccessToken {
  permissions : Permissions;
  valid_until : Z;
  issued_at : Z;
  nonce : Z;
}.

Inductive AccessTokenError := InvalidVersion | InvalidTokenLength | InvalidTimestamps.

Definition AccessTokenError_fmt (e : AccessTokenError) : str :=
  match e with
  | InvalidVersion => lit "api token version is invalid"
  | InvalidTokenLength => lit "token length is invalid"
  | InvalidTimestamps => lit "token's issued_at and valid_until dates are not valid"
  end.

#[global] Instance AccessToken_eq_dec : EqDecision AccessToken.
Proof. solve_decision. Defined.
#[global] Instance AccessTokenError_eq_dec : EqDecision AccessTokenError.
Proof. solve_decision. Defined.

Definition TOKEN_BYTE_LEN : nat := 26.
Definition VERSION : Z := 1.

(** [core::time::Duration], in nanoseconds. *)
Definition Duration := Z.
Definition from_secs (s : Z) : Duration := s * 1000000000.
Definition from_millis (ms : Z) : Duration := ms * 1000000.
Definition as_secs (d : Duration) : Z := d / 1000000000.

Record AccessTokenBuilder := mkBuilder {
  builder_valid_until : Duration;
  builder_permissions : Permissions;
}.

Definition AccessTokenBuilder_new : AccessTokenBuilder := mkBuilder (from_secs (60 * 15)) READONLY.
Definition with_valid_until (b : AccessTokenBuilder) (duration : Duration) : AccessTokenBuilder :=
  mkBuilder duration (builder_permissions b).
Definition with_permissions (b : AccessTokenBuilder) (p : Permissions) : AccessTokenBuilder :=
  mkBuilder (builder_valid_until b) p.
(** [now] is [Utc::now().timestamp() as u64], [fresh] is [Nonce::new()]. *)
Definition build (now fresh : Z) (b : AccessTokenBuilder) : AccessToken :=
  mkAccessToken (builder_permissions b) (u64_saturating_add now (as_secs (builder_valid_until b)))
    now fresh.

Definition is_active (now : Z) (t : AccessToken) : bool :=
  bool_decide (issued_at t <= now) && bool_decide (now < valid_until t).
Definition ttl (now : Z) (t : AccessToken) : Duration :=
  from_secs (u64_saturating_sub (valid_until t) now).
Definition has_permission (t : AccessToken) (p : Permissions) : bool := perm_has (permissions t) p.
Definition get_permissions (t : AccessToken) : Permissions := permissions t.

Definition AccessToken_as_bytes (t : AccessToken) : str :=
  [byte_of_Z VERSION; byte_of_Z (perm_bits (permissions t))] ++
  put_le 8 (issued_at t) ++ put_le 8 (valid_until t) ++ put_le 8 (nonce t).

Definition AccessToken_from_bytes (bytes : str) : outcome AccessTokenError AccessToken :=
  if decide (length bytes <> TOKEN_BYTE_LEN) then Err InvalidTokenLength
  else
    let? version := or_panic (bytes !! 0%nat) in
    let? permissions_val := or_panic (bytes !! 1%nat) in
    let? issued_at_bytes := or_panic (bytes_slice bytes 2 10) in
    let? valid_until_bytes := or_panic (bytes_slice bytes 10 18) in
    let? nonce_bytes := or_panic (bytes_slice bytes 18 26) in
    let issued_at := le_value issued_at_bytes in
    let valid_until := le_value valid_until_bytes in
    let nonce_val := le_value nonce_bytes in
    if decide (Z_of_byte version <> VERSION) then Err InvalidVersion
    else if decide (valid_until < issued_at) then Err InvalidTimestamps
    else Ok (mkAccessToken (perm_from (Z_of_byte permissions_val)) valid_until issued_at nonce_val).

#[global] Instance AccessToken_binary : BinaryToken AccessToken AccessTokenError := {
  as_bytes := AccessToken_as_bytes;
  from_bytes := AccessToken_from_bytes;
}.

(** ** [user_session.rs] *)

Record UserSession := mkUserSession { session_username : Username; access_token : AccessToken }.

Inductive UserSessionError :=
  | InvalidAccessToken (e : AccessTokenError)
  | InvalidSessionLength | InvalidUtf8 | SessionEmptyUsername.

Definition UserSessionError_from (value : AccessTokenError) : UserSessionError := InvalidAccessToken value.
Definition UserSessionError_fmt (e : UserSessionError) : str :=
  match e with
  | InvalidAccessToken err => AccessTokenError_fmt err
  | InvalidSessionLength => lit "token length is invalid"
  | InvalidUtf8 => lit "username string is not a valid utf-8 string"
  | SessionEmptyUsername => lit "username is empty"
  end.

#[global] Instance UserSession_eq_dec : EqDecision UserSession.
Proof. solve_decision. Defined.
#[global] Instance UserSessionError_eq_dec : EqDecision UserSessionError.
Proof. solve_decision. Defined.

Definition UserSession_as_bytes (s : UserSession) : str :=
  AccessToken_as_bytes (access_token s) ++ username_str (session_username s).

Definition UserSession_from_bytes (bytes : str) : outcome UserSessionError UserSession :=
  if decide (length bytes < TOKEN_BYTE_LEN)%nat then Err InvalidSessionLength
  else if decide (length bytes = TOKEN_BYTE_LEN) then Err SessionEmptyUsername
  else
    let? token_bytes := or_panic (bytes_slice bytes 0 TOKEN_BYTE_LEN) in
    let? token := map_err InvalidAccessToken (AccessToken_from_bytes token_bytes) in
    let? name_bytes := or_panic (bytes_from bytes TOKEN_BYTE_LEN) in
    let? username_str := (if utf8_valid name_bytes then Ok name_bytes else Err InvalidUtf8) in
    let? username := map_err (fun _ => SessionEmptyUsername) (Username_new username_str) in
    Ok (mkUserSession username token).

#[global] Instance UserSession_binary : BinaryToken UserSession UserSessionError := {
  as_bytes := UserSession_as_bytes;
  from_bytes := UserSession_from_bytes;
}.

(** ** [token_signer.rs] *)

Inductive SignatureError (E : Type) :=
  | InvalidSignedLength
  | InvalidSignature
  | TokenError (e : E).
#[global] Arguments InvalidSignedLength {E}.
#[global] Arguments InvalidSignature {E}.
#[global] Arguments TokenError {E} e.

Definition SIGNATURE_SIZE : nat := 32.

Section signer.

(** [Hmac::<Sha256>] of a key and a message, and its [verify_slice]. *)
Context (hmac : str -> str -> str) (verify_slice : str -> str -> str -> bool).
Context {T E : Type} `{BinaryToken T E} (server_key : str).

Definition sign_token (token : T) : str :=
  let signed := as_bytes token in
  let signature := hmac server_key signed in
  signed ++ signature.

Definition signer_from_bytes (bytes : str) : outcome (SignatureError E) T :=
  if decide (length bytes <= SIGNATURE_SIZE)%nat then Err InvalidSignedLength
  else
    let mid := (length bytes - SIGNATURE_SIZE)%nat in
    let payload := take mid bytes in
    let signature := drop mid bytes in
    if verify_slice server_key payload signature
    then map_err TokenError (from_bytes payload)
    else Err InvalidSignature.

End signer.

(** ** [user_store.rs] *)

Record UserProfile := mkProfile { profile_permissions : Permissions; profile_username : Username }.
Record User := mkUser { profile : UserProfile; salt : str; password_hash : str }.
Record UserStore := mkStore { inner : gmap str User; session_duration : Duration }.
Record UserStoreBuilder := mkStoreBuilder { users : gmap str User; builder_duration : option Duration }.

Inductive SessionError := InvalidLogin | InvalidOutputLength.
Definition SessionError_fmt (e : SessionError) : str :=
  match e with
  | InvalidLogin => lit "username is not present in user list"
  | InvalidOutputLength => lit "hashing output length is invalid"
  end.

(** Two unaligned [u128] reads of a 32-byte array. *)
Definition read_u128 (bytes : str) (i : nat) : Z := le_value (take 16 (drop (16 * i) bytes)).
Definition cmp_hash (lhs rhs : str) : bool :=
  let result := foldl (fun result i => Z.lor result (Z.lxor (read_u128 lhs i) (read_u128 rhs i))) 0
                      [0%nat; 1%nat] in
  bool_decide (result = 0).

Section store.

(** [scrypt::scrypt] of a password and a salt; [None] is its error. *)
Context (scrypt : str -> str -> option str).

Definition new_session (store : UserStore) (username : Username) (user : User) (now fresh : Z)
  : UserSession :=
  mkUserSession username
    (build now fresh
       (with_valid_until
          (with_permissions AccessTokenBuilder_new (profile_permissions (profile user)))
          (session_duration store))).

Definition login_user (store : UserStore) (username : Username) (password : PasswordStr)
  (now fresh : Z) : outcome SessionError UserSession :=
  match inner store !! username_str username with
  | Some user =>
      match scrypt (password_text password) (salt user) with
      | None => Err InvalidOutputLength
      | Some output =>
          if cmp_hash output (password_hash user) then Ok (new_session store username user now fresh)
          else Err InvalidLogin
      end
  | None => Err InvalidLogin
  end.

Definition renew_session (store : UserStore) (username : Username) (now fresh : Z)
  : outcome SessionError UserSession :=
  match inner store !! username_str username with
  | Some user => Ok (new_session store username user now fresh)
  | None => Err InvalidLogin
  end.

Definition contains_user (store : UserStore) (username : Username) : bool :=
  bool_decide (is_Some (inner store !! username_str username)).

Definition UserStoreBuilder_new : UserStoreBuilder := mkStoreBuilder ∅ None.

(** [add_user]: the replaced user; an scrypt error panics. *)
Definition add_user (b : UserStoreBuilder) (p : UserProfile) (password fresh_salt : str)
  : outcome unit (option User * UserStoreBuilder) :=
  let key := username_str (profile_username p) in
  let? hash := or_panic (scrypt password fresh_salt) in
  let user := mkUser p fresh_salt hash in
  Ok (users b !! key, mkStoreBuilder (<[key := user]> (users b)) (builder_duration b)).

Definition with_session_duration (b : UserStoreBuilder) (d : Duration) : UserStoreBuilder :=
  mkStoreBuilder (users b) (Some d).
Definition WEEK_IN_SECS : Z := 604800.
Definition store_build (b : UserStoreBuilder) : UserStore :=
  mkStore (users b) (default (from_secs WEEK_IN_SECS) (builder_duration b)).

End store.

Example perm_fmt_ex : perm_fmt perm_all = Some (lit "fsd instcmd setvar").
Proof. vm_compute. reflexivity. Qed.
Example token_ex : AccessToken_from_bytes (AccessToken_as_bytes (mkAccessToken SETVAR 900 300 7)) =
  Ok (mkAccessToken SETVAR 900 300 7).
Proof. vm_compute. reflexivity. Qed.

(** ** Lemmas: little-endian integers *)

Lemma Z_of_byte_range b : 0 <= Z_of_byte b < 256.
Proof.
  unfold Z_of_byte. pose proof (Byte.to_N_bounded b). lia.
Qed.

Lemma byte_of_Z_of_byte b : byte_of_Z (Z_of_byte b) = b.
Proof. by destruct b. Qed.

Lemma Z_of_byte_of_Z z : Z_of_byte (byte_of_Z z) = z mod 256.
Proof.
  unfold Z_of_byte, byte_of_Z, byte_of_N. pose proof (Z.mod_pos_bound z 256 ltac:(lia)) as Hb.
  rewrite N.mod_small by lia. destruct (Byte.of_N (Z.to_N (z mod 256))) as [b|] eqn:E; simpl.
  - apply Byte.to_of_N in E. rewrite E. lia.
  - apply Byte.of_N_None_iff in E. lia.
Qed.

(** The high part of a number read byte by byte. *)
Lemma lor_shl8 x y : 0 <= x < 256 -> Z.lor x (Z.shiftl y 8) = x + 256 * y.
Proof.
  intros Hx. rewrite Z.shiftl_mul_pow2 by lia. change (2 ^ 8) with 256.
  replace (x + 256 * y) with (x + y * 256) by lia. symmetry. rewrite Z.add_nocarry_lxor, Z.lxor_lor.
  - done.
  - apply Z.bits_inj'. intros i Hi. rewrite Z.land_spec, Z.bits_0.
    destruct (decide (i < 8)).
    + change 256 with (2 ^ 8). rewrite Z.mul_pow2_bits_low by lia. apply andb_false_r.
    + replace (Z.testbit x i) with false; [done|]. symmetry.
      destruct (decide (x = 0)) as [->|]; [apply Z.bits_0|].
      apply Z.bits_above_log2; [lia|]. apply Z.lt_le_trans with 8; [apply Z.log2_lt_pow2; lia|lia].
  - apply Z.bits_inj'. intros i Hi. rewrite Z.land_spec, Z.bits_0.
    destruct (decide (i < 8)).
    + change 256 with (2 ^ 8). rewrite Z.mul_pow2_bits_low by lia. apply andb_false_r.
    + replace (Z.testbit x i) with false; [done|]. symmetry.
      destruct (decide (x = 0)) as [->|]; [apply Z.bits_0|].
      apply Z.bits_above_log2; [lia|]. apply Z.lt_le_trans with 8; [apply Z.log2_lt_pow2; lia|lia].
Qed.

Lemma le_value_cons b bytes : le_value (b :: bytes) = Z_of_byte b + 256 * le_value bytes.
Proof. apply lor_shl8, Z_of_byte_range. Qed.

Lemma le_value_range bytes : 0 <= le_value bytes < 2 ^ (8 * Z.of_nat (length bytes)).
Proof.
  induction bytes as [|b bytes IH]; [done|]. rewrite le_value_cons. cbn [length].
  replace (8 * Z.of_nat (S (length bytes))) with (8 + 8 * Z.of_nat (length bytes)) by lia.
  rewrite Z.pow_add_r by lia. change (2 ^ 8) with 256. pose proof (Z_of_byte_range b). lia.
Qed.

Lemma length_put_le n z : length (put_le n z) = n.
Proof. revert z. induction n as [|n IH]; intros z; [done|]. simpl. by rewrite IH. Qed.

Lemma le_value_put_le n z : 0 <= z < 2 ^ (8 * Z.of_nat n) -> le_value (put_le n z) = z.
Proof.
  revert z. induction n as [|n IH]; intros z Hz; [simpl in *; lia|].
  cbn [put_le]. rewrite le_value_cons, Z_of_byte_of_Z, IH.
  - rewrite Z.shiftr_div_pow2 by lia. change (2 ^ 8) with 256. pose proof (Z.div_mod z 256). lia.
  - rewrite Z.shiftr_div_pow2 by lia. change (2 ^ 8) with 256.
    replace (8 * Z.of_nat (S n)) with (8 + 8 * Z.of_nat n) in Hz by lia.
    rewrite Z.pow_add_r in Hz by lia. change (2 ^ 8) with 256 in Hz.
    split; [apply Z.div_pos; lia|apply Z.div_lt_upper_bound; lia].
Qed.

Lemma put_le_le_value bytes : put_le (length bytes) (le_value bytes) = bytes.
Proof.
  induction bytes as [|b bytes IH]; [done|]. cbn [length put_le]. rewrite le_value_cons.
  pose proof (Z_of_byte_range b). f_equal.
  - rewrite <- (byte_of_Z_of_byte b) at 2. unfold byte_of_Z. do 2 f_equal.
    rewrite Z.mul_comm, Z_mod_plus_full. done.
  - rewrite Z.shiftr_div_pow2 by lia. change (2 ^ 8) with 256.
    rewrite Z.mul_comm, Z_div_plus_full by lia. rewrite Z.div_small by lia. done.
Qed.

Lemma le_value_inj (a b : str) : length a = length b -> le_value a = le_value b -> a = b.
Proof. intros Hl H. rewrite <- (put_le_le_value a), <- (put_le_le_value b). by rewrite Hl, H. Qed.

(** ** Lemmas: tokens *)

Definition AccessToken_wf (t : AccessToken) : Prop :=
  is_u8 (perm_bits (permissions t)) /\ is_u64 (issued_at t) /\ is_u64 (valid_until t) /\
  is_u64 (nonce t) /\ issued_at t <= valid_until t.

Definition UserSession_wf (s : UserSession) : Prop :=
  AccessToken_wf (access_token s) /\ utf8_valid (username_str (session_username s)) = true /\
  trim (username_str (session_username s)) <> [].

Lemma length_as_bytes t : length (AccessToken_as_bytes t) = TOKEN_BYTE_LEN.
Proof. unfold AccessToken_as_bytes. by rewrite !length_app, !length_put_le. Qed.

(** The five fields of a 26-byte token. *)
Lemma token_split (bytes : str) : length bytes = TOKEN_BYTE_LEN ->
  exists v p (i u n : str), bytes = [v; p] ++ i ++ u ++ n /\ length i = 8%nat /\ length u = 8%nat /\ length n = 8%nat.
Proof.
  intros H. destruct bytes as [|v [|p bytes]]; [done..|]. unfold TOKEN_BYTE_LEN in H. cbn [length] in H.
  exists v, p, (take 8 bytes), (take 8 (drop 8 bytes)), (drop 16 bytes).
  rewrite !length_take, !length_drop. split_and!; [|lia..].
  cbn [app]. do 2 f_equal. rewrite <- (take_drop 8 bytes) at 1. f_equal.
  rewrite <- (take_drop 8 (drop 8 bytes)) at 1. by rewrite drop_drop.
Qed.

Lemma slice_mid (a b c : str) i j : length a = i -> (i + length b)%nat = j ->
  bytes_slice (a ++ b ++ c) i j = Some b.
Proof.
  intros <- <-. unfold bytes_slice. rewrite decide_True by (rewrite !length_app; lia).
  rewrite drop_app_length, Nat.add_comm, Nat.add_sub, take_app_length. done.
Qed.

Lemma slice_end (a b : str) i j : length a = i -> (i + length b)%nat = j ->
  bytes_slice (a ++ b) i j = Some b.
Proof. intros Hi Hj. rewrite <- (app_nil_r b) at 1. by apply slice_mid. Qed.

(** Reading 26 bytes. *)
Lemma from_bytes_fields v p (i u n : str) : length i = 8%nat -> length u = 8%nat -> length n = 8%nat ->
  AccessToken_from_bytes ([v; p] ++ i ++ u ++ n) =
  if decide (Z_of_byte v <> VERSION) then Err InvalidVersion
  else if decide (le_value u < le_value i) then Err InvalidTimestamps
  else Ok (mkAccessToken (mkPermissions (Z_of_byte p)) (le_value u) (le_value i) (le_value n)).
Proof.
  intros Hi Hu Hn. unfold AccessToken_from_bytes.
  rewrite decide_False by (rewrite !length_app, Hi, Hu, Hn; by intros []).
  cbn [app lookup list_lookup or_panic obind].
  change (v :: p :: i ++ u ++ n) with ([v; p] ++ i ++ u ++ n).
  rewrite (slice_mid [v; p] i (u ++ n) 2 10) by (done || simpl; lia).
  rewrite (app_assoc [v; p] i), (slice_mid ([v; p] ++ i) u n 10 18) by (rewrite ?length_app; simpl; lia).
  rewrite (app_assoc ([v; p] ++ i) u).
  rewrite (slice_end (([v; p] ++ i) ++ u) n 18 26) by (rewrite ?length_app; simpl; lia).
  reflexivity.
Qed.

Lemma le8_u64 (bytes : str) : length bytes = 8%nat -> is_u64 (le_value bytes).
Proof. intros H. pose proof (le_value_range bytes) as Hr. rewrite H in Hr. unfold is_u64, u64_max. simpl in *. lia. Qed.

Lemma u64_le8 z : is_u64 z -> le_value (put_le 8 z) = z.
Proof. intros H. apply le_value_put_le. unfold is_u64, u64_max in H. simpl. lia. Qed.

Lemma AccessToken_from_as_bytes t : AccessToken_wf t -> AccessToken_from_bytes (AccessToken_as_bytes t) = Ok t.
Proof.
  intros (Hp & Hi & Hu & Hn & Hle). unfold AccessToken_as_bytes.
  rewrite from_bytes_fields by apply length_put_le. rewrite !u64_le8, !Z_of_byte_of_Z by done.
  rewrite decide_False by (intros H; by apply H). rewrite decide_False by lia.
  destruct t as [[p] u i n]. simpl in *. unfold is_u8, u8_max in Hp. by rewrite Z.mod_small by lia.
Qed.

Lemma AccessToken_from_bytes_inv bytes t : AccessToken_from_bytes bytes = Ok t ->
  AccessToken_wf t /\ bytes = AccessToken_as_bytes t.
Proof.
  intros H. destruct (decide (length bytes = TOKEN_BYTE_LEN)) as [Hl|Hl].
  2:{ unfold AccessToken_from_bytes in H. by rewrite decide_True in H by done. }
  destruct (token_split bytes Hl) as (v & p & i & u & n & -> & Hi & Hu & Hn).
  rewrite from_bytes_fields in H by done. repeat case_decide; [done..|]. injection H as <-.
  pose proof (le8_u64 i Hi). pose proof (le8_u64 u Hu). pose proof (le8_u64 n Hn).
  pose proof (Z_of_byte_range p). split.
  - unfold AccessToken_wf, is_u8, u8_max. simpl. split_and!; try done; lia.
  - unfold AccessToken_as_bytes. cbn [permissions issued_at valid_until nonce perm_bits].
    rewrite <- (put_le_le_value i), <- (put_le_le_value u), <- (put_le_le_value n), Hi, Hu, Hn at 1.
    cbn [app]. rewrite byte_of_Z_of_byte.
    assert (Hv : Z_of_byte v = VERSION) by (destruct (decide (Z_of_byte v = VERSION)); [done|by exfalso]).
    by rewrite <- Hv, byte_of_Z_of_byte.
Qed.

Lemma AccessToken_from_bytes_total bytes :
  AccessToken_from_bytes bytes <> Panicked /\ AccessToken_from_bytes bytes <> OutOfFuel.
Proof.
  destruct (decide (length bytes = TOKEN_BYTE_LEN)) as [Hl|Hl].
  - destruct (token_split bytes Hl) as (v & p & i & u & n & -> & Hi & Hu & Hn).
    rewrite from_bytes_fields by done. by repeat case_decide.
  - unfold AccessToken_from_bytes. by rewrite decide_True by done.
Qed.

#[global] Program Instance AccessToken_laws : BinaryTokenLaws AccessToken AccessTokenError := {
  token_wf := AccessToken_wf;
}.
Next Obligation.
  intros bytes t. split; [apply AccessToken_from_bytes_inv|].
  intros [Hw ->]. by apply AccessToken_from_as_bytes.
Qed.
Next Obligation. apply AccessToken_from_bytes_total. Qed.

Lemma UserSession_split (bytes : str) : (TOKEN_BYTE_LEN < length bytes)%nat ->
  UserSession_from_bytes bytes =
    let? token := map_err InvalidAccessToken (AccessToken_from_bytes (take TOKEN_BYTE_LEN bytes)) in
    if utf8_valid (drop TOKEN_BYTE_LEN bytes) then
      if decide (trim (drop TOKEN_BYTE_LEN bytes) = []) then Err SessionEmptyUsername
      else Ok (mkUserSession (mkUsername (drop TOKEN_BYTE_LEN bytes)) token)
    else Err InvalidUtf8.
Proof.
  intros H. unfold UserSession_from_bytes. rewrite !decide_False by lia.
  unfold bytes_slice, bytes_from. rewrite decide_True by (unfold TOKEN_BYTE_LEN in *; lia).
  rewrite (proj2 (Nat.leb_le _ _)) by lia. rewrite drop_0, Nat.sub_0_r. cbn [or_panic obind].
  destruct (map_err _ _) as [token| | |]; cbn [obind]; [|done..].
  destruct (utf8_valid _); [|done]. cbn [obind]. unfold Username_new. by case_decide.
Qed.

Lemma UserSession_from_bytes_inv bytes s : UserSession_from_bytes bytes = Ok s ->
  UserSession_wf s /\ bytes = UserSession_as_bytes s.
Proof.
  intros H. destruct (decide (length bytes <= TOKEN_BYTE_LEN)%nat) as [Hl|Hl].
  { unfold UserSession_from_bytes in H. repeat case_decide; done || lia. }
  rewrite UserSession_split in H by lia.
  destruct (AccessToken_from_bytes _) as [token| | |] eqn:E; try done. cbn [map_err obind] in H.
  apply AccessToken_from_bytes_inv in E as [Hw Ht].
  destruct (utf8_valid _) eqn:Hu; [|done]. case_decide as Htrim; [done|]. injection H as <-.
  split; [by split_and!|]. unfold UserSession_as_bytes. cbn [access_token session_username username_str].
  rewrite <- Ht. symmetry. apply take_drop.
Qed.

Lemma UserSession_from_as_bytes s : UserSession_wf s -> UserSession_from_bytes (UserSession_as_bytes s) = Ok s.
Proof.
  intros (Ht & Hu & Htrim). unfold UserSession_as_bytes.
  assert (Hne : username_str (session_username s) <> []) by (intros E; by rewrite E in Htrim).
  rewrite UserSession_split.
  - rewrite <- (length_as_bytes (access_token s)), take_app_length, drop_app_length.
    rewrite AccessToken_from_as_bytes by done. cbn [map_err obind]. rewrite Hu, decide_False by done.
    by destruct s as [[name] token].
  - rewrite length_app, length_as_bytes. destruct (username_str _); [done|cbn [length]; lia].
Qed.

Lemma UserSession_from_bytes_total bytes :
  UserSession_from_bytes bytes <> Panicked /\ UserSession_from_bytes bytes <> OutOfFuel.
Proof.
  destruct (decide (length bytes <= TOKEN_BYTE_LEN)%nat) as [Hl|Hl].
  { unfold UserSession_from_bytes. repeat case_decide; try done; lia. }
  rewrite UserSession_split by lia.
  pose proof (AccessToken_from_bytes_total (take TOKEN_BYTE_LEN bytes)) as [H1 H2].
  destruct (AccessToken_from_bytes _); try done. cbn [map_err obind].
  destruct (utf8_valid _); [|done]. by case_decide.
Qed.

#[global] Program Instance UserSession_laws : BinaryTokenLaws UserSession UserSessionError := {
  token_wf := UserSession_wf;
}.
Next Obligation.
  intros bytes s. split; [apply UserSession_from_bytes_inv|].
  intros [Hw ->]. by apply UserSession_from_as_bytes.
Qed.
Next Obligation. apply UserSession_from_bytes_total. Qed.

(** ** Lemmas: signatures *)

(** What the code relies on of HMAC-SHA256: tags have 32 bytes, and
    [verify_slice] accepts the tag of the message and nothing else. *)
Definition hmac_documented (hmac : str -> str -> str) (verify_slice : str -> str -> str -> bool) : Prop :=
  (forall k m, length (hmac k m) = SIGNATURE_SIZE) /\
  (forall k m s, verify_slice k m s = true <-> s = hmac k m).

Section signer_lemmas.
Context (hmac : str -> str -> str) (verify_slice : str -> str -> str -> bool).
Context (Hmac : hmac_documented hmac verify_slice).
Context {T E : Type} `{BinaryTokenLaws T E} (key : str).

Lemma signer_accepts bytes t : signer_from_bytes verify_slice key bytes = Ok t <->
  token_wf t /\ as_bytes t <> [] /\ bytes = sign_token hmac key t.
Proof using Hmac.
  destruct Hmac as [Hlen Hver]. unfold signer_from_bytes. split.
  - intros Hb. case_decide as Hl; [done|].
    destruct (verify_slice _ _ _) eqn:Hv; [|done]. apply Hver in Hv.
    destruct (from_bytes _) as [t'| | |] eqn:Hf; try done. injection Hb as <-.
    apply from_bytes_iff in Hf as [Hw Hp]. split; [done|]. split.
    + intros He. rewrite He in Hp. apply (f_equal length) in Hp. rewrite length_take in Hp.
      simpl in Hp. lia.
    + unfold sign_token. rewrite <- Hp, <- Hv. symmetry. apply take_drop.
  - intros (Hw & Hne & ->). unfold sign_token in *. rewrite length_app, Hlen.
    case_decide as Hl.
    { exfalso. apply Hne, length_zero_iff_nil. lia. }
    rewrite Nat.add_sub, take_app_length, drop_app_length.
    rewrite (proj2 (Hver _ _ _)) by done.
    rewrite (proj2 (from_bytes_iff _ _)) by (by split). done.
Qed.

Lemma signer_total bytes :
  signer_from_bytes (T:=T) (E:=E) verify_slice key bytes <> Panicked /\
  signer_from_bytes (T:=T) (E:=E) verify_slice key bytes <> OutOfFuel.
Proof.
  unfold signer_from_bytes. case_decide; [done|]. destruct (verify_slice _ _ _); [|done].
  destruct (from_bytes_total (take (length bytes - SIGNATURE_SIZE) bytes)) as [Hp Hf].
  by destruct (from_bytes _).
Qed.

End signer_lemmas.

(** ** Lemmas: users *)

Lemma read_u128_split (a b : str) : length a = 32%nat -> length b = 32%nat ->
  a = b <-> read_u128 a 0 = read_u128 b 0 /\ read_u128 a 1 = read_u128 b 1.
Proof.
  intros Ha Hb. split; [by intros ->|]. unfold read_u128. change (16 * 0)%nat with 0%nat.
  change (16 * 1)%nat with 16%nat. rewrite !drop_0. intros [H0 H1].
  apply le_value_inj in H0; [|rewrite !length_take; lia].
  apply le_value_inj in H1; [|rewrite !length_take, !length_drop; lia].
  rewrite !(take_ge (drop 16 _)) in H1 by (rewrite length_drop; lia).
  rewrite <- (take_drop 16 a), <- (take_drop 16 b). by rewrite H0, H1.
Qed.

Lemma cmp_hash_eq (a b : str) : length a = 32%nat -> length b = 32%nat ->
  cmp_hash a b = true <-> a = b.
Proof.
  intros Ha Hb. unfold cmp_hash. cbn [foldl]. rewrite bool_decide_eq_true, (read_u128_split a b Ha Hb).
  rewrite Z.lor_0_l, Z.lor_eq_0_iff, !Z.lxor_eq_0_iff. done.
Qed.

Lemma land_submask a b i : Z.land a b = b -> Z.testbit b i = true -> Z.testbit a i = true.
Proof. intros H Hb. rewrite <- H, Z.land_spec in Hb. by apply andb_prop in Hb as []. Qed.

Lemma perm_has_iff s r : perm_has s r = true <->
  forall i, Z.testbit (perm_bits r) i = true -> Z.testbit (perm_bits s) i = true.
Proof.
  unfold perm_has. rewrite bool_decide_eq_true. split; [intros H i; by apply land_submask|].
  intros H. apply Z.bits_inj. intros i. rewrite Z.land_spec.
  specialize (H i). destruct (Z.testbit (perm_bits r) i); [by rewrite H|apply andb_false_r].
Qed.

Lemma perm_has_trans a b c : perm_has a b = true -> perm_has b c = true -> perm_has a c = true.
Proof. rewrite !perm_has_iff. auto. Qed.

Definition perm_name (p : Permissions) (element : str) : bool :=
  eq_ignore_ascii_case element (perm_as_str p).

(** The flag an element of a permission list names. *)
Definition element_flag (element : str) : option Permissions :=
  find (fun f => perm_name f element) [FSD; INSTCMD; SETVAR].

Lemma element_flag_eq e : element_flag e =
  if eq_ignore_ascii_case e (lit "fsd") then Some FSD
  else if eq_ignore_ascii_case e (lit "instcmd") then Some INSTCMD
  else if eq_ignore_ascii_case e (lit "setvar") then Some SETVAR else None.
Proof. done. Qed.

Lemma perm_visit_seq_spec acc elements :
  perm_visit_seq acc elements =
  match mapM element_flag elements with
  | Some fs => Ok (foldl perm_set acc fs)
  | None => Err (lit "invalid permission type")
  end.
Proof.
  revert acc. induction elements as [|e elements IH]; intros acc; [done|].
  cbn [perm_visit_seq mapM]. rewrite element_flag_eq.
  repeat (destruct (eq_ignore_ascii_case e _); [rewrite IH; simpl; by destruct (mapM element_flag elements)|]).
  done.
Qed.

Lemma perm_set_bits a b i :
  Z.testbit (perm_bits (perm_set a b)) i = Z.testbit (perm_bits a) i || Z.testbit (perm_bits b) i.
Proof. apply Z.lor_spec. Qed.

Lemma perm_foldl_has acc fs g : (exists i, perm_bits g = 2 ^ i /\ 0 <= i) ->
  perm_has (foldl perm_set acc fs) g = true <->
  perm_has acc g = true \/ exists f, f ∈ fs /\ perm_has f g = true.
Proof.
  intros (i & Hg & Hi). assert (Hb : forall s, perm_has s g = true <-> Z.testbit (perm_bits s) i = true).
  { intros s. rewrite perm_has_iff, Hg. split.
    - intros H. apply H. by rewrite Z.pow2_bits_true.
    - intros H j. destruct (decide (j = i)) as [->|]; [done|]. rewrite Z.pow2_bits_false by done. done. }
  rewrite !Hb. setoid_rewrite Hb. revert acc. induction fs as [|f fs IH]; intros acc.
  { simpl. split; [by left|]. intros [|(f & H & _)]; [done|by apply not_elem_of_nil in H]. }
  cbn [foldl]. rewrite IH, perm_set_bits, orb_true_iff. setoid_rewrite elem_of_cons. split.
  - intros [[?|?]|(f' & ? & ?)]; [by left|right; exists f; auto|right; exists f'; auto].
  - intros [?|(f' & [-> |?] & ?)]; [auto|auto|right; eauto].
Qed.

(** * Theorems *)

(** The token formats accept exactly the bytes of well-formed tokens and tell every other input
    apart by its error: an access token is 26 bytes, version 1, and not issued after its expiry;
    a session is an access token followed by a non-blank UTF-8 name. No input panics. *)
Lemma token_formats (bytes : str) :
  (forall t, AccessToken_from_bytes bytes = Ok t <-> AccessToken_wf t /\ bytes = AccessToken_as_bytes t) /\
  (AccessToken_from_bytes bytes = Err InvalidTokenLength <-> length bytes <> 26%nat) /\
  (forall v rest, bytes = v :: rest -> length bytes = 26%nat ->
     (AccessToken_from_bytes bytes = Err InvalidVersion <-> v <> Byte.x01)) /\
  (forall s, UserSession_from_bytes bytes = Ok s <-> UserSession_wf s /\ bytes = UserSession_as_bytes s) /\
  (is_ok (UserSession_from_bytes bytes) = true -> is_ok (AccessToken_from_bytes bytes) = false) /\
  AccessToken_from_bytes bytes <> Panicked /\ UserSession_from_bytes bytes <> Panicked.
Proof.
  split_and!.
  - intros t. exact (@from_bytes_iff _ _ _ AccessToken_laws bytes t).
  - split; [|intros H; unfold AccessToken_from_bytes; by rewrite decide_True by done].
    intros E Hl. destruct (token_split bytes Hl) as (v & p & i & u & n & -> & Hi & Hu & Hn).
    rewrite from_bytes_fields in E by done. by repeat case_decide.
  - intros v rest Hb Hl. destruct (token_split bytes Hl) as (v' & p & i & u & n & E & Hi & Hu & Hn).
    assert (v' = v) as -> by (rewrite E in Hb; by injection Hb). rewrite E, from_bytes_fields by done.
    assert (Hv : Z_of_byte v = VERSION <-> v = Byte.x01).
    { split; [|by intros ->]. intros Hz. by rewrite <- (byte_of_Z_of_byte v), Hz. }
    case_decide as Hd; [split; [intros _ ?; tauto|done]|].
    split; [by case_decide|intros Hne; tauto].
  - intros s. exact (@from_bytes_iff _ _ _ UserSession_laws bytes s).
  - intros Hs. destruct (UserSession_from_bytes bytes) as [s'| | |] eqn:E; try done.
    unfold UserSession_from_bytes in E. repeat case_decide; try done.
    unfold AccessToken_from_bytes. by rewrite decide_True by done.
  - apply AccessToken_from_bytes_total.
  - apply UserSession_from_bytes_total.
Qed.

(** C4: Whatever the key, the bytes a signer accepts are exactly those that [sign_token] makes of a
    well-formed token under that key; a signed API token is never accepted as a
    session, nor a session as an API token. *)
Theorem signed_tokens_exact (hmac : str -> str -> str) (verify_slice : str -> str -> str -> bool)
  (key bytes : str) (Hmac : hmac_documented hmac verify_slice) :
  (forall t : AccessToken, signer_from_bytes verify_slice key bytes = Ok t <->
     AccessToken_wf t /\ bytes = sign_token hmac key t) /\
  (forall s : UserSession, signer_from_bytes verify_slice key bytes = Ok s <->
     UserSession_wf s /\ bytes = sign_token hmac key s) /\
  (forall (t : AccessToken) (s : UserSession),
     ~ (signer_from_bytes verify_slice key bytes = Ok t /\ signer_from_bytes verify_slice key bytes = Ok s)) /\
  signer_from_bytes (T := AccessToken) verify_slice key bytes <> Panicked /\
  signer_from_bytes (T := UserSession) verify_slice key bytes <> Panicked.
Proof.
  assert (Ha : forall t : AccessToken, signer_from_bytes verify_slice key bytes = Ok t <->
     AccessToken_wf t /\ bytes = sign_token hmac key t).
  { intros t. rewrite (signer_accepts hmac verify_slice Hmac key). split; [tauto|]. intros [? ?].
    split; [done|]. split; [done|done]. }
  assert (Hs : forall s : UserSession, signer_from_bytes verify_slice key bytes = Ok s <->
     UserSession_wf s /\ bytes = sign_token hmac key s).
  { intros s. rewrite (signer_accepts hmac verify_slice Hmac key). split; [tauto|]. intros [? ?].
    split; [done|]. split; [done|done]. }
  split_and!; [done|done| |apply (signer_total verify_slice (H0 := AccessToken_laws))
    |apply (signer_total verify_slice (H0 := UserSession_laws))].
  intros t s [[_ Ht]%Ha [(_ & _ & Htrim) Hses]%Hs]. rewrite Ht in Hses.
  apply (f_equal length) in Hses. unfold sign_token in Hses. destruct Hmac as [Hlen _].
  rewrite !length_app, !Hlen in Hses. cbn [as_bytes AccessToken_binary UserSession_binary] in Hses.
  unfold UserSession_as_bytes in Hses. rewrite length_app, !length_as_bytes in Hses.
  apply Htrim. assert (Hn : length (username_str (session_username s)) = 0%nat) by lia.
  apply length_zero_iff_nil in Hn. by rewrite Hn.
Qed.

(** The two unaligned 128-bit reads of [cmp_hash] compare 32-byte hashes exactly. *)
Lemma cmp_hash_equality (a b : str) (Ha : length a = 32%nat) (Hb : length b = 32%nat) :
  cmp_hash a b = bool_decide (a = b).
Proof. apply eq_true_iff_eq. rewrite bool_decide_eq_true. by apply cmp_hash_eq. Qed.

(** What the code relies on of scrypt: it fills the 32-byte output. *)
Definition scrypt_documented (scrypt : str -> str -> option str) : Prop :=
  forall p s h, scrypt p s = Some h -> length h = 32%nat.

Definition store_wf (us : gmap str User) : Prop :=
  forall n u, us !! n = Some u -> length (password_hash u) = 32%nat /\
    username_str (profile_username (profile u)) = n.

(** A user logs in exactly with a password that hashes to the stored hash, and gets a session of
    his name and of his profile's permissions for the configured time; a user that
    was added logs in with the password he was added with, and adding one user
    changes no other. *)
Lemma login_spec (scrypt : str -> str -> option str) (Hs : scrypt_documented scrypt)
  (b : UserStoreBuilder) (Hb : store_wf (users b)) (name : Username) (pw : PasswordStr) (now fresh : Z) :
  (forall s, login_user scrypt (store_build b) name pw now fresh = Ok s <->
     exists u, users b !! username_str name = Some u /\
       scrypt (password_text pw) (salt u) = Some (password_hash u) /\
       s = new_session (store_build b) name u now fresh) /\
  (forall s, login_user scrypt (store_build b) name pw now fresh = Ok s ->
     renew_session (store_build b) name now fresh = Ok s /\ session_username s = name) /\
  (forall p salt old b', add_user scrypt b (mkProfile p name) (password_text pw) salt = Ok (old, b') ->
     store_wf (users b') /\ old = users b !! username_str name /\
     (forall other, other <> username_str name -> users b' !! other = users b !! other) /\
     exists s, login_user scrypt (store_build b') name pw now fresh = Ok s /\
       permissions (access_token s) = p).
Proof.
  assert (Hlog : forall b, store_wf (users b) -> forall s, login_user scrypt (store_build b) name pw now fresh = Ok s <->
     exists u, users b !! username_str name = Some u /\
       scrypt (password_text pw) (salt u) = Some (password_hash u) /\
       s = new_session (store_build b) name u now fresh).
  { intros c Hc s. unfold login_user. cbn [inner store_build].
    destruct (users c !! username_str name) as [u|] eqn:Eu; [|split; [done|by intros (? & ? & _)]].
    destruct (Hc _ _ Eu) as [Hlen _].
    destruct (scrypt (password_text pw) (salt u)) as [out|] eqn:Es;
      [|split; [done|intros (u' & [= <-] & ? & _); congruence]].
    pose proof (cmp_hash_eq out (password_hash u) (Hs _ _ _ Es) Hlen) as Hcmp.
    destruct (cmp_hash out (password_hash u)).
    - split; [intros [= <-]; exists u; split; [done|]; by rewrite Es, (proj1 Hcmp)|].
      by intros (u' & [= <-] & _ & ->).
    - split; [done|]. intros (u' & [= <-] & Hu & _). rewrite Es in Hu. injection Hu as Hu.
      by apply Hcmp in Hu. }
  split_and!; [by apply Hlog| |].
  - intros s (u & Hu & _ & ->)%Hlog; [|done]. unfold renew_session. cbn [inner store_build]. by rewrite Hu.
  - intros p sl old b' Hadd. unfold add_user in Hadd. cbn [profile_username] in Hadd.
    destruct (scrypt (password_text pw) sl) as [h|] eqn:Es; [|done]. injection Hadd as <- <-.
    assert (Hw : store_wf (<[username_str name := mkUser (mkProfile p name) sl h]> (users b))).
    { intros n u [[<- <-]|[? Hn]]%lookup_insert_Some; [|by apply Hb]. split; [|done].
      by apply (Hs (password_text pw) sl). }
    split_and!; [done|done| |].
    + intros other Hne. cbn [users]. by rewrite lookup_insert_ne by done.
    + eexists. split; [apply Hlog; [done|]; eexists; split; [cbn [users]; apply lookup_insert_eq|by split]|].
      done.
Qed.

(** C40: A token built for a duration is active from its issue on for the whole seconds of the duration
    and no longer, saturating at the last second; its remaining time never exceeds
    the duration. *)
Theorem token_lifetime (now later fresh : Z) (d : Duration) (p : Permissions)
  (Hn : is_u64 now) (Hd : 0 <= d) (Hl : now <= later) :
  let t := build now fresh (with_permissions (with_valid_until AccessTokenBuilder_new d) p) in
  is_active later t = bool_decide (later < Z.min (now + d / 1000000000) u64_max) /\
  (forall earlier, earlier < now -> is_active earlier t = false) /\
  (d < 1000000000 -> is_active later t = false) /\
  permissions t = p /\ issued_at t <= valid_until t /\
  ttl later t <= d /\ (is_active later t = true <-> 0 < ttl later t).
Proof.
  pose proof (Z.div_pos d 1000000000 Hd ltac:(lia)) as Hq.
  pose proof (Z.mul_div_le d 1000000000 ltac:(lia)) as Hm.
  unfold is_u64, u64_max in *.
  unfold is_active, ttl, build, u64_saturating_add, u64_saturating_sub, from_secs, as_secs, u64_max.
  cbn [issued_at valid_until permissions builder_valid_until builder_permissions with_permissions
       with_valid_until AccessTokenBuilder_new].
  rewrite (bool_decide_eq_true_2 (now <= later)) by done. cbn [andb]. split_and!.
  - done.
  - intros earlier He. by rewrite bool_decide_eq_false_2 by lia.
  - intros Hsmall. rewrite Z.div_small by lia. apply bool_decide_eq_false_2. lia.
  - done.
  - lia.
  - lia.
  - rewrite bool_decide_eq_true. lia.
Qed.

(** Permissions are a set of flags ordered by [has]; a list of permissions is accepted exactly when
    each element names a flag, in any letter case, and yields exactly the named
    flags; a permission number is taken modulo 256; every set is printed, and
    a non-empty set of known flags is printed as names that read back to it. *)
Lemma permissions_spec (p : Permissions) (elements : list str) (v : Z) :
  perm_has p p = true /\
  (forall q r, perm_has p q = true -> perm_has q r = true -> perm_has p r = true) /\
  (forall r, perm_visit_seq perm_default elements = Ok r ->
     forall f, f ∈ [FSD; INSTCMD; SETVAR] ->
       perm_has r f = true <-> exists e, e ∈ elements /\ element_flag e = Some f) /\
  (is_ok (perm_visit_seq perm_default elements) = true <->
     forall e, e ∈ elements -> is_Some (element_flag e)) /\
  perm_bits (perm_visit_u64 v) = v mod 256 /\
  (is_u8 (perm_bits p) -> is_Some (perm_fmt p)) /\
  (0 < perm_bits p <= 7 -> exists text, perm_fmt p = Some text /\
     perm_visit_seq perm_default (split_whitespace text) = Ok p) /\
  (perm_bits p = 0 -> perm_fmt p = Some (lit "unknown permission")).
Proof.
  split_and!.
  - by apply perm_has_iff.
  - intros q r. apply perm_has_trans.
  - intros r Hr f Hf. rewrite perm_visit_seq_spec in Hr.
    destruct (mapM element_flag elements) as [fs|] eqn:Em; [|done]. injection Hr as <-.
    apply mapM_Some in Em. rewrite perm_foldl_has.
    2:{ apply list_elem_of_In in Hf as [<-|[<-|[<-|[]]]]; [exists 0|exists 1|exists 2]; by split. }
    assert (Hflag : forall e g, element_flag e = Some g -> g ∈ [FSD; INSTCMD; SETVAR]).
    { intros e g Hg. rewrite element_flag_eq in Hg. apply list_elem_of_In.
      destruct (eq_ignore_ascii_case e (lit "fsd")), (eq_ignore_ascii_case e (lit "instcmd")),
        (eq_ignore_ascii_case e (lit "setvar")); simplify_eq; simpl; auto. }
    assert (Hone : forall g, g ∈ [FSD; INSTCMD; SETVAR] -> perm_has g f = true -> g = f).
    { intros g Hg. apply list_elem_of_In in Hf as [<-|[<-|[<-|[]]]];
        apply list_elem_of_In in Hg as [<-|[<-|[<-|[]]]]; by vm_compute. }
    assert (Hnone : perm_has perm_default f = false)
      by (apply list_elem_of_In in Hf as [<-|[<-|[<-|[]]]]; by vm_compute).
    rewrite Hnone. split.
    + intros [|(g & Hg & Hgf)]; [done|]. apply list_elem_of_lookup in Hg as [i Hi].
      destruct (Forall2_lookup_r _ _ _ _ _ Em Hi) as (e & He & Heg).
      apply list_elem_of_lookup_2 in He. exists e. split; [done|].
      rewrite (Hone g) in Heg; [done|by eapply Hflag|done].
    + intros (e & He & Hef). right. exists f. split; [|by apply perm_has_iff].
      apply list_elem_of_lookup in He as [i Hi].
      destruct (Forall2_lookup_l _ _ _ _ _ Em Hi) as (g & Hg & Heg).
      apply list_elem_of_lookup_2 in Hg. congruence.
  - rewrite perm_visit_seq_spec. split.
    + intros Hok e He. destruct (mapM element_flag elements) as [fs|] eqn:Em; [|done].
      apply mapM_Some in Em. apply list_elem_of_lookup in He as [i Hi].
      destruct (Forall2_lookup_l _ _ _ _ _ Em Hi) as (g & _ & Heg). by rewrite Heg.
    + intros Hall. assert (Hs : is_Some (mapM element_flag elements)) by (by apply mapM_is_Some, list.Forall_forall).
      by destruct Hs as [fs ->].
  - done.
  - intros Hp. assert (Hin : perm_bits p ∈ seqZ 0 256) by (apply elem_of_seqZ; unfold is_u8, u8_max in Hp; lia).
    assert (H : forallb (fun z => bool_decide (is_Some (perm_fmt (mkPermissions z)))) (seqZ 0 256) = true)
      by (vm_compute; reflexivity).
    rewrite forallb_Forall_iff, list.Forall_forall in H. apply H, bool_decide_eq_true in Hin. by destruct p.
  - intros Hp. assert (Hin : perm_bits p ∈ seqZ 1 7) by (apply elem_of_seqZ; lia).
    assert (H : forallb (fun z => match perm_fmt (mkPermissions z) with
        | Some text => bool_decide (perm_visit_seq perm_default (split_whitespace text) = Ok (mkPermissions z))
        | None => false end) (seqZ 1 7) = true) by (vm_compute; reflexivity).
    rewrite forallb_Forall_iff, list.Forall_forall in H. apply H in Hin. destruct p as [z]. cbn [perm_bits] in *.
    destruct (perm_fmt (mkPermissions z)) as [text|]; [|done]. apply bool_decide_eq_true in Hin. eauto.
  - destruct p as [z]. cbn [perm_bits]. intros ->. vm_compute. reflexivity.
Qed.

(** ** Witnesses *)

Definition demo_hmac (k m : str) : str := replicate 32 (byte_of_Z (Z.of_nat (length m))).
Definition demo_verify (k m s : str) : bool := bool_decide (s = demo_hmac k m).

Lemma demo_hmac_documented : hmac_documented demo_hmac demo_verify.
Proof.
  split; [intros k m; apply length_replicate|]. intros k m s. apply bool_decide_eq_true.
Qed.

Definition demo_token : AccessToken := mkAccessToken SETVAR 900 300 7.

Lemma signed_tokens_exact_witness :
  signer_from_bytes demo_verify [] (sign_token demo_hmac [] demo_token) = Ok demo_token.
Proof.
  apply (signed_tokens_exact demo_hmac demo_verify [] (sign_token demo_hmac [] demo_token)
           demo_hmac_documented). split; [|reflexivity].
  unfold AccessToken_wf, is_u8, is_u64, u8_max, u64_max. simpl. lia.
Defined.

Definition demo_scrypt (p s : str) : option str := Some (take 32 (p ++ s ++ replicate 32 SP)).

Lemma demo_scrypt_documented : scrypt_documented demo_scrypt.
Proof.
  intros p s h H. assert (h = take 32 (p ++ s ++ replicate 32 SP)) as -> by (unfold demo_scrypt in H; congruence).
  rewrite length_take, !length_app, length_replicate. lia.
Qed.

Lemma login_spec_witness :
  exists s, login_user demo_scrypt
    (store_build (mkStoreBuilder {[ lit "ann" := mkUser (mkProfile INSTCMD (mkUsername (lit "ann")))
       [] (default [] (demo_scrypt (lit "pw") [])) ]} None))
    (mkUsername (lit "ann")) (mkPassword (lit "pw")) 10 3 = Ok s.
Proof.
  eexists. apply (login_spec demo_scrypt demo_scrypt_documented).
  - cbn [users]. intros n u Hn. apply lookup_singleton_Some in Hn as [<- <-]. by split.
  - eexists. split; [apply lookup_singleton_Some; by split|]. split; reflexivity.
Defined.

Lemma token_lifetime_witness :
  is_active 20 (build 10 3 (with_permissions (with_valid_until AccessTokenBuilder_new (from_millis 500)) FSD))
  = false.
Proof. apply (token_lifetime 10 20 3 (from_millis 500) FSD); by vm_compute. Defined.
