(* ===== verification/Config.v ===== *)
(** * Configuration

    [config.rs], its layers [cfg_toml.rs], [cfg_env.rs], [cfg_arg.rs] and
    [cfg_fallback.rs], and the option types [uri_path.rs] and [tls_mode.rs].
    A layer is the record of its optional values, after clap, toml or the
    environment variables were read; [override_opt_field] is [override]. *)

From S2P Require Import Prelude RustStr Numbers Ip.

(** ** [tls_mode.rs] *)

Inductive TlsMode := Disable | Strict | SkipVerify.

#[global] Instance TlsMode_eq_dec : EqDecision TlsMode.
Proof. solve_decision. Defined.

Inductive InvalidTlsModeError := mkInvalidTlsModeError.

Definition TlsMode_from_str (s : str) : outcome InvalidTlsModeError TlsMode :=
  let s := str_to_ascii_lowercase s in
  if decide (s = lit "disable") then Ok Disable
  else if decide (s = lit "skip") then Ok SkipVerify
  else if decide (s = lit "strict") then Ok Strict
  else Err mkInvalidTlsModeError.

Definition TlsMode_as_str (m : TlsMode) : str :=
  match m with
  | Disable => lit "disable"
  | Strict => lit "strict"
  | SkipVerify => lit "skip"
  end.

(** ** [uri_path.rs] *)

(** The bytes of [LOOKUP_ASCII_URI] that are [true]. *)
Definition LOOKUP_ASCII_URI (c : byte) : bool :=
  match c with
  | "!" | "$" | "&" | "(" | ")" | "+" | "," | "'" | ";" | "="
  | "-" | "." | "_" | "~" | "@" | "/" => true
  | _ => in_range "a" "z" c || in_range "A" "Z" c || in_range "0" "9" c
  end%byte.

Fixpoint is_valid_path_loop (path : str) (prev_chr : byte) : bool :=
  match path with
  | [] => true
  | chr :: path =>
      if bool_decide (chr = "/"%byte) && bool_decide (prev_chr = "/"%byte) then false
      else if LOOKUP_ASCII_URI chr then is_valid_path_loop path chr else false
  end.
Definition is_valid_path (path : str) : bool := is_valid_path_loop path Byte.x00.

Record UriPath := mkUriPath { uri : str }.

#[global] Instance UriPath_eq_dec : EqDecision UriPath.
Proof. solve_decision. Defined.

Definition UriPath_default : UriPath := mkUriPath [].
Inductive InvalidPathError := mkInvalidPathError.

Definition UriPath_new (path : str) : outcome InvalidPathError UriPath :=
  let normalized := trim_end_matches (fun c => char_is_whitespace c || bool_decide (c = lit "/"))
                                     (trim path) in
  if decide (normalized = []) then Ok UriPath_default
  else if is_valid_path normalized then
    if starts_with (lit "/") normalized then Ok (mkUriPath normalized)
    else Ok (mkUriPath (lit "/" ++ normalized))
  else Err mkInvalidPathError.

Definition UriPath_is_empty (p : UriPath) : bool := bool_decide (uri p = []).

(** ** [cfg_toml.rs]: log levels *)

(** [tracing::LevelFilter]. *)
Inductive LevelFilter := OFF | ERROR | WARN | INFO | DEBUG | TRACE.

#[global] Instance LevelFilter_eq_dec : EqDecision LevelFilter.
Proof. solve_decision. Defined.

(** [TracingLevelVisitor::visit_str]. *)
Definition LogLevel_visit_str (v : str) : outcome str LevelFilter :=
  let s := str_to_ascii_lowercase v in
  if decide (s = lit "debug") then Ok DEBUG
  else if decide (s = lit "error") then Ok ERROR
  else if decide (s = lit "warn") then Ok WARN
  else if decide (s = lit "info") then Ok INFO
  else if decide (s = lit "trace") then Ok TRACE
  else Err (lit "unsupported log level variant: " ++ v).

(** ** [config.rs] *)

Record HttpServerConfig := mkHttpServerConfig {
  listen : IpAddr;
  http_port : Z;
  base_path : UriPath;
  worker_count : option Z;
}.

Record UpsdConfig := mkUpsdConfig {
  poll_freq : Z;
  poll_interval : Z;
  addr : str;
  upsd_port : Z;
  user : option str;
  pass : option str;
  max_conn : Z;
  tls_mode : TlsMode;
}.

Record ServerConfig := mkServerConfig {
  config_file : option str;
  default_theme : option str;
  log_level : LevelFilter;
  server_key : str;
  http_server : HttpServerConfig;
  upsd : gmap str UpsdConfig;
  auth_users_file : option str;       (** [auth : Option<AuthConfig>] *)
}.

Definition DEFAULT_UPSD_KEY : str := lit "default".

Definition HttpServerConfig_default : HttpServerConfig :=
  mkHttpServerConfig (V4 [0; 0; 0; 0]%Z) 9000 UriPath_default None.
Definition UpsdConfig_default : UpsdConfig :=
  mkUpsdConfig 30 2 (lit "localhost") 3493 None None 4 Disable.
(** [random_key] is [rand_server_key_256bit()]. *)
Definition ServerConfig_default (random_key : str) : ServerConfig :=
  mkServerConfig None None INFO random_key HttpServerConfig_default ∅ None.

Definition get_socket_addr (c : UpsdConfig) : str :=
  addr c ++ lit ":" ++ show_Z (upsd_port c).

(** [override_opt_field!], for a field and for an optional field. *)
Definition override {A} (field : A) (value : option A) : A :=
  match value with Some inner => inner | None => field end.
Definition override_opt {A} (field value : option A) : option A :=
  match value with Some _ => value | None => field end.

(** ** The layers *)

Record HttpSection := mkHttpSection {
  h_listen : option IpAddr;
  h_port : option Z;
  h_base_path : option UriPath;
  h_worker_count : option Z;
}.
Definition HttpSection_none : HttpSection := mkHttpSection None None None None.

Record UpsdSection := mkUpsdSection {
  u_address : option str;
  u_password : option str;
  u_poll_freq : option Z;
  u_poll_interval : option Z;
  u_port : option Z;
  u_username : option str;
  u_max_connection : option Z;
  u_tls_mode : option TlsMode;
}.

Record ServerTomlArgs := mkTomlArgs {
  t_default_theme : option str;
  t_log_level : option LevelFilter;
  t_http_server : option HttpSection;
  t_upsd : option (gmap str UpsdSection);
  t_users_file : option str;
}.

Record ServerEnvArgs := mkEnvArgs {
  e_config_file : option str;
  e_default_theme : option str;
  e_log_level : option LevelFilter;
  e_server_key : option str;
  e_http : HttpSection;
  e_users_file : option str;
  e_upsd_name : option str;
  e_upsd : UpsdSection;
}.

Record ServerCliArgs := mkCliArgs {
  c_config_file : option str;
  c_default_theme : option str;
  c_log_level : option LevelFilter;
  c_server_key : option str;
  c_http : HttpSection;
  c_with_auth : option str;
}.

(** The four [http_server] overrides that the layers share. *)
Definition override_http (c : HttpServerConfig) (s : HttpSection) : HttpServerConfig :=
  mkHttpServerConfig (override (listen c) (h_listen s)) (override (http_port c) (h_port s))
    (override (base_path c) (h_base_path s)) (override_opt (worker_count c) (h_worker_count s)).

(** The eight overrides of a [UpsdConfig]. *)
Definition override_upsd (c : UpsdConfig) (s : UpsdSection) : UpsdConfig :=
  mkUpsdConfig (override (poll_freq c) (u_poll_freq s)) (override (poll_interval c) (u_poll_interval s))
    (override (addr c) (u_address s)) (override (upsd_port c) (u_port s))
    (override_opt (user c) (u_username s)) (override_opt (pass c) (u_password s))
    (override (max_conn c) (u_max_connection s)) (override (tls_mode c) (u_tls_mode s)).

(** [impl ConfigLayer for ServerTomlArgs]. *)
Definition toml_apply_layer (l : ServerTomlArgs) (c : ServerConfig) : ServerConfig :=
  mkServerConfig (config_file c)
    (override_opt (default_theme c) (t_default_theme l))
    (override (log_level c) (t_log_level l))
    (server_key c)
    (match t_http_server l with Some s => override_http (http_server c) s | None => http_server c end)
    (match t_upsd l with
     | Some section =>
         map_fold (fun key val upsd => <[key := override_upsd UpsdConfig_default val]> upsd)
                  (upsd c) section
     | None => upsd c
     end)
    (match t_users_file l with Some f => Some f | None => auth_users_file c end).

(** [impl ConfigLayer for ServerEnvArgs]. *)
Definition env_apply_layer (l : ServerEnvArgs) (c : ServerConfig) : ServerConfig :=
  let default_upsd_key := default DEFAULT_UPSD_KEY (e_upsd_name l) in
  let upsd := if bool_decide (is_Some (u_address (e_upsd l))) &&
                 negb (bool_decide (is_Some (upsd c !! default_upsd_key)))
              then <[default_upsd_key := UpsdConfig_default]> (upsd c) else upsd c in
  let upsd := match upsd !! default_upsd_key with
              | Some default_upsd => <[default_upsd_key := override_upsd default_upsd (e_upsd l)]> upsd
              | None => upsd
              end in
  mkServerConfig
    (override_opt (config_file c) (e_config_file l))
    (override_opt (default_theme c) (e_default_theme l))
    (override (log_level c) (e_log_level l))
    (override (server_key c) (e_server_key l))
    (override_http (http_server c) (e_http l))
    upsd
    (match e_users_file l with Some f => Some f | None => auth_users_file c end).

(** [impl ConfigLayer for ServerCliArgs]. *)
Definition cli_apply_layer (l : ServerCliArgs) (c : ServerConfig) : ServerConfig :=
  mkServerConfig
    (override_opt (config_file c) (c_config_file l))
    (override_opt (default_theme c) (c_default_theme l))
    (override (log_level c) (c_log_level l))
    (override (server_key c) (c_server_key l))
    (override_http (http_server c) (c_http l))
    (upsd c)
    (match c_with_auth l with Some f => Some f | None => auth_users_file c end).

(** [impl ConfigLayer for FallbackArgs]. *)
Definition fallback_apply_layer (c : ServerConfig) : ServerConfig :=
  mkServerConfig (config_file c) (default_theme c) (log_level c) (server_key c) (http_server c)
    (if decide (upsd c = ∅) then <[DEFAULT_UPSD_KEY := UpsdConfig_default]> (upsd c) else upsd c)
    (auth_users_file c).

(** The layers of [load_configs] in [main.rs]. *)
Definition load_layers (random_key : str) (toml : ServerTomlArgs) (env : ServerEnvArgs)
  (cli : ServerCliArgs) : ServerConfig :=
  fallback_apply_layer (cli_apply_layer cli (env_apply_layer env (toml_apply_layer toml
    (ServerConfig_default random_key)))).

(** ** Tests *)

Example uri_ex1 : UriPath_new (lit "  app/v1// ") = Ok (mkUriPath (lit "/app/v1")).
Proof. vm_compute. reflexivity. Qed.
Example uri_ex2 : UriPath_new (lit "/a//b") = Err mkInvalidPathError.
Proof. vm_compute. reflexivity. Qed.
Example uri_ex3 : UriPath_new (lit "//") = Ok UriPath_default.
Proof. vm_compute. reflexivity. Qed.

(** ** Lemmas *)

Lemma valid_path_ascii path prev : is_valid_path_loop path prev = true ->
  forallb is_ascii path = true /\ forallb LOOKUP_ASCII_URI path = true.
Proof.
  assert (Ha : forall c, LOOKUP_ASCII_URI c = true -> is_ascii c = true).
  { intros c. apply implb_true_iff.
    assert (H : forall c, implb (LOOKUP_ASCII_URI c) (is_ascii c) = true)
      by (apply forall_byte; vm_compute; reflexivity).
    by rewrite H. }
  revert prev. induction path as [|c path IH]; intros prev H; [done|]. cbn [is_valid_path_loop] in H.
  destruct (_ && _); [done|]. destruct (LOOKUP_ASCII_URI c) eqn:E; [|done].
  apply IH in H as [H1 H2]. cbn [forallb]. by rewrite (Ha c E), E.
Qed.

(** Neither the path nor [prev] followed by it has two slashes in a row. *)
Lemma valid_path_no_double path prev : is_valid_path_loop path prev = true ->
  forall i, (prev :: path) !! i = Some "/"%byte -> (prev :: path) !! S i <> Some "/"%byte.
Proof.
  revert prev. induction path as [|c path IH]; intros prev H i Hi Hs; [by destruct i|].
  cbn [is_valid_path_loop] in H. destruct i as [|i].
  - injection Hi as ->. injection Hs as ->. by rewrite !bool_decide_eq_true_2 in H by done.
  - destruct (_ && _); [done|]. destruct (LOOKUP_ASCII_URI c); [|done]. by apply (IH c H i).
Qed.

Lemma valid_path_prev path prev : is_valid_path_loop path prev = true -> prev <> "/"%byte ->
  forall prev', prev' <> "/"%byte -> is_valid_path_loop path prev' = true.
Proof.
  destruct path as [|c path]; intros H Hp prev' Hp'; [done|]. cbn [is_valid_path_loop] in *.
  rewrite (bool_decide_eq_false_2 (prev' = _)), andb_false_r by done.
  by rewrite (bool_decide_eq_false_2 (prev = _)), andb_false_r in H by done.
Qed.

Definition uri_end (c : str) : bool := char_is_whitespace c || bool_decide (c = lit "/").

(** A path text: starts with a slash, does not end in one, and is valid. *)
Definition is_path (s : str) : Prop :=
  is_valid_path s = true /\ starts_with (lit "/") s = true /\
  exists t a, s = t ++ [a] /\ uri_end [a] = false.

Lemma is_path_new s : is_path s -> UriPath_new s = Ok (mkUriPath s).
Proof.
  intros (Hv & Hs & t & a & Hta & He). pose proof (valid_path_ascii _ _ Hv) as [Ha _].
  pose proof (orb_false_elim _ _ He) as [Hws _].
  assert (Htrim : trim s = s).
  { unfold trim. destruct s as [|c s]; [by destruct t|].
    assert (c = "/"%byte) as ->.
    { apply starts_with_iff in Hs as [r Hr]. change (lit "/") with ["/"%byte] in Hr. by injection Hr. }
    rewrite trim_start_ascii by done. rewrite Hta in *. by apply trim_end_ascii. }
  unfold UriPath_new. rewrite Htrim.
  assert (Hend : trim_end_matches (fun c => char_is_whitespace c || bool_decide (c = lit "/")) s = s).
  { rewrite Hta in *. by apply (trim_end_ascii uri_end). }
  rewrite Hend. rewrite decide_False by (rewrite Hta; by destruct t). by rewrite Hv, Hs.
Qed.

Lemma new_is_path path p : UriPath_new path = Ok p -> uri p = [] \/ is_path (uri p).
Proof.
  unfold UriPath_new. set (n := trim_end_matches _ _). intros H.
  case_decide as Hn; [injection H as <-; by left|]. destruct (is_valid_path n) eqn:Hv; [|done]. right.
  pose proof (valid_path_ascii _ _ Hv) as [Ha _].
  destruct (trim_end_last _ _ Hn Ha) as (t & a & Hta & He). fold n in Hta.
  destruct (starts_with (lit "/") n) eqn:Hs; injection H as <-; cbn [uri].
  - split_and!; [done|done|by eauto].
  - split_and!.
    + unfold is_valid_path. cbn [app is_valid_path_loop lit]. change (lit "/") with ["/"%byte].
      cbn [app is_valid_path_loop]. unfold is_valid_path in Hv.
      destruct n as [|c n]; [done|]. cbn [is_valid_path_loop] in *.
      assert (Hc : c <> "/"%byte).
      { intros ->. cbn in Hs. done. }
      rewrite (bool_decide_eq_false_2 (c = "/"%byte)) in * by done. done.
    + apply starts_with_iff. by exists n.
    + exists (lit "/" ++ t), a. split; [by rewrite Hta|done].
Qed.

Lemma toml_upsd_lookup (section : gmap str UpsdSection) (c : gmap str UpsdConfig) k :
  map_fold (fun key val upsd => <[key := override_upsd UpsdConfig_default val]> upsd) c section !! k =
  match section !! k with Some s => Some (override_upsd UpsdConfig_default s) | None => c !! k end.
Proof.
  apply (map_fold_weak_ind (fun (r : gmap str UpsdConfig) (m : gmap str UpsdSection) => r !! k =
    match m !! k with Some s => Some (override_upsd UpsdConfig_default s) | None => c !! k end)).
  - by rewrite lookup_empty.
  - intros i x m r Hi Hr. destruct (decide (i = k)) as [->|]; [by rewrite !lookup_insert_eq|].
    by rewrite !lookup_insert_ne by done.
Qed.

(** ** Specification *)

(** The sections that the toml file gives. *)
Definition toml_sections (l : ServerTomlArgs) : gmap str UpsdSection := default ∅ (t_upsd l).
Definition env_key (l : ServerEnvArgs) : str := default DEFAULT_UPSD_KEY (e_upsd_name l).

(** The daemons before the fallback. *)
Definition layered_upsd (toml : ServerTomlArgs) (env : ServerEnvArgs) (k : str) : option UpsdConfig :=
  let t := override_upsd UpsdConfig_default <$> toml_sections toml !! k in
  if decide (k = env_key env) then
    match t with
    | Some c => Some (override_upsd c (e_upsd env))
    | None => match u_address (e_upsd env) with
              | Some _ => Some (override_upsd UpsdConfig_default (e_upsd env))
              | None => None
              end
    end
  else t.

Lemma env_upsd_lookup toml env key k :
  upsd (env_apply_layer env (toml_apply_layer toml (ServerConfig_default key))) !! k =
  layered_upsd toml env k.
Proof.
  unfold env_apply_layer. cbn [upsd]. fold (env_key env).
  set (c := upsd (toml_apply_layer toml (ServerConfig_default key))).
  assert (Hc : forall k, c !! k = override_upsd UpsdConfig_default <$> toml_sections toml !! k).
  { intros k'. unfold c, toml_apply_layer, toml_sections. cbn [upsd ServerConfig_default].
    destruct (t_upsd toml) as [section|]; cbn [default from_option id].
    - rewrite toml_upsd_lookup, lookup_empty. by destruct (section !! k').
    - by rewrite !lookup_empty. }
  unfold layered_upsd. cbv zeta. rewrite <- Hc.
  set (key0 := env_key env).
  destruct (decide (k = key0)) as [->|Hk].
  - destruct (c !! key0) as [x|] eqn:E.
    + rewrite (bool_decide_eq_true_2 (is_Some (Some x))) by done. rewrite andb_false_r, E.
      apply lookup_insert_eq.
    + rewrite (bool_decide_eq_false_2 (is_Some None)) by (by intros [? ?]). rewrite andb_true_r.
      destruct (u_address (e_upsd env)) as [a|].
      * rewrite bool_decide_eq_true_2 by done. rewrite lookup_insert_eq. apply lookup_insert_eq.
      * rewrite bool_decide_eq_false_2 by (by intros [? ?]). by rewrite E.
  - destruct (_ && _).
    + rewrite lookup_insert_eq. rewrite lookup_insert_ne by done. by rewrite lookup_insert_ne by done.
    + destruct (c !! key0); [by rewrite lookup_insert_ne by done|done].
Qed.

(** * Theorems *)

(** Every configuration value is the one of the command line, else of the environment, else of the
    toml file, else the default. *)
Lemma config_precedence (key : str) (toml : ServerTomlArgs) (env : ServerEnvArgs) (cli : ServerCliArgs) :
  let c := load_layers key toml env cli in
  let th := default HttpSection_none (t_http_server toml) in
  let first {A} (a b t : option A) := match a with Some _ => a | None => match b with Some _ => b | None => t end end in
  config_file c = first (c_config_file cli) (e_config_file env) None /\
  default_theme c = first (c_default_theme cli) (e_default_theme env) (t_default_theme toml) /\
  log_level c = default INFO (first (c_log_level cli) (e_log_level env) (t_log_level toml)) /\
  server_key c = default key (first (c_server_key cli) (e_server_key env) None) /\
  listen (http_server c) =
    default (V4 [0; 0; 0; 0]%Z) (first (h_listen (c_http cli)) (h_listen (e_http env)) (h_listen th)) /\
  http_port (http_server c) =
    default 9000%Z (first (h_port (c_http cli)) (h_port (e_http env)) (h_port th)) /\
  base_path (http_server c) =
    default UriPath_default (first (h_base_path (c_http cli)) (h_base_path (e_http env)) (h_base_path th)) /\
  worker_count (http_server c) =
    first (h_worker_count (c_http cli)) (h_worker_count (e_http env)) (h_worker_count th) /\
  auth_users_file c = first (c_with_auth cli) (e_users_file env) (t_users_file toml).
Proof.
  destruct toml as [tt tl th tu tf], env as [ec et el ek [ea ep eb ew] ef en eu],
    cli as [cc ct cl ck [ca cp cb cw] cf].
  destruct th as [[ta tp tb tw]|]; cbn; unfold override, override_opt;
    split_and!; repeat match goal with |- context [match ?x with _ => _ end] => is_var x; destruct x end; done.
Qed.

(** The daemons of a configuration: each toml section overrides the defaults, the environment
    overrides the daemon it names, which it creates only if it gives an address, and
    the table is never empty; without an address and without toml sections the
    environment's credentials are lost. *)
Lemma config_upsd_table (key : str) (toml : ServerTomlArgs) (env : ServerEnvArgs) (cli : ServerCliArgs) :
  let c := load_layers key toml env cli in
  upsd c <> ∅ /\
  ((exists k x, layered_upsd toml env k = Some x) -> forall k, upsd c !! k = layered_upsd toml env k) /\
  ((forall k, layered_upsd toml env k = None) -> upsd c = {[DEFAULT_UPSD_KEY := UpsdConfig_default]}) /\
  (toml_sections toml = ∅ -> u_address (e_upsd env) = None ->
     upsd c = {[DEFAULT_UPSD_KEY := UpsdConfig_default]}).
Proof.
  pose proof (env_upsd_lookup toml env key) as Hl.
  set (m := upsd (env_apply_layer env (toml_apply_layer toml (ServerConfig_default key)))) in *.
  assert (Hc : upsd (load_layers key toml env cli) =
    if decide (m = ∅) then <[DEFAULT_UPSD_KEY := UpsdConfig_default]> m else m) by done.
  cbv zeta. rewrite Hc.
  assert (Hnone : (forall k, layered_upsd toml env k = None) ->
    (if decide (m = ∅) then <[DEFAULT_UPSD_KEY := UpsdConfig_default]> m else m) =
    {[DEFAULT_UPSD_KEY := UpsdConfig_default]}).
  { intros Hn. assert (Hm : m = ∅) by (apply map_empty; intros k; by rewrite Hl). rewrite decide_True by done. by rewrite Hm. }
  split_and!; [|intros (k & x & Hk)|done|].
  - case_decide; [|done]. intros He%(f_equal (lookup DEFAULT_UPSD_KEY)).
    by rewrite lookup_insert_eq, lookup_empty in He.
  - rewrite decide_False; [done|]. intros He. rewrite <- Hl, He, lookup_empty in Hk. done.
  - intros Ht Ha. apply Hnone. intros k. unfold layered_upsd. rewrite Ht, Ha, lookup_empty.
    by destruct (decide (k = env_key env)).
Qed.

(** An accepted base path is empty, or starts with a slash, does not end in one, has no two in a
    row and only path characters; reading it again gives the same path. A TLS mode is
    read back from its name in any letter case. *)
Lemma config_options_canonical (path : str) (p : UriPath) (Hp : UriPath_new path = Ok p) :
  UriPath_new (uri p) = Ok p /\
  (uri p = [] \/ starts_with (lit "/") (uri p) = true /\ list.last (uri p) <> Some "/"%byte) /\
  forallb LOOKUP_ASCII_URI (uri p) = true /\
  (forall i, uri p !! i = Some "/"%byte -> uri p !! S i <> Some "/"%byte) /\
  (forall m s, str_to_ascii_lowercase s = TlsMode_as_str m -> TlsMode_from_str s = Ok m).
Proof.
  assert (Htls : forall m s, str_to_ascii_lowercase s = TlsMode_as_str m -> TlsMode_from_str s = Ok m).
  { intros m s Hs. unfold TlsMode_from_str. cbv zeta. rewrite Hs. destruct m; reflexivity. }
  destruct (new_is_path path p Hp) as [He|Hpath].
  - destruct p as [u]. cbn [uri] in *. subst u. split_and!; [reflexivity|by left|reflexivity| |done].
    intros i Hi. rewrite lookup_nil in Hi. done.
  - split_and!; [| | | |done].
    + rewrite is_path_new by done. by destruct p.
    + right. destruct Hpath as (_ & Hs & t & a & Hta & He). split; [done|]. rewrite Hta. rewrite last_snoc.
      intros [= ->]. done.
    + destruct Hpath as (Hv & _). by eapply valid_path_ascii.
    + destruct Hpath as (Hv & _). intros i Hi Hs. by apply (valid_path_no_double _ _ Hv (S i)).
Qed.

Lemma config_options_canonical_witness :
  UriPath_new (lit "/app") = Ok (mkUriPath (lit "/app")).
Proof.
  apply (config_options_canonical (lit "app/") (mkUriPath (lit "/app"))). vm_compute. reflexivity.
Defined.
