(* ===== verification/IpText.v ===== *)
(** * The text of IP addresses

    The [Display] of [std::net::IpAddr], which [HttpServerConfig::get_listen_addr]
    of [config.rs] joins with a port and which serde writes for the clients of a
    device, and the law that ties it to the reader of [Ip]: the text of an
    address is read back as that address. *)

From S2P Require Import Prelude RustStr Numbers Ip Config.

(** ** Printing *)

Definition hex_byte (d : Z) : byte := byte_of_N (if (d <? 10)%Z then 48 + Z.to_N d else 87 + Z.to_N d).

(** [{:x}] of a 16-bit segment: at most four digits. *)
Fixpoint hex_digits (fuel : nat) (n : Z) (acc : str) : str :=
  match fuel with
  | O => acc
  | S f =>
      let acc := hex_byte (n mod 16) :: acc in
      if (n / 16 =? 0)%Z then acc else hex_digits f (n / 16) acc
  end.
Definition show_hex (n : Z) : str := hex_digits 4 n [].

Definition Ipv4Addr_fmt (os : list Z) : str :=
  match os with
  | [] => []
  | o :: os => show_nat_Z o ++ flat_map (fun o => "."%byte :: show_nat_Z o) os
  end.

(** [fmt_subslice]. *)
Definition groups_tail (gs : list Z) : str := flat_map (fun g => ":"%byte :: show_hex g) gs.
Definition fmt_subslice (gs : list Z) : str :=
  match gs with
  | [] => []
  | g :: gs => show_hex g ++ groups_tail gs
  end.

Record Span := mkSpan { start : nat; len : nat }.
Definition Span_default : Span := mkSpan 0 0.

(** The loop over the segments: the longest run of zeros so far, and the run it is in. *)
Fixpoint zero_spans (i : nat) (longest current : Span) (segments : list Z) : Span :=
  match segments with
  | [] => longest
  | segment :: segments =>
      if (segment =? 0)%Z then
        let current := mkSpan (if len current =? 0 then i else start current) (S (len current)) in
        let longest := if len longest <? len current then current else longest in
        zero_spans (S i) longest current segments
      else zero_spans (S i) longest Span_default segments
  end.
Definition zeroes (segments : list Z) : Span := zero_spans 0 Span_default Span_default segments.

(** [Ipv6Addr::to_ipv4_mapped]. *)
Definition to_ipv4_mapped (segments : list Z) : option (list Z) :=
  match segments with
  | [s0; s1; s2; s3; s4; s5; ab; cd] =>
      if bool_decide ([s0; s1; s2; s3; s4; s5] = [0; 0; 0; 0; 0; 65535]%Z)
      then Some [ab / 256; ab mod 256; cd / 256; cd mod 256]%Z
      else None
  | _ => None
  end.

Definition Ipv6Addr_fmt (segments : list Z) : str :=
  match to_ipv4_mapped segments with
  | Some ipv4 => lit "::ffff:" ++ Ipv4Addr_fmt ipv4
  | None =>
      let z := zeroes segments in
      if 1 <? len z
      then fmt_subslice (take (start z) segments) ++ lit "::" ++ fmt_subslice (drop (start z + len z) segments)
      else fmt_subslice segments
  end.

Definition IpAddr_fmt (ip : IpAddr) : str :=
  match ip with
  | V4 os => Ipv4Addr_fmt os
  | V6 ss => Ipv6Addr_fmt ss
  end.

Example fmt_v4 : IpAddr_fmt (V4 [192; 168; 1; 20]%Z) = lit "192.168.1.20".
Proof. reflexivity. Qed.
Example fmt_loopback : IpAddr_fmt (V6 [0; 0; 0; 0; 0; 0; 0; 1]%Z) = lit "::1".
Proof. reflexivity. Qed.
Example fmt_unspecified : IpAddr_fmt (V6 [0; 0; 0; 0; 0; 0; 0; 0]%Z) = lit "::".
Proof. reflexivity. Qed.
Example fmt_mapped : IpAddr_fmt (V6 [0; 0; 0; 0; 0; 65535; 2560; 1]%Z) = lit "::ffff:10.0.0.1".
Proof. reflexivity. Qed.
Example fmt_first_longest : IpAddr_fmt (V6 [8193; 0; 0; 1; 0; 0; 0; 1]%Z) = lit "2001:0:0:1::1".
Proof. reflexivity. Qed.
Example fmt_single_zero : IpAddr_fmt (V6 [8193; 0; 1; 1; 1; 1; 1; 1]%Z) = lit "2001:0:1:1:1:1:1:1".
Proof. reflexivity. Qed.

(** ** Reading the digits back *)

(** What follows a number: the end, or a byte that is no digit of any radix. *)
Definition ends (r : str) : Prop :=
  match r with
  | [] => True
  | c :: _ => c = "."%byte \/ c = ":"%byte
  end.

Lemma ends_no_digit c r radix : ends (c :: r) -> to_digit radix c = None.
Proof. by intros [-> | ->]. Qed.

(** The value of a run of digits. *)
Fixpoint radix_value (radix value : Z) (ds : str) : option Z :=
  match ds with
  | [] => Some value
  | c :: ds => d ← to_digit radix c; radix_value radix (value * radix + d) ds
  end.

Lemma radix_value_le radix ds value v : (1 <= radix)%Z -> (0 <= value)%Z ->
  radix_value radix value ds = Some v -> (value <= v)%Z.
Proof.
  intros Hr. revert value. induction ds as [|c ds IH]; intros value Hv; cbn; [intros [= ->]; lia|].
  destruct (to_digit radix c) as [d|] eqn:Ed; [|done]. cbn. apply to_digit_bound in Ed.
  assert (value <= value * radix)%Z by nia. intros Hrec. apply IH in Hrec; lia.
Qed.

Lemma read_digits_run radix max md ds r value n v : (1 <= radix)%Z -> (0 <= value)%Z -> ends r ->
  radix_value radix value ds = Some v -> (v <= max)%Z -> n + length ds <= md ->
  read_digits radix max md (ds ++ r) value n = Some (v, n + length ds, r).
Proof.
  intros Hr. revert value n. induction ds as [|c ds IH]; intros value n Hv He; cbn [radix_value app length].
  - intros [= ->] _ _. rewrite Nat.add_0_r. destruct r as [|c r]; [done|]. cbn. by rewrite (ends_no_digit _ r).
  - destruct (to_digit radix c) as [d|] eqn:Ed; [|done]. cbn. intros H Hm Hn. rewrite Ed.
    apply to_digit_bound in Ed. assert (0 <= value * radix)%Z by nia.
    assert (value * radix + d <= v)%Z by (eapply radix_value_le; [| |exact H]; lia).
    destruct (Z.ltb_spec max (value * radix + d)); [lia|].
    destruct (Nat.leb_spec md n); [lia|]. rewrite IH by (done || lia). by rewrite Nat.add_succ_r.
Qed.

(** The digits of a number, as [read_number] wants them; [z] allows zeros before it. *)
Definition number_text (radix max : Z) (md : nat) (z : bool) (v : Z) (ds : str) : bool :=
  bool_decide (radix_value radix 0 ds = Some v) && (0 <? length ds) && (length ds <=? md)
  && (z || bool_decide (length ds = 1) || bool_decide (head ds <> Some "0"%byte)) && (v <=? max)%Z.

Lemma read_number_text radix max md z v ds r : (1 <= radix)%Z -> number_text radix max md z v ds = true -> ends r ->
  read_number radix max md z (ds ++ r) = Some (v, r).
Proof.
  intros Hr Hn He. unfold number_text in Hn.
  apply andb_true_iff in Hn as [Hn Hmax%Z.leb_le]. apply andb_true_iff in Hn as [Hn Hz].
  apply andb_true_iff in Hn as [Hn Hmd%Nat.leb_le]. apply andb_true_iff in Hn as [Hv%bool_decide_eq_true Hpos%Nat.ltb_lt].
  unfold read_number. rewrite (read_digits_run _ _ _ ds r 0 0 v) by (done || lia). cbn [Nat.add].
  destruct (Nat.eqb_spec (length ds) 0); [lia|].
  replace (negb z && _ && (1 <? length ds)) with false; [done|]. symmetry.
  destruct z; [done|]. destruct (Nat.ltb_spec 1 (length ds)); [|by rewrite andb_false_r]. rewrite andb_true_r.
  apply orb_true_iff in Hz as [Hz%bool_decide_eq_true | Hz%bool_decide_eq_true]; [lia|].
  destruct ds as [|c ds]; [done|]. cbn [app] in *. by destruct c.
Qed.

(** The octets are few enough to be checked one by one. *)
Lemma octet_text o : (0 <= o <= u8_max)%Z -> number_text 10 u8_max 3 false o (show_nat_Z o) = true.
Proof.
  intros Ho. assert (Hall : forallb (fun o => number_text 10 u8_max 3 false o (show_nat_Z o)) (seqZ 0 256) = true)
    by (vm_compute; reflexivity).
  rewrite forallb_forall in Hall. apply Hall. apply list_elem_of_In, elem_of_seqZ. unfold u8_max in Ho. lia.
Qed.

Lemma hex_byte_spec d : (0 <= d < 16)%Z -> to_digit 16 (hex_byte d) = Some d /\ hex_byte d <> "."%byte.
Proof.
  intros Hd. assert (Hall : forallb (fun d => bool_decide (to_digit 16 (hex_byte d) = Some d) &&
    bool_decide (hex_byte d <> "."%byte)) (seqZ 0 16) = true) by (vm_compute; reflexivity).
  rewrite forallb_forall in Hall. specialize (Hall d). rewrite andb_true_iff, !bool_decide_eq_true in Hall.
  apply Hall, list_elem_of_In, elem_of_seqZ. lia.
Qed.

Lemma hex_digits_value f n acc : (0 <= n < 16 ^ Z.of_nat f)%Z ->
  radix_value 16 0 (hex_digits f n acc) = radix_value 16 n acc.
Proof.
  revert n acc. induction f as [|f IH]; intros n acc Hn; [cbn in *; by replace n with 0%Z by lia|].
  rewrite Nat2Z.inj_succ, Z.pow_succ_r in Hn by lia. cbn [hex_digits].
  assert (Hm : (0 <= n mod 16 < 16)%Z) by (apply Z.mod_pos_bound; lia).
  assert (E := Z.div_mod n 16 ltac:(lia)). apply hex_byte_spec in Hm as [Hd _].
  destruct (Z.eqb_spec (n / 16) 0) as [E0|E0].
  - cbn [radix_value]. rewrite Hd. cbn. f_equal. lia.
  - rewrite IH by (split; [apply Z.div_pos; lia|apply Z.div_lt_upper_bound; lia]). cbn [radix_value]. rewrite Hd.
    cbn. f_equal. lia.
Qed.

Lemma hex_digits_length f n acc : length acc < length (hex_digits (S f) n acc) <= S f + length acc.
Proof.
  revert n acc. induction f as [|f IH]; intros n acc; cbn [hex_digits].
  - case_match; cbn; lia.
  - case_match; [cbn; lia|]. specialize (IH (n / 16)%Z (hex_byte (n mod 16) :: acc)). cbn [hex_digits length] in IH. lia.
Qed.

Lemma hex_digits_no_dot f n acc : "."%byte ∉ acc -> "."%byte ∉ hex_digits f n acc.
Proof.
  revert n acc. induction f as [|f IH]; intros n acc Ha; [done|]. cbn [hex_digits].
  assert ("."%byte ∉ hex_byte (n mod 16) :: acc).
  { apply not_elem_of_cons. split; [|done].
    destruct (hex_byte_spec (n mod 16)) as [_ Hn]; [apply Z.mod_pos_bound; lia|]. congruence. }
  case_match; [done|by apply IH].
Qed.

Lemma segment_text g : (0 <= g <= u16_max)%Z -> number_text 16 u16_max 4 true g (show_hex g) = true.
Proof.
  intros Hg. unfold number_text, show_hex. rewrite hex_digits_value by (unfold u16_max in Hg; lia).
  pose proof (hex_digits_length 3 g []) as Hl. cbn [length] in Hl.
  rewrite bool_decide_true by done. destruct (Nat.ltb_spec 0 (length (hex_digits 4 g []))); [|lia].
  destruct (Nat.leb_spec (length (hex_digits 4 g [])) 4); [|lia]. by destruct (Z.leb_spec g u16_max); [|lia].
Qed.

(** ** Reading the addresses back *)

(** The text of an octet or a segment starts with no separator. *)
Lemma read_number_ends radix max md z r : ends r -> read_number radix max md z r = None.
Proof.
  unfold read_number. destruct r as [|c r]; [done|]. intros He. cbn [read_digits]. by rewrite (ends_no_digit c r).
Qed.

Lemma read_octets_tail os i r : Forall (fun o => 0 <= o <= u8_max)%Z os -> 0 < i -> ends r ->
  read_octets (length os) i (flat_map (fun o => "."%byte :: show_nat_Z o) os ++ r) = Some (os, r).
Proof.
  intros Hos. revert i. induction Hos as [|o os Ho Hos IH]; intros i Hi Hr; [done|].
  cbn [length read_octets flat_map app]. unfold read_separator. destruct (Nat.ltb_spec 0 i); [|lia].
  rewrite bool_decide_true by done. rewrite <- app_assoc. rewrite (read_number_text _ _ _ _ o); [|lia|by apply octet_text|].
  - rewrite IH by (done || lia). done.
  - destruct os; [done|]. by left.
Qed.

Lemma read_ipv4_addr_fmt os r : length os = 4 -> Forall (fun o => 0 <= o <= u8_max)%Z os -> ends r ->
  read_ipv4_addr (Ipv4Addr_fmt os ++ r) = Some (os, r).
Proof.
  destruct os as [|o os]; [done|]. intros [= Hlen] Hos Hr. apply Forall_cons_1 in Hos as [Ho Hos].
  unfold read_ipv4_addr, Ipv4Addr_fmt. cbn [read_octets]. unfold read_separator at 1. cbn [Nat.ltb Nat.leb].
  rewrite <- app_assoc. rewrite (read_number_text _ _ _ _ o); [|lia|by apply octet_text|destruct os; [done|by left]].
  assert (E := read_octets_tail os 1 r Hos ltac:(lia) Hr). rewrite Hlen in E. cbn [read_octets] in E |- *. by rewrite E.
Qed.

(** A text that reaches a colon or its end before any dot holds no dotted address. *)
Lemma read_digits_no_dot radix max md ds r value n v n' r' : "."%byte ∉ ds -> head r <> Some "."%byte -> ends r ->
  read_digits radix max md (ds ++ r) value n = Some (v, n', r') -> head r' <> Some "."%byte.
Proof.
  intros Hd Hr He. revert value n. induction ds as [|c ds IH]; intros value n; cbn [app].
  - destruct r as [|c r]; [by intros [= <- <- <-]|]. cbn [read_digits]. rewrite (ends_no_digit c r) by done. by intros [= <- <- <-].
  - apply not_elem_of_cons in Hd as [Hc Hd]. cbn [read_digits]. destruct (to_digit radix c).
    + case_match; [done|]. case_match; [done|]. by apply IH.
    + intros [= <- <- <-]. cbn. congruence.
Qed.

Lemma read_ipv4_no_dot ds r : "."%byte ∉ ds -> head r <> Some "."%byte -> ends r -> read_ipv4_addr (ds ++ r) = None.
Proof.
  intros Hd Hr He. unfold read_ipv4_addr. cbn [read_octets]. unfold read_separator at 1. cbn [Nat.ltb Nat.leb].
  destruct (read_number 10 u8_max 3 false (ds ++ r)) as [[o r']|] eqn:E; [|done].
  assert (head r' <> Some "."%byte) as Hr'.
  { unfold read_number in E. destruct (read_digits _ _ _ _ _ _) as [[[v n] r1]|] eqn:Ed; [|done].
    apply read_digits_no_dot in Ed; [|done..]. destruct (n =? 0); [done|]. destruct (_ && _); [done|]. by injection E as <- <-. }
  unfold read_separator. cbn [Nat.ltb Nat.leb]. destruct r' as [|c r']; [done|]. rewrite bool_decide_false; [done|].
  intros ->. by apply Hr'.
Qed.

Lemma show_hex_no_dot g : "."%byte ∉ show_hex g.
Proof. apply hex_digits_no_dot, not_elem_of_nil. Qed.

(** What ends a run of groups: the end of the text, or the [::]. *)
Definition groups_end (r : str) : Prop := r = [] \/ exists r', r = lit "::" ++ r'.

Lemma groups_end_ends r : groups_end r -> ends r /\ head r <> Some "."%byte.
Proof. intros [-> | [r' ->]]; [done|]. split; [by right|done]. Qed.

Lemma groups_tail_ends gs r : groups_end r -> ends (groups_tail gs ++ r) /\ head (groups_tail gs ++ r) <> Some "."%byte.
Proof. intros Hr. destruct gs; [by apply groups_end_ends|]. cbn. split; [by right|done]. Qed.

Lemma read_groups_step n i s : read_groups (S n) i s =
  match (if 0 <? n then read_separator ":"%byte i read_ipv4_addr s else None) with
  | Some ([a; b; c; d], r) => ([a * 256 + b; c * 256 + d]%Z, true, r)
  | _ =>
      match read_separator ":"%byte i (read_number 16 u16_max 4 true) s with
      | None => ([], false, s)
      | Some (g, r) => let '(gs, v4, r) := read_groups n (S i) r in (g :: gs, v4, r)
      end
  end.
Proof. reflexivity. Qed.

Lemma read_groups_end n i r : groups_end r -> read_groups n i r = ([], false, r).
Proof.
  intros Hr. destruct n as [|n]; [done|]. cbn [read_groups]. unfold read_separator.
  assert (Hread : forall r, groups_end r \/ (exists r', r = ":"%byte :: r') ->
    read_ipv4_addr r = None /\ read_number 16 u16_max 4 true r = None).
  { intros r1 H1. assert (ends r1 /\ head r1 <> Some "."%byte) as [H2 H3].
    { destruct H1 as [H1|[r' ->]]; [by apply groups_end_ends|]. split; [by right|done]. }
    split; [by apply (read_ipv4_no_dot [] r1); [apply not_elem_of_nil|..]|by apply read_number_ends]. }
  destruct (0 <? i).
  - destruct Hr as [-> | [r' ->]]; [by destruct (0 <? n)|].
    change (lit "::" ++ r') with (":"%byte :: ":"%byte :: r').
    destruct (Hread (":"%byte :: r') ltac:(right; eauto)) as [H4 H6].
    rewrite bool_decide_true by done. rewrite H4, H6. by destruct (0 <? n).
  - destruct (Hread r ltac:(by left)) as [H4 H6]. rewrite H4, H6. by destruct (0 <? n).
Qed.

Lemma read_groups_tail gs n i r : 0 < i -> length gs <= n -> Forall (fun g => 0 <= g <= u16_max)%Z gs -> groups_end r ->
  read_groups n i (groups_tail gs ++ r) = (gs, false, r).
Proof.
  intros Hi Hn Hgs Hr. revert n i Hi Hn. induction Hgs as [|g gs Hg Hgs IH]; intros n i Hi Hn.
  - by apply read_groups_end.
  - destruct n as [|n]; [cbn in Hn; lia|]. cbn [length] in Hn.
    destruct (groups_tail_ends gs r Hr) as [He Hh].
    cbn [read_groups groups_tail flat_map app]. unfold read_separator. destruct (Nat.ltb_spec 0 i); [|lia].
    rewrite bool_decide_true by done. rewrite <- app_assoc. fold (groups_tail gs).
    rewrite read_ipv4_no_dot by (done || apply show_hex_no_dot).
    rewrite (read_number_text _ _ _ _ g); [|lia|by apply segment_text|done].
    rewrite IH by lia. by destruct (0 <? n).
Qed.

Lemma read_groups_fmt gs n r : length gs <= n -> Forall (fun g => 0 <= g <= u16_max)%Z gs -> groups_end r ->
  read_groups n 0 (fmt_subslice gs ++ r) = (gs, false, r).
Proof.
  intros Hn Hgs Hr. destruct Hgs as [|g gs Hg Hgs]; [by apply read_groups_end|].
  destruct n as [|n]; [cbn in Hn; lia|]. cbn [length] in Hn. destruct (groups_tail_ends gs r Hr) as [He Hh].
  cbn [fmt_subslice read_groups]. unfold read_separator. cbn [Nat.ltb Nat.leb]. rewrite <- app_assoc.
  rewrite read_ipv4_no_dot by (done || apply show_hex_no_dot).
  rewrite (read_number_text _ _ _ _ g); [|lia|by apply segment_text|done].
  rewrite read_groups_tail by (done || lia). by destruct n.
Qed.

Lemma span_zero_step (l : list Z) i (longest current : Span) :
  (forall k, start current <= k < start current + len current -> l !! k = Some 0%Z) ->
  (0 < len current -> start current + len current = i) -> l !! i = Some 0%Z ->
  let next := mkSpan (if len current =? 0 then i else start current) (S (len current)) in
  (forall k, start next <= k < start next + len next -> l !! k = Some 0%Z) /\ start next + len next = S i.
Proof.
  intros Hc Hi Hl next. subst next. cbn [start len]. destruct (Nat.eqb_spec (len current) 0) as [E|E].
  - rewrite E. split; [|lia]. intros k Hk. by replace k with i by lia.
  - specialize (Hi ltac:(lia)). split; [|lia]. intros k Hk. destruct (decide (k = i)) as [->|]; [done|]. apply Hc. lia.
Qed.

(** The run found is a run of zeros of the list. *)
Lemma zero_spans_run (l : list Z) i longest current segments :
  drop i l = segments ->
  (forall k, start longest <= k < start longest + len longest -> l !! k = Some 0%Z) ->
  (forall k, start current <= k < start current + len current -> l !! k = Some 0%Z) ->
  (0 < len current -> start current + len current = i) ->
  let z := zero_spans i longest current segments in
  forall k, start z <= k < start z + len z -> l !! k = Some 0%Z.
Proof.
  revert i longest current. induction segments as [|s segments IH]; intros i longest current Hd Hl Hc Hi; [done|].
  assert (Hs : l !! i = Some s) by (rewrite <- (Nat.add_0_r i), <- lookup_drop, Hd; done).
  assert (Hd' : drop (S i) l = segments) by (rewrite <- Nat.add_1_r, <- drop_drop, Hd; done).
  cbn [zero_spans]. destruct (Z.eqb_spec s 0) as [->|_].
  - destruct (span_zero_step l i longest current Hc Hi Hs) as [Hn Hni]. cbn [start len] in *.
    apply IH; [done| |exact Hn|intros _; exact Hni]. destruct (len longest <? S (len current)); [exact Hn|exact Hl].
  - apply IH; [done..| |]; cbn; lia.
Qed.

Lemma zeroes_run l k : start (zeroes l) <= k < start (zeroes l) + len (zeroes l) -> l !! k = Some 0%Z.
Proof. apply zero_spans_run; [done| | |]; cbn; lia. Qed.

Lemma zeroes_split l : 0 < len (zeroes l) -> 
  start (zeroes l) + len (zeroes l) <= length l /\
  l = take (start (zeroes l)) l ++ replicate (len (zeroes l)) 0%Z ++ drop (start (zeroes l) + len (zeroes l)) l.
Proof.
  intros Hpos. assert (Hb : start (zeroes l) + len (zeroes l) <= length l).
  { assert (H := zeroes_run l (start (zeroes l) + len (zeroes l) - 1) ltac:(lia)). apply lookup_lt_Some in H. lia. }
  split; [done|]. rewrite <- (take_drop (start (zeroes l)) l) at 1. f_equal.
  rewrite <- (take_drop (len (zeroes l)) (drop (start (zeroes l)) l)), drop_drop. f_equal.
  apply list_eq_same_length with (n := len (zeroes l)); [by rewrite length_replicate|rewrite length_take, length_drop; lia|].
  intros k x y Hk Hx Hy. rewrite lookup_take_lt, lookup_drop, zeroes_run in Hx by lia.
  apply lookup_replicate in Hy as [-> _]. by injection Hx.
Qed.

Lemma read_ipv4_fmt_subslice gs r : groups_end r -> read_ipv4_addr (fmt_subslice gs ++ r) = None.
Proof.
  intros Hr. destruct gs as [|g gs].
  - destruct (groups_end_ends r Hr). by apply (read_ipv4_no_dot []); [apply not_elem_of_nil|..].
  - destruct (groups_tail_ends gs r Hr). cbn [fmt_subslice]. rewrite <- app_assoc.
    by apply read_ipv4_no_dot; [apply show_hex_no_dot|..].
Qed.

Lemma mapped_segments ss os : length ss = 8 -> Forall (fun g => 0 <= g <= u16_max)%Z ss -> to_ipv4_mapped ss = Some os ->
  length os = 4 /\ Forall (fun o => 0 <= o <= u8_max)%Z os /\
  exists a b c d, os = [a; b; c; d] /\ ss = [0; 0; 0; 0; 0; 65535; a * 256 + b; c * 256 + d]%Z.
Proof.
  intros Hl Hw Hm. destruct ss as [|s0 [|s1 [|s2 [|s3 [|s4 [|s5 [|s6 [|s7 [|]]]]]]]]]; try discriminate Hl.
  cbn in Hm. case_bool_decide as E; [|done]. injection Hm as <-. injection E as -> -> -> -> -> ->.
  repeat match goal with H : Forall _ (_ :: _) |- _ => apply Forall_cons_1 in H as [? ?] end.
  assert (Hb : forall s, (0 <= s <= u16_max)%Z -> (0 <= s / 256 <= u8_max)%Z /\ (0 <= s mod 256 <= u8_max)%Z /\
    s = (s / 256 * 256 + s mod 256)%Z).
  { unfold u16_max, u8_max. intros s Hs. assert (Hmod := Z.mod_pos_bound s 256 ltac:(lia)).
    assert (Hdiv := Z.div_mod s 256 ltac:(lia)). assert (0 <= s / 256)%Z by (apply Z.div_pos; lia).
    assert (s / 256 < 256)%Z by (apply Z.div_lt_upper_bound; lia). lia. }
  destruct (Hb s6) as (? & ? & E6); [done|]. destruct (Hb s7) as (? & ? & E7); [done|].
  split; [done|]. split; [by repeat (apply list.Forall_cons_2; [done|])|]. do 4 eexists. split; [done|]. by rewrite <- E6, <- E7.
Qed.

Lemma read_groups_mapped a b c d : Forall (fun o => 0 <= o <= u8_max)%Z [a; b; c; d] ->
  read_groups 7 0 (lit "ffff" ++ ":"%byte :: Ipv4Addr_fmt [a; b; c; d]) = ([65535; a * 256 + b; c * 256 + d]%Z, true, []).
Proof.
  intros Ho. assert (E := read_ipv4_addr_fmt [a; b; c; d] [] eq_refl Ho I). rewrite app_nil_r in E.
  assert (Ef : show_hex 65535 = lit "ffff") by (vm_compute; reflexivity). rewrite <- Ef.
  set (t := Ipv4Addr_fmt _) in *. assert (He : ends (":"%byte :: t)) by (by right).
  rewrite read_groups_step. cbn [Nat.ltb Nat.leb]. unfold read_separator. cbn [Nat.ltb Nat.leb].
  rewrite read_ipv4_no_dot by (done || apply show_hex_no_dot).
  rewrite (read_number_text _ _ _ _ 65535); [|lia|by apply segment_text|done].
  rewrite read_groups_step. cbn [Nat.ltb Nat.leb]. unfold read_separator. cbn [Nat.ltb Nat.leb].
  rewrite bool_decide_true by done. by rewrite E.
Qed.

Lemma read_ipv6_fmt ss : length ss = 8 -> Forall (fun g => 0 <= g <= u16_max)%Z ss ->
  read_ipv4_addr (Ipv6Addr_fmt ss) = None /\ read_ipv6_addr (Ipv6Addr_fmt ss) = Some (ss, []).
Proof.
  intros Hl Hw. unfold Ipv6Addr_fmt. destruct (to_ipv4_mapped ss) as [os|] eqn:Em.
  - destruct (mapped_segments ss os Hl Hw Em) as (H4 & Ho & a & b & c & d & -> & ->).
    assert (E := read_ipv4_addr_fmt [a; b; c; d] [] H4 Ho I). rewrite app_nil_r in E.
    split; [by apply (read_ipv4_no_dot []); [apply not_elem_of_nil|done|right]|].
    unfold read_ipv6_addr. rewrite read_groups_end by (right; by eexists). cbn [length Nat.eqb].
    change (lit "::ffff:" ++ ?t) with (":"%byte :: ":"%byte :: lit "ffff" ++ ":"%byte :: t).
    cbv beta iota. rewrite bool_decide_true by done. cbn [andb Nat.sub Nat.add].
    rewrite read_groups_mapped by done. done.
  - destruct (Nat.ltb_spec 1 (len (zeroes ss))) as [Hz|Hz].
    + destruct (zeroes_split ss ltac:(lia)) as [Hb Es].
      set (h := take (start (zeroes ss)) ss) in *. set (t := drop (start (zeroes ss) + len (zeroes ss)) ss) in *.
      assert (Hlh : length h = start (zeroes ss)) by (unfold h; rewrite length_take; lia).
      assert (Hlt : length t = 8 - (start (zeroes ss) + len (zeroes ss))) by (unfold t; rewrite length_drop; lia).
      assert (He : groups_end (lit "::" ++ fmt_subslice t)) by (right; by eexists).
      split; [by apply read_ipv4_fmt_subslice|]. unfold read_ipv6_addr.
      rewrite read_groups_fmt; [|lia|by apply Forall_take|done].
      destruct (Nat.eqb_spec (length h) 8); [lia|].
      change (lit "::" ++ fmt_subslice t) with (":"%byte :: ":"%byte :: fmt_subslice t). cbv beta iota. rewrite bool_decide_true by done.
      cbn [andb]. rewrite <- (app_nil_r (fmt_subslice t)).
      rewrite read_groups_fmt; [|lia|by apply Forall_drop|by left]. 
      replace (8 - length h - length t) with (len (zeroes ss)) by lia. by rewrite <- Es.
    + split; [rewrite <- (app_nil_r (fmt_subslice ss)); by apply read_ipv4_fmt_subslice; left|].
      unfold read_ipv6_addr. rewrite <- (app_nil_r (fmt_subslice ss)), read_groups_fmt; [|lia|done|by left].
      by rewrite Hl.
Qed.

(** The text of an address is read back as the address. *)
Lemma IpAddr_roundtrip ip : IpAddr_wf ip -> IpAddr_parse (IpAddr_fmt ip) = Some ip.
Proof.
  destruct ip as [os|ss]; intros [Hl Hw]; unfold IpAddr_parse, IpAddr_fmt.
  - rewrite <- (app_nil_r (Ipv4Addr_fmt os)), read_ipv4_addr_fmt by done. by rewrite bool_decide_true.
  - destruct (read_ipv6_fmt ss Hl Hw) as [-> ->]. by rewrite bool_decide_true.
Qed.

(** ** The address to listen on *)

(** [HttpServerConfig::get_listen_addr]. *)
Definition get_listen_addr (c : HttpServerConfig) : str :=
  IpAddr_fmt (listen c) ++ ":"%byte :: show_Z (http_port c).

(** [str::rsplit_once] at a byte, with which the standard library takes the host and the port from a
    text that is no socket address by itself. *)
Fixpoint rsplit_once (sep : byte) (s : str) : option (str * str) :=
  match s with
  | [] => None
  | c :: s' =>
      match rsplit_once sep s' with
      | Some (a, b) => Some (c :: a, b)
      | None => if bool_decide (c = sep) then Some ([], s') else None
      end
  end.

Lemma rsplit_once_none sep s : sep ∉ s -> rsplit_once sep s = None.
Proof.
  induction s as [|c s IH]; [done|]. intros [Hc Hs]%not_elem_of_cons. cbn [rsplit_once]. rewrite IH by done.
  by rewrite bool_decide_false by congruence.
Qed.

Lemma rsplit_once_app sep a b : sep ∉ b -> rsplit_once sep (a ++ sep :: b) = Some (a, b).
Proof.
  intros Hb. induction a as [|c a IH]; cbn [app rsplit_once].
  - rewrite rsplit_once_none by done. by rewrite bool_decide_true.
  - by rewrite IH.
Qed.

(** The host and the port of the configuration are read back, for addresses of both versions: an IPv6
    address stands without brackets, and its last colon is still the one before the port. *)
Lemma get_listen_addr_resolves c : IpAddr_wf (listen c) -> (0 <= http_port c <= u16_max)%Z ->
  exists host port, rsplit_once ":"%byte (get_listen_addr c) = Some (host, port) /\
    IpAddr_parse host = Some (listen c) /\ parse_unsigned u16_max port = Some (http_port c).
Proof.
  intros Hw Hp. exists (IpAddr_fmt (listen c)), (show_Z (http_port c)).
  assert (Hs : show_Z (http_port c) = show_nat_Z (http_port c)) by (unfold show_Z; by rewrite (proj2 (Z.ltb_ge _ _)) by lia).
  split; [|split; [by apply IpAddr_roundtrip|rewrite Hs; by apply show_nat_parse_unsigned]].
  apply rsplit_once_app. rewrite Hs. intros Hin. assert (Hd := show_nat_Z_digits (http_port c)).
  rewrite forallb_forall in Hd. apply list_elem_of_In, Hd in Hin. discriminate Hin.
Qed.
