(* ===== verification/State.v ===== *)
(** * The server's state

    [state.rs]: the state of every UPS daemon, of its devices and of their
    writable variables. Hash maps are finite maps; time stamps are numbers. *)

From S2P Require Import Prelude RustStr Numbers Names VarName Value Ip UpsVariables Status Config.

Inductive VarDetail :=
  | DString (max_len : Z)
  | DNumber
  | DEnum (options : list Value)
  | DRange (min max : Value).

Inductive ConnectionStatus := Dead | OnlineConn | NotReady.

#[global] Instance ConnectionStatus_eq_dec : EqDecision ConnectionStatus.
Proof. solve_decision. Defined.

Definition ConnectionStatus_fmt (s : ConnectionStatus) : str :=
  match s with
  | Dead => lit "Dead"
  | OnlineConn => lit "Online"
  | NotReady => lit "Not Ready"
  end.

Record ClientInfo := mkClientInfo { ci_addr : IpAddr; ci_name : option str }.

Record DeviceEntry := mkDeviceEntry {
  attached : list ClientInfo;
  commands : list CmdName;
  desc : str;
  last_modified : Z;
  name : UpsName;
  rw_variables : gmap VarName VarDetail;
  status : UpsStatus;
  variables : UpsVariables;
}.

Record DaemonState := mkDaemonState {
  devices : gmap UpsName DeviceEntry;
  last_device_sync : option Z;
  conn_status : ConnectionStatus;
  prot_ver : option str;
  ver : option str;
}.

Record UpsdState := mkUpsdState {
  daemon_state : DaemonState;
  upsd_config : UpsdConfig;
  namespace : str;
}.

Definition DaemonState_new : DaemonState := mkDaemonState ∅ None NotReady None None.

(** [DeviceEntry::mark_as_dead_with]. *)
Definition mark_as_dead_with (now : Z) (d : DeviceEntry) (s : UpsStatus) : DeviceEntry :=
  mkDeviceEntry (attached d) [] (desc d) now (name d) ∅ s (UpsVariables_clear (variables d)).

(** [DescriptionKey]. *)
Record DescriptionKey := mkDescriptionKey { desc_inner : str }.
Definition DescriptionKey_of_cmd (c : CmdName) : DescriptionKey := mkDescriptionKey (cmd_name c).
Definition DescriptionKey_of_var (v : VarName) : DescriptionKey := mkDescriptionKey (VarName_as_str v).
