(* ===== verification/Api.v ===== *)
(** * The data API

    [http.rs] ([create_data_routes]), the middleware under
    [json_api/middleware], the write handlers [rw.rs], [instcmd.rs] and
    [fsd.rs], [problem_detail.rs] and [probe.rs]. A request is what axum
    extracts from it; a response is its status code or a problem. A handler
    runs on the connection that the pool gives it. *)

From S2P Require Import Prelude RustStr Numbers FloatText Errors Escape Lexer Names VarName Value ParserUtils Ip.
From S2P Require Import VarType UpsVariables Response Command Client Status Auth Config State.

#[local] Open Scope Z_scope.

(** ** [problem_detail.rs] *)

Record ProblemDetail := mkProblemDetail { title : str; detail : option str; problem_status : Z }.

(** [ProblemDetail::new] and [with_detail]. *)
Definition mkProblem (title : str) (status : Z) : ProblemDetail := mkProblemDetail title None status.
Definition with_detail (p : ProblemDetail) (detail : str) : ProblemDetail :=
  mkProblemDetail (title p) (Some detail) (problem_status p).

#[global] Instance ProblemDetail_eq_dec : EqDecision ProblemDetail.
Proof. solve_decision. Defined.

Definition OK := 200.
Definition ACCEPTED := 202.
Definition BAD_REQUEST := 400.
Definition UNAUTHORIZED := 401.
Definition FORBIDDEN := 403.
Definition NOT_FOUND := 404.
Definition NOT_ACCEPTABLE := 406.
Definition INTERNAL_SERVER_ERROR := 500.
Definition SERVICE_UNAVAILABLE := 503.

(** [From<Error> for ProblemDetail]. *)
Definition ProblemDetail_from_error (err : ErrorKind) : ProblemDetail :=
  match err with
  | EmptyResponse => mkProblemDetail (lit "UPSD empty response") (Some
      (lit "Server is able to connect the UPSD, but it does not responding to any commands for now."))
      INTERNAL_SERVER_ERROR
  | IOError _ => mkProblemDetail (lit "UPSD IO error") (Some (ErrorKind_fmt err)) INTERNAL_SERVER_ERROR
  | ParseErrorAt _ _ => mkProblemDetail (lit "Invalid UPSD response") (Some (ErrorKind_fmt err)) INTERNAL_SERVER_ERROR
  | ProtocolErr _ => mkProblemDetail (lit "UPSD protocol error") (Some (ErrorKind_fmt err)) INTERNAL_SERVER_ERROR
  | ConnectionPoolClosed =>
      mkProblemDetail (lit "UPSD connection pool error") (Some (ErrorKind_fmt err)) INTERNAL_SERVER_ERROR
  | RequestTimeout => mkProblemDetail (lit "Request timeout") (Some (ErrorKind_fmt err)) INTERNAL_SERVER_ERROR
  end.

(** axum's rejections of a path and of a JSON body, with their status codes and [body_text]. *)
Inductive PathRejection :=
  | FailedToDeserializePathParams (status : Z) (body_text : str)
  | MissingPathParams (status : Z) (body_text : str)
  | OtherPathRejection (status : Z) (body_text : str).
Inductive JsonRejection :=
  | JsonDataError (status : Z) (body_text : str)
  | JsonSyntaxError (status : Z) (body_text : str)
  | MissingJsonContentType (status : Z) (body_text : str)
  | BytesRejection (status : Z) (body_text : str)
  | OtherJsonRejection (status : Z) (body_text : str).

Definition ProblemDetail_from_path (r : PathRejection) : ProblemDetail :=
  match r with
  | FailedToDeserializePathParams s t => mkProblemDetail (lit "Unable to deserialize path parameter") (Some t) s
  | MissingPathParams s t => mkProblemDetail (lit "Missing path parameter") (Some t) s
  | OtherPathRejection s t => mkProblemDetail (lit "Invalid path") (Some t) s
  end.
Definition ProblemDetail_from_json (r : JsonRejection) : ProblemDetail :=
  match r with
  | JsonDataError s t => mkProblemDetail (lit "Json data error") (Some t) s
  | JsonSyntaxError s t => mkProblemDetail (lit "Json syntax error") (Some t) s
  | MissingJsonContentType s t => mkProblemDetail (lit "Missing content type") (Some t) s
  | BytesRejection s t => mkProblemDetail (lit "Bytes rejection") (Some t) s
  | OtherJsonRejection s t => mkProblemDetail (lit "Json content issue") (Some t) s
  end.

(** [{:?}] of a [str]. What it escapes depends on tables of Unicode that the sources do not hold. *)
Class StrDebug := str_debug : str -> str.

(** ** Handlers

    The result of a handler and the connection it took from the pool, if any,
    as it left it. *)

Definition Servers := gmap str UpsdState.
Definition handled (A : Type) : Type := outcome ProblemDetail A * option Stream.

(** [extract_upsd!]. *)
Definition extract_upsd (servers : Servers) (ns : str) : outcome ProblemDetail UpsdState :=
  ok_or (mkProblem (lit "Upsd namespace does not exists") NOT_FOUND) (servers !! ns).

(** [request_auth_client!]; [client] is what [get_client] gives. *)
Definition request_auth_client (cfg : UpsdConfig) (client : outcome ErrorKind Stream) : handled unit :=
  match pass cfg, user cfg with
  | Some pass, Some user =>
      match client with
      | Ok client =>
          match authenticate user pass client with
          | (Err err, s) =>
              (Err (with_detail (mkProblem (lit "Unable to authenticate") INTERNAL_SERVER_ERROR) (ErrorKind_fmt err)),
               Some s)
          | (Ok _, s) => (Ok tt, Some s)
          | (Panicked, s) => (Panicked, Some s)
          | (OutOfFuel, s) => (OutOfFuel, Some s)
          end
      | Err e =>
          (Err (with_detail (mkProblem (lit "Unable to get UPSD client") INTERNAL_SERVER_ERROR) (ErrorKind_fmt e)), None)
      | Panicked => (Panicked, None)
      | OutOfFuel => (OutOfFuel, None)
      end
  | _, _ =>
      (Err (with_detail (mkProblem (lit "Insufficient UPSD configuration") FORBIDDEN)
              (lit "Operation requires valid username and password to be configured for the UPSD connection.")), None)
  end.

(** The call of a handler on the authenticated client, then [close]. *)
Definition call_and_close (call : io unit) (client : Stream) : handled Z :=
  let '(response, s) := call client in
  let '(_, s) := auth_close s in
  (match response with
   | Ok _ => Ok ACCEPTED
   | Err e => Err (ProblemDetail_from_error e)
   | Panicked => Panicked
   | OutOfFuel => OutOfFuel
   end, Some s).

Definition run_call (cfg : UpsdConfig) (client : outcome ErrorKind Stream) (call : io unit) : handled Z :=
  match request_auth_client cfg client with
  | (Ok _, Some s) => call_and_close call s
  | (Ok _, None) => (Panicked, None)
  | (Err e, s) => (Err e, s)
  | (Panicked, s) => (Panicked, s)
  | (OutOfFuel, s) => (OutOfFuel, s)
  end.

Section check.

Context {dbg : StrDebug}.

(** The check of a value against the variable's details in [rw::patch]. *)
Definition check_value (device : DeviceEntry) (variable : VarName) (value : Value)
  : outcome ProblemDetail unit :=
  let bad title detail := Err (with_detail (mkProblem (lit title) BAD_REQUEST) detail) in
  let var_name := lit "'" ++ VarName_as_str variable ++ lit "'" in
  match rw_variables device !! variable with
  | Some DNumber =>
      if is_numeric value then Ok tt
      else bad "Invalid value type" (var_name ++ lit " expects a numeric type, but the provided value is not a number.")
  | Some (DString max_len) =>
      if is_text value then
        let trimmed := trim (cow_str (Value_as_str value)) in
        if decide (trimmed = [])
        then bad "Empty value" (lit "Value cannot be empty or consist of only whitespaces.")
        else if max_len <? Z.of_nat (length trimmed)
        then bad "Out of range" (lit "Maximum allowed string length is " ++ show_nat_Z max_len ++ lit ".")
        else Ok tt
      else bad "Invalid value type" (var_name ++ lit " expects a string type, but the provided value is not a string.")
  | Some (DEnum options) =>
      if existsb (fun option => Value_eq option value) options then Ok tt
      else
        let opts := lit "[" ++ comma_separated ((fun v => str_debug (cow_str (Value_as_str v))) <$> options) ++ lit "]" in
        bad "Invalid option" (var_name ++ lit " is an enum type, allowed options: " ++ opts)
  | Some (DRange min max) =>
      if is_numeric value then
        match as_lossly_f64 min, as_lossly_f64 max with
        | Some min, Some max =>
            let valuef64 := default (SpecFloat.S754_zero false) (as_lossly_f64 value) in
            if SpecFloat.SFleb min valuef64 && SpecFloat.SFleb valuef64 max then Ok tt
            else bad "Out of range" (var_name ++ lit " is not within the acceptable range [" ++ f64_fmt min ++
                                     lit ", " ++ f64_fmt max ++ lit "]")
        | _, _ =>
            Err (with_detail (mkProblem (lit "Malformed driver response") INTERNAL_SERVER_ERROR)
              (lit "Cannot process request since the reported min-max values by ups device are not number."))
        end
      else bad "Invalid value type" (var_name ++ lit " expects a numeric value between " ++ Value_fmt min ++ lit " and " ++
                                     Value_fmt max ++ lit ", but the provided value is not a number.")
  | None => bad "Invalid RW variable" (var_name ++ lit " is not a valid writeable variable.")
  end.

Definition device_not_found : ProblemDetail := mkProblem (lit "Device not found") NOT_FOUND.

(** The checks of the three handlers, on a snapshot of the daemon's state. *)
Definition rw_check (upsd : UpsdState) (ups : UpsName) (variable : VarName) (value : Value)
  : outcome ProblemDetail unit :=
  let? device := ok_or device_not_found (devices (daemon_state upsd) !! ups) in
  check_value device variable value.
Definition instcmd_check (upsd : UpsdState) (ups : UpsName) (cmd : CmdName) : outcome ProblemDetail unit :=
  let? device := ok_or device_not_found (devices (daemon_state upsd) !! ups) in
  if bool_decide (cmd ∈ commands device) then Ok tt
  else Err (with_detail (mkProblem (lit "Invalid INSTCMD") BAD_REQUEST)
              (lit "'" ++ CmdName_fmt cmd ++ lit "' is not listed as supported command on device details.")).
Definition fsd_check (upsd : UpsdState) (ups : UpsName) : outcome ProblemDetail unit :=
  if bool_decide (is_Some (devices (daemon_state upsd) !! ups)) then Ok tt else Err device_not_found.

(** A handler whose checks failed, or that goes on with [k]. *)
Definition checked {A} (o : outcome ProblemDetail A) (k : A -> handled Z) : handled Z :=
  match o with
  | Ok a => k a
  | Err e => (Err e, None)
  | Panicked => (Panicked, None)
  | OutOfFuel => (OutOfFuel, None)
  end.

(** [rw::patch], [instcmd::post] and [fsd::post]. *)
Definition rw_patch (servers : Servers) (paths : outcome PathRejection (str * UpsName))
  (body : outcome JsonRejection (VarName * Value)) (client : outcome ErrorKind Stream) : handled Z :=
  checked (map_err ProblemDetail_from_path paths) (fun '(ns, ups) =>
  checked (map_err ProblemDetail_from_json body) (fun '(variable, value) =>
  checked (extract_upsd servers ns) (fun upsd =>
  checked (rw_check upsd ups variable value) (fun _ =>
  run_call (upsd_config upsd) client (Client.set_var ups variable value))))).

Definition instcmd_post (servers : Servers) (paths : outcome PathRejection (str * UpsName))
  (body : outcome JsonRejection CmdName) (client : outcome ErrorKind Stream) : handled Z :=
  checked (map_err ProblemDetail_from_path paths) (fun '(ns, ups) =>
  checked (map_err ProblemDetail_from_json body) (fun cmd =>
  checked (extract_upsd servers ns) (fun upsd =>
  checked (instcmd_check upsd ups cmd) (fun _ =>
  run_call (upsd_config upsd) client (Client.instcmd ups cmd))))).

Definition fsd_post (servers : Servers) (paths : outcome PathRejection (str * UpsName))
  (client : outcome ErrorKind Stream) : handled Z :=
  checked (map_err ProblemDetail_from_path paths) (fun '(ns, ups) =>
  checked (extract_upsd servers ns) (fun upsd =>
  checked (fsd_check upsd ups) (fun _ =>
  run_call (upsd_config upsd) client (Client.fsd ups)))).

End check.

(** ** Middleware *)

Record ApiRequest := mkApiRequest {
  accepts_json : bool;                      (** the accept layer lets it pass *)
  authorization : option (option str);      (** the header, and its [to_str] *)
  content_length : option str;
  path_map : outcome PathRejection (option (gmap str str));  (** [Path<HashMap<..>>] *)
  paths : outcome PathRejection (str * UpsName);             (** [Path<(Box<str>, UpsName)>] *)
}.

(** What a handler answers with when it succeeds, [B]: the status alone where the body is always empty. *)
Record Reply (B : Type) := mkReply {
  result : outcome ProblemDetail B;
  www_authenticate : bool;
  conn : option Stream;      (** the daemon connection the request used *)
}.
Arguments mkReply {B} _ _ _.
Arguments result {B} _.
Arguments www_authenticate {B} _.
Arguments conn {B} _.

(** A response that is only a status. *)
Class FromStatus (B : Type) := from_status : Z -> B.
#[global] Instance status_only : FromStatus Z := fun status => status.

(** A service answers a request, given the token that [ApiAuthLayer] stored. *)
Definition service (B : Type) := ApiRequest -> option AccessToken -> Reply B.

Definition reply_of (h : handled Z) : Reply Z := mkReply h.1 false h.2.
Definition refuse {B} (p : ProblemDetail) : Reply B := mkReply (Err p) false None.
Definition unauthorized {B} : Reply B :=
  mkReply (Err (with_detail (mkProblem (lit "Unauthorized") UNAUTHORIZED) (lit "Authorization required."))) true None.

(** [split_once(|c| c.is_ascii_whitespace())]. *)
Definition split_once_ws (s : str) : option (str * str) :=
  match drop_while (fun c => negb (is_ascii_whitespace c)) s with
  | _ :: rest => Some (take_while (fun c => negb (is_ascii_whitespace c)) s, rest)
  | [] => None
  end.

Section api.

Context {dbg : StrDebug}.
(** [BASE64_STANDARD.decode] and HMAC's [verify_slice]. *)
Context (base64_decode : str -> option str) (verify_slice : str -> str -> str -> bool).

Inductive InvalidAuthHeaderValue := mkInvalidAuthHeaderValue.

(** [extract_bearer_token]. *)
Definition extract_bearer_token (server_key : str) (now : Z) (req : ApiRequest)
  : outcome InvalidAuthHeaderValue AccessToken :=
  let err := mkInvalidAuthHeaderValue in
  let? header := ok_or err (mjoin (authorization req)) in
  let header_value := trim header in
  if decide (header_value = []) then Err err
  else match split_once_ws header_value with
  | Some (scheme, token) =>
      if negb (eq_ignore_ascii_case (trim scheme) (lit "bearer")) then Err err
      else
        let? bytes := ok_or err (base64_decode (trim token)) in
        let? access_token := map_err (fun _ => err) (signer_from_bytes verify_slice server_key bytes) in
        if is_active now access_token then Ok access_token else Err err
  | None => Err err
  end.

(** [ApiAuthService::call]. *)
Definition api_auth_call {B} (server_key : str) (now : Z) (next : service B) : service B := fun req _ =>
  match extract_bearer_token server_key now req with
  | Ok token => next req (Some token)
  | Err _ => unauthorized
  | Panicked => mkReply Panicked false None
  | OutOfFuel => mkReply OutOfFuel false None
  end.

(** [AuthorizeApiService::call]. *)
Definition authorize_api_call {B} (permissions : Permissions) (next : service B) : service B := fun req token =>
  match token with
  | Some access_token =>
      if has_permission access_token permissions then next req token
      else refuse (with_detail (mkProblem (lit "Access denied") FORBIDDEN) (lit "Insufficient API permissions."))
  | None => unauthorized
  end.

(** [DaemonStateService::call]. *)
Definition daemon_connection (servers : Servers) (req : ApiRequest) : outcome ProblemDetail unit :=
  match path_map req with
  | Ok (Some parameters) =>
      match parameters !! lit "namespace" with
      | Some ns =>
          match servers !! ns with
          | Some upsd =>
              match conn_status (daemon_state upsd) with
              | OnlineConn => Ok tt
              | Dead =>
                  Err (with_detail (mkProblem (lit "No UPSD connection") SERVICE_UNAVAILABLE)
                    (lit "Server is unable to connect UPSD. See application logs for more details."))
              | NotReady => Err (mkProblem (lit "Upsd state is not ready") SERVICE_UNAVAILABLE)
              end
          | None => Ok tt
          end
      | None => Ok tt
      end
  | Ok None => Ok tt
  | Err (FailedToDeserializePathParams s t | MissingPathParams s t | OtherPathRejection s t) =>
      Err (with_detail (mkProblem (lit "Unexpected path rejection") s) t)
  | Panicked => Panicked
  | OutOfFuel => OutOfFuel
  end.
Definition daemon_state_call `{FromStatus B} (servers : Servers) (next : service B) : service B := fun req token =>
  match daemon_connection servers req with
  | Ok _ => next req token
  | r => mkReply (let? _ := r in Ok (from_status OK)) false None
  end.

(** [ValidateEmptyContentLength] and the accept layer of [tower_http]. *)
Definition validate_empty_content_length `{FromStatus B} (next : service B) : service B := fun req token =>
  match content_length req with
  | Some header =>
      if bool_decide (header = lit "0") then next req token
      else mkReply (Ok (from_status NOT_ACCEPTABLE)) false None
  | None => next req token
  end.
Definition accept_layer `{FromStatus B} (next : service B) : service B := fun req token =>
  if accepts_json req then next req token else mkReply (Ok (from_status NOT_ACCEPTABLE)) false None.

(** ** [create_data_routes]: the three routes that write *)

Inductive WriteBody :=
  | RwBody (body : outcome JsonRejection (VarName * Value))
  | InstcmdBody (body : outcome JsonRejection CmdName)
  | FsdBody.

(** [option_layer]. *)
Definition option_layer {B} (auth : bool) (layer : service B -> service B) : service B -> service B :=
  fun next => if auth then layer next else next.

Definition write_route (auth : bool) (servers : Servers) (client : outcome ErrorKind Stream) (body : WriteBody)
  : service Z :=
  match body with
  | RwBody body => option_layer auth (authorize_api_call SETVAR)
      (fun req _ => reply_of (rw_patch servers (paths req) body client))
  | InstcmdBody body => option_layer auth (authorize_api_call INSTCMD)
      (fun req _ => reply_of (instcmd_post servers (paths req) body client))
  | FsdBody => option_layer auth (authorize_api_call Auth.FSD)
      (validate_empty_content_length (fun req _ => reply_of (fsd_post servers (paths req) client)))
  end.

(** A write request through all the layers; [auth] tells whether a user store is configured. *)
Definition data_api (auth : bool) (server_key : str) (servers : Servers) (now : Z)
  (client : outcome ErrorKind Stream) (req : ApiRequest) (body : WriteBody) : Reply Z :=
  accept_layer
    (option_layer auth (api_auth_call server_key now)
      (daemon_state_call servers (write_route auth servers client body))) req None.

End api.

(** ** [probe.rs] *)

Inductive HealthStatus := Degraded | Healthy | DeadHealth.
Inductive Readiness := ReadyState | NotReadyState.

Definition HealthStatus_code (h : HealthStatus) : Z :=
  match h with Degraded | Healthy => OK | DeadHealth => INTERNAL_SERVER_ERROR end.
Definition Readiness_code (r : Readiness) : Z :=
  match r with ReadyState => OK | NotReadyState => SERVICE_UNAVAILABLE end.

Definition get_health (servers : Servers) : HealthStatus :=
  let active_count := foldl (fun active_count upsd =>
    if bool_decide (conn_status (daemon_state upsd) <> Dead) then S active_count else active_count)
    0%nat (map_to_list servers).*2 in
  if decide (active_count = size servers) then Healthy
  else if decide (0 < active_count)%nat then Degraded
  else DeadHealth.

Definition get_readiness (servers : Servers) : Readiness :=
  if existsb (fun upsd => bool_decide (conn_status (daemon_state upsd) = OnlineConn))
       (map_to_list servers).*2 then ReadyState else NotReadyState.

Definition get_namespace_health (servers : Servers) (ns : str) : Z :=
  match servers !! ns with
  | Some upsd => HealthStatus_code (if bool_decide (conn_status (daemon_state upsd) <> Dead)
                                    then Healthy else DeadHealth)
  | None => NOT_FOUND
  end.
Definition get_namespace_readiness (servers : Servers) (ns : str) : Z :=
  match servers !! ns with
  | Some upsd => Readiness_code (if bool_decide (conn_status (daemon_state upsd) = OnlineConn)
                                 then ReadyState else NotReadyState)
  | None => NOT_FOUND
  end.

(** ** Specification *)

(** The values that a writable variable takes. *)
Inductive admissible : VarDetail -> Value -> Prop :=
  | adm_int z : admissible DNumber (VInt z)
  | adm_float x : admissible DNumber (VFloat x)
  | adm_string n t : trim t <> [] -> Z.of_nat (length (trim t)) <= n -> admissible (DString n) (VString t)
  | adm_enum options o v : o ∈ options -> Value_eq o v = true -> admissible (DEnum options) v
  | adm_range min max v lo hi x : as_lossly_f64 min = Some lo -> as_lossly_f64 max = Some hi ->
      as_lossly_f64 v = Some x -> SpecFloat.SFleb lo x = true -> SpecFloat.SFleb x hi = true ->
      admissible (DRange min max) v.

(** What a daemon must have before a write is sent to it. *)
Definition write_allowed (upsd : UpsdState) (ups : UpsName) (body : WriteBody) : Prop :=
  exists device, devices (daemon_state upsd) !! ups = Some device /\
  match body with
  | RwBody (Ok (variable, value)) =>
      exists d, rw_variables device !! variable = Some d /\ admissible d value
  | InstcmdBody (Ok cmd) => cmd ∈ commands device
  | FsdBody => True
  | _ => False
  end.

Definition write_call (ups : UpsName) (body : WriteBody) : io unit :=
  match body with
  | RwBody (Ok (variable, value)) => Client.set_var ups variable value
  | InstcmdBody (Ok cmd) => Client.instcmd ups cmd
  | FsdBody => Client.fsd ups
  | _ => io_err EmptyResponse
  end.

Definition needed_permission (body : WriteBody) : Permissions :=
  match body with RwBody _ => SETVAR | InstcmdBody _ => INSTCMD | FsdBody => Auth.FSD end.

(** The two path extractions read the same URL. *)
Definition same_path (req : ApiRequest) : Prop :=
  forall ns ups, paths req = Ok (ns, ups) ->
    exists m, path_map req = Ok (Some m) /\ m !! lit "namespace" = Some ns.

(** ** Lemmas *)

Section properties.
Context {dbg : StrDebug}.

Lemma checked_conn {A} (o : outcome ProblemDetail A) k s :
  (checked o k).2 = Some s -> exists a, o = Ok a /\ (k a).2 = Some s.
Proof. destruct o; [eauto|done..]. Qed.

Lemma map_err_ok {E E' A} (f : E -> E') (o : outcome E A) a : map_err f o = Ok a -> o = Ok a.
Proof. by destruct o; intros [=]; subst. Qed.

Lemma ok_or_ok {E A} (e : E) (o : option A) a : ok_or e o = Ok a -> o = Some a.
Proof. by destruct o; intros [=]; subst. Qed.

Lemma run_call_conn cfg client call s : (run_call cfg client call).2 = Some s ->
  is_Some (user cfg) /\ is_Some (pass cfg) /\ is_ok client = true.
Proof.
  unfold run_call, request_auth_client. destruct (pass cfg), (user cfg), client; by intros.
Qed.

Lemma check_value_ok device variable value :
  check_value device variable value = Ok tt <->
  exists d, rw_variables device !! variable = Some d /\ admissible d value.
Proof.
  unfold check_value. destruct (rw_variables device !! variable) as [d|]; [|split; [done|by intros (? & ? & _)]].
  assert (Hd : forall P, (exists d', Some d = Some d' /\ P d') <-> P d) by
    (intros P; split; [by intros (? & [= <-] & ?)|eauto]).
  rewrite (Hd (fun d => admissible d value)). clear Hd. destruct d as [n| |options|min max].
  - destruct value as [x|z|t]; cbn [is_text Value_as_str cow_str]; [split; [done|by inversion 1]..|].
    case_decide as Ht; [split; [done|by inversion 1]|]. destruct (Z.ltb_spec n (Z.of_nat (length (trim t)))).
    + split; [done|]. inversion 1. lia.
    + split; [|done]. intros _. by constructor.
  - destruct value as [x|z|t]; (split; [|done || by inversion 1]); try done; intros _; constructor.
  - destruct (existsb _ options) eqn:E.
    + split; [|done]. intros _. apply existsb_exists in E as (o & Ho & Hv).
      apply list_elem_of_In in Ho. by eapply adm_enum.
    + split; [done|]. inversion 1 as [| | |? o ? Ho Hv|]; subst.
      apply not_true_iff_false in E. exfalso. apply E, existsb_exists. exists o. by rewrite <- list_elem_of_In.
  - assert (Hn : is_numeric value = true <-> is_Some (as_lossly_f64 value)).
    { destruct value; simpl; split; try done; eauto; by intros [? ?]. }
    destruct (is_numeric value) eqn:En.
    + destruct (proj1 Hn eq_refl) as [x Hx]. rewrite Hx.
      destruct (as_lossly_f64 min) as [lo|] eqn:El; [|split; [done|inversion 1; congruence]].
      destruct (as_lossly_f64 max) as [hi|] eqn:Eh; [|split; [done|inversion 1; congruence]].
      cbn [default from_option id]. destruct (_ && _) eqn:E.
      * split; [|done]. intros _. apply andb_prop in E as [? ?]. by eapply adm_range.
      * split; [done|]. inversion 1; subst. simplify_eq. apply andb_false_iff in E. destruct E; congruence.
    + split; [done|]. inversion 1; subst. exfalso.
      assert (Hf : false = true) by (apply Hn; eauto). done.
Qed.

Lemma rw_patch_conn servers p body client s : (rw_patch servers p body client).2 = Some s ->
  exists ns ups upsd, p = Ok (ns, ups) /\ servers !! ns = Some upsd /\
    write_allowed upsd ups (RwBody body) /\
    is_Some (user (upsd_config upsd)) /\ is_Some (pass (upsd_config upsd)) /\ is_ok client = true.
Proof.
  intros ([ns ups] & ->%map_err_ok & H)%checked_conn. apply checked_conn in H as ([variable value] & ->%map_err_ok & H).
  apply checked_conn in H as (upsd & Hu%ok_or_ok & H). apply checked_conn in H as ([] & Hc & H).
  pose proof (run_call_conn _ _ _ _ H) as (? & ? & ?).
  exists ns, ups, upsd. split_and!; [done|done| |done..].
  unfold rw_check in Hc. destruct (devices _ !! ups) as [device|] eqn:Ed; [|done].
  exists device. split; [done|]. by apply check_value_ok.
Qed.

Lemma instcmd_post_conn servers p body client s : (instcmd_post servers p body client).2 = Some s ->
  exists ns ups upsd, p = Ok (ns, ups) /\ servers !! ns = Some upsd /\
    write_allowed upsd ups (InstcmdBody body) /\
    is_Some (user (upsd_config upsd)) /\ is_Some (pass (upsd_config upsd)) /\ is_ok client = true.
Proof.
  intros ([ns ups] & ->%map_err_ok & H)%checked_conn. apply checked_conn in H as (cmd & ->%map_err_ok & H).
  apply checked_conn in H as (upsd & Hu%ok_or_ok & H). apply checked_conn in H as ([] & Hc & H).
  pose proof (run_call_conn _ _ _ _ H) as (? & ? & ?).
  exists ns, ups, upsd. split_and!; [done|done| |done..].
  unfold instcmd_check in Hc. destruct (devices _ !! ups) as [device|] eqn:Ed; [|done].
  exists device. split; [done|]. cbn [ok_or obind] in Hc. by case_bool_decide.
Qed.

Lemma fsd_post_conn servers p client s : (fsd_post servers p client).2 = Some s ->
  exists ns ups upsd, p = Ok (ns, ups) /\ servers !! ns = Some upsd /\
    write_allowed upsd ups FsdBody /\
    is_Some (user (upsd_config upsd)) /\ is_Some (pass (upsd_config upsd)) /\ is_ok client = true.
Proof.
  intros ([ns ups] & ->%map_err_ok & H)%checked_conn.
  apply checked_conn in H as (upsd & Hu%ok_or_ok & H). apply checked_conn in H as ([] & Hc & H).
  pose proof (run_call_conn _ _ _ _ H) as (? & ? & ?).
  exists ns, ups, upsd. split_and!; [done|done| |done..].
  unfold fsd_check in Hc. case_bool_decide as Hd; [|done]. destruct Hd as [device Hd]. by exists device.
Qed.

Lemma authorize_conn p (next : service Z) req token s :
  conn (authorize_api_call p next req token) = Some s ->
  (exists t, token = Some t /\ has_permission t p = true) /\ conn (next req token) = Some s.
Proof.
  unfold authorize_api_call. destruct token as [t|]; [|done].
  destruct (has_permission t p) eqn:E; [|done]. eauto.
Qed.

(** A write that took a connection was authorised and allowed. *)
Lemma write_route_conn auth servers client body req token s :
  conn (write_route auth servers client body req token) = Some s ->
  (auth = true -> exists t, token = Some t /\ has_permission t (needed_permission body) = true) /\
  exists ns ups upsd, paths req = Ok (ns, ups) /\ servers !! ns = Some upsd /\
    write_allowed upsd ups body /\
    is_Some (user (upsd_config upsd)) /\ is_Some (pass (upsd_config upsd)) /\ is_ok client = true.
Proof.
  assert (Hlayer : forall p (next : service Z), conn (option_layer auth (authorize_api_call p) next req token) = Some s ->
    (auth = true -> exists t, token = Some t /\ has_permission t p = true) /\ conn (next req token) = Some s).
  { intros p next. unfold option_layer. destruct auth; [|done]. intros [? ?]%authorize_conn. eauto. }
  destruct body as [body|body|]; intros [Ha H]%Hlayer; (split; [done|]).
  - by eapply rw_patch_conn.
  - by eapply instcmd_post_conn.
  - unfold validate_empty_content_length in H. destruct (content_length req); [case_bool_decide|];
      [by eapply fsd_post_conn|done|by eapply fsd_post_conn].
Qed.

Lemma daemon_state_conn servers (next : service Z) req token s :
  conn (daemon_state_call servers next req token) = Some s ->
  daemon_connection servers req = Ok tt /\ conn (next req token) = Some s.
Proof. unfold daemon_state_call. by destruct (daemon_connection servers req) as [[]| | |]. Qed.

Lemma daemon_online servers req ns ups upsd : same_path req -> paths req = Ok (ns, ups) ->
  servers !! ns = Some upsd -> daemon_connection servers req = Ok tt ->
  conn_status (daemon_state upsd) = OnlineConn.
Proof.
  intros Hp Hpath Hs. destruct (Hp _ _ Hpath) as (m & Hm & Hns). unfold daemon_connection.
  rewrite Hm, Hns, Hs. by destruct (conn_status _).
Qed.

Section api_lemmas.
Context (base64_decode : str -> option str) (verify_slice : str -> str -> str -> bool).
Context (hmac : str -> str -> str) (Hmac : hmac_documented hmac verify_slice).

(** An accepted header carries a signed, active token. *)
Lemma bearer_token_ok key now req t : extract_bearer_token base64_decode verify_slice key now req = Ok t ->
  exists header text, authorization req = Some (Some header) /\
    base64_decode text = Some (sign_token hmac key t) /\ AccessToken_wf t /\ is_active now t = true.
Proof using Hmac.
  unfold extract_bearer_token. destruct (authorization req) as [[header|]|]; [|done..].
  cbn [mjoin option_join ok_or obind]. case_decide; [done|].
  destruct (split_once_ws _) as [[scheme token]|]; [|done]. destruct (negb _); [done|].
  destruct (base64_decode (trim token)) as [bytes|] eqn:Eb; [|done]. cbn [ok_or obind].
  destruct (signer_from_bytes _ _ _) as [t'| | |] eqn:Es; try done. cbn [map_err obind].
  destruct (is_active now t') eqn:Ea; [|done]. intros [= <-].
  apply (signer_accepts hmac verify_slice Hmac key) in Es as (Hw & _ & ->). eauto 10.
Qed.

End api_lemmas.

(** * Theorems *)

(** C2: A request that writes to a UPS daemon uses a connection to it only if the daemon is online, the
    device is known, the value or command is one the device admits and credentials
    are configured; and, when authentication is on, only if its header carries an
    active token signed with the server's key that has the permission of the route. *)
Theorem api_write_guard (base64_decode : str -> option str) (verify_slice : str -> str -> str -> bool)
  (hmac : str -> str -> str) (auth : bool) (key : str) (servers : Servers) (now : Z)
  (client : outcome ErrorKind Stream) (req : ApiRequest) (body : WriteBody) (s : Stream)
  (Hmac : hmac_documented hmac verify_slice) (Hpath : same_path req)
  (Hconn : conn (data_api base64_decode verify_slice auth key servers now client req body) = Some s) :
  (auth = true -> exists header text t, authorization req = Some (Some header) /\
     base64_decode text = Some (sign_token hmac key t) /\ AccessToken_wf t /\
     issued_at t <= now < valid_until t /\ perm_has (permissions t) (needed_permission body) = true) /\
  exists ns ups upsd, paths req = Ok (ns, ups) /\ servers !! ns = Some upsd /\
    conn_status (daemon_state upsd) = OnlineConn /\ write_allowed upsd ups body /\
    is_Some (user (upsd_config upsd)) /\ is_Some (pass (upsd_config upsd)) /\ is_ok client = true.
Proof.
  unfold data_api, accept_layer in Hconn. destruct (accepts_json req); [|done].
  assert (Hroute : exists token,
    (auth = true -> exists t, token = Some t /\
       extract_bearer_token base64_decode verify_slice key now req = Ok t) /\
    conn (daemon_state_call servers (write_route auth servers client body) req token) = Some s).
  { destruct auth; cbn [option_layer] in Hconn; [|by exists None].
    unfold api_auth_call in Hconn.
    destruct (extract_bearer_token _ _ _ _ _) as [t| | |]; try done. exists (Some t). eauto. }
  destruct Hroute as (token & Htok & [Hd Hw]%daemon_state_conn).
  apply write_route_conn in Hw as [Hperm (ns & ups & upsd & Hp & Hs & Hrest)]. split.
  - intros ->. destruct (Htok eq_refl) as (t & -> & Hb). destruct (Hperm eq_refl) as (t' & [= <-] & Hh).
    apply (bearer_token_ok _ _ hmac Hmac) in Hb as (header & text & Hh1 & Hh2 & Hwf & Ha).
    exists header, text, t. split_and!; try done;
      unfold is_active in Ha; apply andb_prop in Ha as [Ha1 Ha2]; by apply bool_decide_eq_true in Ha1, Ha2.
  - exists ns, ups, upsd. destruct Hrest as (? & ? & ? & ?). split_and!; try done.
    by eapply daemon_online.
Qed.

(** The check of a new value accepts exactly the values the variable's type admits, and every
    other answer tells why: 404 for an unknown device, 500 for a range whose bounds
    are not numbers, 400 otherwise. *)
Lemma rw_check_spec (upsd : UpsdState) (ups : UpsName) (variable : VarName) (value : Value) :
  (rw_check upsd ups variable value = Ok tt <->
     write_allowed upsd ups (RwBody (Ok (variable, value)))) /\
  (rw_check upsd ups variable value = Err device_not_found <-> devices (daemon_state upsd) !! ups = None) /\
  (forall p, rw_check upsd ups variable value = Err p ->
     problem_status p = (match devices (daemon_state upsd) !! ups with
       | None => NOT_FOUND
       | Some device =>
           match rw_variables device !! variable with
           | Some (DRange min max) =>
               if is_numeric value && negb (is_numeric min && is_numeric max)
               then INTERNAL_SERVER_ERROR else BAD_REQUEST
           | _ => BAD_REQUEST
           end
       end)) /\
  rw_check upsd ups variable value <> Panicked.
Proof.
  assert (Hf : forall v, is_numeric v = match as_lossly_f64 v with Some _ => true | None => false end)
    by (by intros []).
  unfold rw_check, write_allowed. destruct (devices (daemon_state upsd) !! ups) as [device|] eqn:Ed.
  - cbn [ok_or obind]. split_and!.
    + rewrite check_value_ok. split; [eauto|by intros (? & [= <-] & ?)].
    + split; [|done]. unfold check_value. repeat case_match; intros [=].
    + intros p. unfold check_value. destruct (rw_variables device !! variable) as [[n| |options|min max]|].
      * repeat case_match; intros [= <-]; done.
      * repeat case_match; intros [= <-]; done.
      * repeat case_match; intros [= <-]; done.
      * rewrite !Hf. destruct (as_lossly_f64 value), (as_lossly_f64 min), (as_lossly_f64 max);
          cbn [negb andb]; repeat case_match; intros [= <-]; done.
      * intros [= <-]. done.
    + unfold check_value. repeat case_match; done.
  - cbn [ok_or obind]. split_and!; [|done|by intros p [= <-]|done].
    split; [done|]. by intros (? & ? & _).
Qed.

(** The acknowledgements of a daemon that accepts everything. *)
Definition OK_LINE : str := lit "OK" ++ [LF].
Definition write_ack (body : WriteBody) : str :=
  match body with FsdBody => lit "OK FSD-SET" ++ [LF] | _ => OK_LINE end.
Definition GOODBYE : str := lit "OK Goodbye" ++ [LF].

Definition write_command (ups : UpsName) (body : WriteBody) : option str :=
  match body with
  | RwBody (Ok (variable, value)) => SetVariable_serialize ups variable value
  | InstcmdBody (Ok cmd) => InstCmd_serialize ups cmd
  | FsdBody => FsdCommand_serialize ups
  | _ => None
  end.

Lemma is_line_ack w : forallb is_ascii w = true -> forallb not_lf w = true -> is_line (w ++ [LF]).
Proof.
  intros Ha Hl. exists w. split_and!; [done| |by apply utf8_valid_ascii].
  intros Hin. rewrite forallb_Forall_iff, list.Forall_forall in Hl. by apply Hl in Hin.
Qed.

Lemma send_ack {R} (p : parser R) r c w s rest : write_error s = None ->
  incoming s = (w ++ [LF]) ++ rest -> forallb is_ascii w = true -> forallb not_lf w = true ->
  starts_with LIST_START (w ++ [LF]) = false -> strip_prefix PROT_ERR (w ++ [LF]) = None ->
  parse_response p (w ++ [LF]) = Ok r ->
  send p (Some c) s = (Ok r, mkStream (sent s ++ c) rest (eof s) None).
Proof.
  intros Hw Hi Ha Hl Hs He Hp. unfold send, mbind, io_bind.
  rewrite (send_raw_line s c (w ++ [LF]) rest) by (done || by apply is_line_ack).
  rewrite bool_decide_eq_false_2 by (by destruct w). by rewrite Hp.
Qed.

Lemma run_call_accepted cfg u pw s call command ack rest :
  user cfg = Some u -> pass cfg = Some pw -> write_error s = None ->
  incoming s = OK_LINE ++ OK_LINE ++ ack ++ GOODBYE ++ rest ->
  (forall s', write_error s' = None -> incoming s' = ack ++ GOODBYE ++ rest ->
     call s' = (Ok tt, mkStream (sent s' ++ command) (GOODBYE ++ rest) (eof s') None)) ->
  run_call cfg (Ok s) call =
  (Ok ACCEPTED, Some (mkStream (sent s ++ Username_serialize u ++ Password_serialize pw ++ command ++
     DetachCommand_serialize) rest (eof s) None)).
Proof.
  intros Hu Hp Hw Hi Hcall. unfold run_call, request_auth_client. rewrite Hu, Hp.
  unfold authenticate, mbind, io_bind.
  rewrite (send_ack ProtOk_deserialize tt _ (lit "OK") s (OK_LINE ++ ack ++ GOODBYE ++ rest));
    [|done|done|vm_compute; reflexivity..].
  rewrite (send_ack ProtOk_deserialize tt _ (lit "OK") _ (ack ++ GOODBYE ++ rest));
    [|done|done|vm_compute; reflexivity..].
  unfold call_and_close. rewrite Hcall by done. unfold auth_close, mbind, io_bind.
  rewrite (send_ack ProtOkDetach_deserialize tt _ (lit "OK Goodbye") _ rest);
    [|done|done|vm_compute; reflexivity..].
  unfold shutdown. cbn [write_error sent eof]. by rewrite <- !app_assoc.
Qed.

Lemma write_call_accepted ups body command s rest : write_command ups body = Some command ->
  write_error s = None -> incoming s = write_ack body ++ GOODBYE ++ rest ->
  write_call ups body s = (Ok tt, mkStream (sent s ++ command) (GOODBYE ++ rest) (eof s) None).
Proof.
  intros Hc Hw Hi.
  destruct body as [[[variable value]| | |]|[cmd| | |]|]; try done; cbn [write_command write_call] in *.
  - unfold Client.set_var. rewrite Hc.
    by rewrite (send_ack ProtOk_deserialize tt command (lit "OK") s (GOODBYE ++ rest));
      [|done|done|vm_compute; reflexivity..].
  - unfold Client.instcmd. rewrite Hc.
    by rewrite (send_ack ProtOk_deserialize tt command (lit "OK") s (GOODBYE ++ rest));
      [|done|done|vm_compute; reflexivity..].
  - unfold Client.fsd. rewrite Hc.
    by rewrite (send_ack ProtOkFsd_deserialize tt command (lit "OK FSD-SET") s (GOODBYE ++ rest));
      [|done|done|vm_compute; reflexivity..].
Qed.

Lemma write_handler_runs auth servers s body req token ns ups upsd :
  paths req = Ok (ns, ups) -> servers !! ns = Some upsd -> write_allowed upsd ups body ->
  (auth = true -> exists t, token = Some t /\ has_permission t (needed_permission body) = true) ->
  (body = FsdBody -> content_length req = None \/ content_length req = Some (lit "0")) ->
  write_route auth servers (Ok s) body req token =
    reply_of (run_call (upsd_config upsd) (Ok s) (write_call ups body)).
Proof.
  intros Hp Hs (device & Hd & Hb) Ha Hlen.
  assert (Hlayer : forall p (next : service Z), p = needed_permission body ->
    option_layer auth (authorize_api_call p) next req token = next req token).
  { intros p next ->. unfold option_layer. destruct auth; [|done].
    destruct (Ha eq_refl) as (t & -> & Ht). unfold authorize_api_call. by rewrite Ht. }
  destruct body as [[[variable value]| | |]|[cmd| | |]|]; try done; cbn [write_route];
    rewrite Hlayer by done; rewrite ?Hp; f_equal.
  - unfold rw_patch. cbn [map_err checked]. unfold extract_upsd. rewrite Hs. cbn [ok_or checked].
    unfold rw_check. rewrite Hd. cbn [ok_or obind]. by rewrite (proj2 (check_value_ok _ _ _) Hb).
  - unfold instcmd_post. cbn [map_err checked]. unfold extract_upsd. rewrite Hs. cbn [ok_or checked].
    unfold instcmd_check. rewrite Hd. cbn [ok_or obind]. by rewrite bool_decide_eq_true_2.
  - unfold validate_empty_content_length. destruct (Hlen eq_refl) as [-> | ->];
      [|rewrite bool_decide_eq_true_2 by done]; rewrite Hp; unfold fsd_post; cbn [map_err checked];
      unfold extract_upsd; rewrite Hs; cbn [ok_or checked]; unfold fsd_check; rewrite Hd;
      by rewrite bool_decide_eq_true_2 by eauto.
Qed.

(** An authorised and admissible write to an online daemon that acknowledges every command is
    answered 202, and the daemon is sent exactly the user name, the password, the
    one command and the logout. *)
Lemma write_sends (base64_decode : str -> option str) (verify_slice : str -> str -> str -> bool)
  (auth : bool) (key : str) (servers : Servers) (now : Z) (s : Stream) (req : ApiRequest) (body : WriteBody)
  (ns : str) (ups : UpsName) (upsd : UpsdState) (u pw command rest : str)
  (Hacc : accepts_json req = true) (Hpath : same_path req) (Hp : paths req = Ok (ns, ups))
  (Hlen : body = FsdBody -> content_length req = None \/ content_length req = Some (lit "0"))
  (Hs : servers !! ns = Some upsd) (Hon : conn_status (daemon_state upsd) = OnlineConn)
  (Hw : write_allowed upsd ups body)
  (Ha : auth = true -> exists t, extract_bearer_token base64_decode verify_slice key now req = Ok t /\
          perm_has (permissions t) (needed_permission body) = true)
  (Hu : user (upsd_config upsd) = Some u) (Hpw : pass (upsd_config upsd) = Some pw)
  (Hc : write_command ups body = Some command) (Hwe : write_error s = None)
  (Hi : incoming s = OK_LINE ++ OK_LINE ++ write_ack body ++ GOODBYE ++ rest) :
  data_api base64_decode verify_slice auth key servers now (Ok s) req body =
  mkReply (Ok ACCEPTED) false (Some (mkStream (sent s ++ Username_serialize u ++ Password_serialize pw ++
    command ++ DetachCommand_serialize) rest (eof s) None)).
Proof.
  unfold data_api, accept_layer. rewrite Hacc.
  assert (Hroute : forall token,
    (auth = true -> exists t, token = Some t /\ has_permission t (needed_permission body) = true) ->
    daemon_state_call servers (write_route auth servers (Ok s) body) req token =
    mkReply (Ok ACCEPTED) false (Some (mkStream (sent s ++ Username_serialize u ++ Password_serialize pw ++
      command ++ DetachCommand_serialize) rest (eof s) None))).
  { intros token Ht. unfold daemon_state_call.
    assert (Hd : daemon_connection servers req = Ok tt).
    { destruct (Hpath _ _ Hp) as (m & Hm & Hns). unfold daemon_connection. by rewrite Hm, Hns, Hs, Hon. }
    rewrite Hd, (write_handler_runs auth servers s body req token ns ups upsd) by done.
    rewrite (run_call_accepted _ u pw s _ command (write_ack body) rest); try done.
    intros s' Hs' Hi'. by apply write_call_accepted. }
  destruct auth; cbn [option_layer]; [|by apply Hroute].
  destruct (Ha eq_refl) as (t & Ht & Hperm). unfold api_auth_call. rewrite Ht. apply Hroute. eauto.
Qed.

Lemma foldl_count {A} (p : A -> bool) l n :
  foldl (fun n a => if p a then S n else n) n l = (n + length (List.filter p l))%nat.
Proof.
  revert n. induction l as [|a l IH]; intros n; simpl; [lia|]. rewrite IH. destruct (p a); simpl; lia.
Qed.

Lemma filter_length_all {A} (p : A -> bool) l :
  length (List.filter p l) = length l <-> forallb p l = true.
Proof.
  induction l as [|a l IH]; [done|]. simpl. pose proof (List.filter_length_le p l).
  destruct (p a); simpl; [rewrite <- IH; split; lia|]. split; [lia|done].
Qed.

Lemma filter_length_some {A} (p : A -> bool) l :
  (0 < length (List.filter p l))%nat <-> existsb p l = true.
Proof. induction l as [|a l IH]; simpl; [lia|]. destruct (p a); simpl; [split; [done|lia]|done]. Qed.

Lemma servers_forall (servers : Servers) (p : UpsdState -> bool) :
  forallb p (map_to_list servers).*2 = true <-> forall ns u, servers !! ns = Some u -> p u = true.
Proof.
  rewrite forallb_Forall_iff, list.Forall_forall. split.
  - intros H ns u Hu. apply H, list_elem_of_fmap. exists (ns, u). split; [done|]. by apply elem_of_map_to_list.
  - intros H u ([ns u'] & -> & Hin)%list_elem_of_fmap. apply elem_of_map_to_list in Hin. by eapply H.
Qed.

Lemma servers_exists (servers : Servers) (p : UpsdState -> bool) :
  existsb p (map_to_list servers).*2 = true <-> exists ns u, servers !! ns = Some u /\ p u = true.
Proof.
  rewrite existsb_exists. split.
  - intros (u & Hin & Hp). apply list_elem_of_In, list_elem_of_fmap in Hin as ([ns u'] & -> & Hin).
    apply elem_of_map_to_list in Hin. eauto.
  - intros (ns & u & Hu & Hp). exists u. split; [|done]. apply list_elem_of_In, list_elem_of_fmap.
    exists (ns, u). split; [done|]. by apply elem_of_map_to_list.
Qed.

(** The probes: healthy when no daemon is dead, dead when there are daemons and all are dead,
    degraded otherwise; ready when some daemon is online; and the answers for one
    daemon follow its own status. *)
Lemma probes_spec (servers : Servers) :
  (get_health servers = Healthy <->
     forall ns u, servers !! ns = Some u -> conn_status (daemon_state u) <> Dead) /\
  (get_health servers = DeadHealth <-> servers <> ∅ /\
     forall ns u, servers !! ns = Some u -> conn_status (daemon_state u) = Dead) /\
  (get_readiness servers = ReadyState <->
     exists ns u, servers !! ns = Some u /\ conn_status (daemon_state u) = OnlineConn) /\
  (forall ns, get_namespace_readiness servers ns = OK <->
     exists u, servers !! ns = Some u /\ conn_status (daemon_state u) = OnlineConn) /\
  (forall ns, get_namespace_health servers ns = OK <->
     exists u, servers !! ns = Some u /\ conn_status (daemon_state u) <> Dead).
Proof.
  pose (alive u := bool_decide (conn_status (daemon_state u) <> Dead)).
  assert (Hcount : foldl (fun n u => if bool_decide (conn_status (daemon_state u) <> Dead) then S n else n)
    0%nat (map_to_list servers).*2 = length (List.filter alive (map_to_list servers).*2))
    by apply (foldl_count alive).
  assert (Hsize : size servers = length (map_to_list servers).*2)
    by (rewrite length_fmap; symmetry; apply length_map_to_list).
  assert (Hall : length (List.filter alive (map_to_list servers).*2) = size servers <->
    forall ns u, servers !! ns = Some u -> conn_status (daemon_state u) <> Dead).
  { rewrite Hsize, filter_length_all, servers_forall. unfold alive. setoid_rewrite bool_decide_eq_true. done. }
  assert (Hsome : (0 < length (List.filter alive (map_to_list servers).*2))%nat <->
    exists ns u, servers !! ns = Some u /\ conn_status (daemon_state u) <> Dead).
  { rewrite filter_length_some, servers_exists. unfold alive. setoid_rewrite bool_decide_eq_true. done. }
  split_and!.
  - unfold get_health. rewrite Hcount, <- Hall. case_decide; [by split|]. by case_decide.
  - unfold get_health. rewrite Hcount. split.
    + case_decide as H1; [done|]. case_decide as H2; [done|]. intros _. split.
      * intros He. apply H1, Hall. intros ns u Hu.
        assert (Hn : servers !! ns = None) by (rewrite He; apply lookup_empty). congruence.
      * intros ns u Hu. destruct (decide (conn_status (daemon_state u) = Dead)); [done|]. exfalso.
        apply H2, Hsome. eauto.
    + intros [Hne Hd]. rewrite !decide_False; [done|..].
      * rewrite Hsome. intros (ns & u & Hu & Hx). by eapply Hx, Hd.
      * rewrite Hall. intros Hx. apply Hne, map_empty. intros ns.
        destruct (servers !! ns) as [u|] eqn:E; [|done]. exfalso. by eapply Hx, Hd.
  - pose proof (servers_exists servers (fun u => bool_decide (conn_status (daemon_state u) = OnlineConn))) as He.
    cbv beta in He. setoid_rewrite bool_decide_eq_true in He. rewrite <- He. unfold get_readiness.
    by destruct (existsb _ _).
  - intros ns. unfold get_namespace_readiness. destruct (servers !! ns) as [u|]; [|split; [done|by intros (? & ? & _)]].
    case_bool_decide; (split; [|by intros (? & [= <-] & ?)]); [eauto|done].
  - intros ns. unfold get_namespace_health. destruct (servers !! ns) as [u|]; [|split; [done|by intros (? & ? & _)]].
    case_bool_decide; (split; [|by intros (? & [= <-] & ?)]); [eauto|done].
Qed.

End properties.

(** ** Witnesses *)

(** Enough for texts without characters to escape. *)
#[local] Instance demo_debug : StrDebug := fun s => DQUOTE :: s ++ [DQUOTE].

Definition demo_ups : UpsName := mkUpsName (lit "ups1").
Definition demo_var : VarName := mkVarName (Custom (lit "test.delay")).
Definition demo_device : DeviceEntry :=
  mkDeviceEntry [] [mkCmdName (lit "beeper.off")] [] 0 demo_ups {[demo_var := DNumber]} (mkStatus 0) ∅.
Definition demo_upsd : UpsdState :=
  mkUpsdState (mkDaemonState {[demo_ups := demo_device]} None OnlineConn None None)
    (mkUpsdConfig 30 2 (lit "localhost") 3493 (Some (lit "bob")) (Some (lit "pw")) 4 Disable) (lit "main").
Definition demo_servers : Servers := {[lit "main" := demo_upsd]}.
Definition demo_request : ApiRequest :=
  mkApiRequest true (Some (Some (lit "Bearer dG9rZW4="))) None
    (Ok (Some {[lit "namespace" := lit "main"]})) (Ok (lit "main", demo_ups)).
Definition demo_decode (text : str) : option str := Some (sign_token demo_hmac [] demo_token).
Definition demo_body : WriteBody := RwBody (Ok (demo_var, VInt 5)).
Definition demo_stream : Stream := mkStream [] (OK_LINE ++ OK_LINE ++ OK_LINE ++ GOODBYE) false None.
Definition demo_after : Stream :=
  mkStream (Username_serialize (lit "bob") ++ Password_serialize (lit "pw") ++
    (lit "SET VAR ups1 test.delay " ++ [DQUOTE] ++ lit "5" ++ [DQUOTE; LF]) ++ DetachCommand_serialize) [] false None.

Lemma demo_same_path : same_path demo_request.
Proof. intros ns ups [= <- <-]. eexists. split; [reflexivity|]. by apply lookup_singleton_Some. Qed.

Lemma demo_allowed : write_allowed demo_upsd demo_ups demo_body.
Proof.
  exists demo_device. split; [by apply lookup_singleton_Some|].
  exists DNumber. split; [by apply lookup_singleton_Some|]. constructor.
Qed.

Lemma api_write_guard_witness :
  exists header text t, authorization demo_request = Some (Some header) /\
    demo_decode text = Some (sign_token demo_hmac [] t) /\ AccessToken_wf t.
Proof.
  destruct (api_write_guard demo_decode demo_verify demo_hmac true [] demo_servers 400 (Ok demo_stream)
    demo_request demo_body demo_after demo_hmac_documented demo_same_path) as [H _].
  - vm_compute. reflexivity.
  - destruct (H eq_refl) as (header & text & t & H1 & H2 & H3 & _). exists header, text, t.
    split; [exact H1|]. split; [exact H2|exact H3].
Defined.
