(* ===== verification/Events.v ===== *)
(** * System events

    [event.rs], [event/batch.rs] and [event/channel.rs]: the events that the
    background services publish, and the batch that aggregates those of one
    synchronisation. *)

From S2P Require Import Prelude RustStr Numbers Names VarName Value Ip UpsVariables Status Config State.

Record DeviceStatusChange := mkStatusChange {
  sc_name : UpsName; status_old : UpsStatus; status_new : UpsStatus }.
Record DeviceClientInfo := mkDeviceClientInfo { dc_name : UpsName; dc_clients : list IpAddr }.

#[global] Instance DeviceStatusChange_eq_dec : EqDecision DeviceStatusChange.
Proof. solve_decision. Defined.
#[global] Instance DeviceClientInfo_eq_dec : EqDecision DeviceClientInfo.
Proof. solve_decision. Defined.

Inductive SystemEvent :=
  | DeviceAddition (devices : list UpsName) (namespace : str)
  | DeviceRemoval (devices : list UpsName) (namespace : str)
  | DeviceUpdate (devices : list UpsName) (namespace : str)
  | DeviceStatusChanges (changes : list DeviceStatusChange) (namespace : str)
  | DaemonStatusUpdate (status : ConnectionStatus) (namespace : str)
  | ClientConnection (devices : list DeviceClientInfo) (namespace : str)
  | ClientDisconnection (devices : list DeviceClientInfo) (namespace : str).

(** [EventChannel]: the events sent so far, and whether anyone is subscribed. *)
Record EventChannel := mkChannel { published : list SystemEvent; subscribed : bool }.
Inductive ChannelSendError := mkChannelSendError.

Definition channel_send (c : EventChannel) (event : SystemEvent)
  : outcome ChannelSendError unit * EventChannel :=
  if subscribed c then (Ok tt, mkChannel (published c ++ [event]) true)
  else (Err mkChannelSendError, c).

Record EventBatch := mkBatch {
  b_namespace : str;
  upsd_status : option ConnectionStatus;
  new_devices : list UpsName;
  removed : list UpsName;
  status_changes : list DeviceStatusChange;
  updated : list UpsName;
  disconnections : list DeviceClientInfo;
  connections : list DeviceClientInfo;
}.

Definition EventBatch_new (namespace : str) : EventBatch := mkBatch namespace None [] [] [] [] [] [].

Definition new_device (n : UpsName) (b : EventBatch) : EventBatch :=
  mkBatch (b_namespace b) (upsd_status b) (new_devices b ++ [n]) (removed b) (status_changes b)
    (updated b) (disconnections b) (connections b).
Definition removed_device (n : UpsName) (b : EventBatch) : EventBatch :=
  mkBatch (b_namespace b) (upsd_status b) (new_devices b) (removed b ++ [n]) (status_changes b)
    (updated b) (disconnections b) (connections b).
Definition updated_device (n : UpsName) (b : EventBatch) : EventBatch :=
  mkBatch (b_namespace b) (upsd_status b) (new_devices b) (removed b) (status_changes b)
    (updated b ++ [n]) (disconnections b) (connections b).
Definition status_change (n : UpsName) (old new : UpsStatus) (b : EventBatch) : EventBatch :=
  mkBatch (b_namespace b) (upsd_status b) (new_devices b) (removed b)
    (status_changes b ++ [mkStatusChange n old new]) (updated b) (disconnections b) (connections b).
Definition client_connection (n : UpsName) (connected : list IpAddr) (b : EventBatch) : EventBatch :=
  mkBatch (b_namespace b) (upsd_status b) (new_devices b) (removed b) (status_changes b) (updated b)
    (disconnections b) (connections b ++ [mkDeviceClientInfo n connected]).
Definition client_disconnect (n : UpsName) (disconnected : list IpAddr) (b : EventBatch) : EventBatch :=
  mkBatch (b_namespace b) (upsd_status b) (new_devices b) (removed b) (status_changes b) (updated b)
    (disconnections b ++ [mkDeviceClientInfo n disconnected]) (connections b).
Definition set_upsd_status (s : ConnectionStatus) (b : EventBatch) : EventBatch :=
  mkBatch (b_namespace b) (Some s) (new_devices b) (removed b) (status_changes b) (updated b)
    (disconnections b) (connections b).

(** [if !xs.is_empty() { channel.send(..)?; }] and what follows. *)
Definition send_if {A} (xs : list A) (event : SystemEvent)
  (k : EventChannel -> outcome ChannelSendError unit * EventChannel) (c : EventChannel)
  : outcome ChannelSendError unit * EventChannel :=
  match xs with
  | [] => k c
  | _ => match channel_send c event with (Ok _, c) => k c | (r, c) => (r, c) end
  end.

(** [EventBatch::send]. *)
Definition EventBatch_send (b : EventBatch) (c : EventChannel)
  : outcome ChannelSendError unit * EventChannel :=
  let ns := b_namespace b in
  send_if (new_devices b) (DeviceAddition (new_devices b) ns) (
  send_if (removed b) (DeviceRemoval (removed b) ns) (
  send_if (updated b) (DeviceUpdate (updated b) ns) (
  send_if (status_changes b) (DeviceStatusChanges (status_changes b) ns) (
  send_if (disconnections b) (ClientDisconnection (disconnections b) ns) (
  send_if (connections b) (ClientConnection (connections b) ns) (
  fun c => match upsd_status b with
           | Some status => channel_send c (DaemonStatusUpdate status ns)
           | None => (Ok tt, c)
           end)))))) c.

(** The events of a batch, in the order in which they are published. *)
Definition batch_events (b : EventBatch) : list SystemEvent :=
  let ns := b_namespace b in
  let group {A} (xs : list A) e := match xs with [] => [] | _ => [e] end in
  group (new_devices b) (DeviceAddition (new_devices b) ns) ++
  group (removed b) (DeviceRemoval (removed b) ns) ++
  group (updated b) (DeviceUpdate (updated b) ns) ++
  group (status_changes b) (DeviceStatusChanges (status_changes b) ns) ++
  group (disconnections b) (ClientDisconnection (disconnections b) ns) ++
  group (connections b) (ClientConnection (connections b) ns) ++
  match upsd_status b with Some s => [DaemonStatusUpdate s ns] | None => [] end.

(** A batch is published whole, one event per kind that occurred, and fails
    exactly when nobody listens and there is something to say. *)
Lemma batch_send_spec b c :
  EventBatch_send b c =
  if subscribed c then (Ok tt, mkChannel (published c ++ batch_events b) true)
  else (match batch_events b with [] => Ok tt | _ => Err mkChannelSendError end, c).
Proof.
  destruct c as [p []], b as [ns st [|n l1] [|r l2] [|s l3] [|u l4] [|d l5] [|e l6]];
    unfold EventBatch_send, batch_events; cbn; destruct st; cbn;
    rewrite <- ?app_assoc; cbn; rewrite ?app_nil_r; reflexivity.
Qed.
