(* ===== verification/Sync.v ===== *)
(** * Synchronisation with the UPS daemons

    [sync/sync_device.rs] and [sync/sync_status.rs]: the tasks that keep the
    server's state equal to what the daemons report. The answers of the daemon
    are arguments, in the order in which the code sees them; [now] is the
    clock and [lookup_ip] the reverse DNS query. *)

From S2P Require Import Prelude RustStr Numbers Errors Names VarName Value Ip VarType UpsVariables Lexer ParserUtils Response.
From S2P Require Import Status Config State Events.

(** ** [sync_device.rs]: loading a device *)

Inductive SyncTaskError := ClientError (inner : ErrorKind) | DeviceLoadFailed.
Definition SyncTaskError_from (value : ErrorKind) : SyncTaskError := ClientError value.
Definition SyncTaskError_fmt (e : SyncTaskError) : str :=
  match e with
  | ClientError inner => ErrorKind_fmt inner
  | DeviceLoadFailed => lit "unable to get device details from upsd"
  end.
Record DeviceLoadError := mkLoadError { le_inner : ErrorKind; le_name : UpsName }.
Definition DeviceLoadError_fmt (e : DeviceLoadError) : str := lit "device load failed for " ++ UpsName_fmt (le_name e).
Definition map_load_err {T} (name : UpsName) (r : outcome ErrorKind T) : outcome DeviceLoadError T :=
  map_err (fun e => mkLoadError e name) r.

Definition UPS_STATUS : VarName := mkVarName (Standard StandardName.UpsStatus).

Definition client_info (lookup_ip : IpAddr -> option str) (ip : IpAddr) : ClientInfo :=
  mkClientInfo ip (if negb (is_loopback ip) then lookup_ip ip else None).

(** [load_var_detail]: the answers to [GET TYPE], [LIST ENUM] and [LIST RANGE]. *)
Fixpoint var_detail_loop (var_types : list VarType) (var_name : VarName)
  (list_enum : outcome ErrorKind EnumList) (list_range : outcome ErrorKind RangeList)
  : outcome ErrorKind (VarName * VarDetail) :=
  match var_types with
  | [] => Ok (var_name, DString 64)
  | ReadWrite :: var_types => var_detail_loop var_types var_name list_enum list_range
  | TEnum :: _ =>
      let? enum_list := list_enum in Ok (el_name enum_list, DEnum (el_values enum_list))
  | TRange :: _ =>
      let? range_list := list_range in
      match list.last (rl_ranges range_list) with
      | Some (min, max) => Ok (rl_name range_list, DRange min max)
      | None => Ok (rl_name range_list, DRange (VInt i64_min) (VInt i64_max))
      end
  | TString max_len :: _ => Ok (var_name, DString max_len)
  | TNumber :: _ => Ok (var_name, DNumber)
  end.
Definition load_var_detail (var_name : VarName) (get_var_type : outcome ErrorKind UpsVarType)
  (list_enum : outcome ErrorKind EnumList) (list_range : outcome ErrorKind RangeList)
  : outcome ErrorKind (VarName * VarDetail) :=
  let? type_info := get_var_type in
  var_detail_loop (vt_var_types type_info) var_name list_enum list_range.

(** [load_device_entry]; [rw_vars] are the results of [load_var_detail]. *)
Definition load_device_entry (lookup_ip : IpAddr -> option str) (now : Z) (device : UpsDevice)
  (clients : outcome ErrorKind ClientList) (commands : outcome ErrorKind CmdList)
  (rw_list : outcome ErrorKind RwList) (vars : outcome ErrorKind UpsVarList)
  (rw_vars : list (outcome ErrorKind (VarName * VarDetail))) : outcome DeviceLoadError DeviceEntry :=
  let ups_name := dev_ups_name device in
  let? answers := map_load_err ups_name
    (let? clients := clients in let? commands := commands in let? rw := rw_list in
     let? vars := vars in Ok (clients, commands, vars)) in
  let '(clients, commands, vars) := answers in
  let rw_variables := foldl (fun rw_variables result =>
    match result with Ok (var_name, detail) => <[var_name := detail]> rw_variables | _ => rw_variables end)
    ∅ rw_vars in
  let status := match UpsVariables_get (vl_variables vars) UPS_STATUS with
                | Some value => UpsStatus_from_value value
                | None => status_default
                end in
  Ok (mkDeviceEntry (client_info lookup_ip <$> cl_ips clients) (cml_cmds commands) (dev_desc device) now
        ups_name rw_variables status (vl_variables vars)).

(** ** [sync_device.rs]: the diff *)

(** The result of a task of a [JoinSet]. *)
Inductive load_result :=
  | Loaded (device : DeviceEntry)
  | LoadFailed (name : UpsName)
  | JoinFailed.

Record DeviceDiffPatch := mkPatch {
  added : list DeviceEntry;
  deleted : list UpsName;
  p_updated : list UpsDevice;
  p_prot_ver : str;
  upsd_ver : str;
}.

Definition remote_has (remote : list UpsDevice) (n : UpsName) : bool :=
  existsb (fun v => bool_decide (dev_ups_name v = n)) remote.

(** The devices that vanished. *)
Definition diff_deleted (local : gmap UpsName DeviceEntry) (remote : list UpsDevice) : list UpsName :=
  filter (fun n => remote_has remote n = false) (map_to_list local).*1.

(** The loop over the remote devices: updated, to recheck, new. *)
Definition diff_step (local : gmap UpsName DeviceEntry)
  (acc : list UpsDevice * list UpsDevice * list UpsDevice) (remote_device : UpsDevice)
  : list UpsDevice * list UpsDevice * list UpsDevice :=
  let '(updated, recheck_devices, new_devices) := acc in
  match local !! dev_ups_name remote_device with
  | Some local_device =>
      if has (status local_device) NOCOMM then (updated, recheck_devices ++ [remote_device], new_devices)
      else if bool_decide (desc local_device <> dev_desc remote_device)
           then (updated ++ [remote_device], recheck_devices, new_devices)
           else acc
  | None => (updated, recheck_devices, new_devices ++ [remote_device])
  end.
Definition diff_remote (local : gmap UpsName DeviceEntry) (remote : list UpsDevice)
  : list UpsDevice * list UpsDevice * list UpsDevice :=
  foldl (diff_step local) ([], [], []) remote.

Definition nocomm_entry (now : Z) (n : UpsName) : DeviceEntry :=
  mkDeviceEntry [] [] [] now n ∅ NOCOMM UpsVariables_new.

(** The two loops over the finished tasks: entries to add and failures. *)
Definition collect_new (now : Z) (acc : list DeviceEntry * nat) (r : load_result)
  : list DeviceEntry * nat :=
  let '(added, failure_count) := acc in
  match r with
  | Loaded device => (added ++ [device], failure_count)
  | LoadFailed n => (added ++ [nocomm_entry now n], S failure_count)
  | JoinFailed => (added, S failure_count)
  end.
Definition collect_recheck (acc : list DeviceEntry * nat) (r : load_result) : list DeviceEntry * nat :=
  let '(added, failure_count) := acc in
  match r with
  | Loaded device => (added ++ [device], failure_count)
  | LoadFailed _ | JoinFailed => (added, S failure_count)
  end.

(** [diff_upsd]; the tasks of the new and the rechecked devices finish in the
    order of [new_results] and [recheck_results]. *)
Definition diff_upsd (now : Z) (local : gmap UpsName DeviceEntry)
  (remote : outcome ErrorKind (list UpsDevice)) (prot_ver upsd_ver : outcome ErrorKind str)
  (new_results recheck_results : list load_result) : outcome SyncTaskError DeviceDiffPatch :=
  let? versions := map_err ClientError
    (let? r := remote in let? p := prot_ver in let? v := upsd_ver in Ok (r, p, v)) in
  let '(remote, prot_ver, upsd_ver) := versions in
  let total_device_count := length remote in
  let '(updated, _, _) := diff_remote local remote in
  let '(added, failure_count) := foldl (collect_new now) ([], 0) new_results in
  let '(added, failure_count) := foldl collect_recheck (added, failure_count) recheck_results in
  if failure_count <? total_device_count
  then Ok (mkPatch added (diff_deleted local remote) updated prot_ver upsd_ver)
  else Err DeviceLoadFailed.

(** ** [DeviceSyncTask::next] *)

Definition set_devices (d : gmap UpsName DeviceEntry) (s : DaemonState) : DaemonState :=
  mkDaemonState d (last_device_sync s) (conn_status s) (State.prot_ver s) (ver s).

Definition set_desc (d : str) (e : DeviceEntry) : DeviceEntry :=
  mkDeviceEntry (attached e) (commands e) d (last_modified e) (name e) (rw_variables e) (status e)
    (variables e).

Definition apply_added (acc : gmap UpsName DeviceEntry * EventBatch) (entry : DeviceEntry)
  : gmap UpsName DeviceEntry * EventBatch :=
  (<[name entry := entry]> acc.1, new_device (name entry) acc.2).
Definition apply_updated (acc : gmap UpsName DeviceEntry * EventBatch) (entry : UpsDevice)
  : gmap UpsName DeviceEntry * EventBatch :=
  match acc.1 !! dev_ups_name entry with
  | Some device => (<[dev_ups_name entry := set_desc (dev_desc entry) device]> acc.1,
                    updated_device (dev_ups_name entry) acc.2)
  | None => acc
  end.
Definition apply_deleted (acc : gmap UpsName DeviceEntry * EventBatch) (n : UpsName)
  : gmap UpsName DeviceEntry * EventBatch :=
  (delete n acc.1, removed_device n acc.2).

(** The new state, the events and the result of one synchronisation. *)
Definition device_sync_next (now : Z) (ns : str) (s : DaemonState)
  (diff : outcome SyncTaskError DeviceDiffPatch)
  : outcome SyncTaskError unit * DaemonState * EventBatch :=
  let events := EventBatch_new ns in
  match diff with
  | Ok patch =>
      let acc := foldl apply_added (devices s, events) (added patch) in
      let acc := foldl apply_updated acc (p_updated patch) in
      let '(devices, events) := foldl apply_deleted acc (deleted patch) in
      let '(status, events) :=
        if decide (conn_status s <> OnlineConn) then (OnlineConn, set_upsd_status OnlineConn events)
        else (conn_status s, events) in
      (Ok tt, mkDaemonState devices (Some now) status (Some (p_prot_ver patch)) (Some (upsd_ver patch)),
       events)
  | Err err =>
      let events := foldl (fun b n => removed_device n b) events (map_to_list (devices s)).*1 in
      let '(status, prot_ver, ver, events) :=
        if decide (conn_status s <> Dead) then (Dead, None, None, set_upsd_status Dead events)
        else (conn_status s, State.prot_ver s, ver s, events) in
      (Err err, mkDaemonState ∅ (Some now) status prot_ver ver, events)
  | Panicked => (Panicked, s, events)
  | OutOfFuel => (OutOfFuel, s, events)
  end.

(** ** [sync_status.rs] *)

Record ClientDiff := mkClientDiff { connected : list IpAddr; disconnected : list IpAddr }.

(** [ClientDiff::diff]. *)
Definition client_diff (source : list ClientInfo) (target : list IpAddr) : ClientDiff :=
  mkClientDiff
    (filter (fun ip => existsb (fun v => bool_decide (ci_addr v = ip)) source = false) target)
    (filter (fun ip => existsb (fun v => bool_decide (v = ip)) target = false) (ci_addr <$> source)).

(** [Vec::swap_remove]: the last element takes the place of the removed one. *)
Definition swap_remove {A} (l : list A) (i : nat) : list A :=
  match list.last l with
  | Some x => if decide (S i = length l) then take i l else <[i := x]> (take (length l - 1) l)
  | None => l
  end.

(** [position], then [swap_remove]. *)
Definition detach (attached : list ClientInfo) (client_ip : IpAddr) : list ClientInfo :=
  match list_find (fun c => ci_addr c = client_ip) attached with
  | Some (idx, _) => swap_remove attached idx
  | None => attached
  end.

Definition update_clients (lookup_ip : IpAddr -> option str) (attached : list ClientInfo)
  (ips : list IpAddr) : list ClientInfo :=
  let diff := client_diff attached ips in
  foldl detach attached (disconnected diff) ++ (client_info lookup_ip <$> connected diff).

(** [snapshot_active_device_names]. *)
Definition snapshot_active_device_names (s : DaemonState) : list UpsName :=
  (filter (fun kv : UpsName * DeviceEntry => has (status kv.2) NOCOMM = false)
     (map_to_list (devices s))).*1.

Definition set_status (now : Z) (st : UpsStatus) (vars : UpsVariables) (e : DeviceEntry) : DeviceEntry :=
  mkDeviceEntry (attached e) (commands e) (desc e) now (name e) (rw_variables e) st vars.

(** The loop of [status_sync]: devices and changes. *)
Definition status_step (now : Z) (acc : gmap UpsName DeviceEntry * list DeviceStatusChange)
  (response : outcome ErrorKind UpsVar) : gmap UpsName DeviceEntry * list DeviceStatusChange :=
  let '(devs, changes) := acc in
  match response with
  | Ok variable =>
      match devs !! uv_ups_name variable with
      | Some entry =>
          let old_status := status entry in
          let new_status := UpsStatus_from_value (uv_value variable) in
          let entry := set_status now new_status
            (UpsVariables_insert (variables entry) (uv_name variable) (uv_value variable)).2 entry in
          (<[uv_ups_name variable := entry]> devs,
           if decide (old_status <> new_status)
           then changes ++ [mkStatusChange (uv_ups_name variable) old_status new_status] else changes)
      | None => acc
      end
  | _ => acc
  end.

(** [status_sync]: the new state, and the event if anything changed. *)
Definition status_sync (now : Z) (ns : str) (s : DaemonState) (responses : list (outcome ErrorKind UpsVar))
  : DaemonState * option SystemEvent :=
  match snapshot_active_device_names s with
  | [] => (s, None)
  | _ =>
      let '(devs, changes) := foldl (status_step now) (devices s, []) responses in
      (set_devices devs s,
       match changes with [] => None | _ => Some (DeviceStatusChanges changes ns) end)
  end.

(** One response of [state_sync]: the device and the answers to [LIST VAR],
    [LIST CLIENT] and [LIST CMD]. *)
Definition state_response := (UpsName * outcome ErrorKind (UpsVarList * ClientList * CmdList))%type.

Definition state_step (lookup_ip : IpAddr -> option str) (now : Z)
  (acc : gmap UpsName DeviceEntry * EventBatch) (response : state_response)
  : gmap UpsName DeviceEntry * EventBatch :=
  let '(devs, events) := acc in
  let '(device_name, answers) := response in
  match devs !! device_name with
  | None => acc
  | Some entry =>
      match answers with
      | Ok (var_list, clients, cmds) =>
          let '(new_status, events) :=
            match UpsVariables_get (vl_variables var_list) UPS_STATUS with
            | Some status_value =>
                let new_status := UpsStatus_from_value status_value in
                if decide (status entry <> new_status)
                then (new_status, status_change device_name (status entry) new_status events)
                else (status entry, events)
            | None => (status entry, events)
            end in
          let diff := client_diff (attached entry) (cl_ips clients) in
          let events := match disconnected diff with
                        | [] => events
                        | _ => client_disconnect device_name (disconnected diff) events end in
          let events := match connected diff with
                        | [] => events
                        | _ => client_connection device_name (connected diff) events end in
          let entry := mkDeviceEntry (update_clients lookup_ip (attached entry) (cl_ips clients))
            (cml_cmds cmds) (desc entry) now (name entry) (rw_variables entry) new_status
            (vl_variables var_list) in
          (<[device_name := entry]> devs, updated_device device_name events)
      | _ =>
          (<[device_name := mark_as_dead_with now entry NOCOMM]> devs,
           status_change device_name (status entry) NOCOMM events)
      end
  end.

(** [state_sync]. *)
Definition state_sync (lookup_ip : IpAddr -> option str) (now : Z) (ns : str) (s : DaemonState)
  (responses : list state_response) : DaemonState * EventBatch :=
  match snapshot_active_device_names s with
  | [] => (s, EventBatch_new ns)
  | _ =>
      let '(devs, events) := foldl (state_step lookup_ip now) (devices s, EventBatch_new ns) responses in
      (set_devices devs s, events)
  end.

(** ** [UpsPollInterval] *)

Inductive UpsPollType := Full | Partial.

#[global] Instance UpsPollType_eq_dec : EqDecision UpsPollType.
Proof. solve_decision. Defined.

Record UpsPollInterval := mkPoll { last_full_sync : option Z; full_sync_period : Z }.

(** [tokio::time::interval] panics when the period is zero. *)
Definition UpsPollInterval_new (poll_interval poll_freq : Z) : outcome unit UpsPollInterval :=
  if decide (poll_interval = 0%Z) then Panicked else Ok (mkPoll None poll_freq).

(** The periods of [StatusSyncService::run]. *)
Definition status_service_interval (c : UpsdConfig) : outcome unit UpsPollInterval :=
  let poll_interval := if (poll_freq c <=? poll_interval c)%Z then poll_freq c else poll_interval c in
  UpsPollInterval_new poll_interval (poll_freq c).

(** [tick] at an [instant]. *)
Definition poll_tick (p : UpsPollInterval) (instant : Z) : UpsPollType * UpsPollInterval :=
  match last_full_sync p with
  | Some last_sync =>
      if (full_sync_period p <=? instant - last_sync)%Z
      then (Full, mkPoll (Some instant) (full_sync_period p)) else (Partial, p)
  | None => (Full, mkPoll (Some instant) (full_sync_period p))
  end.

Fixpoint poll_run (p : UpsPollInterval) (instants : list Z) : list (Z * UpsPollType) :=
  match instants with
  | [] => []
  | i :: instants => let '(t, p) := poll_tick p i in (i, t) :: poll_run p instants
  end.

(** ** Lemmas: attached clients *)

Lemma last_snoc_inv {A} (l : list A) x : list.last l = Some x -> exists k, l = k ++ [x].
Proof.
  induction l as [|y l IH] using rev_ind; [done|]. rewrite last_snoc. intros [= ->]. by exists l.
Qed.

(** [swap_remove] removes the element and keeps the others. *)
Lemma swap_remove_perm {A} (l : list A) i c : l !! i = Some c -> l ≡ₚ c :: swap_remove l i.
Proof.
  intros Hi. unfold swap_remove.
  destruct (list.last l) as [x|] eqn:Hx; [|apply last_None in Hx; by subst].
  apply last_snoc_inv in Hx as [k ->]. rewrite length_app in *. cbn [length].
  case_decide as Hd.
  - assert (i = length k) as -> by lia. rewrite lookup_app_r, Nat.sub_diag in Hi by lia.
    injection Hi as ->. rewrite take_app_length. by rewrite Permutation_app_comm.
  - assert (Hlt : i < length k).
    { apply lookup_lt_Some in Hi. rewrite length_app in Hi. cbn [length] in Hi. lia. }
    rewrite Nat.add_sub, take_app_length. rewrite lookup_app_l in Hi by done.
    rewrite <- (take_drop_middle k i c Hi) at 1. rewrite insert_take_drop by done.
    rewrite <- !app_assoc. cbn [app].
    rewrite <- !Permutation_middle. apply Permutation_skip.
    by rewrite app_nil_r.
Qed.

Lemma detach_perm (l : list ClientInfo) ip : ip ∈ (ci_addr <$> l) ->
  exists c, ci_addr c = ip /\ l ≡ₚ c :: detach l ip.
Proof.
  intros (c & -> & Hc)%list_elem_of_fmap. unfold detach.
  destruct (list_find _ l) as [[i c']|] eqn:E.
  - apply list_find_Some in E as (Hi & Ha & _). exists c'. split; [done|]. by apply swap_remove_perm.
  - apply list_find_None in E. rewrite list.Forall_forall in E. by apply E in Hc.
Qed.

Lemma NoDup_fmap_filter {A B} (f : A -> B) (P : A -> Prop) `{!forall x, Decision (P x)} (l : list A) :
  NoDup (f <$> l) -> NoDup (f <$> filter P l).
Proof.
  induction l as [|x l IH]; [done|]. cbn [fmap list_fmap]. rewrite list.NoDup_cons. intros [Hx Hl].
  rewrite filter_cons. case_decide; [|by apply IH]. cbn [fmap list_fmap]. apply list.NoDup_cons.
  split; [|by apply IH]. intros (y & Hy & [_ Hin]%list_elem_of_filter)%list_elem_of_fmap.
  apply Hx. rewrite Hy. by apply list_elem_of_fmap_2.
Qed.

Section clients.
Context (ips : list IpAddr).

Definition stays (c : ClientInfo) : bool := bool_decide (ci_addr c ∈ ips).

Lemma detach_all D (l : list ClientInfo) :
  D ≡ₚ (ci_addr <$> filter (fun c => stays c = false) l) ->
  foldl detach l D ≡ₚ filter (fun c => stays c = true) l.
Proof.
  revert l. induction D as [|a D IH]; intros l H; cbn [foldl].
  - apply Permutation_nil_l in H. symmetry in H. apply fmap_nil_inv in H. induction l as [|c l IHl]; [done|].
    rewrite filter_cons in *. destruct (stays c) eqn:E; cbn in *; [|done].
    apply Permutation_skip. by apply IHl.
  - assert (Ha : a ∈ (ci_addr <$> filter (fun c => stays c = false) l)) by (rewrite <- H; by left).
    assert (Hal : a ∈ (ci_addr <$> l)).
    { apply list_elem_of_fmap in Ha as (c & -> & [_ Hc]%list_elem_of_filter). by apply list_elem_of_fmap_2. }
    destruct (detach_perm l a Hal) as (c & Hc & Hl).
    assert (Hs : stays c = false).
    { apply list_elem_of_fmap in Ha as (c' & Hc' & [Hs _]%list_elem_of_filter).
      unfold stays in *. by rewrite Hc, Hc'. }
    rewrite Hl, filter_cons_True in H by done. cbn [fmap list_fmap] in H. rewrite Hc in H.
    apply Permutation_cons_inv in H.
    rewrite (IH _ H). rewrite Hl at 2. by rewrite filter_cons_False by (by rewrite Hs).
Qed.

Lemma disconnected_eq (l : list ClientInfo) :
  disconnected (client_diff l ips) = ci_addr <$> filter (fun c => stays c = false) l.
Proof.
  unfold client_diff. cbn [disconnected]. induction l as [|c l IH]; [done|].
  cbn [fmap list_fmap].
  assert (He : existsb (fun v => bool_decide (v = ci_addr c)) ips = stays c).
  { unfold stays. apply eq_true_iff_eq. rewrite existsb_exists, bool_decide_eq_true. split.
    - intros (x & Hx & He). apply bool_decide_eq_true in He. subst. by apply list_elem_of_In.
    - intros Hin. exists (ci_addr c). split; [by apply list_elem_of_In|by apply bool_decide_eq_true]. }
  destruct (stays c) eqn:E.
  - rewrite !filter_cons_False by (rewrite ?He; congruence). apply IH.
  - rewrite !filter_cons_True by (rewrite ?He; congruence). cbn [fmap list_fmap]. f_equal. apply IH.
Qed.

Lemma update_clients_perm lookup_ip (l : list ClientInfo) :
  update_clients lookup_ip l ips ≡ₚ
  filter (fun c => stays c = true) l ++ (client_info lookup_ip <$> connected (client_diff l ips)).
Proof. unfold update_clients. rewrite detach_all; [done|]. by rewrite disconnected_eq. Qed.

Lemma elem_of_connected (l : list ClientInfo) ip :
  ip ∈ connected (client_diff l ips) <-> ip ∈ ips /\ (ip ∉ (ci_addr <$> l)).
Proof.
  unfold client_diff. cbn [connected]. rewrite list_elem_of_filter.
  rewrite <- not_true_iff_false, existsb_exists, list_elem_of_fmap.
  setoid_rewrite bool_decide_eq_true. setoid_rewrite <- list_elem_of_In.
  split.
  - intros [H1 H2]. split; [done|]. intros (c & Ha & Hb). apply H1. eauto.
  - intros [H1 H2]. split; [|done]. intros (c & Ha & Hb). apply H2. eauto.
Qed.

End clients.

(** ** Lemmas: status changes *)

(** The status of device [n] after the changes that are about it, each of which
    must start where the previous one ended. *)
Definition replay (n : UpsName) (st : UpsStatus) (changes : list DeviceStatusChange) : option UpsStatus :=
  foldl (fun st c => if decide (sc_name c = n)
                     then (st ← st; if decide (status_old c = st) then Some (status_new c) else None)
                     else st) (Some st) changes.

Lemma replay_snoc n st changes c :
  replay n st (changes ++ [c]) =
  if decide (sc_name c = n)
  then (st ← replay n st changes; if decide (status_old c = st) then Some (status_new c) else None)
  else replay n st changes.
Proof. unfold replay. by rewrite foldl_app. Qed.

Definition same_static (e e' : DeviceEntry) : Prop :=
  name e' = name e /\ desc e' = desc e.

(** What a pass over the responses keeps: the same devices, and statuses that the
    recorded changes account for. *)
Definition accounted (devs0 devs : gmap UpsName DeviceEntry) (changes : list DeviceStatusChange) : Prop :=
  forall n, match devs0 !! n, devs !! n with
  | Some e, Some e' => same_static e e' /\ replay n (status e) changes = Some (status e')
  | None, None => True
  | _, _ => False
  end.

Lemma accounted_refl devs : accounted devs devs [].
Proof. intros n. destruct (devs !! n); [by split_and!|done]. Qed.

(** A device takes a new entry and the change of its status is recorded. *)
Lemma accounted_change devs0 devs changes n e e' : accounted devs0 devs changes ->
  devs !! n = Some e -> same_static e e' ->
  accounted devs0 (<[n := e']> devs) (changes ++ [mkStatusChange n (status e) (status e')]).
Proof.
  intros H He Hs m. specialize (H m).
  destruct (decide (n = m)) as [->|Hnm].
  - rewrite lookup_insert_eq. rewrite He in H. destruct (devs0 !! m) as [e0|]; [|done].
    destruct H as [[H1 H2] Hr]. destruct Hs as [H3 H4]. split; [split; congruence|].
    rewrite replay_snoc. cbn [sc_name]. rewrite decide_True by done. rewrite Hr. cbn.
    by rewrite decide_True by done.
  - rewrite lookup_insert_ne by done. destruct (devs0 !! m) as [e0|], (devs !! m) as [e1|]; try done.
    rewrite replay_snoc. cbn [sc_name]. by rewrite decide_False by done.
Qed.

(** A device takes a new entry with the same status. *)
Lemma accounted_same devs0 devs changes n e e' : accounted devs0 devs changes ->
  devs !! n = Some e -> same_static e e' -> status e' = status e ->
  accounted devs0 (<[n := e']> devs) changes.
Proof.
  intros H He Hs Hst m. specialize (H m). destruct (decide (n = m)) as [->|Hnm].
  - rewrite lookup_insert_eq. rewrite He in H. destruct (devs0 !! m) as [e0|]; [|done].
    destruct H as [[H1 H2] Hr]. destruct Hs as [H3 H4]. split; [split; congruence|]. congruence.
  - by rewrite lookup_insert_ne by done.
Qed.

Lemma status_step_accounted now devs0 devs changes r : accounted devs0 devs changes ->
  accounted devs0 (status_step now (devs, changes) r).1 (status_step now (devs, changes) r).2.
Proof.
  intros H. unfold status_step. destruct r as [v| | |]; try done.
  destruct (devs !! uv_ups_name v) as [e|] eqn:E; [|done]. cbn [fst snd]. case_decide as Hd.
  - by apply (accounted_change devs0 devs changes (uv_ups_name v) e (set_status now _ _ e)).
  - apply (accounted_same devs0 devs changes _ e); [done..|]. cbn.
    by destruct (decide (status e = UpsStatus_from_value (uv_value v))).
Qed.

Lemma state_step_accounted lookup_ip now devs0 devs events r :
  accounted devs0 devs (status_changes events) ->
  accounted devs0 (state_step lookup_ip now (devs, events) r).1
    (status_changes (state_step lookup_ip now (devs, events) r).2).
Proof.
  intros H. destruct r as [n answers]. unfold state_step.
  destruct (devs !! n) as [e|] eqn:E; [|done].
  destruct answers as [[[vars clients] cmds]| | |];
    try (by apply (accounted_change devs0 devs (status_changes events) n e (mark_as_dead_with now e NOCOMM))).
  set (st := match UpsVariables_get (vl_variables vars) UPS_STATUS with Some _ => _ | None => _ end).
  assert (Hst : (st.1 = status e /\ status_changes st.2 = status_changes events) \/
    status_changes st.2 = status_changes events ++ [mkStatusChange n (status e) st.1]).
  { unfold st. destruct (UpsVariables_get _ _); [|by left]. case_decide; [by right|by left]. }
  destruct st as [new_status ev]. cbn [fst snd] in *.
  assert (Hev : forall d c, status_changes (updated_device n (match connected d with
      [] => (match disconnected c with [] => ev | _ => client_disconnect n (disconnected c) ev end)
    | _ => client_connection n (connected d)
        (match disconnected c with [] => ev | _ => client_disconnect n (disconnected c) ev end) end)) =
    status_changes ev).
  { intros d c. by destruct (connected d), (disconnected c). }
  rewrite Hev. clear Hev. destruct Hst as [[-> ->]|Hst].
  - by apply (accounted_same devs0 devs _ n e).
  - rewrite Hst. by apply (accounted_change devs0 devs (status_changes events) n e (mkDeviceEntry _ _ _ _ _ _ _ _)).
Qed.

Lemma status_step_real now devs changes r : Forall (fun c => status_old c <> status_new c) changes ->
  Forall (fun c => status_old c <> status_new c) (status_step now (devs, changes) r).2.
Proof.
  intros H. unfold status_step. destruct r as [v| | |]; try done.
  destruct (devs !! uv_ups_name v) as [e|]; [|done]. cbn [snd]. case_decide; [|done].
  by apply Forall_app_2; [|constructor].
Qed.

(** No arrival, no removal, no word about the daemon. *)
Definition quiet (b : EventBatch) : Prop := new_devices b = [] /\ removed b = [] /\ upsd_status b = None.

Lemma state_step_quiet lookup_ip now devs events r :
  quiet events -> quiet (state_step lookup_ip now (devs, events) r).2.
Proof.
  intros H. destruct r as [n answers]. unfold state_step.
  destruct (devs !! n) as [e|]; [|done]. destruct answers as [[[vars clients] cmds]| | |]; try done.
  destruct (UpsVariables_get _ _); [case_decide|];
    destruct (connected _), (disconnected _); exact H.
Qed.

Lemma fold_pair_ind {A B C} (P : A -> B -> Prop) (f : A * B -> C -> A * B) a b l :
  (forall a b c, P a b -> P (f (a, b) c).1 (f (a, b) c).2) -> P a b ->
  P (foldl f (a, b) l).1 (foldl f (a, b) l).2.
Proof.
  intros Hf. revert a b. induction l as [|c l IH]; intros a b H; [done|]. cbn [foldl].
  pose proof (Hf a b c H) as Hn. destruct (f (a, b) c) as [a' b']. by apply IH.
Qed.

(** ** Lemmas: the device diff *)

Section device_diff.
Context (local : gmap UpsName DeviceEntry).

Definition is_new (d : UpsDevice) : Prop := local !! dev_ups_name d = None.
Definition is_recheck (d : UpsDevice) : Prop :=
  exists e, local !! dev_ups_name d = Some e /\ has (status e) NOCOMM = true.
Definition is_updated (d : UpsDevice) : Prop :=
  exists e, local !! dev_ups_name d = Some e /\ has (status e) NOCOMM = false /\ desc e <> dev_desc d.

(** New, to recheck, updated, unchanged. *)
Definition diff_class (d : UpsDevice) : nat :=
  match local !! dev_ups_name d with
  | None => 0
  | Some e => if has (status e) NOCOMM then 1 else if bool_decide (desc e <> dev_desc d) then 2 else 3
  end.

Lemma diff_remote_filter remote : diff_remote local remote =
  (filter (fun d => diff_class d = 2) remote, filter (fun d => diff_class d = 1) remote,
   filter (fun d => diff_class d = 0) remote).
Proof.
  unfold diff_remote. induction remote as [|r remote IH] using rev_ind; [done|].
  rewrite foldl_app, IH, !list.filter_app. cbn [foldl]. unfold diff_step.
  assert (Hf : forall k, filter (fun d => diff_class d = k) [r] = if decide (diff_class r = k) then [r] else []).
  { intros k. rewrite filter_cons. by case_decide. }
  rewrite !Hf. unfold diff_class. destruct (local !! dev_ups_name r) as [e|]; [|by rewrite !app_nil_r].
  destruct (has (status e) NOCOMM); [by rewrite !app_nil_r|].
  destruct (bool_decide _); by rewrite !app_nil_r.
Qed.

Lemma diff_remote_spec remote d :
  (d ∈ (diff_remote local remote).1.1 <-> d ∈ remote /\ is_updated d) /\
  (d ∈ (diff_remote local remote).1.2 <-> d ∈ remote /\ is_recheck d) /\
  (d ∈ (diff_remote local remote).2 <-> d ∈ remote /\ is_new d).
Proof.
  rewrite diff_remote_filter. cbn [fst snd]. rewrite !list_elem_of_filter.
  assert (H : (diff_class d = 2 <-> is_updated d) /\ (diff_class d = 1 <-> is_recheck d) /\
              (diff_class d = 0 <-> is_new d)).
  { unfold diff_class, is_updated, is_recheck, is_new.
    assert (Hs : forall (e : DeviceEntry) P, (exists e', Some e = Some e' /\ P e') <-> P e)
      by (intros e P; split; [by intros (? & [= <-] & ?)|eauto]).
    destruct (local !! dev_ups_name d) as [e|].
    - rewrite (Hs e (fun e => has (status e) NOCOMM = false /\ desc e <> dev_desc d)),
        (Hs e (fun e => has (status e) NOCOMM = true)).
      destruct (has (status e) NOCOMM); [|case_bool_decide];
        (split; [|split]); (split; intros Hc); try done; try (by destruct Hc).
    - (split; [|split]); (split; intros Hc); try done; by destruct Hc as (? & ? & _). }
  destruct H as (-> & -> & ->). tauto.
Qed.

Lemma elem_of_deleted remote n :
  n ∈ diff_deleted local remote <-> is_Some (local !! n) /\ remote_has remote n = false.
Proof.
  unfold diff_deleted. rewrite list_elem_of_filter, list_elem_of_fmap. split.
  - intros [Hr ([n' e] & -> & Hin)]. apply elem_of_map_to_list in Hin. simpl in *. eauto.
  - intros [[e He] Hr]. split; [done|]. exists (n, e). split; [done|]. by apply elem_of_map_to_list.
Qed.

End device_diff.

Lemma remote_has_iff remote n :
  remote_has remote n = true <-> exists d, d ∈ remote /\ dev_ups_name d = n.
Proof.
  unfold remote_has. rewrite existsb_exists. setoid_rewrite <- list_elem_of_In.
  by setoid_rewrite bool_decide_eq_true.
Qed.

(** *** The three loops of [next] *)

Lemma apply_added_lookup l m ev n :
  ((forall e, e ∈ l -> name e <> n) -> (foldl apply_added (m, ev) l).1 !! n = m !! n) /\
  (forall e, e ∈ l -> name e = n -> (forall e', e' ∈ l -> name e' = n -> e' = e) ->
     (foldl apply_added (m, ev) l).1 !! n = Some e).
Proof.
  induction l as [|x l [IH1 IH2]] using rev_ind.
  { split; [done|]. by intros e ?%elem_of_nil. }
  rewrite foldl_app. cbn [foldl]. unfold apply_added at 1 3. cbn [fst]. split.
  - intros H. rewrite lookup_insert_ne by (apply H, elem_of_app; right; by left).
    apply IH1. intros e He. apply H, elem_of_app. by left.
  - intros e He Hn Hu. destruct (decide (name x = n)) as [Hx|Hx].
    + rewrite Hx, lookup_insert_eq. f_equal. apply Hu; [|done]. apply elem_of_app. right. by left.
    + rewrite lookup_insert_ne by done. apply IH2; [|done|].
      * apply elem_of_app in He as [?|Hin]; [done|]. apply list_elem_of_singleton in Hin. by subst.
      * intros e' He' Hn'. apply Hu; [|done]. apply elem_of_app. by left.
Qed.

Lemma apply_updated_lookup l m ev n :
  ((forall d, d ∈ l -> dev_ups_name d <> n) -> (foldl apply_updated (m, ev) l).1 !! n = m !! n) /\
  (forall d e, d ∈ l -> dev_ups_name d = n -> m !! n = Some e ->
     (forall d', d' ∈ l -> dev_ups_name d' = n -> d' = d) ->
     (foldl apply_updated (m, ev) l).1 !! n = Some (set_desc (dev_desc d) e)).
Proof.
  assert (Hstep : forall acc d, (apply_updated acc d).1 !! n =
    if decide (dev_ups_name d = n) then set_desc (dev_desc d) <$> acc.1 !! n else acc.1 !! n).
  { intros acc d. unfold apply_updated. case_decide as Hd.
    - destruct (acc.1 !! dev_ups_name d) as [e|] eqn:E; rewrite <- Hd, E; [|done].
      cbn [fst]. by rewrite lookup_insert_eq.
    - destruct (acc.1 !! dev_ups_name d); [|done]. cbn [fst]. by rewrite lookup_insert_ne. }
  assert (Hdom : forall l, (forall d, d ∈ l -> dev_ups_name d <> n) ->
    forall acc, (foldl apply_updated acc l).1 !! n = acc.1 !! n).
  { clear l. induction l as [|d l IH]; intros H acc; [done|]. cbn [foldl].
    rewrite IH by (intros d' ?; apply H; by right). rewrite Hstep, decide_False; [done|]. apply H. by left. }
  split; [by intros; rewrite Hdom|].
  intros d e Hd Hn He Hu.
  assert (Hfold : forall l acc e0, (forall d', d' ∈ l -> dev_ups_name d' = n -> d' = d) ->
    acc.1 !! n = Some e0 -> (e0 = e \/ e0 = set_desc (dev_desc d) e) ->
    (d ∈ l \/ e0 = set_desc (dev_desc d) e) ->
    (foldl apply_updated acc l).1 !! n = Some (set_desc (dev_desc d) e)).
  { clear l Hd Hu. induction l as [|x l IH]; intros acc e0 Hu Hacc He0 Hor.
    - destruct Hor as [?%elem_of_nil| ->]; done.
    - cbn [foldl]. assert (Hul : forall d', d' ∈ l -> dev_ups_name d' = n -> d' = d)
        by (intros d' ?; apply Hu; by right).
      destruct (decide (dev_ups_name x = n)) as [Hx|Hx].
      + apply (IH _ (set_desc (dev_desc d) e)); [done| |by right|by right].
        rewrite Hstep, decide_True, Hacc by done. rewrite (Hu x) by (done || by left). cbn. f_equal.
        by destruct He0 as [-> | ->].
      + apply (IH _ e0); [done|by rewrite Hstep, decide_False|done|].
        destruct Hor as [[->|?]%elem_of_cons|?]; [done|by left|by right]. }
  apply (Hfold l (m, ev) e); auto.
Qed.

Lemma apply_deleted_lookup l acc n :
  (foldl apply_deleted acc l).1 !! n = if decide (n ∈ l) then None else acc.1 !! n.
Proof.
  revert acc. induction l as [|x l IH]; intros acc; cbn [foldl].
  { rewrite decide_False; [done|]. by intros Hn%elem_of_nil. }
  rewrite IH. cbn [apply_deleted fst]. destruct (decide (n ∈ l)) as [Hn|Hn].
  - by rewrite decide_True by (by right).
  - destruct (decide (n = x)) as [->|Hx].
    + rewrite decide_True by (by left). apply lookup_delete_eq.
    + rewrite decide_False by (by intros [?|?]%elem_of_cons). by rewrite lookup_delete_ne.
Qed.

(** *** The events of the loops *)

Lemma apply_added_events l m ev :
  new_devices (foldl apply_added (m, ev) l).2 = new_devices ev ++ (name <$> l) /\
  removed (foldl apply_added (m, ev) l).2 = removed ev.
Proof.
  revert m ev. induction l as [|x l IH]; intros m ev; cbn [foldl]; [by rewrite app_nil_r|].
  unfold apply_added at 2 4. cbn [fst snd]. destruct (IH (<[name x:=x]> m) (new_device (name x) ev)) as [-> ->].
  cbn. by rewrite <- app_assoc.
Qed.

Lemma apply_updated_events l acc :
  new_devices (foldl apply_updated acc l).2 = new_devices acc.2 /\
  removed (foldl apply_updated acc l).2 = removed acc.2.
Proof.
  revert acc. induction l as [|x l IH]; intros acc; cbn [foldl]; [done|].
  destruct (IH (apply_updated acc x)) as [-> ->]. unfold apply_updated.
  by destruct (acc.1 !! dev_ups_name x).
Qed.

Lemma apply_deleted_events l acc :
  new_devices (foldl apply_deleted acc l).2 = new_devices acc.2 /\
  removed (foldl apply_deleted acc l).2 = removed acc.2 ++ l.
Proof.
  revert acc. induction l as [|x l IH]; intros acc; cbn [foldl]; [by rewrite app_nil_r|].
  destruct (IH (apply_deleted acc x)) as [-> ->]. cbn. by rewrite <- app_assoc.
Qed.

Lemma removed_fold l ev : removed (foldl (fun b n => removed_device n b) ev l) = removed ev ++ l /\
  new_devices (foldl (fun b n => removed_device n b) ev l) = new_devices ev.
Proof.
  revert ev. induction l as [|x l IH]; intros ev; cbn [foldl]; [by rewrite app_nil_r|].
  destruct (IH (removed_device x ev)) as [-> ->]. cbn. by rewrite <- app_assoc.
Qed.

(** ** Lemmas: the loaded devices *)

(** What a load gives the patch: for a new device, and for a rechecked one. *)
Definition new_entry (now : Z) (r : load_result) : option DeviceEntry :=
  match r with Loaded e => Some e | LoadFailed n => Some (nocomm_entry now n) | JoinFailed => None end.
Definition loaded_entry (r : load_result) : option DeviceEntry :=
  match r with Loaded e => Some e | _ => None end.
Definition load_failed (r : load_result) : Prop := loaded_entry r = None.

#[global] Instance load_failed_dec r : Decision (load_failed r).
Proof. destruct r; unfold load_failed, loaded_entry; [by right|by left..]. Defined.

Lemma collect_new_eq now l a c :
  foldl (collect_new now) (a, c) l = (a ++ omap (new_entry now) l, c + length (filter load_failed l)).
Proof.
  revert a c. induction l as [|r l IH]; intros a c; [by rewrite app_nil_r, Nat.add_0_r|].
  cbn [foldl]. destruct r as [e|n|]; cbn [collect_new]; rewrite IH.
  - by rewrite <- app_assoc.
  - by rewrite <- app_assoc, Nat.add_succ_comm.
  - by rewrite Nat.add_succ_comm.
Qed.

Lemma collect_recheck_eq l a c :
  foldl collect_recheck (a, c) l = (a ++ omap loaded_entry l, c + length (filter load_failed l)).
Proof.
  revert a c. induction l as [|r l IH]; intros a c; [by rewrite app_nil_r, Nat.add_0_r|].
  cbn [foldl]. destruct r as [e|n|]; cbn [collect_recheck]; rewrite IH; [by rewrite <- app_assoc|..];
    by rewrite Nat.add_succ_comm.
Qed.

(** ** The synchronisation of the devices *)

(** The answers that the load of one device gets. *)
Record device_answers := mkAnswers {
  an_clients : outcome ErrorKind ClientList;
  an_commands : outcome ErrorKind CmdList;
  an_rw_list : outcome ErrorKind RwList;
  an_vars : outcome ErrorKind UpsVarList;
  an_rw_vars : list (outcome ErrorKind (VarName * VarDetail));
}.

(** What [JoinSet::join_next] returns for a task. *)
Definition load_task (r : outcome DeviceLoadError DeviceEntry) : load_result :=
  match r with
  | Ok e => Loaded e
  | Err e => LoadFailed (le_name e)
  | Panicked | OutOfFuel => JoinFailed
  end.

Section device_sync.
Context (lookup_ip : IpAddr -> option str) (now : Z) (answers : UpsDevice -> device_answers).
Context (local : gmap UpsName DeviceEntry).

Definition load (d : UpsDevice) : load_result :=
  let a := answers d in
  load_task (load_device_entry lookup_ip now d (an_clients a) (an_commands a) (an_rw_list a) (an_vars a)
    (an_rw_vars a)).

(** The devices whose load fails, of those that have to be loaded. *)
Definition load_failures (remote : list UpsDevice) : nat :=
  length (filter (fun d => diff_class local d <= 1 /\ load_failed (load d)) remote).

(** The entry that a device must have after a successful synchronisation, from
    the entry [old] that it has when the patch is applied. *)
Definition device_expected (remote : list UpsDevice) (old : option DeviceEntry) (n : UpsName)
  : option DeviceEntry :=
  match list_find (fun d => dev_ups_name d = n) remote with
  | None => None
  | Some (_, d) =>
      match diff_class local d with
      | 0 => match new_entry now (load d) with Some e => Some e | None => old end
      | 1 => match loaded_entry (load d) with Some e => Some e | None => old end
      | 2 => set_desc (dev_desc d) <$> old
      | _ => old
      end
  end.

(** Whatever a load gives carries the name of the device that was asked for. *)
Lemma load_name d e : new_entry now (load d) = Some e -> name e = dev_ups_name d.
Proof.
  unfold load, load_device_entry. generalize (answers d) as a. intros [cl cm rw vs rv]. cbn.
  destruct cl, cm, rw, vs; cbn; by intros [= <-].
Qed.

Lemma loaded_new r e : loaded_entry r = Some e -> new_entry now r = Some e.
Proof. by destruct r. Qed.

Section patch.
Context (remote : list UpsDevice) (new_results recheck_results : list load_result).
Context (Hnew : new_results ≡ₚ load <$> (diff_remote local remote).2).
Context (Hrecheck : recheck_results ≡ₚ load <$> (diff_remote local remote).1.2).

Definition patch_added : list DeviceEntry :=
  omap (new_entry now) new_results ++ omap loaded_entry recheck_results.

Lemma elem_of_patch_added e : e ∈ patch_added <->
  exists d, d ∈ remote /\ ((diff_class local d = 0 /\ new_entry now (load d) = Some e) \/
                      (diff_class local d = 1 /\ loaded_entry (load d) = Some e)).
Proof.
  unfold patch_added. rewrite elem_of_app, Hnew, Hrecheck, diff_remote_filter. cbn [fst snd].
  rewrite !list_elem_of_omap. setoid_rewrite list_elem_of_fmap. setoid_rewrite list_elem_of_filter.
  split.
  - intros [(r & (d & -> & Hc & Hd) & He)|(r & (d & -> & Hc & Hd) & He)]; exists d; auto.
  - intros (d & Hd & [[Hc He]|[Hc He]]); [left|right]; exists (load d); eauto 6.
Qed.

Lemma filter_load_failed l :
  length (filter load_failed (load <$> l)) = length (filter (fun d => load_failed (load d)) l).
Proof.
  induction l as [|d l IH]; [done|]. cbn [fmap list_fmap]. rewrite !filter_cons.
  case_decide; [|done]. cbn [length]. by rewrite IH.
Qed.

Lemma failure_count_eq :
  length (filter load_failed new_results) + length (filter load_failed recheck_results) =
  load_failures remote.
Proof.
  rewrite Hnew, Hrecheck, !filter_load_failed, diff_remote_filter. cbn [fst snd].
  rewrite !list_filter_filter. unfold load_failures. clear. induction remote as [|d l IH]; [done|].
  rewrite !(filter_cons _ d l).
  repeat case_decide; cbn [length]; try lia; exfalso; try (intuition lia);
    match goal with H : ~ (_ <= 1 /\ _) |- _ => apply H; split; [lia|tauto] end.
Qed.

Lemma diff_upsd_eq pv uv :
  diff_upsd now local (Ok remote) (Ok pv) (Ok uv) new_results recheck_results =
  if load_failures remote <? length remote
  then Ok (mkPatch patch_added (diff_deleted local remote) (diff_remote local remote).1.1 pv uv)
  else Err DeviceLoadFailed.
Proof.
  unfold diff_upsd. cbn [map_err obind]. rewrite (surjective_pairing (diff_remote local remote)).
  rewrite (surjective_pairing (diff_remote local remote).1). cbn [fst snd].
  rewrite collect_new_eq, collect_recheck_eq. cbn. by rewrite failure_count_eq.
Qed.

End patch.
End device_sync.

Lemma names_unique (remote : list UpsDevice) d d' : NoDup (dev_ups_name <$> remote) ->
  d ∈ remote -> d' ∈ remote -> dev_ups_name d' = dev_ups_name d -> d' = d.
Proof.
  intros Hnd [i Hi]%list_elem_of_lookup [j Hj]%list_elem_of_lookup Hn.
  assert (j = i) as ->; [|congruence].
  apply (NoDup_lookup _ j i (dev_ups_name d) Hnd); rewrite list_lookup_fmap; [by rewrite Hj, <- Hn|by rewrite Hi].
Qed.

(** *** The devices after a successful pass, one by one *)

Section patched.
Context (lookup_ip : IpAddr -> option str) (now : Z) (answers : UpsDevice -> device_answers).
Context (local : gmap UpsName DeviceEntry) (remote : list UpsDevice).
Context (new_results recheck_results : list load_result).
#[local] Abbreviation ld := (load lookup_ip now answers).
Context (Hnd : NoDup (dev_ups_name <$> remote)).
Context (Hnew : new_results ≡ₚ ld <$> (diff_remote local remote).2).
Context (Hrecheck : recheck_results ≡ₚ ld <$> (diff_remote local remote).1.2).

(** The entry that the patch adds for a device of the list, if any. *)
Definition added_for (d : UpsDevice) : option DeviceEntry :=
  match diff_class local d with
  | 0 => new_entry now (ld d)
  | 1 => loaded_entry (ld d)
  | _ => None
  end.

Lemma added_for_name d e : added_for d = Some e -> name e = dev_ups_name d.
Proof.
  unfold added_for. destruct (diff_class local d) as [|[|k]]; [apply load_name| |done].
  intros H. by apply (load_name lookup_ip now answers), loaded_new.
Qed.

Lemma elem_of_added e : e ∈ patch_added now new_results recheck_results <->
  exists d, d ∈ remote /\ added_for d = Some e.
Proof.
  rewrite (elem_of_patch_added lookup_ip now answers local remote _ _ Hnew Hrecheck).
  unfold added_for. split; intros (d & Hd & He); exists d; (split; [done|]).
  - destruct He as [[-> He]|[-> He]]; done.
  - destruct (diff_class local d) as [|[|k]]; auto. done.
Qed.

Lemma remote_unique d d' : d ∈ remote -> d' ∈ remote -> dev_ups_name d' = dev_ups_name d -> d' = d.
Proof. by apply names_unique. Qed.

Lemma added_phase devs ev d : d ∈ remote ->
  (foldl apply_added (devs, ev) (patch_added now new_results recheck_results)).1 !! dev_ups_name d =
  match added_for d with Some e => Some e | None => devs !! dev_ups_name d end.
Proof.
  intros Hd. destruct (added_for d) as [e|] eqn:E.
  - apply (apply_added_lookup _ _ _ (dev_ups_name d)); [apply elem_of_added; eauto|by apply added_for_name|].
    intros e' (d' & Hd' & He')%elem_of_added Hn.
    rewrite (added_for_name d' e' He') in Hn. rewrite (remote_unique d d') in He' by done. congruence.
  - apply (apply_added_lookup _ _ _ (dev_ups_name d)). intros e (d' & Hd' & He)%elem_of_added Hn.
    rewrite (added_for_name d' e He) in Hn. rewrite (remote_unique d d') in He by done. congruence.
Qed.

Lemma elem_of_updated d : d ∈ (diff_remote local remote).1.1 <-> d ∈ remote /\ diff_class local d = 2.
Proof. rewrite diff_remote_filter. cbn [fst]. rewrite list_elem_of_filter. tauto. Qed.

Lemma updated_phase devs ev d : d ∈ remote ->
  (diff_class local d = 2 -> is_Some (devs !! dev_ups_name d)) ->
  (foldl apply_updated (devs, ev) (diff_remote local remote).1.1).1 !! dev_ups_name d =
  if decide (diff_class local d = 2) then set_desc (dev_desc d) <$> devs !! dev_ups_name d
  else devs !! dev_ups_name d.
Proof.
  intros Hd Hs. case_decide as Hc.
  - destruct (Hs Hc) as [e He]. rewrite He. apply (apply_updated_lookup _ _ _ (dev_ups_name d)); [by apply elem_of_updated|done..|].
    intros d' [Hd' _]%elem_of_updated. by apply remote_unique.
  - apply (apply_updated_lookup _ _ _ (dev_ups_name d)). intros d' [Hd' Hc']%elem_of_updated Hn.
    apply Hc. by rewrite <- (remote_unique d d').
Qed.

Context (devs : gmap UpsName DeviceEntry) (ev : EventBatch).
Context (Hdom : forall n, is_Some (local !! n) <-> is_Some (devs !! n)).

Definition patched_devices : gmap UpsName DeviceEntry * EventBatch :=
  foldl apply_deleted
    (foldl apply_updated
       (foldl apply_added (devs, ev) (patch_added now new_results recheck_results))
       (diff_remote local remote).1.1)
    (diff_deleted local remote).

Lemma patched_gone n : remote_has remote n = false -> patched_devices.1 !! n = None.
Proof.
  intros Hr. unfold patched_devices. rewrite apply_deleted_lookup. case_decide as Hdel; [done|].
  assert (Hno : forall d, d ∈ remote -> dev_ups_name d <> n).
  { intros d Hd Hn. apply not_true_iff_false in Hr. apply Hr, remote_has_iff. eauto. }
  rewrite elem_of_deleted in Hdel. set (acc := foldl apply_added _ _).
  rewrite (surjective_pairing acc), (proj1 (apply_updated_lookup _ _ _ n)).
  2:{ intros d [Hd _]%elem_of_updated. by apply Hno. }
  unfold acc. rewrite (proj1 (apply_added_lookup _ _ _ n)).
  2:{ intros e (d & Hd & He)%elem_of_added. rewrite (added_for_name d e He). by apply Hno. }
  apply eq_None_not_Some. intros Hs. apply Hdel. split; [by apply Hdom|done].
Qed.

Lemma patched_lookup n :
  patched_devices.1 !! n = device_expected lookup_ip now answers local remote (devs !! n) n.
Proof.
  unfold device_expected. destruct (list_find _ remote) as [[i d]|] eqn:Hf; cycle 1.
  { apply list_find_None in Hf. rewrite list.Forall_forall in Hf. apply patched_gone, not_true_is_false.
    rewrite remote_has_iff. intros (d & Hd & Hn). by apply (Hf d). }
  apply list_find_Some in Hf as (Hi & <- & _). apply list_elem_of_lookup_2 in Hi.
  unfold patched_devices. rewrite apply_deleted_lookup, decide_False.
  2:{ rewrite elem_of_deleted. intros [_ Hf]. apply not_true_iff_false in Hf. apply Hf, remote_has_iff. eauto. }
  pose proof (added_phase devs ev d Hi) as Hadd. set (acc := foldl apply_added _ _) in *.
  rewrite (surjective_pairing acc), updated_phase by (try done; intros Hc; rewrite Hadd;
    unfold added_for; rewrite Hc; apply Hdom; unfold diff_class in Hc; by destruct (local !! dev_ups_name d)).
  rewrite Hadd. unfold added_for. by destruct (diff_class local d) as [|[|[|k]]].
Qed.

End patched.

Lemma device_expected_known lookup_ip now answers local remote old n : is_Some old ->
  is_Some (device_expected lookup_ip now answers local remote old n) <-> remote_has remote n = true.
Proof.
  intros [e ->]. rewrite remote_has_iff. unfold device_expected.
  destruct (list_find _ remote) as [[i d]|] eqn:Hf.
  - apply list_find_Some in Hf as (Hi & Hn & _). apply list_elem_of_lookup_2 in Hi. split; [eauto|intros _].
    destruct (diff_class local d) as [|[|[|k]]]; [|..|done]; [destruct (new_entry _ _)|destruct (loaded_entry _)|];
      by eexists.
  - apply list_find_None in Hf. rewrite list.Forall_forall in Hf. split; [by intros []|].
    intros (d & Hd & Hn). by destruct (Hf d).
Qed.

(** A device that nobody knew has an entry exactly when its load gave one. *)
Lemma device_expected_unknown lookup_ip now answers local remote n :
  NoDup (dev_ups_name <$> remote) -> local !! n = None ->
  is_Some (device_expected lookup_ip now answers local remote None n) <->
  exists d, d ∈ remote /\ dev_ups_name d = n /\ is_Some (added_for lookup_ip now answers local d).
Proof.
  intros Hnd Hloc. unfold device_expected, added_for.
  destruct (list_find _ remote) as [[i d]|] eqn:Hf.
  - apply list_find_Some in Hf as (Hi & Hn & _). apply list_elem_of_lookup_2 in Hi.
    assert (Hc : diff_class local d = 0) by (unfold diff_class; by rewrite Hn, Hloc).
    rewrite Hc. split.
    + intros H. exists d. rewrite Hc. by destruct (new_entry _ _).
    + intros (d' & Hd' & Hn' & H). rewrite (names_unique remote d d') in H by congruence.
      rewrite Hc in H. by destruct (new_entry _ _).
  - apply list_find_None in Hf. rewrite list.Forall_forall in Hf. split; [by intros []|].
    intros (d & Hd & Hn & _). by destruct (Hf d).
Qed.

(** A successful pass: the state and the events of the patch. *)
Lemma device_sync_next_ok now ns s patch :
  let r := device_sync_next now ns s (Ok patch) in
  let p := foldl apply_deleted
    (foldl apply_updated (foldl apply_added (devices s, EventBatch_new ns) (added patch)) (p_updated patch))
    (deleted patch) in
  r.1.1 = Ok tt /\ devices r.1.2 = p.1 /\ conn_status r.1.2 = OnlineConn /\
  State.prot_ver r.1.2 = Some (p_prot_ver patch) /\ ver r.1.2 = Some (upsd_ver patch) /\
  last_device_sync r.1.2 = Some now /\
  removed r.2 = deleted patch /\ new_devices r.2 = name <$> added patch.
Proof.
  cbn zeta. unfold device_sync_next.
  set (a := foldl apply_added _ _). set (u := foldl apply_updated a _). set (p := foldl apply_deleted u _).
  assert (Hev : removed p.2 = deleted patch /\ new_devices p.2 = name <$> added patch).
  { unfold p. rewrite !(proj1 (apply_deleted_events _ _)), !(proj2 (apply_deleted_events _ _)).
    unfold u. rewrite !(proj1 (apply_updated_events _ _)), !(proj2 (apply_updated_events _ _)).
    unfold a. by rewrite !(proj1 (apply_added_events _ _ _)), !(proj2 (apply_added_events _ _ _)). }
  destruct p as [devs ev]. destruct Hev as [Hr Hn]. cbn [fst snd] in *.
  case_decide as Hc; cbn; split_and!; try done.
Qed.

Lemma device_sync_next_err now ns s err :
  let r := device_sync_next now ns s (Err err) in
  r.1.1 = Err err /\ devices r.1.2 = ∅ /\ conn_status r.1.2 = Dead /\
  last_device_sync r.1.2 = Some now /\ new_devices r.2 = [] /\
  (forall n, n ∈ removed r.2 <-> is_Some (devices s !! n)).
Proof.
  cbn zeta. unfold device_sync_next. set (ev := foldl _ _ _).
  assert (Hev : removed ev = (map_to_list (devices s)).*1 /\ new_devices ev = []).
  { unfold ev. by rewrite !(proj1 (removed_fold _ _)), !(proj2 (removed_fold _ _)). }
  destruct Hev as [Hr Hn].
  assert (Hin : forall n, n ∈ (map_to_list (devices s)).*1 <-> is_Some (devices s !! n)).
  { intros n. rewrite list_elem_of_fmap. split.
    - intros ([k e] & -> & Hin%elem_of_map_to_list). by exists e.
    - intros [e He%elem_of_map_to_list]. by exists (n, e). }
  case_decide as Hc; cbn; rewrite Hr; split_and!; try done.
Qed.

(** C15: One pass of the device synchronisation makes the server's devices those
    of the daemon. If at least one device of the daemon's list did not fail to
    load, then every device has the entry that [device_expected] names: a new
    one its loaded entry, or a NOCOMM stub when the load failed; a NOCOMM one
    its reloaded entry, or the old one; one with a new description just that
    change; every other one is untouched, and one that the daemon no longer
    lists is gone. The daemon is online with the versions it told, the removal
    events are exactly the devices that disappear, and the devices that appear
    are exactly the unknown ones that are announced. Otherwise (also when the
    daemon lists no device at all) no device is left, the daemon is marked dead
    and every device is announced as removed. The statuses may have moved
    between the snapshot [local] and the write; the device set may not. *)
Theorem device_sync_spec lookup_ip now ns answers local s remote pv uv new_results recheck_results :
  NoDup (dev_ups_name <$> remote) ->
  new_results ≡ₚ load lookup_ip now answers <$> (diff_remote local remote).2 ->
  recheck_results ≡ₚ load lookup_ip now answers <$> (diff_remote local remote).1.2 ->
  (forall n, is_Some (local !! n) <-> is_Some (devices s !! n)) ->
  let r := device_sync_next now ns s
    (diff_upsd now local (Ok remote) (Ok pv) (Ok uv) new_results recheck_results) in
  if load_failures lookup_ip now answers local remote <? length remote
  then r.1.1 = Ok tt /\
    (forall n, devices r.1.2 !! n = device_expected lookup_ip now answers local remote (devices s !! n) n) /\
    conn_status r.1.2 = OnlineConn /\ State.prot_ver r.1.2 = Some pv /\ ver r.1.2 = Some uv /\
    (forall n, n ∈ removed r.2 <-> is_Some (devices s !! n) /\ devices r.1.2 !! n = None) /\
    (forall n, devices s !! n = None -> n ∈ new_devices r.2 <-> is_Some (devices r.1.2 !! n))
  else r.1.1 = Err DeviceLoadFailed /\ devices r.1.2 = ∅ /\ conn_status r.1.2 = Dead /\
    (forall n, n ∈ removed r.2 <-> is_Some (devices s !! n)).
Proof.
  intros Hnd Hnew Hre Hdom r. unfold r.
  rewrite (diff_upsd_eq lookup_ip now answers local remote _ _ Hnew Hre pv uv).
  destruct (load_failures lookup_ip now answers local remote <? length remote).
  2:{ by destruct (device_sync_next_err now ns s DeviceLoadFailed) as (-> & -> & -> & _ & _ & H). }
  match goal with |- context [device_sync_next _ _ _ (Ok ?p)] =>
    destruct (device_sync_next_ok now ns s p) as (-> & Hd & -> & -> & -> & _ & -> & ->) end.
  cbn [added deleted p_updated p_prot_ver upsd_ver] in *.
  pose proof (patched_lookup lookup_ip now answers local remote _ _ Hnd Hnew Hre (devices s)
    (EventBatch_new ns) Hdom) as Hl.
  unfold patched_devices in Hl. rewrite <- Hd in Hl. clear Hd. split_and!; try done.
  - intros n. rewrite elem_of_deleted, Hl, Hdom. split; intros [Hs Hr]; (split; [done|]).
    + apply eq_None_not_Some. rewrite device_expected_known by done. by rewrite Hr.
    + apply not_true_is_false. rewrite <- (device_expected_known lookup_ip now answers local remote) by done.
      rewrite Hr. by intros [].
  - intros n Hs. rewrite Hl, Hs. rewrite list_elem_of_fmap.
    setoid_rewrite (elem_of_added lookup_ip now answers local remote _ _ Hnew Hre).
    assert (Hloc : local !! n = None) by (apply eq_None_not_Some; rewrite Hdom, Hs; by intros []).
    rewrite device_expected_unknown by done. split.
    + intros (e & -> & d & Hd & He). exists d. split_and!; [done| |by eexists].
      symmetry. by apply (added_for_name lookup_ip now answers local).
    + intros (d & Hd & <- & e & He). exists e. split; [|by eauto].
      symmetry. by apply (added_for_name lookup_ip now answers local).
Qed.

(** ** Lemmas: reachable states *)

(** The status of a device is the one that its [ups.status] variable spells. *)
Definition status_consistent (e : DeviceEntry) : Prop :=
  forall v, UpsVariables_get (variables e) UPS_STATUS = Some v -> status e = UpsStatus_from_value v.

Definition daemon_wf (s : DaemonState) : Prop :=
  (forall n e, devices s !! n = Some e -> name e = n /\ status_consistent e) /\
  (conn_status s = OnlineConn <-> is_Some (State.prot_ver s) /\ is_Some (ver s)) /\
  (conn_status s <> OnlineConn -> devices s = ∅ /\ State.prot_ver s = None /\ ver s = None).

(** The passes of the synchronisation tasks, each with what the daemon may
    answer: the device task diffs against some earlier snapshot, and the status
    polls asked for [ups.status]. *)
Inductive sync_step : DaemonState -> DaemonState -> Prop :=
  | step_device lookup_ip now ns answers local remote pv uv new_results recheck_results s :
      (forall r, r ∈ new_results ++ recheck_results -> exists now' d, r = load lookup_ip now' answers d) ->
      sync_step s
        (device_sync_next now ns s (diff_upsd now local remote pv uv new_results recheck_results)).1.2
  | step_status now ns responses s :
      (forall v, Ok v ∈ responses -> uv_name v = UPS_STATUS) ->
      sync_step s (status_sync now ns s responses).1
  | step_state lookup_ip now ns responses s :
      sync_step s (state_sync lookup_ip now ns s responses).1.

(** Every device satisfies [P] of its key. *)
Definition all_devices (P : UpsName -> DeviceEntry -> Prop) (devs : gmap UpsName DeviceEntry) : Prop :=
  forall n e, devs !! n = Some e -> P n e.

Definition good (n : UpsName) (e : DeviceEntry) : Prop := name e = n /\ status_consistent e.

Lemma all_devices_insert P devs n e : all_devices P devs -> P n e -> all_devices P (<[n := e]> devs).
Proof. intros H Hn m e' [[-> <-]|[_ ?]]%lookup_insert_Some; [done|by apply H]. Qed.

Lemma consistent_empty e : variables e = UpsVariables_new -> status_consistent e.
Proof. intros Hv v. rewrite Hv. unfold UpsVariables_get, UpsVariables_new. by rewrite lookup_empty. Qed.

Lemma load_consistent lookup_ip now now' answers d e :
  new_entry now (load lookup_ip now' answers d) = Some e -> status_consistent e.
Proof.
  unfold load, load_device_entry. destruct (answers d) as [cl cm rw vs rv]. cbn.
  destruct cl, cm, rw, vs as [vs| | |]; cbn; intros [= <-]; try (by apply consistent_empty).
  intros v Hv. cbn in Hv |- *. by rewrite Hv.
Qed.

Lemma status_step_good now devs changes r :
  (forall v, r = Ok v -> uv_name v = UPS_STATUS) ->
  all_devices good devs -> all_devices good (status_step now (devs, changes) r).1.
Proof.
  intros Hr H. unfold status_step. destruct r as [v| | |]; try done.
  destruct (devs !! uv_ups_name v) as [e|] eqn:E; [|done]. cbn [fst].
  apply all_devices_insert; [done|]. destruct (H _ _ E) as [Hn _]. split; [done|].
  intros v' Hv'. cbn in Hv' |- *. unfold UpsVariables_get in Hv'. rewrite (Hr v), lookup_insert_eq in Hv' by done.
  by injection Hv' as <-.
Qed.

Lemma state_step_good lookup_ip now devs events r :
  all_devices good devs -> all_devices good (state_step lookup_ip now (devs, events) r).1.
Proof.
  intros H. destruct r as [n answers]. unfold state_step. destruct (devs !! n) as [e|] eqn:E; [|done].
  destruct (H _ _ E) as [Hn _].
  destruct answers as [[[vars clients] cmds]| | |];
    try (apply all_devices_insert; [done|]; split; [done|]; by apply consistent_empty).
  destruct (UpsVariables_get (vl_variables vars) UPS_STATUS) as [v|] eqn:Hv; [case_decide as Hd|];
    (apply all_devices_insert; [done|]; split; [done|]; intros v' Hv'; cbn [variables status] in Hv' |- *;
     rewrite Hv in Hv'; try done; injection Hv' as <-; try done).
Qed.

Lemma fold_devices {C D} {P : UpsName -> DeviceEntry -> Prop}
  (f : gmap UpsName DeviceEntry * D -> C -> gmap UpsName DeviceEntry * D) acc l :
  (forall devs d c, c ∈ l -> all_devices P devs -> all_devices P (f (devs, d) c).1) ->
  all_devices P acc.1 -> all_devices P (foldl f acc l).1.
Proof.
  revert acc. induction l as [|c l IH]; intros [devs d] Hf H; [done|]. cbn [foldl]. apply IH.
  - intros devs' d' c' ?. apply Hf. by right.
  - apply Hf; [by left|done].
Qed.

Lemma patch_good now ns s patch : all_devices good (devices s) ->
  (forall e, e ∈ added patch -> status_consistent e) ->
  all_devices good (devices (device_sync_next now ns s (Ok patch)).1.2).
Proof.
  intros H Ha. destruct (device_sync_next_ok now ns s patch) as (_ & -> & _).
  apply fold_devices.
  - intros devs d n _ Hd m e He. cbn [apply_deleted fst] in He. apply lookup_delete_Some in He as [_ He]. by apply Hd.
  - apply fold_devices.
    + intros devs d u _ Hd. unfold apply_updated. cbn [fst].
      destruct (devs !! dev_ups_name u) as [e|] eqn:E; [|done]. cbn [fst].
      apply all_devices_insert; [done|]. by destruct (Hd _ _ E).
    + apply fold_devices; [|done]. intros devs d e He Hd.
      apply all_devices_insert; [done|]. split; [done|by apply Ha].
Qed.

(** What a patch adds comes from a load. *)
Lemma diff_upsd_added now local remote pv uv new_results recheck_results patch :
  diff_upsd now local remote pv uv new_results recheck_results = Ok patch ->
  added patch = patch_added now new_results recheck_results.
Proof.
  unfold diff_upsd. destruct remote as [r| | |], pv as [p| | |], uv as [u| | |]; try done. cbn [map_err obind].
  rewrite (surjective_pairing (diff_remote local r)), (surjective_pairing (diff_remote local r).1).
  cbn [fst snd]. rewrite collect_new_eq, collect_recheck_eq. destruct (_ <? _); [|done].
  by intros [= <-].
Qed.

Lemma device_step_wf now ns s diff : daemon_wf s ->
  (forall patch, diff = Ok patch -> forall e, e ∈ added patch -> status_consistent e) ->
  daemon_wf (device_sync_next now ns s diff).1.2.
Proof.
  intros (Hd & Hc & Hn) Hp. destruct diff as [patch|err| |]; [| |done..].
  - destruct (device_sync_next_ok now ns s patch) as (_ & _ & Hst & Hpv & Hv & _).
    split_and!; [by apply patch_good, Hp|rewrite Hst, Hpv, Hv; split; [by split; eexists|done]|by rewrite Hst].
  - destruct (device_sync_next_err now ns s err) as (_ & Hdev & Hst & _).
    assert (Hv : State.prot_ver (device_sync_next now ns s (Err err)).1.2 = None /\
                 ver (device_sync_next now ns s (Err err)).1.2 = None).
    { cbn. case_decide as E; [done|]. cbn. apply Hn. by destruct (conn_status s). }
    destruct Hv as [Hv1 Hv2].
    split_and!; [intros n e; by rewrite Hdev, lookup_empty| |by intros _].
    rewrite Hst, Hv1. split; [done|by intros [[] _]].
Qed.

Lemma set_devices_wf s devs : daemon_wf s -> all_devices good devs ->
  (devices s = ∅ -> devs = ∅) -> daemon_wf (set_devices devs s).
Proof. intros (Hd & Hc & Hn) Hg He. split_and!; [done|done|]. intros H. by destruct (Hn H) as (?%He & ? & ?). Qed.

Lemma status_sync_wf now ns responses s : (forall v, Ok v ∈ responses -> uv_name v = UPS_STATUS) ->
  daemon_wf s -> daemon_wf (status_sync now ns s responses).1.
Proof.
  intros Hr Hwf. unfold status_sync. destruct (snapshot_active_device_names s) as [|n l] eqn:E; [done|].
  assert (H : all_devices good (foldl (status_step now) (devices s, []) responses).1).
  { apply fold_devices; [|exact (proj1 Hwf)]. intros devs d c Hc. apply status_step_good.
    intros v ->. by apply Hr. }
  destruct (foldl _ _ _) as [devs changes]. apply set_devices_wf; [done|done|].
  intros He. unfold snapshot_active_device_names in E. by rewrite He, map_to_list_empty in E.
Qed.

Lemma state_sync_wf lookup_ip now ns responses s :
  daemon_wf s -> daemon_wf (state_sync lookup_ip now ns s responses).1.
Proof.
  intros Hwf. unfold state_sync. destruct (snapshot_active_device_names s) as [|n l] eqn:E; [done|].
  assert (H : all_devices good
    (foldl (state_step lookup_ip now) (devices s, EventBatch_new ns) responses).1).
  { apply fold_devices; [|exact (proj1 Hwf)]. intros devs d c _. apply state_step_good. }
  destruct (foldl _ _ _) as [devs ev]. apply set_devices_wf; [done|done|].
  intros He. unfold snapshot_active_device_names in E. by rewrite He, map_to_list_empty in E.
Qed.

Lemma sync_step_wf s s' : sync_step s s' -> daemon_wf s -> daemon_wf s'.
Proof.
  intros [lookup_ip now ns answers local remote pv uv nr rr s0 Hl|now ns responses s0 Hr|
    lookup_ip now ns responses s0] Hwf; [|by apply status_sync_wf|by apply state_sync_wf].
  apply device_step_wf; [done|]. intros patch Hp e. rewrite (diff_upsd_added _ _ _ _ _ _ _ _ Hp).
  unfold patch_added. rewrite elem_of_app, !list_elem_of_omap. setoid_rewrite elem_of_app in Hl.
  intros [(r & Hin & He)|(r & Hin & He)].
  - destruct (Hl r) as (now' & d & ->); [by left|]. by apply load_consistent in He.
  - destruct (Hl r) as (now' & d & ->); [by right|]. by apply (loaded_new now), load_consistent in He.
Qed.

(** ** Lemmas: polling *)

Lemma poll_run_suffix p instants pre l : poll_run p instants = pre ++ l ->
  exists p' instants', full_sync_period p' = full_sync_period p /\ poll_run p' instants' = l.
Proof.
  revert p instants. induction pre as [|x pre IH]; intros p instants H; [by eexists _, _|].
  destruct instants as [|i instants]; [done|]. cbn [poll_run] in H.
  destruct (poll_tick p i) as [t p1] eqn:E. injection H as _ H. apply IH in H as (p' & ins & Hp & H).
  exists p', ins. split; [|done]. rewrite Hp. unfold poll_tick in E.
  destruct (last_full_sync p); [destruct (_ <=? _)%Z|]; by injection E as _ <-.
Qed.

Lemma poll_run_full p instants i rest : poll_run p instants = (i, Full) :: rest ->
  exists instants', poll_run (mkPoll (Some i) (full_sync_period p)) instants' = rest.
Proof.
  destruct instants as [|k instants]; [done|]. cbn [poll_run]. unfold poll_tick.
  destruct (last_full_sync p); [destruct (_ <=? _)%Z|]; intros [= -> <-]; eauto.
Qed.

Lemma poll_run_next i period instants mid j t post :
  poll_run (mkPoll (Some i) period) instants = mid ++ (j, t) :: post ->
  Forall (fun x => x.2 = Partial) mid -> (t = Full <-> (period <= j - i)%Z).
Proof.
  revert instants. induction mid as [|x mid IH]; intros [|k instants] H Hm; try done;
    cbn [poll_run] in H; unfold poll_tick in H; cbn [last_full_sync full_sync_period] in H;
    destruct (period <=? k - i)%Z eqn:E; cbn [app] in H; injection H as H1 H2.
  - subst. apply Z.leb_le in E. done.
  - subst. apply Z.leb_gt in E. split; [done|lia].
  - subst. by apply list.Forall_cons in Hm as [? _].
  - apply list.Forall_cons in Hm as [_ Hm]. by apply (IH instants).
Qed.

(** ** Properties *)

(** A full poll brings the attached clients of a device to the list that the
    daemon gave: the same addresses, every client that stays keeps its entry (so
    its host name is not looked up again), every client that was not known gets
    a looked-up entry unless it is a loopback address, and addresses stay
    distinct. The connections and disconnections that are published are exactly
    the difference. *)
Lemma client_update_spec lookup_ip (attached : list ClientInfo) (ips : list IpAddr) :
  let attached' := update_clients lookup_ip attached ips in
  let diff := client_diff attached ips in
  (forall ip, ip ∈ (ci_addr <$> attached') <-> ip ∈ ips) /\
  (forall c, ci_addr c ∈ (ci_addr <$> attached) -> (c ∈ attached' <-> c ∈ attached /\ ci_addr c ∈ ips)) /\
  (forall c, c ∈ attached' -> (ci_addr c ∉ (ci_addr <$> attached)) -> c = client_info lookup_ip (ci_addr c)) /\
  (forall ip, ip ∈ connected diff <-> ip ∈ (ci_addr <$> attached') /\ (ip ∉ (ci_addr <$> attached))) /\
  (forall ip, ip ∈ disconnected diff <-> ip ∈ (ci_addr <$> attached) /\ (ip ∉ (ci_addr <$> attached'))) /\
  (NoDup (ci_addr <$> attached) -> NoDup ips -> NoDup (ci_addr <$> attached')).
Proof.
  cbn zeta. pose proof (update_clients_perm ips lookup_ip attached) as HA.
  set (A := update_clients _ _ _) in *.
  assert (Hin : forall ip, ip ∈ (ci_addr <$> filter (fun c => stays ips c = true) attached) <->
                  ip ∈ (ci_addr <$> attached) /\ ip ∈ ips).
  { intros ip. rewrite !list_elem_of_fmap. setoid_rewrite list_elem_of_filter. unfold stays.
    setoid_rewrite bool_decide_eq_true. split; [intros (c & -> & ? & ?); eauto|intros [(c & -> & ?) ?]; eauto]. }
  assert (Hc : ci_addr <$> (client_info lookup_ip <$> connected (client_diff attached ips)) =
               connected (client_diff attached ips)).
  { rewrite <- list_fmap_compose. rewrite <- (list_fmap_id (connected _)) at 2. by apply list_fmap_ext. }
  assert (Haddr : forall ip, ip ∈ (ci_addr <$> A) <-> ip ∈ ips).
  { intros ip. rewrite HA, fmap_app, elem_of_app, Hc, Hin, elem_of_connected.
    destruct (decide (ip ∈ (ci_addr <$> attached))); tauto. }
  split_and!.
  - apply Haddr.
  - intros c Ha. rewrite HA, elem_of_app, list_elem_of_filter, list_elem_of_fmap. unfold stays at 1.
    rewrite bool_decide_eq_true. split; [|tauto]. intros [?|(ip & -> & Hip)]; [tauto|].
    apply elem_of_connected in Hip as [_ Hno]. by destruct Hno.
  - intros c Hcin Hno. rewrite HA in Hcin. apply elem_of_app in Hcin as [[_ Hcin]%list_elem_of_filter|Hcin].
    + destruct Hno. by apply list_elem_of_fmap_2.
    + by apply list_elem_of_fmap in Hcin as (ip & -> & _).
  - intros ip. rewrite Haddr. apply elem_of_connected.
  - intros ip. rewrite Haddr, disconnected_eq, list_elem_of_fmap.
    rewrite list_elem_of_fmap. setoid_rewrite list_elem_of_filter. unfold stays. setoid_rewrite bool_decide_eq_false.
    split; [intros (c & -> & ? & ?); eauto|intros [(c & -> & ?) ?]; eauto].
  - intros Hn1 Hn2. rewrite HA, fmap_app, Hc. apply list.NoDup_app. split_and!.
    + by apply NoDup_fmap_filter.
    + intros ip [Ha _]%Hin [_ Hb]%elem_of_connected. done.
    + by apply list.NoDup_filter.
Qed.

(** A status poll and a full poll keep the set of devices, their names and
    descriptions and the connection, and the status changes that they publish
    account for every status: replaying those of a device from its old status
    gives its new one, so a subscriber that follows the events knows every
    status. A status poll publishes real changes only, and an event only if
    there is one; a full poll announces no arrival and no removal. *)
Lemma sync_events_account lookup_ip now ns s responses state_responses :
  (let r := status_sync now ns s responses in
   let changes := match r.2 with Some (DeviceStatusChanges c _) => c | _ => [] end in
   accounted (devices s) (devices r.1) changes /\ r.1 = set_devices (devices r.1) s /\
   Forall (fun c => status_old c <> status_new c) changes /\
   r.2 = match changes with [] => None | _ => Some (DeviceStatusChanges changes ns) end) /\
  (let r := state_sync lookup_ip now ns s state_responses in
   accounted (devices s) (devices r.1) (status_changes r.2) /\ r.1 = set_devices (devices r.1) s /\
   new_devices r.2 = [] /\ removed r.2 = [] /\ upsd_status r.2 = None).
Proof.
  split; cbn zeta.
  - unfold status_sync. destruct (snapshot_active_device_names s) as [|n l].
    { cbn. split_and!; [apply accounted_refl|by destruct s|constructor|done]. }
    assert (H : accounted (devices s) (foldl (status_step now) (devices s, []) responses).1
      (foldl (status_step now) (devices s, []) responses).2 /\
      Forall (fun c => status_old c <> status_new c) (foldl (status_step now) (devices s, []) responses).2).
    { apply (fold_pair_ind (fun devs changes => accounted (devices s) devs changes /\
        Forall (fun c => status_old c <> status_new c) changes)); [|split; [apply accounted_refl|constructor]].
      intros devs changes r [Ha Hf]. split; [by apply status_step_accounted|]. by apply status_step_real. }
    destruct (foldl _ _ _) as [devs changes]. cbn [fst snd] in *. destruct H as [Ha Hf].
    by destruct changes.
  - unfold state_sync. destruct (snapshot_active_device_names s) as [|n l].
    { cbn. split_and!; [apply accounted_refl|by destruct s|done..]. }
    assert (H : accounted (devices s) (foldl (state_step lookup_ip now) (devices s, EventBatch_new ns) state_responses).1
      (status_changes (foldl (state_step lookup_ip now) (devices s, EventBatch_new ns) state_responses).2) /\
      quiet (foldl (state_step lookup_ip now) (devices s, EventBatch_new ns) state_responses).2).
    { apply (fold_pair_ind (fun devs ev => accounted (devices s) devs (status_changes ev) /\ quiet ev));
        [|by split; [apply accounted_refl|]].
      intros devs ev r [Ha Hq]. split; [by apply state_step_accounted|by apply state_step_quiet]. }
    destruct (foldl _ _ _) as [devs ev]. cbn [fst snd] in *. by destruct H as [Ha (H1 & H2 & H3)].
Qed.

(** Every state that the synchronisation tasks can reach from the initial
    one, in whatever order their passes interleave and whatever the daemon
    answers, is well formed: a device is filed under its own name, the status of
    a device is the one that its [ups.status] variable spells whenever it has
    one, the connection is online exactly when the versions of the daemon are
    known, and unless it is online there is no device. *)
Lemma reachable_wf s : rtc sync_step DaemonState_new s -> daemon_wf s.
Proof.
  intros Hr. assert (Hinit : daemon_wf DaemonState_new).
  { split_and!; [intros n e He; cbn in He; by rewrite lookup_empty in He|by split; [|intros [[] _]]|done]. }
  induction Hr as [x|x y z Hxy _ IH]; [done|]. by apply IH, (sync_step_wf x).
Qed.

(** C38: The status service polls fully on its first tick, and after a full poll
    every tick is partial until the first one that comes a full period later,
    which is full again. The service starts exactly when neither of the two
    configured periods is zero; otherwise it panics. *)
Theorem poll_spec (c : UpsdConfig) :
  (0 <= poll_freq c)%Z -> (0 <= poll_interval c)%Z ->
  status_service_interval c = 
    (if decide (poll_freq c = 0%Z \/ poll_interval c = 0%Z) then Panicked
     else Ok (mkPoll None (poll_freq c))) /\
  forall p instants, status_service_interval c = Ok p ->
  (forall i t rest, poll_run p instants = (i, t) :: rest -> t = Full) /\
  (forall pre i mid j t post,
     poll_run p instants = pre ++ (i, Full) :: mid ++ (j, t) :: post ->
     Forall (fun x => x.2 = Partial) mid ->
     (t = Full <-> (poll_freq c <= j - i)%Z)).
Proof.
  intros Hf Hi. assert (Hs : status_service_interval c =
    (if decide (poll_freq c = 0%Z \/ poll_interval c = 0%Z) then Panicked else Ok (mkPoll None (poll_freq c)))).
  { unfold status_service_interval, UpsPollInterval_new.
    destruct (poll_freq c <=? poll_interval c)%Z eqn:E; [apply Z.leb_le in E|apply Z.leb_gt in E];
      repeat case_decide; try done; lia. }
  split; [done|]. intros p instants Hp. rewrite Hs in Hp. case_decide; [done|]. injection Hp as <-. split.
  - intros i t rest. by destruct instants; intros [= -> <- _].
  - intros pre i mid j t post Hrun Hmid. apply poll_run_suffix in Hrun as (p & ins & Hp & Hrun). cbn in Hp.
    apply poll_run_full in Hrun as (ins' & Hrun). rewrite Hp in Hrun. by apply (poll_run_next _ _ ins' mid j t post).
Qed.

(** ** Witnesses *)

#[local] Definition w_device (n d : string) : UpsDevice := mkUpsDevice (mkUpsName (lit n)) (lit d).
#[local] Definition w_answers (d : UpsDevice) : device_answers :=
  mkAnswers (Ok (mkClientList (dev_ups_name d) [])) (Ok (mkCmdList (dev_ups_name d) []))
    (Ok (mkRwList ∅ (dev_ups_name d)))
    (if decide (dev_desc d = lit "broken") then Err EmptyResponse
     else Ok (mkUpsVarList {[UPS_STATUS := VString (lit "OL")]} (dev_ups_name d))) [].
#[local] Definition w_entry (n : string) (st : UpsStatus) : DeviceEntry :=
  mkDeviceEntry [] [] (lit "old") 0 (mkUpsName (lit n)) ∅ st ∅.
#[local] Definition w_state : DaemonState :=
  mkDaemonState (<[mkUpsName (lit "gone") := w_entry "gone" ONLINE]>
    {[mkUpsName (lit "kept") := w_entry "kept" ONLINE]}) None OnlineConn None None.
#[local] Definition w_remote : list UpsDevice :=
  [w_device "kept" "new"; w_device "fresh" "d"; w_device "bad" "broken"].
#[local] Definition w_load : UpsDevice -> load_result := load (fun _ => None) 0 w_answers.

#[local] Definition w_new : list load_result := w_load <$> (diff_remote (devices w_state) w_remote).2.
#[local] Definition w_recheck : list load_result := w_load <$> (diff_remote (devices w_state) w_remote).1.2.

Lemma w_load_failures :
  (load_failures (fun _ => None) 0 w_answers (devices w_state) w_remote <? length w_remote) = true.
Proof. vm_compute. reflexivity. Qed.
Lemma w_remote_NoDup : NoDup (dev_ups_name <$> w_remote).
Proof. apply (bool_decide_unpack _). vm_compute. exact I. Qed.
Lemma w_gone_known : is_Some (devices w_state !! mkUpsName (lit "gone")).
Proof. by eexists. Qed.

Lemma device_sync_spec_witness :
  let r := device_sync_next 0 (lit "ns") w_state
    (diff_upsd 0 (devices w_state) (Ok w_remote) (Ok (lit "1.3")) (Ok (lit "2.8")) w_new w_recheck) in
  r.1.1 = Ok tt /\ conn_status r.1.2 = OnlineConn /\ mkUpsName (lit "gone") ∈ removed r.2.
Proof.
  pose proof (device_sync_spec (fun _ => None) 0 (lit "ns") w_answers (devices w_state) w_state w_remote
    (lit "1.3") (lit "2.8") w_new w_recheck w_remote_NoDup (Permutation_refl _) (Permutation_refl _)
    (fun n => conj (fun h => h) (fun h => h))) as Hs.
  rewrite w_load_failures in Hs. destruct Hs as (Hok & Hd & Hon & _ & _ & Hrem & _).
  split; [exact Hok|]. split; [exact Hon|]. apply Hrem. split; [exact w_gone_known|].
  rewrite Hd. vm_compute. reflexivity.
Defined.

#[local] Definition w_ip (last : Z) : IpAddr := V4 [10; 0; 0; last]%Z.

Lemma client_update_spec_witness :
  NoDup (ci_addr <$> update_clients (fun _ => None)
    [mkClientInfo (w_ip 1) None; mkClientInfo (w_ip 2) None; mkClientInfo (w_ip 3) None] [w_ip 3; w_ip 4]).
Proof.
  apply (client_update_spec (fun _ => None)
    [mkClientInfo (w_ip 1) None; mkClientInfo (w_ip 2) None; mkClientInfo (w_ip 3) None] [w_ip 3; w_ip 4]);
    apply (bool_decide_unpack _); vm_compute; exact I.
Defined.

(** A daemon that cannot be reached: one pass of the device task. *)
Lemma reachable_wf_witness :
  daemon_wf (device_sync_next 5 (lit "ns") DaemonState_new
    (diff_upsd 5 ∅ (Err EmptyResponse) (Ok []) (Ok []) [] [])).1.2.
Proof.
  apply reachable_wf, rtc_once, (step_device (fun _ => None) 5 (lit "ns") w_answers).
  intros r Hr. destruct (not_elem_of_nil r Hr).
Defined.

#[local] Definition w_config : UpsdConfig := mkUpsdConfig 30 10 (lit "host") 3493 None None 1 Disable.

Lemma poll_spec_witness : exists p, status_service_interval w_config = Ok p /\
  poll_run p [0; 10; 20; 30; 40]%Z = [(0, Full); (10, Partial); (20, Partial); (30, Full); (40, Partial)]%Z /\
  (Full = Full <-> (30 <= 30 - 0)%Z).
Proof.
  destruct (poll_spec w_config) as [Hs Hr]; [vm_compute; discriminate..|].
  exists (mkPoll None 30). split; [reflexivity|]. split; [reflexivity|].
  destruct (Hr (mkPoll None 30) [0; 10; 20; 30; 40]%Z eq_refl) as [_ H].
  apply (H [] 0%Z [(10, Partial); (20, Partial)]%Z 30%Z Full [(40, Partial)]%Z); [reflexivity|].
  repeat constructor.
Defined.
