(* ===== verification/Semantic.v ===== *)
(** * What the pages show of a device

    [http/hypermedia/semantic_type.rs], [ups_status.rs], [unit.rs],
    [device_entry_impl.rs], [notification.rs] and [normalize_id] of [util.rs]:
    the semantic class of a measurement, the details of a status, the units and
    the getters of a device that compute them. Doubles are [spec_float]s. *)

From Stdlib Require Import SpecFloat.
From S2P Require Import Prelude RustStr Numbers FloatText Names VarName Value Ip UpsVariables Status Config State.

#[local] Open Scope Z_scope.

(** ** [semantic_type.rs] *)

Inductive SemanticType := SNone | SInfo | SError | SWarning | SSuccess.

#[global] Instance SemanticType_eq_dec : EqDecision SemanticType.
Proof. solve_decision. Defined.

(** [Display] and [FastWritable]. *)
Definition SemanticType_fmt (s : SemanticType) : str :=
  match s with
  | SNone => []
  | SInfo => lit "Info"
  | SError => lit "Error"
  | SWarning => lit "Warning"
  | SSuccess => lit "Success"
  end.

(** [level], of the two comparisons [value >= from] and [value >= to]. *)
Definition range_level (ge_from ge_to : bool) : nat := Nat.b2n ge_from + Nat.b2n ge_to.

(** [from_range] and [from_range_inverted], over any [PartialOrd] type; [None] is [unreachable!]. *)
Definition from_range {T} (ge : T -> T -> bool) (value from to : T) : option SemanticType :=
  match range_level (ge value from) (ge value to) with
  | 0%nat => Some SSuccess
  | 1%nat => Some SWarning
  | 2%nat => Some SError
  | _ => None
  end.
Definition from_range_inverted {T} (ge : T -> T -> bool) (value from to : T) : option SemanticType :=
  match range_level (ge value from) (ge value to) with
  | 0%nat => Some SError
  | 1%nat => Some SWarning
  | 2%nat => Some SSuccess
  | _ => None
  end.

(** The class tables of [impl_semantic_class!]. *)
Inductive SemanticClass :=
  | TextStyle | BadgeStyle | FillStyle | AlertStyle | InputStyle | SelectStyle | EdgeStyle
  | BorderStyle | BarGaugeStyle.

Definition class_literals (c : SemanticClass) : str * str * str * str :=
  match c with
  | TextStyle => (lit "text-info", lit "text-success", lit "text-warning", lit "text-error")
  | BadgeStyle => (lit "badge-info", lit "badge-success", lit "badge-warning", lit "badge-error")
  | FillStyle => (lit "fill-info", lit "fill-success", lit "fill-warning", lit "fill-error")
  | AlertStyle => (lit "alert-info", lit "alert-success", lit "alert-warning", lit "alert-error")
  | InputStyle => (lit "input-info", lit "input-success", lit "input-warning", lit "input-error")
  | SelectStyle => (lit "select-info", lit "select-success", lit "select-warning", lit "select-error")
  | EdgeStyle => (lit "edge-info", lit "edge-success", lit "edge-warning", lit "edge-error")
  | BorderStyle => (lit "border-info", lit "border-success", lit "border-warning", lit "border-error")
  | BarGaugeStyle =>
      (lit "bar-gauge-info", lit "bar-gauge-success", lit "bar-gauge-warning", lit "bar-gauge-error")
  end.
Definition from_type (c : SemanticClass) (value : SemanticType) : str :=
  let '(info, success, warning, error) := class_literals c in
  match value with
  | SNone => []
  | SInfo => info
  | SError => error
  | SWarning => warning
  | SSuccess => success
  end.

(** [as_text], [as_badge] and the others. *)
Definition as_text := from_type TextStyle.
Definition as_badge := from_type BadgeStyle.
Definition as_fill := from_type FillStyle.
Definition as_alert := from_type AlertStyle.
Definition as_input := from_type InputStyle.
Definition as_select := from_type SelectStyle.
Definition as_edge := from_type EdgeStyle.
Definition as_border := from_type BorderStyle.
Definition as_bar_gauge := from_type BarGaugeStyle.

(** ** [ups_status.rs] of the pages *)

Record StatusDetail := mkDetail {
  icon_name : str; detail_class : SemanticType; detail_desc : str; detail_name : str }.

Definition detail_table : list (UpsStatus * StatusDetail) :=
  [ (ONLINE, mkDetail (lit "activity") SSuccess (lit "UPS Online") (lit "ONLINE"));
    (BOOST, mkDetail (lit "zap-off") SError (lit "Input voltage is too low") (lit "BOOST"));
    (CALIBRATING, mkDetail (lit "loader") SInfo (lit "UPS is calibrating") (lit "CALIBRATING"));
    (CHARGING, mkDetail (lit "battery-charging") SInfo (lit "Battery is charging") (lit "CHARGING"));
    (DISCHARGE, mkDetail (lit "battery") SWarning (lit "Battery is discharging") (lit "DISCHARGING"));
    (ALARM, mkDetail (lit "alert-circle") SError (lit "UPS requires intervention") (lit "ALARM"));
    (FORCED_SHUTDOWN, mkDetail (lit "power") SError (lit "FORCED SHUTDOWN has begun") (lit "FSD"));
    (LOW_BATTERY, mkDetail (lit "battery") SWarning (lit "Low battery") (lit "LOW-BATTERY"));
    (ON_BATTERY, mkDetail (lit "battery-charging") SWarning (lit "UPS on battery") (lit "ON-BATTERY"));
    (OVERLOADED, mkDetail (lit "alert-circle") SError (lit "UPS is overloaded") (lit "OVERLOADED"));
    (NOCOMM, mkDetail (lit "wifi-off") SError (lit "Daemon has no connection with UPS") (lit "NOCOMM"));
    (REPLACE_BATTERY, mkDetail (lit "tool") SError (lit "Replace battery") (lit "REPLACE-BATTERY"));
    (TEST, mkDetail (lit "activity") SInfo (lit "Under test") (lit "TEST"));
    (TRIM, mkDetail (lit "zap") SError (lit "Input voltage is too high") (lit "TRIM"));
    (BYPASS, mkDetail (lit "tool") SInfo (lit "Battery is disconnected for maintenance") (lit "BYPASS")) ].
Definition get_status_detail (status : UpsStatus) : option StatusDetail :=
  snd <$> find (fun row => bool_decide (row.1 = status)) detail_table.

(** [StatusDetailIter::next]: the item and the iterator's next state. *)
Definition detail_next (inner : UpsStatus) : option StatusDetail * UpsStatus :=
  match status_next inner with
  | None => (None, inner)
  | Some (status, inner) => (get_status_detail status, inner)
  end.

(** What a [for] loop over [StatusDetailIter::new(status)] sees. *)
Fixpoint detail_loop (fuel : nat) (inner : UpsStatus) : option (list StatusDetail) :=
  match fuel with
  | O => None
  | S fuel =>
      match detail_next inner with
      | (None, _) => Some []
      | (Some d, inner) => cons d <$> detail_loop fuel inner
      end
  end.
Definition status_details (status : UpsStatus) : option (list StatusDetail) :=
  detail_loop iter_fuel status.

(** ** [unit.rs] *)

(** The types that [impl_unit!] makes. *)
Inductive unit_name := ApparentPower | Celcius | Percentage | RealPower | RemainingSeconds | Voltage.

Record Unit (R : Type) (name : unit_name) := mkUnit { raw_value : R; unit_semantic : SemanticType }.
#[global] Arguments mkUnit {R name} raw_value unit_semantic.
#[global] Arguments raw_value {R name} _.
#[global] Arguments unit_semantic {R name} _.

(** [trait UnitDisplay], and what it promises of its two accessors. *)
Class UnitDisplay (U V : Type) := {
  get_semantic_type : U -> SemanticType;
  set_semantic_type : SemanticType -> U -> U;
  as_raw_value : U -> V;
}.
Class UnitDisplayLaws (U V : Type) `{UnitDisplay U V} := {
  get_set_semantic : forall s u, get_semantic_type (set_semantic_type s u) = s;
  raw_set_semantic : forall s u, as_raw_value (set_semantic_type s u) = as_raw_value u;
}.

#[global] Instance Unit_display R name : UnitDisplay (Unit R name) R := {
  get_semantic_type u := unit_semantic u;
  set_semantic_type s u := mkUnit (raw_value u) s;
  as_raw_value u := raw_value u;
}.

Definition Unit_from {R name} (value : R) : Unit R name := mkUnit value SInfo.
Inductive UnsupportedValueType := mkUnsupportedValueType.

(** [TryFrom<Value>] and [TryFrom<&Value>]. *)
Definition Unit_f64_try_from {name} (value : Value) : outcome UnsupportedValueType (Unit spec_float name) :=
  match as_lossly_f64 value with
  | Some v => Ok (mkUnit v SInfo)
  | None => Err mkUnsupportedValueType
  end.
Definition Unit_i64_try_from {name} (value : Value) : outcome UnsupportedValueType (Unit Z name) :=
  match as_lossly_i64 value with
  | Some v => Ok (mkUnit v SInfo)
  | None => Err mkUnsupportedValueType
  end.

Record Approx (T : Type) := mkApprox { approx_inner : T }.
#[global] Arguments mkApprox {T} approx_inner.
#[global] Arguments approx_inner {T} _.

#[global] Instance Approx_display T V `{UnitDisplay T V} : UnitDisplay (Approx T) V := {
  get_semantic_type u := get_semantic_type (approx_inner u);
  set_semantic_type s u := mkApprox (set_semantic_type s (approx_inner u));
  as_raw_value u := as_raw_value (approx_inner u);
}.

Inductive OneOf (T1 T2 : Type) := T1_ (v : T1) | T2_ (v : T2).
#[global] Arguments T1_ {T1 T2} v.
#[global] Arguments T2_ {T1 T2} v.

#[global] Instance OneOf_display T1 T2 V `{UnitDisplay T1 V, UnitDisplay T2 V} :
  UnitDisplay (OneOf T1 T2) V := {
  get_semantic_type u := match u with T1_ v => get_semantic_type v | T2_ v => get_semantic_type v end;
  set_semantic_type s u :=
    match u with T1_ v => T1_ (set_semantic_type s v) | T2_ v => T2_ (set_semantic_type s v) end;
  as_raw_value u := match u with T1_ v => as_raw_value v | T2_ v => as_raw_value v end;
}.

(** [Display] and askama's [FastWritable]. They write the same text, but for a value that is approximate. *)
Class Display (U : Type) := fmt : U -> str.
Class FastWritable (U : Type) := write_into : U -> str.

(** The [format] of a type. *)
Definition unit_suffix (name : unit_name) : str :=
  match name with
  | ApparentPower => lit " VA"
  | Celcius => lit " ℃"
  | Percentage => lit " %"
  | RealPower => lit " W"
  | RemainingSeconds => lit " s"
  | Voltage => lit " V"
  end.
#[global] Instance f64_unit_fmt name : Display (Unit spec_float name) := fun u => f64_fmt (raw_value u) ++ unit_suffix name.
#[global] Instance i64_unit_fmt name : Display (Unit Z name) := fun u => show_Z (raw_value u) ++ unit_suffix name.
#[global] Instance unit_write_into R name `{Display (Unit R name)} : FastWritable (Unit R name) := fun u => fmt u.

#[global] Instance Approx_fmt T `{Display T} : Display (Approx T) := fun u => fmt (approx_inner u).
#[global] Instance Approx_write_into T `{Display T} : FastWritable (Approx T) := fun u => lit "≈ " ++ fmt (approx_inner u).

#[global] Instance OneOf_fmt T1 T2 `{Display T1, Display T2} : Display (OneOf T1 T2) := fun u =>
  match u with T1_ v => fmt v | T2_ v => fmt v end.
#[global] Instance OneOf_write_into T1 T2 `{FastWritable T1, FastWritable T2} : FastWritable (OneOf T1 T2) := fun u =>
  match u with T1_ v => write_into v | T2_ v => write_into v end.

(** ** [device_entry_impl.rs] *)

Definition f64_ge (a b : spec_float) : bool := SpecFloat.SFleb b a.
Definition f64_le (a b : spec_float) : bool := SpecFloat.SFleb a b.
Definition f64_mul : spec_float -> spec_float -> spec_float := SpecFloat.SFmul f64_prec f64_emax.
Definition f64_div : spec_float -> spec_float -> spec_float := SpecFloat.SFdiv f64_prec f64_emax.

(** [f64::round]: to the nearest integer, halves away from zero. *)
Definition f64_round (x : spec_float) : spec_float :=
  match x with
  | SpecFloat.S754_finite s m e =>
      if 0 <=? e then x
      else
        let d := 2 ^ (- e) in
        let q := Z.pos m / d + (if d <=? 2 * (Z.pos m mod d) then 1 else 0) in
        binary_normalize f64_prec f64_emax (if s then - q else q) 0 s
  | _ => x
  end.

Section getters.

Context (device : DeviceEntry).

(** [self.variables.get(..)] of a standard name, and its value as a number. *)
Definition var (name : StandardName.t) : option Value :=
  UpsVariables_get (variables device) (mkVarName (Standard name)).
Definition var_f64 (name : StandardName.t) : option spec_float := v ← var name; as_lossly_f64 v.
Definition var_i64 (name : StandardName.t) : option Z := v ← var name; as_lossly_i64 v.

(** [match T::try_from(v) { Ok(mut value) => { value.set_semantic_type(..); Some(value) } Err(_) => None }]. *)
Definition classified {R name} (value : outcome UnsupportedValueType (Unit R name))
  (classify : R -> option SemanticType) : option (Unit R name) :=
  match value with
  | Ok value => (fun s => set_semantic_type s value) <$> classify (as_raw_value value)
  | _ => None
  end.

Definition get_beeper_status : option bool :=
  match var StandardName.UpsBeeperStatus with
  | Some (VString v) => Some (eq_ignore_ascii_case v (lit "enabled"))
  | _ => None
  end.

Definition get_ups_temperature : option (Unit spec_float Celcius) :=
  temp_var ← var StandardName.UpsTemperature;
  classified (Unit_f64_try_from temp_var) (fun value =>
    let low_temp := default (f64_of_Z 0) (var_f64 StandardName.UpsTemperatureLow) in
    let high_temp := default (f64_of_Z 60) (var_f64 StandardName.UpsTemperatureHigh) in
    from_range f64_ge value low_temp high_temp).

Definition get_ups_load : option (Unit spec_float Percentage) :=
  load_var ← var StandardName.UpsLoad;
  classified (Unit_f64_try_from load_var) (fun value => from_range f64_ge value (f64_of_Z 45) (f64_of_Z 75)).

Definition get_battery_charge : option (Unit spec_float Percentage) :=
  charge_var ← var StandardName.BatteryCharge;
  classified (Unit_f64_try_from charge_var) (fun value =>
    let warn_level := default (f64_of_Z 50) (var_f64 StandardName.BatteryChargeWarning) in
    let danger_level := default (f64_of_Z 25) (var_f64 StandardName.BatteryChargeLow) in
    from_range_inverted f64_ge value danger_level warn_level).

Definition get_battery_runtime : option (Unit Z RemainingSeconds) :=
  battery_runtime ← var StandardName.BatteryRuntime;
  classified (Unit_i64_try_from battery_runtime) (fun value =>
    let danger_level := default 60 (var_i64 StandardName.BatteryRuntimeLow) in
    Some (if value <? danger_level then SError else SSuccess)).

Definition approx_power {name} (nominal_name : StandardName.t) : option (Approx (Unit spec_float name)) :=
  load ← var_f64 StandardName.UpsLoad;
  nominal ← var_f64 nominal_name;
  Some (mkApprox (Unit_from (f64_round (f64_div (f64_mul nominal load) (f64_of_Z 100))))).
Definition get_approx_real_power : option (Approx (Unit spec_float RealPower)) :=
  approx_power StandardName.UpsRealpowerNominal.
Definition get_approx_apparent_power : option (Approx (Unit spec_float ApparentPower)) :=
  approx_power StandardName.UpsPowerNominal.

Definition measured_or {name} (measured : option Value) (approx : option (Approx (Unit spec_float name)))
  : option (OneOf (Unit spec_float name) (Approx (Unit spec_float name))) :=
  match measured with
  | Some v => match Unit_f64_try_from v with Ok value => Some (T1_ value) | _ => T2_ <$> approx end
  | None => T2_ <$> approx
  end.
Definition get_real_power : option (OneOf (Unit spec_float RealPower) (Approx (Unit spec_float RealPower))) :=
  measured_or (var StandardName.UpsRealpower) get_approx_real_power.
Definition get_apparent_power
  : option (OneOf (Unit spec_float ApparentPower) (Approx (Unit spec_float ApparentPower))) :=
  measured_or (var StandardName.UpsPower) get_approx_apparent_power.

(** The three voltage getters: beyond a limit is [bad]. *)
Definition voltage (volt low high : StandardName.t) (bad : SemanticType) : option (Unit spec_float Voltage) :=
  volt_var ← var volt;
  classified (Unit_f64_try_from volt_var) (fun value =>
    let low_volt := var_f64 low in
    let high_volt := var_f64 high in
    Some (if default false ((fun target => f64_le value target) <$> low_volt) ||
             default false ((fun target => f64_ge value target) <$> high_volt) then bad else SSuccess)).
Definition get_input_voltage := voltage StandardName.InputVoltage StandardName.InputVoltageLowCritical
  StandardName.InputVoltageHighCritical SWarning.
Definition get_output_voltage := voltage StandardName.OutputVoltage StandardName.OutputVoltageLow
  StandardName.OutputVoltageHigh SError.
Definition get_battery_voltage := voltage StandardName.BatteryVoltage StandardName.BatteryVoltageLow
  StandardName.BatteryVoltageHigh SError.

End getters.

(** ** [notification.rs] *)

Record NotificationTemplate := mkNotification { message : str; ttl_ms : Z; semantic_type : SemanticType }.

Definition DEFAULT_DURATION_MS : Z := 3000.
Definition NotificationTemplate_new (m : str) : NotificationTemplate :=
  mkNotification m DEFAULT_DURATION_MS SNone.
(** [From<&str>] and [From<String>]. *)
Definition NotificationTemplate_from (m : str) : NotificationTemplate :=
  mkNotification m DEFAULT_DURATION_MS SInfo.
Definition set_level (level : SemanticType) (n : NotificationTemplate) : NotificationTemplate :=
  mkNotification (message n) (ttl_ms n) level.
(** [ttl] is a number of milliseconds. *)
Definition set_ttl (ttl : Z) (n : NotificationTemplate) : NotificationTemplate :=
  mkNotification (message n) ttl (semantic_type n).

(** ** [normalize_id] *)

Definition id_byte (ch : byte) : bool :=
  is_ascii_alphanumeric ch || bool_decide (ch = "_"%byte) || bool_decide (ch = "-"%byte) ||
  bool_decide (ch = "."%byte).

(** The predicate of [replace], on a character. *)
Definition id_char (ch : str) : bool := match ch with [c] => id_byte c | _ => false end.

Definition normalize_id (input : str) : str :=
  let input := match input with
               | v :: _ => if is_ascii_digit v then "_"%byte :: input else input
               | [] => input
               end in
  if forallb id_byte input then input
  else mjoin ((fun ch => if id_char ch then ch else lit "_") <$> chars input).

Example normalize_id_ex : normalize_id (lit "1 ups@a b") = lit "_1_ups_a_b".
Proof. vm_compute. reflexivity. Qed.
Example f64_round_ex :
  f64_round (f64_div (f64_mul (f64_of_Z 850) (f64_of_Z 33)) (f64_of_Z 100)) = f64_of_Z 281.
Proof. vm_compute. reflexivity. Qed.
Example status_details_ex :
  option_map (map detail_name) (status_details (bitor (bitor ONLINE CHARGING) TICK)) =
  Some [lit "CHARGING"; lit "ONLINE"].
Proof. vm_compute. reflexivity. Qed.

(** ** Lemmas: the order of doubles *)

(** A key that orders doubles: the class, then exponent and mantissa. *)
Definition f64_key (x : spec_float) : option (Z * Z * Z) :=
  match x with
  | S754_nan => None
  | S754_infinity s => Some (if s then -2 else 2, 0, 0)
  | S754_zero _ => Some (0, 0, 0)
  | S754_finite s m e => Some (if s then (-1, - e, Z.neg m) else (1, e, Z.pos m))
  end.

Definition key_le (a b : Z * Z * Z) : Prop :=
  let '(c, e, m) := a in let '(c', e', m') := b in
  c < c' \/ c = c' /\ (e < e' \/ e = e' /\ m <= m').

Lemma f64_le_key x y : f64_le x y = true <->
  exists a b, f64_key x = Some a /\ f64_key y = Some b /\ key_le a b.
Proof.
  assert (Hk : f64_le x y = match f64_key x, f64_key y with
                            | Some a, Some b => bool_decide (key_le a b) | _, _ => false end).
  { unfold f64_le, SFleb, SFcompare.
    destruct x as [sx|sx| |sx mx ex], y as [sy|sy| |sy my ey]; try done;
      try destruct sx; try destruct sy; cbn [f64_key]; symmetry;
      try (apply bool_decide_eq_true; unfold key_le; lia);
      try (apply bool_decide_eq_false; unfold key_le; lia);
      destruct (Z.compare_spec ex ey) as [He|He|He];
      try (apply bool_decide_eq_true; unfold key_le; lia);
      try (apply bool_decide_eq_false; unfold key_le; lia);
      change (Pos.compare_cont Eq mx my) with (mx ?= my)%positive;
      destruct (Pos.compare_spec mx my) as [Hm|Hm|Hm]; cbn [CompOpp];
      try (apply bool_decide_eq_true; unfold key_le; lia);
      (apply bool_decide_eq_false; unfold key_le; lia). }
  rewrite Hk. destruct (f64_key x) as [a|], (f64_key y) as [b|]; 
    try (split; [done|intros (? & ? & ? & ? & _); congruence]).
  rewrite bool_decide_eq_true. split; [eauto|]. by intros (? & ? & [= <-] & [= <-] & ?).
Qed.

Lemma f64_le_trans x y z : f64_le x y = true -> f64_le y z = true -> f64_le x z = true.
Proof.
  rewrite !f64_le_key. intros (a & b & Ha & Hb & H1) (b' & c & Hb' & Hc & H2).
  rewrite Hb in Hb'. injection Hb' as <-. exists a, c. split; [done|]. split; [done|].
  destruct a as [[]], b as [[]], c as [[]]. unfold key_le in *. lia.
Qed.

Lemma f64_le_refl x : x <> S754_nan -> f64_le x x = true.
Proof.
  intros Hx. apply f64_le_key. destruct x as [s|s| |s m e]; try done;
    (eexists _, _; split; [reflexivity|]; split; [reflexivity|]); destruct s; cbv [key_le]; lia.
Qed.

(** ** Lemmas: the laws of the unit interface *)

#[global] Instance Unit_display_laws R name : UnitDisplayLaws (Unit R name) R.
Proof. split; done. Qed.
#[global] Instance Approx_display_laws T V `{UnitDisplayLaws T V} : UnitDisplayLaws (Approx T) V.
Proof. split; intros s []; [apply (@get_set_semantic T V _ _)|cbn; by rewrite (@raw_set_semantic T V _ _)]. Qed.
#[global] Instance OneOf_display_laws T1 T2 V `{UnitDisplayLaws T1 V, !UnitDisplay T2 V, !UnitDisplayLaws T2 V} :
  UnitDisplayLaws (OneOf T1 T2) V.
Proof.
  split; intros s [v|v]; cbn;
    [apply (@get_set_semantic T1 V _ _)|apply (@get_set_semantic T2 V _ _)
    |apply (@raw_set_semantic T1 V _ _)|apply (@raw_set_semantic T2 V _ _)].
Qed.

(** ** Lemmas: levels *)

(** How bad a class is. *)
Definition severity (s : SemanticType) : nat :=
  match s with SError => 2 | SWarning => 1 | _ => 0 end.

Lemma level_mono (a b a' b' : bool) : (a = true -> a' = true) -> (b = true -> b' = true) ->
  (range_level a b <= range_level a' b')%nat.
Proof. destruct a, b, a', b'; cbn; intros; naive_solver lia. Qed.

(** The two scales never panic, and say how many limits are reached. *)
Lemma from_range_severity {T} (ge : T -> T -> bool) value from to :
  exists s, from_range ge value from to = Some s /\ s <> SNone /\ s <> SInfo /\
            severity s = range_level (ge value from) (ge value to).
Proof. unfold from_range. destruct (ge value from), (ge value to); cbn; eauto. Qed.
Lemma from_range_inverted_severity {T} (ge : T -> T -> bool) value from to :
  exists s, from_range_inverted ge value from to = Some s /\ s <> SNone /\ s <> SInfo /\
            (severity s + range_level (ge value from) (ge value to) = 2)%nat.
Proof. unfold from_range_inverted. destruct (ge value from), (ge value to); cbn; eauto. Qed.

Lemma f64_level_mono v v' from to : f64_le v v' = true ->
  (range_level (f64_ge v from) (f64_ge v to) <= range_level (f64_ge v' from) (f64_ge v' to))%nat.
Proof. intros H. apply level_mono; unfold f64_ge; intros Hl; by apply (f64_le_trans _ v). Qed.

(** ** Lemmas: the details of a status *)

(** The details of flags up to the first one that has none. *)
Fixpoint detailed (fs : list UpsStatus) : list StatusDetail :=
  match fs with
  | [] => []
  | f :: rest => match get_status_detail f with Some d => d :: detailed rest | None => [] end
  end.

Lemma detail_loop_spec s fuel : status_wf s -> (length (flags s) < fuel)%nat ->
  detail_loop fuel s = Some (detailed (flags s)).
Proof.
  revert s. induction fuel as [|fuel IH]; intros s Hs Hl; [lia|].
  cbn [detail_loop]. unfold detail_next. pose proof (status_next_spec s Hs) as H.
  destruct (flags s) as [|f rest]; [by rewrite H|].
  destruct H as (s' & -> & <- & Hs'). cbn [detailed]. destruct (get_status_detail f); [|done].
  rewrite IH; [done..|]. simpl in Hl. lia.
Qed.

(** ** Lemmas: identifiers *)

Lemma id_byte_ascii c : id_byte c = true -> is_ascii c = true.
Proof. destruct c; vm_compute; intros; congruence. Qed.
Lemma id_byte_us : id_byte "_"%byte = true.
Proof. reflexivity. Qed.

(** Replacing the characters that are not allowed leaves only allowed bytes. *)
Lemma replaced_id_bytes cs : Forall (fun c => id_byte c = true) (mjoin ((fun ch => if id_char ch then ch else lit "_") <$> cs)).
Proof.
  induction cs as [|ch cs IH]; [constructor|]. cbn. apply Forall_app. split; [|exact IH].
  destruct (id_char ch) eqn:E; [|repeat constructor]. destruct ch as [|c [|]]; try done. by repeat constructor.
Qed.

Lemma replaced_id_head s : (forall c r, s = c :: r -> is_ascii_digit c = false) ->
  forall c r, mjoin ((fun ch => if id_char ch then ch else lit "_") <$> chars s) = c :: r -> is_ascii_digit c = false.
Proof.
  intros Hs c r. destruct s as [|a s]; [done|]. specialize (Hs a s eq_refl).
  unfold chars. cbn [length chars_fuel fmap list_fmap mjoin list_join].
  destruct (id_char (take (char_width a) (a :: s))) eqn:E; [|by intros [= <- _]].
  destruct (char_width a) as [|w]; [done|]. cbn [take] in *. by intros [= <- _].
Qed.

(** ** Lemmas: a classified measurement *)

(** The limits of the charge and of the temperature: the variables of the device, or the defaults. *)
Definition charge_low (d : DeviceEntry) := default (f64_of_Z 25) (var_f64 d StandardName.BatteryChargeLow).
Definition charge_warn (d : DeviceEntry) := default (f64_of_Z 50) (var_f64 d StandardName.BatteryChargeWarning).
Definition temp_low (d : DeviceEntry) := default (f64_of_Z 0) (var_f64 d StandardName.UpsTemperatureLow).
Definition temp_high (d : DeviceEntry) := default (f64_of_Z 60) (var_f64 d StandardName.UpsTemperatureHigh).

Lemma classified_var d n name v (classify : spec_float -> option SemanticType) s :
  var_f64 d n = Some v -> classify v = Some s ->
  (x ← var d n; classified (@Unit_f64_try_from name x) classify) = Some (mkUnit v s).
Proof.
  intros Hv Hc. unfold var_f64 in Hv. destruct (var d n) as [x|]; [|done].
  cbn in Hv |- *. unfold Unit_f64_try_from. rewrite Hv. cbn. by rewrite Hc.
Qed.

Lemma get_battery_charge_some d v : var_f64 d StandardName.BatteryCharge = Some v ->
  exists s, get_battery_charge d = Some (mkUnit v s) /\ s <> SNone /\ s <> SInfo /\
    (severity s + range_level (f64_ge v (charge_low d)) (f64_ge v (charge_warn d)) = 2)%nat.
Proof.
  intros Hv. destruct (from_range_inverted_severity f64_ge v (charge_low d) (charge_warn d)) as (s & E & Hs).
  exists s. split; [|done]. by apply classified_var.
Qed.

Lemma get_ups_temperature_some d v : var_f64 d StandardName.UpsTemperature = Some v ->
  exists (s : SemanticType), get_ups_temperature d = Some (mkUnit v s) /\ s <> SNone /\ s <> SInfo /\
    severity s = range_level (f64_ge v (temp_low d)) (f64_ge v (temp_high d)).
Proof.
  intros Hv. destruct (from_range_severity f64_ge v (temp_low d) (temp_high d)) as (s & E & Hs).
  exists s. split; [|done]. by apply classified_var.
Qed.

(** ** What the pages show, correctly *)

(** Measured charges, temperatures and loads are classified by the limits they reach: a numeric
    measurement never panics and keeps its value, a lower charge is never shown as less severe
    and a lower temperature never as more severe under the same limits, and a load is a success
    below 45, a warning below 75 and an error from there on. *)
Lemma measurement_classes (device low : DeviceEntry) (v v' : spec_float) (Hle : f64_le v' v = true) :
  (var_f64 device StandardName.BatteryCharge = Some v -> var_f64 low StandardName.BatteryCharge = Some v' ->
   charge_low low = charge_low device -> charge_warn low = charge_warn device ->
   exists s s', get_battery_charge device = Some (mkUnit v s) /\ get_battery_charge low = Some (mkUnit v' s') /\
     (severity s = 2 - range_level (f64_ge v (charge_low device)) (f64_ge v (charge_warn device)))%nat /\
     (severity s <= severity s')%nat) /\
  (var_f64 device StandardName.UpsTemperature = Some v -> var_f64 low StandardName.UpsTemperature = Some v' ->
   temp_low low = temp_low device -> temp_high low = temp_high device ->
   exists s s', get_ups_temperature device = Some (mkUnit v s) /\ get_ups_temperature low = Some (mkUnit v' s') /\
     severity s = range_level (f64_ge v (temp_low device)) (f64_ge v (temp_high device)) /\
     (severity s' <= severity s)%nat) /\
  (var_f64 device StandardName.UpsLoad = Some v ->
   get_ups_load device = Some (mkUnit v
     (if f64_le (f64_of_Z 75) v then SError else if f64_le (f64_of_Z 45) v then SWarning else SSuccess))).
Proof.
  split; [|split].
  - intros Hv Hv' Hl Hw. destruct (get_battery_charge_some device v Hv) as (s & E & _ & _ & Hs).
    destruct (get_battery_charge_some low v' Hv') as (s' & E' & _ & _ & Hs'). rewrite Hl, Hw in Hs'.
    exists s, s'. pose proof (f64_level_mono v' v (charge_low device) (charge_warn device) Hle).
    split; [done|]. split; [done|]. lia.
  - intros Hv Hv' Hl Hw. destruct (get_ups_temperature_some device v Hv) as (s & E & _ & _ & Hs).
    destruct (get_ups_temperature_some low v' Hv') as (s' & E' & _ & _ & Hs'). rewrite Hl, Hw in Hs'.
    exists s, s'. pose proof (f64_level_mono v' v (temp_low device) (temp_high device) Hle).
    split; [done|]. split; [done|]. lia.
  - intros Hv. apply classified_var; [done|]. unfold from_range.
    change (f64_ge v) with (fun x => f64_le x v). cbv beta.
    destruct (f64_le (f64_of_Z 75) v) eqn:E75; [|by destruct (f64_le (f64_of_Z 45) v)].
    rewrite (f64_le_trans (f64_of_Z 45) (f64_of_Z 75) v); [done|by vm_compute|done].
Qed.

(** The details a page shows of a status are those of its flags, lowest first, up to the first
    flag that has none; of the flags of the table only COMM, OFFLINE, TICK and TOCK have none. *)
Lemma status_details_spec (s : UpsStatus) (Hs : status_wf s) :
  status_details s = Some (detailed (flags s)) /\
  (forall f w, (f, w) ∈ status_table -> get_status_detail f = None <-> f ∈ [COMM; OFFLINE; TICK; TOCK]).
Proof.
  split.
  - apply detail_loop_spec; [done|]. pose proof (flags_length s). unfold iter_fuel. lia.
  - intros f w Hf. 
    assert (H : forallb (fun row => eqb (bool_decide (row.1 ∈ [COMM; OFFLINE; TICK; TOCK]))
                                    (match get_status_detail row.1 with Some _ => false | None => true end)) status_table = true)
      by (vm_compute; reflexivity).
    rewrite forallb_forall in H. specialize (H (f, w) (proj1 (list_elem_of_In _ _) Hf)). cbn [fst] in H.
    apply eqb_prop in H. rewrite <- (bool_decide_eq_true (f ∈ _)), H.
    destruct (get_status_detail f); cbn; split; congruence.
Qed.

(** A normalised identifier has only ASCII letters, digits, '_', '-' and '.', does not start with a
    digit, is kept by a second normalisation, and a text that is an identifier already is not changed. *)
Lemma normalize_id_spec (s : str) :
  let id := normalize_id s in
  Forall (fun c => id_byte c = true) id /\ (forall c r, id = c :: r -> is_ascii_digit c = false) /\
  normalize_id id = id /\
  (Forall (fun c => id_byte c = true) s -> (forall c r, s = c :: r -> is_ascii_digit c = false) -> id = s).
Proof.
  set (pre := match s with v :: _ => if is_ascii_digit v then "_"%byte :: s else s | [] => s end).
  assert (Hpre : forall c r, pre = c :: r -> is_ascii_digit c = false).
  { subst pre. intros c r. destruct s as [|v s']; [done|]. destruct (is_ascii_digit v) eqn:E.
    - intros [= <- _]. reflexivity.
    - intros [= <- _]. exact E. }
  assert (Hfix : forall t, Forall (fun c => id_byte c = true) t ->
    (forall c r, t = c :: r -> is_ascii_digit c = false) -> normalize_id t = t).
  { intros t Ht Hd. unfold normalize_id. destruct t as [|v t']; [done|]. rewrite (Hd v t' eq_refl).
    replace (forallb id_byte (v :: t')) with true; [done|]. symmetry.
    apply forallb_forall. intros x Hx. rewrite list.Forall_forall in Ht. by apply Ht, list_elem_of_In. }
  assert (Hid : Forall (fun c => id_byte c = true) (normalize_id s) /\
                (forall c r, normalize_id s = c :: r -> is_ascii_digit c = false)).
  { change (normalize_id s) with
      (if forallb id_byte pre then pre else mjoin ((fun ch => if id_char ch then ch else lit "_") <$> chars pre)).
    destruct (forallb id_byte pre) eqn:E.
    - split; [|exact Hpre]. rewrite list.Forall_forall. intros x Hx. rewrite forallb_forall in E.
      by apply E, list_elem_of_In.
    - split; [apply replaced_id_bytes|]. by apply replaced_id_head. }
  destruct Hid as [Hb Hd]. cbv zeta. split; [done|]. split; [done|]. split; [by apply Hfix|]. intros. by apply Hfix.
Qed.

(** ** Witnesses *)

Definition sample_entry (charge temp load : Z) : DeviceEntry :=
  mkDeviceEntry [] [] [] 0 (mkUpsName (lit "ups")) ∅ status_default (UpsVariables_from
    [(mkVarName (Standard StandardName.BatteryCharge), VInt charge);
     (mkVarName (Standard StandardName.UpsTemperature), VInt temp);
     (mkVarName (Standard StandardName.UpsLoad), VInt load)]).

Lemma measurement_classes_witness :
  get_ups_load (sample_entry 60 30 50) = Some (mkUnit (f64_of_Z 50) SWarning).
Proof.
  destruct (measurement_classes (sample_entry 60 30 50) (sample_entry 40 30 50) (f64_of_Z 50) (f64_of_Z 50)
    ltac:(vm_compute; reflexivity)) as (_ & _ & H).
  rewrite H; vm_compute; reflexivity.
Defined.

Lemma status_details_spec_witness :
  exists l, status_details (bitor ONLINE CHARGING) = Some l /\ length l = 2%nat.
Proof.
  eexists. split.
  - apply (proj1 (status_details_spec (bitor ONLINE CHARGING) ltac:(vm_compute; split; congruence))).
  - vm_compute. reflexivity.
Defined.
