(* ===== verification/Collections.v ===== *)
(** * Orders, ordered maps and sorting

    What the program uses of [Ord], [BTreeMap] and [slice::sort_by] of the
    standard library. An order is a comparison function that satisfies the laws
    of the class [OrdLaws], a total preorder: the [Ord] of the program need not
    agree with its equality. A [BTreeMap] is its list of entries in order. *)

From stdpp Require Import sorting.
From S2P Require Import Prelude RustStr.

(** ** Orders *)

Class OrdLaws {K} (cmp : K -> K -> comparison) : Prop := {
  cmp_antisym : forall a b, cmp b a = CompOpp (cmp a b);
  cmp_le_trans : forall a b c, cmp a b <> Gt -> cmp b c <> Gt -> cmp a c <> Gt;
}.

(** [Ordering::then], and the orders of tuples, options and slices. *)
Definition cmp_then (o o' : comparison) : comparison := match o with Eq => o' | o => o end.
Definition cmp_on {A K} (f : A -> K) (cmp : K -> K -> comparison) (a b : A) : comparison := cmp (f a) (f b).
Definition cmp_lex {A} (c1 c2 : A -> A -> comparison) (a b : A) : comparison := cmp_then (c1 a b) (c2 a b).
Definition cmp_option {A} (cmp : A -> A -> comparison) (a b : option A) : comparison :=
  match a, b with
  | None, None => Eq
  | None, Some _ => Lt
  | Some _, None => Gt
  | Some a, Some b => cmp a b
  end.
Fixpoint cmp_list {A} (cmp : A -> A -> comparison) (a b : list A) : comparison :=
  match a, b with
  | [], [] => Eq
  | [], _ :: _ => Lt
  | _ :: _, [] => Gt
  | x :: a, y :: b => cmp_then (cmp x y) (cmp_list cmp a b)
  end.

Section ord.
Context {K : Type} (cmp : K -> K -> comparison) `{!OrdLaws cmp}.

Lemma cmp_refl a : cmp a a = Eq.
Proof. pose proof (cmp_antisym a a). by destruct (cmp a a). Qed.

Lemma cmp_eq_sym a b : cmp a b = Eq -> cmp b a = Eq.
Proof. intros Hab. by rewrite (cmp_antisym a b), Hab. Qed.

Lemma cmp_eq_l a b c : cmp a b = Eq -> cmp a c = cmp b c.
Proof.
  intros Hab. pose proof (cmp_eq_sym _ _ Hab) as Hba.
  destruct (cmp a c) eqn:Eac, (cmp b c) eqn:Ebc; try done; exfalso.
  - apply (cmp_le_trans c a b); [by rewrite (cmp_antisym a c), Eac|by rewrite Hab|].
    by rewrite (cmp_antisym b c), Ebc.
  - by apply (cmp_le_trans b a c); [rewrite Hba|rewrite Eac|].
  - apply (cmp_le_trans c b a); [by rewrite (cmp_antisym b c), Ebc|by rewrite Hba|].
    by rewrite (cmp_antisym a c), Eac.
  - by apply (cmp_le_trans b a c); [rewrite Hba|rewrite Eac|].
  - by apply (cmp_le_trans a b c); [rewrite Hab|rewrite Ebc|].
  - by apply (cmp_le_trans a b c); [rewrite Hab|rewrite Ebc|].
Qed.

Lemma cmp_eq_r a b c : cmp a b = Eq -> cmp c a = cmp c b.
Proof. intros Hab. rewrite (cmp_antisym a c), (cmp_antisym b c). f_equal. by apply cmp_eq_l. Qed.

Lemma cmp_lt_trans a b c : cmp a b = Lt -> cmp b c = Lt -> cmp a c = Lt.
Proof.
  intros Hab Hbc. destruct (cmp a c) eqn:Eac; [exfalso|done|exfalso].
  - rewrite (cmp_eq_l _ _ b Eac), (cmp_antisym b c), Hbc in Hab. done.
  - apply (cmp_le_trans a b c); by rewrite ?Hab, ?Hbc, ?Eac.
Qed.
End ord.

#[global] Instance cmp_on_laws {A K} (f : A -> K) cmp `{!OrdLaws cmp} : OrdLaws (cmp_on f cmp).
Proof. split; unfold cmp_on; intros; [apply cmp_antisym|by eapply (cmp_le_trans (f a) (f b))]. Qed.

#[global] Instance cmp_lex_laws {A} (c1 c2 : A -> A -> comparison) `{!OrdLaws c1, !OrdLaws c2} :
  OrdLaws (cmp_lex c1 c2).
Proof.
  split; unfold cmp_lex.
  - intros a b. rewrite (cmp_antisym a b), (cmp_antisym (cmp := c2) a b). by destruct (c1 a b).
  - intros a b c. destruct (c1 a b) eqn:Eab; cbn [cmp_then]; [|intros _|done].
    + rewrite (cmp_eq_l c1 _ _ c Eab). destruct (c1 b c); cbn [cmp_then]; [|done..].
      apply (cmp_le_trans (cmp := c2)).
    + destruct (c1 b c) eqn:Ebc; cbn [cmp_then]; [|intros _|done].
      * by rewrite <- (cmp_eq_r c1 _ _ a Ebc), Eab.
      * by rewrite (cmp_lt_trans c1 a b c).
Qed.

#[global] Instance cmp_option_laws {A} (cmp : A -> A -> comparison) `{!OrdLaws cmp} : OrdLaws (cmp_option cmp).
Proof.
  split; [intros [a|] [b|]; try done; apply (cmp_antisym (cmp := cmp))|].
  intros [a|] [b|] [c|]; try done. apply (cmp_le_trans (cmp := cmp)).
Qed.

#[global] Instance cmp_list_laws {A} (cmp : A -> A -> comparison) `{!OrdLaws cmp} : OrdLaws (cmp_list cmp).
Proof.
  split.
  - intros a. induction a as [|x a IH]; intros [|y b]; try done. cbn.
    rewrite (cmp_antisym x y), IH. by destruct (cmp x y).
  - intros a. induction a as [|x a IH]; intros [|y b] [|z c]; try done. cbn.
    destruct (cmp x y) eqn:Exy; cbn [cmp_then]; [|intros _|done].
    + rewrite (cmp_eq_l cmp _ _ z Exy). destruct (cmp y z); cbn [cmp_then]; [apply IH|done..].
    + destruct (cmp y z) eqn:Eyz; cbn [cmp_then]; [|intros _|done].
      * by rewrite <- (cmp_eq_r cmp _ _ x Eyz), Exy.
      * by rewrite (cmp_lt_trans cmp x y z).
Qed.

#[global] Instance nat_cmp_laws : OrdLaws Nat.compare.
Proof.
  split; [intros a b; apply Nat.compare_antisym|].
  intros a b c. rewrite !Nat.compare_le_iff. apply Nat.le_trans.
Qed.
#[global] Instance Z_cmp_laws : OrdLaws Z.compare.
Proof. split; [intros a b; apply Z.compare_antisym|]. intros a b c. apply Z.le_trans. Qed.

#[global] Instance byte_cmp_laws : OrdLaws (fun x y : byte => N.compare (Byte.to_N x) (Byte.to_N y)).
Proof. split; [intros a b; apply N.compare_antisym|]. intros a b c. apply N.le_trans. Qed.

Lemma str_cmp_list a b : str_cmp a b = cmp_list (fun x y => N.compare (Byte.to_N x) (Byte.to_N y)) a b.
Proof.
  revert b. induction a as [|x a IH]; intros [|y b]; [done..|]. cbn. rewrite IH. by destruct (N.compare _ _).
Qed.
#[global] Instance str_cmp_laws : OrdLaws str_cmp.
Proof.
  split.
  - intros a b. rewrite !str_cmp_list. apply cmp_antisym.
  - intros a b c. rewrite !str_cmp_list. apply cmp_le_trans.
Qed.

(** ** [BTreeMap] *)

Section btree.
Context {K V : Type} (cmp : K -> K -> comparison).

Fixpoint bt_get (k : K) (m : list (K * V)) : option V :=
  match m with
  | [] => None
  | (k', v) :: m => match cmp k k' with Eq => Some v | _ => bt_get k m end
  end.

(** [insert]: the key of an entry that is there is kept. *)
Fixpoint bt_insert (k : K) (v : V) (m : list (K * V)) : list (K * V) :=
  match m with
  | [] => [(k, v)]
  | (k', v') :: m =>
      match cmp k k' with
      | Lt => (k, v) :: (k', v') :: m
      | Eq => (k', v) :: m
      | Gt => (k', v') :: bt_insert k v m
      end
  end.

(** A change through [get_mut]. *)
Fixpoint bt_update (k : K) (f : V -> V) (m : list (K * V)) : list (K * V) :=
  match m with
  | [] => []
  | (k', v) :: m => match cmp k k' with Eq => (k', f v) :: m | _ => (k', v) :: bt_update k f m end
  end.

(** The entries are in strictly ascending order of their keys. *)
Definition bt_sorted (m : list (K * V)) : Prop := StronglySorted (fun a b => cmp a.1 b.1 = Lt) m.

Context `{!OrdLaws cmp}.

Lemma bt_insert_Forall (P : K * V -> Prop) k v m : Forall P m -> P (k, v) ->
  (forall k' v', (k', v') ∈ m -> cmp k k' = Eq -> P (k', v)) -> Forall P (bt_insert k v m).
Proof.
  intros Hm Hk He. induction m as [|[k' v'] m IH]; [by repeat constructor|].
  apply list.Forall_cons in Hm as [Hh Hm]. cbn [bt_insert]. destruct (cmp k k') eqn:E.
  - constructor; [|done]. apply (He k' v'); [by left|done].
  - by repeat constructor.
  - constructor; [done|]. apply IH; [done|]. intros k'' v'' Hin. apply (He k'' v''). by right.
Qed.

Lemma bt_insert_sorted k v m : bt_sorted m -> bt_sorted (bt_insert k v m).
Proof using OrdLaws0.
  unfold bt_sorted. induction m as [|[k' v'] m IH]; intros Hs; [by repeat constructor|].
  apply StronglySorted_inv in Hs as [Hs Hf]. cbn [bt_insert]. destruct (cmp k k') eqn:E.
  - constructor; [done|]. done.
  - constructor; [by constructor|]. constructor; [done|]. eapply list.Forall_impl; [exact Hf|].
    intros [k'' v'']. cbn. by apply cmp_lt_trans.
  - constructor; [by apply IH|]. apply bt_insert_Forall; [done| |].
    + cbn. by rewrite (cmp_antisym k k'), E.
    + intros k'' v'' Hin _. rewrite list.Forall_forall in Hf. by apply (Hf (k'', v'')).
Qed.

Lemma bt_update_fst k f m : (bt_update k f m).*1 = m.*1.
Proof. induction m as [|[k' v] m IH]; [done|]. cbn. destruct (cmp k k'); cbn; by f_equal. Qed.

Lemma bt_sorted_fst m : bt_sorted m <-> StronglySorted (fun a b => cmp a b = Lt) m.*1.
Proof.
  unfold bt_sorted. induction m as [|[k v] m IH]; cbn; [split; constructor|].
  split; intros [Hs Hf]%StronglySorted_inv; (constructor; [by apply IH|]).
  - by apply Forall_fmap.
  - by apply Forall_fmap in Hf.
Qed.

Lemma bt_update_sorted k f m : bt_sorted m -> bt_sorted (bt_update k f m).
Proof. by rewrite !bt_sorted_fst, bt_update_fst. Qed.

(** What a lookup finds after an insertion and after a change. *)
Lemma bt_get_eq k k' m : cmp k k' = Eq -> bt_get k m = bt_get k' m.
Proof using OrdLaws0.
  intros E. induction m as [|[k'' v] m IH]; [done|]. cbn [bt_get]. by rewrite (cmp_eq_l cmp _ _ k'' E), IH.
Qed.

Lemma bt_get_insert k v m k' :
  bt_get k' (bt_insert k v m) = match cmp k' k with Eq => Some v | _ => bt_get k' m end.
Proof using OrdLaws0.
  induction m as [|[k'' v''] m IH]; [done|]. cbn [bt_insert]. destruct (cmp k k'') eqn:E; cbn [bt_get].
  - rewrite (cmp_eq_r cmp _ _ k' E). by destruct (cmp k' k'').
  - done.
  - rewrite IH. destruct (cmp k' k'') eqn:E'; [|done..].
    rewrite (cmp_eq_l cmp _ _ k E'), (cmp_antisym k k''), E. done.
Qed.

Lemma bt_get_update k f m k' :
  bt_get k' (bt_update k f m) = if decide (cmp k' k = Eq) then f <$> bt_get k' m else bt_get k' m.
Proof using OrdLaws0.
  induction m as [|[k'' v] m IH]; [by case_decide|]. cbn [bt_update]. destruct (cmp k k'') eqn:E; cbn [bt_get].
  - rewrite (cmp_eq_r cmp _ _ k' E). destruct (cmp k' k'') eqn:E'; by case_decide.
  - rewrite IH. destruct (cmp k' k'') eqn:E'; [|done..]. rewrite decide_False; [done|].
    rewrite (cmp_eq_l cmp _ _ k E'), (cmp_antisym k k''), E. done.
  - rewrite IH. destruct (cmp k' k'') eqn:E'; [|done..]. rewrite decide_False; [done|].
    rewrite (cmp_eq_l cmp _ _ k E'), (cmp_antisym k k''), E. done.
Qed.

(** A lookup finds an entry, and every entry of a sorted map is found. *)
Lemma bt_get_elem k v m : bt_get k m = Some v -> exists k', (k', v) ∈ m /\ cmp k k' = Eq.
Proof.
  induction m as [|[k' v'] m IH]; [done|]. cbn [bt_get]. destruct (cmp k k') eqn:E.
  - intros [= ->]. exists k'. split; [by left|done].
  - intros (k'' & ? & ?)%IH. exists k''. split; [by right|done].
  - intros (k'' & ? & ?)%IH. exists k''. split; [by right|done].
Qed.

Lemma bt_elem_get k v m : bt_sorted m -> (k, v) ∈ m -> bt_get k m = Some v.
Proof using OrdLaws0.
  unfold bt_sorted. induction m as [|[k' v'] m IH]; intros Hs Hin; [by apply not_elem_of_nil in Hin|].
  apply StronglySorted_inv in Hs as [Hs Hf]. cbn [bt_get].
  apply elem_of_cons in Hin as [[= -> ->]|Hin]; [by rewrite (cmp_refl cmp)|].
  rewrite list.Forall_forall in Hf. specialize (Hf _ Hin). cbn in Hf.
  rewrite (cmp_antisym k' k), Hf. by apply IH.
Qed.

Lemma bt_insert_new k v m : bt_get k m = None -> bt_insert k v m ≡ₚ (k, v) :: m.
Proof.
  induction m as [|[k' v'] m IH]; [done|]. cbn [bt_get bt_insert]. destruct (cmp k k'); [done|done|].
  intros Hg. rewrite IH by done. apply perm_swap.
Qed.

(** Collecting entries whose keys the order tells apart: their sorted list. *)
Definition bt_collect (l : list (K * V)) (m : list (K * V)) : list (K * V) :=
  foldl (fun m e => bt_insert e.1 e.2 m) m l.

Lemma bt_collect_spec l m : bt_sorted m -> NoDup l.*1 ->
  (forall a b, a ∈ l.*1 -> b ∈ l.*1 -> cmp a b = Eq -> a = b) -> (forall k, k ∈ l.*1 -> bt_get k m = None) ->
  bt_sorted (bt_collect l m) /\ bt_collect l m ≡ₚ m ++ l.
Proof using OrdLaws0.
  revert m. induction l as [|[k v] l IH]; intros m Hm Hnd Hinj Hnone; [by rewrite app_nil_r|].
  cbn [fmap list_fmap fst] in *. apply list.NoDup_cons in Hnd as [Hk Hnd]. cbn [bt_collect foldl].
  destruct (IH (bt_insert k v m)) as [Hs Hp].
  - by apply bt_insert_sorted.
  - done.
  - intros a b Ha Hb. apply Hinj; by right.
  - intros k' Hk'. rewrite bt_get_insert. destruct (cmp k' k) eqn:E; [|apply Hnone; by right..].
    exfalso. apply Hk. apply Hinj in E; [|by right|by left]. by subst.
  - split; [done|]. etrans; [exact Hp|]. rewrite bt_insert_new by (apply Hnone; by left).
    cbn [app]. by rewrite Permutation_middle.
Qed.

Lemma bt_sorted_unique m m' : bt_sorted m -> bt_sorted m' -> m ≡ₚ m' -> m = m'.
Proof using OrdLaws0.
  intros Hs Hs' Hp. apply (StronglySorted_unique_strong (fun a b : K * V => cmp a.1 b.1 = Lt)); [|done..].
  intros a b _ _ Hab Hba. rewrite (cmp_antisym a.1 b.1), Hab in Hba. done.
Qed.
End btree.

(** ** [sort_by] and [sort_unstable_by_key] *)

Section sort.
Context {A : Type} (cmp : A -> A -> comparison).

Definition cmp_le (a b : A) : Prop := cmp a b <> Gt.
#[global] Instance cmp_le_dec : RelDecision cmp_le.
Proof. intros a b. unfold cmp_le. apply _. Defined.

Definition sort_by (l : list A) : list A := merge_sort cmp_le l.

Context `{!OrdLaws cmp}.

#[local] Instance cmp_le_total : Total cmp_le.
Proof using OrdLaws0. intros a b. unfold cmp_le. rewrite (cmp_antisym (cmp := cmp) a b). destruct (cmp a b); auto. Qed.
#[local] Instance cmp_le_transitive : Transitive cmp_le.
Proof using OrdLaws0. intros a b c. apply (cmp_le_trans (cmp := cmp)). Qed.

Lemma sort_by_perm l : sort_by l ≡ₚ l.
Proof. apply merge_sort_Permutation. Qed.
Lemma sort_by_sorted l : StronglySorted cmp_le (sort_by l).
Proof using OrdLaws0. apply (StronglySorted_merge_sort _). Qed.

(** Where the order tells the elements apart, the sorted list does not depend on the input's order. *)
Lemma sort_by_unique l l' : (forall a b, a ∈ l -> b ∈ l -> cmp a b = Eq -> a = b) -> l ≡ₚ l' -> sort_by l = sort_by l'.
Proof using OrdLaws0.
  intros Hu Hp. apply (StronglySorted_unique_strong cmp_le).
  - intros a b Ha Hb Hab Hba. apply Hu.
    + by rewrite <- sort_by_perm.
    + by rewrite Hp, <- (sort_by_perm l').
    + unfold cmp_le in *. rewrite (cmp_antisym (cmp := cmp) a b) in Hba. by destruct (cmp a b).
  - apply sort_by_sorted.
  - apply sort_by_sorted.
  - by rewrite !sort_by_perm.
Qed.
End sort.
