(* ===== verification/Web.v ===== *)
(** * Web sessions

    [http/hypermedia/util.rs], [error.rs], the four middlewares under
    [http/hypermedia/middleware], and the routes [login.rs], [logout.rs],
    [api_key.rs], [not_found.rs], [layout.rs]. Templates are rendered by code
    that askama generates: the class [Template] stands for it. A response is
    its status, the headers these layers read or write, and its body. *)

From S2P Require Import Prelude RustStr Numbers Errors VarName Value Client Status Auth Config State Api Semantic.

#[local] Open Scope Z_scope.

(** ** Rendering: [util.rs] and [error.rs] *)

(** The values a template is rendered with. *)
Record RenderValues := mkRenderValues {
  v_base_path : option UriPath;
  v_default_theme : option str;
  v_user_name : option Username;
  v_user_permission : option Permissions;
}.
Definition NO_VALUES : RenderValues := mkRenderValues None None None None.

(** [askama::Template]: the rendered text, or askama's error. *)
Class Template (T : Type) := render_with_values : T -> RenderValues -> outcome str str.
Definition render {T} `{Template T} (t : T) : outcome str str := render_with_values t NO_VALUES.

(** What [render_with_config] puts into the values: without a user, all permissions. *)
Definition config_values (config : ServerConfig) (user : option UserSession) : RenderValues :=
  mkRenderValues (Some (base_path (http_server config))) (default_theme config)
    (session_username <$> user)
    (Some (match user with
           | Some profile => permissions (access_token profile)
           | None => perm_all
           end)).
Definition render_with_config {T} `{Template T} (t : T) (config : ServerConfig) (user : option UserSession)
  : outcome str str := render_with_values t (config_values config user).

Record ErrorPage := mkErrorPage { error_message : str }.

(** [cookie::Cookie], built with [AUTH_COOKIE_NAME] as its name. *)
Record Cookie := mkCookie {
  cookie_value : str; http_only : bool; same_site_strict : bool; cookie_path : str;
  max_age : option Z; expires : option Z }.

Record WebResponse := mkWebResponse {
  web_status : Z;
  location : option str;
  hx_redirect : option str;
  hx_reswap : option str;
  set_cookie : option Cookie;
  web_body : str;
}.

(** [Html(..)], [Redirect::to], [Redirect::permanent]. *)
Definition Html (html : str) : WebResponse := mkWebResponse OK None None None None html.
Definition SEE_OTHER := 303.
Definition PERMANENT_REDIRECT := 308.
Definition Redirect_to (uri : str) : WebResponse := mkWebResponse SEE_OTHER (Some uri) None None None [].
Definition Redirect_permanent (uri : str) : WebResponse :=
  mkWebResponse PERMANENT_REDIRECT (Some uri) None None None [].

Definition set_hx_reswap (v : str) (r : WebResponse) : WebResponse :=
  mkWebResponse (web_status r) (location r) (hx_redirect r) (Some v) (set_cookie r) (web_body r).
Definition set_set_cookie (c : Cookie) (r : WebResponse) : WebResponse :=
  mkWebResponse (web_status r) (location r) (hx_redirect r) (hx_reswap r) (Some c) (web_body r).

(** [htmx_swap!] and [redirect_not_found!]. *)
Definition htmx_swap (r : WebResponse) (swap : str) : WebResponse := set_hx_reswap swap r.
Definition redirect_not_found (config : ServerConfig) : WebResponse :=
  Redirect_permanent (uri (base_path (http_server config)) ++ lit "/not-found").

(** [ErrorPage::from] of an error that prints as the text. *)
Definition ErrorPage_from {A} (r : outcome str A) : outcome ErrorPage A := map_err mkErrorPage r.

Definition ErrorPage_into_response `{Template ErrorPage} (e : ErrorPage) : WebResponse :=
  let html := match render e with
              | Ok html => html
              | Err err => lit "Something went wrong " ++ err
              | _ => []
              end in
  mkWebResponse INTERNAL_SERVER_ERROR None None None None html.

(** ** Requests and services *)

(** The cookie is the trimmed value of the cookie [AUTH_COOKIE_NAME]. *)
Record WebRequest := mkWebRequest { hx_request : bool; auth_cookie : option str }.

Definition AUTH_COOKIE_NAME : str := lit "_nutwg".
Definition AUTH_COOKIE_DURATION : Duration := from_secs (3600 * 24 * 30).
Definition AUTH_COOKIE_RENEW : Duration := from_secs (3600 * 24 * 7).

(** What a handler or service gives: its response, and the daemon connection it used as it left it. *)
Definition web_reply : Type := outcome ErrorPage WebResponse * option Stream.
Definition no_conn (r : outcome ErrorPage WebResponse) : web_reply := (r, None).

(** A service answers a request, given the session in its extensions. *)
Definition WebService := WebRequest -> option UserSession -> web_reply.

(** The response of a handler that returns [Result<Response, ErrorPage>]. *)
Definition into_response `{Template ErrorPage} (r : web_reply) : web_reply :=
  (match r.1 with Err e => Ok (ErrorPage_into_response e) | o => o end, r.2).

Definition map_reply (f : WebResponse -> WebResponse) (r : web_reply) : web_reply := (omap_ok f r.1, r.2).

(** The clock, as the layers read it one after the other. *)
Record Clock := mkClock { at_auth : Z; at_check : Z; at_issue : Z; at_cookie : Z }.

Record LoginTemplate := mkLoginTemplate { login_error : option str }.
(** [as_login_form]: the block of the template. *)
Record LoginFormBlock := as_login_form { login_template : LoginTemplate }.
Record LoginForm := mkLoginForm { form_username : Username; form_password : PasswordStr }.

Record ApiKeyFormTemplate := mkApiKeyForm { api_key_error : option str }.
Record ApiKeyFormBlock := as_api_key_form { api_key_template : ApiKeyFormTemplate }.
Record ApiKeySuccessTemplate := mkApiKeySuccess { api_key : str }.
(** [duration] is a non-zero [u64] of milliseconds. *)
Record ApiKeyForm := mkApiKeyRequest { key_permissions : Permissions; key_duration : Z }.

Inductive NotFoundTemplate := NotFound.
Record ThemesTemplate := mkThemes { themes_default : option str }.

Section web.

(** [BASE64_STANDARD], HMAC-SHA256 and scrypt. *)
Context (base64_encode : str -> str) (base64_decode : str -> option str).
Context (hmac : str -> str -> str) (verify_slice : str -> str -> str -> bool).
Context (scrypt : str -> str -> option str).
(** Does the cookie's text, or a text, become a [HeaderValue]; the text of the error. *)
Context (cookie_header_ok : Cookie -> bool) (header_ok : str -> bool) (invalid_header : str).
Context `{Template ErrorPage, Template NotificationTemplate, Template LoginTemplate, Template LoginFormBlock}.
Context `{Template ApiKeyFormTemplate, Template ApiKeyFormBlock, Template ApiKeySuccessTemplate}.
Context `{Template NotFoundTemplate, Template ThemesTemplate}.
Context (config : ServerConfig).

(** ** [auth_user.rs] *)

Inductive InvalidCookieValue := mkInvalidCookieValue.

Definition extract_user_session (now : Z) (user_store : UserStore) (req : WebRequest)
  : outcome InvalidCookieValue UserSession :=
  let err := mkInvalidCookieValue in
  match auth_cookie req with
  | Some value =>
      let? bytes := ok_or err (base64_decode value) in
      let? user_session := map_err (fun _ => err) (signer_from_bytes verify_slice (server_key config) bytes) in
      if is_active now (access_token user_session) && contains_user user_store (session_username user_session)
      then Ok user_session
      else Err err
  | None => Err err
  end.

Definition user_auth_call (now : Z) (user_store : UserStore) (login_redirect : str) (next : WebService)
  : WebService := fun req _ =>
  match extract_user_session now user_store req with
  | Ok session => next req (Some session)
  | Err _ =>
      no_conn (Ok (if hx_request req
                   then mkWebResponse OK None (Some login_redirect) None None []
                   else Redirect_to login_redirect))
  | Panicked => no_conn Panicked
  | OutOfFuel => no_conn OutOfFuel
  end.

(** ** [auth_renew_session.rs] *)

(** The cookie of a session: [now] is the time its remaining time is read. *)
Definition session_cookie (now : Z) (session : UserSession) : Cookie :=
  mkCookie (base64_encode (sign_token hmac (server_key config) session)) true true (lit "/")
    (Some (as_secs (ttl now (access_token session)))) None.

Definition renew_session_call (clock : Clock) (user_store : UserStore) (fresh : Z) (renew_duration : Duration)
  (next : WebService) : WebService := fun req session =>
  match session with
  | Some session =>
      if (ttl (at_check clock) (access_token session) <=? renew_duration) &&
         contains_user user_store (session_username session)
      then
        match renew_session user_store (session_username session) (at_issue clock) fresh with
        | Ok new_session =>
            let cookie := session_cookie (at_cookie clock) new_session in
            if cookie_header_ok cookie
            then map_reply (set_set_cookie cookie) (next req (Some new_session))
            else no_conn Panicked
        | _ => next req (Some session)
        end
      else next req (Some session)
  | None => next req None
  end.

(** ** [authorize_user.rs] *)

Definition not_authorized (req : WebRequest) : WebResponse :=
  if hx_request req then
    let template := set_level SError (NotificationTemplate_new (lit "User is not authorized for this action")) in
    let response := match ErrorPage_from (render_with_config template config None) with
                    | Ok html => Html html
                    | Err err => ErrorPage_into_response err
                    | _ => Html []
                    end in
    set_hx_reswap (lit "none") response
  else mkWebResponse FORBIDDEN None None None None (lit "Forbidden").

Definition authorize_user_call (p : Permissions) (next : WebService) : WebService := fun req session =>
  match session with
  | Some s =>
      if has_permission (access_token s) p then next req session
      else no_conn (Ok (not_authorized req))
  | None => no_conn (Ok (not_authorized req))
  end.

(** ** [htmx_redirect.rs] *)

Definition htmx_redirect (response : WebResponse) : WebResponse :=
  if (300 <=? web_status response) && (web_status response <? 400) then
    match location response with
    | Some l => mkWebResponse OK (Some l) (Some l) (hx_reswap response) (set_cookie response) (web_body response)
    | None => response
    end
  else response.

Definition htmx_redirect_call (next : WebService) : WebService := fun req session =>
  if hx_request req then map_reply htmx_redirect (next req session) else next req session.

(** ** [login.rs] *)

Context (auth_user_store : option UserStore).

Definition home_path : str := uri (base_path (http_server config)) ++ lit "/".

(** Is there a live session of a known user? *)
Definition logged_in (now : Z) (session : option UserSession) : bool :=
  match session with
  | Some session =>
      is_active now (access_token session) &&
      match auth_user_store with
      | Some s => contains_user s (session_username session)
      | None => false
      end
  | None => false
  end.

Definition login_get (now : Z) (session : option UserSession) : outcome ErrorPage WebResponse :=
  if logged_in now session then Ok (Redirect_to home_path)
  else
    let? template := ErrorPage_from (render_with_config (mkLoginTemplate None) config None) in
    Ok (Html template).

Definition login_form (message : str) : outcome ErrorPage WebResponse :=
  let? html := ErrorPage_from (render_with_config (as_login_form (mkLoginTemplate (Some message))) config None) in
  Ok (Html html).

(** [HeaderValue::from_str(..)?]. *)
Definition header_value {A} (ok : bool) (a : A) : outcome ErrorPage A :=
  if ok then Ok a else Err (mkErrorPage invalid_header).

Definition login_post (clock : Clock) (fresh : Z) (session : option UserSession) (form : outcome str LoginForm)
  : outcome ErrorPage WebResponse :=
  match form with
  | Ok login =>
      if logged_in (at_auth clock) session then Ok (Redirect_to home_path)
      else
        match auth_user_store with
        | Some store =>
            match login_user scrypt store (form_username login) (form_password login) (at_issue clock) fresh with
            | Ok session =>
                let cookie := session_cookie (at_cookie clock) session in
                let? set_cookie := header_value (cookie_header_ok cookie) cookie in
                let? redirect := header_value (header_ok home_path) home_path in
                Ok (mkWebResponse OK None (Some redirect) None (Some set_cookie) [])
            | Err _ => login_form (lit "Invalid credentials, check your username and password!")
            | Panicked => Panicked
            | OutOfFuel => OutOfFuel
            end
        | None => Err (mkErrorPage (lit "login routes are enabled but user store is missing"))
        end
  | Err err => login_form err
  | Panicked => Panicked
  | OutOfFuel => OutOfFuel
  end.

(** ** [logout.rs] *)

Definition logout_cookie : Cookie := mkCookie [] true true (lit "/") None (Some 0).
Definition logout_post : outcome ErrorPage WebResponse :=
  let? cookie := header_value (cookie_header_ok logout_cookie) logout_cookie in
  Ok (set_set_cookie cookie (Redirect_to home_path)).

(** ** [api_key.rs] *)

Definition api_key_get (session : UserSession) : outcome ErrorPage WebResponse :=
  let? html := ErrorPage_from (render_with_config (mkApiKeyForm None) config (Some session)) in
  Ok (Html html).

(** The token of a new key. *)
Definition new_api_token (now fresh : Z) (request : ApiKeyForm) : AccessToken :=
  build now fresh
    (with_valid_until (with_permissions AccessTokenBuilder_new (key_permissions request))
       (from_millis (key_duration request))).

Definition api_key_post (now fresh : Z) (session : UserSession) (form : outcome str ApiKeyForm)
  : outcome ErrorPage WebResponse :=
  match form with
  | Ok request =>
      if match auth_user_store with
         | Some s => contains_user s (session_username session)
         | None => false
         end
      then
        if has_permission (access_token session) (key_permissions request) then
          let signed_bytes := sign_token hmac (server_key config) (new_api_token now fresh request) in
          let template := mkApiKeySuccess (base64_encode signed_bytes) in
          let? html := ErrorPage_from (render_with_config template config (Some session)) in
          Ok (Html html)
        else
          let template := set_level SError
            (NotificationTemplate_new (lit "User doesn't have the necessary permissions.")) in
          let? html := ErrorPage_from (render_with_config template config (Some session)) in
          Ok (htmx_swap (Html html) (lit "none"))
      else Ok (redirect_not_found config)
  | Err details =>
      let template := as_api_key_form (mkApiKeyForm (Some details)) in
      let? html := ErrorPage_from (render_with_config template config (Some session)) in
      Ok (Html html)
  | Panicked => Panicked
  | OutOfFuel => OutOfFuel
  end.

(** ** [not_found.rs] and [layout.rs] *)

Definition not_found_get (session : option UserSession) : outcome ErrorPage WebResponse :=
  let? html := ErrorPage_from (render_with_config NotFound config session) in
  Ok (mkWebResponse NOT_FOUND None None None None html).

Definition get_themes : outcome ErrorPage WebResponse :=
  let? html := ErrorPage_from (render_with_config (mkThemes (default_theme config)) config None) in
  Ok (Html html).

End web.

(** ** Lemmas *)

(** What the code relies on of base64: it is read back, and printed as visible ASCII. *)
Definition base64_documented (encode : str -> str) (decode : str -> option str) : Prop :=
  (forall b, decode (encode b) = Some b) /\
  (forall b, forallb plain_byte (encode b) = true) /\ (forall b, b <> [] -> encode b <> []).

(** The names of the store's users are user names, and their permissions bytes. *)
Definition users_valid (store : UserStore) : Prop :=
  0 <= session_duration store /\
  forall n u, inner store !! n = Some u -> is_u8 (perm_bits (profile_permissions (profile u))).
Definition username_valid (u : Username) : Prop :=
  utf8_valid (username_str u) = true /\ trim (username_str u) <> [].

Lemma build_wf now fresh b : is_u64 now -> is_u64 fresh -> 0 <= builder_valid_until b ->
  is_u8 (perm_bits (builder_permissions b)) -> AccessToken_wf (build now fresh b).
Proof.
  intros Hn Hf Hd Hp. pose proof (Z.div_pos (builder_valid_until b) 1000000000 Hd ltac:(lia)).
  unfold AccessToken_wf, build, u64_saturating_add, as_secs, is_u64, u64_max in *.
  cbn [permissions issued_at valid_until nonce]. split_and!; try done; lia.
Qed.

Lemma new_session_wf store name u now fresh : users_valid store -> inner store !! username_str name = Some u ->
  username_valid name -> is_u64 now -> is_u64 fresh -> UserSession_wf (new_session store name u now fresh).
Proof.
  intros [Hd Hu] Hl Hname Hn Hf. split; [|done]. apply build_wf; [done..|]. by eapply Hu.
Qed.

Section web_lemmas.

Context (base64_encode : str -> str) (base64_decode : str -> option str).
Context (hmac : str -> str -> str) (verify_slice : str -> str -> str -> bool).
Context (Hmac : hmac_documented hmac verify_slice).
Context (Hb64 : base64_documented base64_encode base64_decode).
Context (config : ServerConfig).

(** An accepted cookie carries a signed, live session of a known user. *)
Lemma extract_session_ok now store req s :
  extract_user_session base64_decode verify_slice config now store req = Ok s <->
  exists value, auth_cookie req = Some value /\
    base64_decode value = Some (sign_token hmac (server_key config) s) /\ UserSession_wf s /\
    is_active now (access_token s) = true /\ contains_user store (session_username s) = true.
Proof using Hmac.
  unfold extract_user_session. destruct (auth_cookie req) as [value|]; [|split; [done|by intros (? & ? & _)]].
  destruct (base64_decode value) as [bytes|] eqn:Eb; cbn [ok_or obind].
  2:{ split; [done|]. intros (? & [= <-] & ? & _). congruence. }
  destruct (signer_from_bytes verify_slice _ bytes) as [s'| | |] eqn:Es.
  - cbn [map_err obind]. apply (signer_accepts hmac verify_slice Hmac _ (H0 := UserSession_laws)) in Es as (Hw & _ & ->).
    split.
    + destruct (_ && _) eqn:E; [|done]. intros [= <-]. apply andb_prop in E as [? ?]. eauto 10.
    + intros (v & [= <-] & Hd & Hw' & Ha & Hc). apply (eq_trans (eq_sym Eb)), (inj Some) in Hd.
      assert (s' = s) as ->; [|by rewrite Ha, Hc].
      assert (Hin : forall a, UserSession_wf a -> signer_from_bytes verify_slice (server_key config)
        (sign_token hmac (server_key config) a) = Ok a).
      { intros a Hwa. apply (signer_accepts hmac verify_slice Hmac _ (H0 := UserSession_laws)). by split_and!. }
      pose proof (Hin s' Hw) as Hsgn. rewrite Hd, (Hin s Hw') in Hsgn. congruence.
  - split; [done|]. intros (v & [= <-] & Hd & Hw' & _). apply (eq_trans (eq_sym Eb)), (inj Some) in Hd. subst bytes.
    rewrite (proj2 (signer_accepts hmac verify_slice Hmac _ (H0 := UserSession_laws) _ s)) in Es; [done|].
    by split_and!.
  - pose proof (signer_total verify_slice (H0 := UserSession_laws) (server_key config) bytes) as Ht.
    rewrite Es in Ht. by destruct Ht.
  - pose proof (signer_total verify_slice (H0 := UserSession_laws) (server_key config) bytes) as Ht.
    rewrite Es in Ht. by destruct Ht.
Qed.

(** The cookie of a session, brought back, is that session for as long as it is live. *)
Lemma cookie_session now at_cookie store s hx : UserSession_wf s -> contains_user store (session_username s) = true ->
  extract_user_session base64_decode verify_slice config now store
    (mkWebRequest hx (Some (cookie_value (session_cookie base64_encode hmac config at_cookie s)))) =
  (if is_active now (access_token s) then Ok s else Err mkInvalidCookieValue).
Proof using Hmac Hb64.
  intros Hw Hc. destruct (is_active now (access_token s)) eqn:Ea.
  - apply extract_session_ok. eexists. cbn [auth_cookie]. split; [done|]. cbn [cookie_value session_cookie].
    destruct Hb64 as [Hd _]. by rewrite Hd.
  - unfold extract_user_session. cbn [auth_cookie cookie_value session_cookie]. destruct Hb64 as [Hd _].
    rewrite Hd. cbn [ok_or obind].
    rewrite (proj2 (signer_accepts hmac verify_slice Hmac _ (H0 := UserSession_laws) _ s)) by (by split_and!).
    cbn [map_err obind]. by rewrite Ea.
Qed.

End web_lemmas.

(** The length of a signature tells the two kinds of signed token apart. *)
Lemma signed_kinds_differ hmac verify_slice key (t : AccessToken) (s : UserSession) :
  hmac_documented hmac verify_slice -> UserSession_wf s -> sign_token hmac key t <> sign_token hmac key s.
Proof.
  intros [Hlen _] (_ & _ & Htrim) Heq. apply (f_equal length) in Heq.
  unfold sign_token in Heq. rewrite !length_app, !Hlen in Heq.
  cbn [as_bytes AccessToken_binary UserSession_binary] in Heq. unfold UserSession_as_bytes in Heq.
  rewrite length_app, !length_as_bytes in Heq.
  apply Htrim. assert (Hn : length (username_str (session_username s)) = 0%nat) by lia.
  apply length_zero_iff_nil in Hn. by rewrite Hn.
Qed.

Lemma extract_session_total decode verify config now store req :
  extract_user_session decode verify config now store req <> Panicked /\
  extract_user_session decode verify config now store req <> OutOfFuel.
Proof.
  unfold extract_user_session. destruct (auth_cookie req) as [v|]; [|done].
  destruct (decode v) as [bytes|]; [|done]. cbn [ok_or obind].
  destruct (signer_total verify (H0 := UserSession_laws) (server_key config) bytes) as [Hp Hf].
  destruct (signer_from_bytes _ _ _) as [s| | |]; try done. cbn [map_err obind]. by destruct (_ && _).
Qed.

(** An accepted session is live, and the store knows its user. *)
Lemma extract_session_live decode verify config now store req s :
  extract_user_session decode verify config now store req = Ok s ->
  is_active now (access_token s) = true /\ contains_user store (session_username s) = true.
Proof.
  unfold extract_user_session. destruct (auth_cookie req); [|done].
  destruct (decode _); [|done]. cbn [ok_or obind].
  destruct (signer_from_bytes _ _ _) as [s'| | |]; try done. cbn [map_err obind].
  destruct (_ && _) eqn:Ha; [|done]. intros [= <-]. by apply andb_prop in Ha.
Qed.

(** ** The session of a login *)

(** C21: A successful login answers 200 with an HTMX redirect to the home page and a session cookie that
    scripts cannot read; brought back at any later second, by any kind of request, it is the
    session of the user who logged in, with the permissions of his profile, exactly until the
    session duration is over and as long as the store still knows him. *)
Theorem login_session_roundtrip
  (base64_encode : str -> str) (base64_decode : str -> option str)
  (hmac : str -> str -> str) (verify_slice : str -> str -> str -> bool)
  (scrypt : str -> str -> option str) (cookie_header_ok : Cookie -> bool) (header_ok : str -> bool)
  (invalid_header : str) `{Template LoginTemplate, Template LoginFormBlock} (config : ServerConfig)
  (Hmac : hmac_documented hmac verify_slice) (Hb64 : base64_documented base64_encode base64_decode)
  (store : UserStore) (Hst : users_valid store) (clock : Clock) (fresh : Z) (form : LoginForm)
  (Hname : username_valid (form_username form)) (Hnow : is_u64 (at_issue clock)) (Hf : is_u64 fresh)
  (session : UserSession)
  (Hlogin : login_user scrypt store (form_username form) (form_password form) (at_issue clock) fresh = Ok session)
  (Hcookie : cookie_header_ok (session_cookie base64_encode hmac config (at_cookie clock) session) = true)
  (Hhome : header_ok (home_path config) = true) :
  exists c, login_post base64_encode hmac scrypt cookie_header_ok header_ok invalid_header config (Some store)
      clock fresh None (Ok form) = Ok (mkWebResponse OK None (Some (home_path config)) None (Some c) []) /\
    http_only c = true /\ same_site_strict c = true /\
    session_username session = form_username form /\
    (exists u, inner store !! username_str (form_username form) = Some u /\
       permissions (access_token session) = profile_permissions (profile u)) /\
    forall later hx store', at_issue clock <= later ->
      contains_user store' (form_username form) = true ->
      extract_user_session base64_decode verify_slice config later store' (mkWebRequest hx (Some (cookie_value c))) =
      (if decide (later < Z.min (at_issue clock + session_duration store / 1000000000) u64_max)
       then Ok session else Err mkInvalidCookieValue).
Proof.
  assert (Hs : exists u, inner store !! username_str (form_username form) = Some u /\
    session = new_session store (form_username form) u (at_issue clock) fresh).
  { unfold login_user in Hlogin. destruct (inner store !! _) as [u|]; [|done].
    destruct (scrypt _ _); [|done]. destruct (cmp_hash _ _); [|done]. injection Hlogin as <-. eauto. }
  destruct Hs as (u & Hu & Hs).
  assert (Hw : UserSession_wf session) by (rewrite Hs; by apply new_session_wf).
  eexists. split; [|split; [|split; [|split; [|split]]]].
  - unfold login_post. cbn [logged_in]. rewrite Hlogin, Hcookie, Hhome. reflexivity.
  - done.
  - done.
  - by rewrite Hs.
  - exists u. by rewrite Hs.
  - intros later hx store' Hl Hc.
    rewrite (cookie_session base64_encode base64_decode hmac verify_slice Hmac Hb64 config); [|done|by rewrite Hs].
    rewrite Hs. unfold is_active, new_session, build, u64_saturating_add, as_secs.
    cbn [access_token issued_at valid_until builder_valid_until with_valid_until].
    rewrite bool_decide_eq_true_2 by done. cbn [andb].
    destruct (decide (later < _)) as [Hd|Hd]; [rewrite bool_decide_eq_true_2|rewrite bool_decide_eq_false_2];
      try done; unfold u64_max in *; lia.
Qed.

(** ** Renewal *)

Lemma ttl_new_session store name u now fresh later : 0 <= session_duration store ->
  is_u64 now -> now + session_duration store / 1000000000 <= u64_max -> now <= later ->
  ttl later (access_token (new_session store name u now fresh)) =
  from_secs (Z.max 0 (now + session_duration store / 1000000000 - later)).
Proof.
  intros Hd Hn Hm Hl. unfold ttl, new_session, build, u64_saturating_add, u64_saturating_sub, as_secs.
  cbn [access_token valid_until builder_valid_until with_valid_until]. rewrite Z.min_l by done. f_equal. lia.
Qed.

(** C22: Behind the session layers a handler runs only with a live session of a known user, everyone else is
    sent to the login page; a session with at most a week left is replaced, for that very request
    and in the cookie of its response, by one of the user's current permissions, where the request ends in
    a panic instead, with no handler run, if the text of the new cookie is no header value; a session with more
    left is passed on as it is; and a session renewed for 30 days is not renewed again within the
    next 23. *)
Theorem session_layers_spec
  (base64_encode : str -> str) (base64_decode : str -> option str)
  (hmac : str -> str -> str) (verify_slice : str -> str -> str -> bool) (cookie_header_ok : Cookie -> bool)
  (config : ServerConfig) (store : UserStore) (clock : Clock) (fresh : Z) (login : str) (next : WebService)
  (req : WebRequest) (other : option UserSession) :
  let layers := user_auth_call base64_decode verify_slice config (at_auth clock) store login
    (renew_session_call base64_encode hmac cookie_header_ok config clock store fresh AUTH_COOKIE_RENEW next) in
  match extract_user_session base64_decode verify_slice config (at_auth clock) store req with
  | Ok s =>
      is_active (at_auth clock) (access_token s) = true /\
      exists u, inner store !! username_str (session_username s) = Some u /\
      if decide (ttl (at_check clock) (access_token s) <= AUTH_COOKIE_RENEW) then
        let s' := new_session store (session_username s) u (at_issue clock) fresh in
        let cookie := session_cookie base64_encode hmac config (at_cookie clock) s' in
        layers req other = (if cookie_header_ok cookie then map_reply (set_set_cookie cookie) (next req (Some s'))
                            else no_conn Panicked) /\
        session_username s' = session_username s /\
        permissions (access_token s') = profile_permissions (profile u) /\
        (session_duration store = AUTH_COOKIE_DURATION -> is_u64 (at_issue clock) ->
         at_issue clock + 2592000 <= u64_max ->
         forall later, at_issue clock <= later < at_issue clock + 23 * 86400 ->
           AUTH_COOKIE_RENEW < ttl later (access_token s'))
      else layers req other = next req (Some s)
  | Err _ =>
      layers req other = no_conn (Ok (if hx_request req then mkWebResponse OK None (Some login) None None []
                                      else Redirect_to login))
  | _ => False
  end.
Proof.
  cbv zeta. unfold user_auth_call.
  destruct (extract_session_total base64_decode verify_slice config (at_auth clock) store req) as [Hp Hf].
  destruct (extract_user_session _ _ _ _ _ _) as [s| | |] eqn:E; [|done..].
  apply extract_session_live in E as [Ha Hc]. split; [done|].
  unfold renew_session_call. rewrite Hc, andb_true_r.
  unfold contains_user in Hc. apply bool_decide_eq_true in Hc as [u Hu]. exists u. split; [done|].
  destruct (decide (_ <= AUTH_COOKIE_RENEW)) as [Hd|Hd].
  - rewrite (proj2 (Z.leb_le _ _) Hd). unfold renew_session. rewrite Hu. split; [done|]. split; [done|].
    split; [done|]. intros Hdur Hn Hm later Hl. rewrite ttl_new_session; try rewrite Hdur; try done; [|lia].
    change (AUTH_COOKIE_DURATION / 1000000000) with 2592000. unfold AUTH_COOKIE_RENEW, from_secs. lia.
  - by rewrite (proj2 (Z.leb_gt _ _)) by lia.
Qed.

(** ** API keys *)

Lemma plain_trim w : forallb plain_byte w = true -> trim w = w.
Proof.
  intros Hw. destruct w as [|a m]; [done|].
  assert (Hp : forall c, c ∈ a :: m -> is_ascii c = true /\ char_is_whitespace [c] = false).
  { intros c Hc. rewrite forallb_forall in Hw. apply list_elem_of_In, Hw in Hc. unfold plain_byte in Hc.
    apply andb_prop in Hc as [? ?]. by destruct (char_is_whitespace [c]). }
  destruct (list.last (a :: m)) as [b|] eqn:Hl; [|by apply list.last_None in Hl].
  assert (Hb : b ∈ a :: m) by (apply list.last_Some in Hl as [l ->]; apply elem_of_app; right; by left).
  apply (trim_ascii_id m a b); [done| |apply Hp; by left|by apply Hp].
  apply forallb_forall. intros c Hc. by apply Hp, list_elem_of_In.
Qed.

Lemma bearer_header key : forallb plain_byte key = true -> key <> [] ->
  trim (lit "Bearer " ++ key) = lit "Bearer " ++ key /\ split_once_ws (lit "Bearer " ++ key) = Some (lit "Bearer", key).
Proof.
  intros Hk Hne. split; [|vm_compute; reflexivity].
  destruct (list.last key) as [b|] eqn:Hl; [|by apply list.last_None in Hl].
  assert (Hb : is_ascii b = true /\ char_is_whitespace [b] = false).
  { apply list.last_Some in Hl as [l ->]. rewrite forallb_app in Hk. apply andb_prop in Hk as [_ Hk].
    cbn [forallb] in Hk. apply andb_prop in Hk as [Hk _]. unfold plain_byte in Hk.
    apply andb_prop in Hk as [? ?]. by destruct (char_is_whitespace [b]). }
  change (lit "Bearer " ++ key) with ("B"%byte :: (lit "earer " ++ key)).
  apply (trim_ascii_id _ _ b); [| |done|apply Hb].
  - change ("B"%byte :: (lit "earer " ++ key)) with (lit "Bearer " ++ key). rewrite list.last_app, Hl. done.
  - change ("B"%byte :: (lit "earer " ++ key)) with (lit "Bearer " ++ key). rewrite forallb_app.
    apply andb_true_intro. split; [done|]. apply forallb_forall. intros c Hc. rewrite forallb_forall in Hk.
    apply Hk in Hc. unfold plain_byte in Hc. by apply andb_prop in Hc as [? _].
Qed.

(** C23: An API key is given only to a session of a known user that has every permission of the key, and the
    page shows the key itself; sent as a bearer token, the key is accepted by the data API exactly
    from its issue on for the whole seconds of the requested duration, as a token that allows
    nothing the session does not allow, and it is never accepted as a session cookie. *)
Theorem api_key_no_escalation
  (base64_encode : str -> str) (base64_decode : str -> option str)
  (hmac : str -> str -> str) (verify_slice : str -> str -> str -> bool)
  `{Template NotificationTemplate, Template ApiKeyFormBlock, Template ApiKeySuccessTemplate}
  (config : ServerConfig) (store : option UserStore)
  (Hmac : hmac_documented hmac verify_slice) (Hb64 : base64_documented base64_encode base64_decode)
  (now fresh : Z) (Hnow : is_u64 now) (Hf : is_u64 fresh) (session : UserSession) (request : ApiKeyForm)
  (Hd : 0 < key_duration request <= u64_max) (Hp : is_u8 (perm_bits (key_permissions request))) :
  let token := new_api_token now fresh request in
  let key := base64_encode (sign_token hmac (server_key config) token) in
  let allowed := has_permission (access_token session) (key_permissions request) in
  let known := match store with Some s => contains_user s (session_username session) | None => false end in
  api_key_post base64_encode hmac config store now fresh session (Ok request) =
    (if known then
       if allowed then omap_ok Html (ErrorPage_from (render_with_config (mkApiKeySuccess key) config (Some session)))
       else omap_ok (fun html => htmx_swap (Html html) (lit "none"))
              (ErrorPage_from (render_with_config (set_level SError
                 (NotificationTemplate_new (lit "User doesn't have the necessary permissions."))) config (Some session)))
     else Ok (redirect_not_found config)) /\
  (forall later req, authorization req = Some (Some (lit "Bearer " ++ key)) ->
     extract_bearer_token base64_decode verify_slice (server_key config) later req =
     if decide (now <= later < Z.min (now + key_duration request / 1000) u64_max) then Ok token
     else Err mkInvalidAuthHeaderValue) /\
  (allowed = true -> forall p, perm_has (permissions token) p = true -> has_permission (access_token session) p = true) /\
  (forall later st hx, extract_user_session base64_decode verify_slice config later st (mkWebRequest hx (Some key)) =
     Err mkInvalidCookieValue).
Proof.
  cbv zeta. set (token := new_api_token now fresh request).
  assert (Hw : AccessToken_wf token).
  { apply build_wf; [done|done| |done]. cbn [builder_valid_until with_valid_until]. unfold from_millis. lia. }
  split; [|split; [|split]].
  - unfold api_key_post. fold token. destruct (match store with Some _ => _ | None => _ end); [|done].
    destruct (has_permission _ _); [|by destruct (ErrorPage_from _)].
    by destruct (ErrorPage_from _).
  - intros later req Hreq. unfold extract_bearer_token. rewrite Hreq. cbn [mjoin option_join ok_or obind].
    destruct Hb64 as (Hdec & Hplain & Hne). set (bytes := sign_token hmac (server_key config) token).
    assert (Hnil : base64_encode bytes <> []) by (by apply Hne).
    destruct (bearer_header (base64_encode bytes) (Hplain bytes) Hnil) as [Ht Hsp].
    rewrite Ht, Hsp. rewrite decide_False by done.
    change (eq_ignore_ascii_case (trim (lit "Bearer")) (lit "bearer")) with true. cbn [negb].
    rewrite plain_trim by apply Hplain. rewrite Hdec. cbn [ok_or obind].
    rewrite (proj2 (signer_accepts hmac verify_slice Hmac _ (H0 := AccessToken_laws) _ token)) by (by split_and!).
    cbn [map_err obind]. unfold token, new_api_token, is_active, build, u64_saturating_add, as_secs, from_millis.
    cbn [issued_at valid_until builder_valid_until with_valid_until].
    replace (key_duration request * 1000000 / 1000000000) with (key_duration request / 1000)
      by (change 1000000000 with (1000 * 1000000); rewrite Z.div_mul_cancel_r; lia).
    destruct (decide (now <= later < _)) as [Hd'|Hd'].
    + by rewrite !bool_decide_eq_true_2 by lia.
    + destruct (bool_decide (now <= later)) eqn:E1; [|done]. apply bool_decide_eq_true in E1.
      by rewrite bool_decide_eq_false_2 by lia.
  - intros Ha p. apply perm_has_trans. exact Ha.
  - intros later st hx.
    destruct (extract_user_session _ _ _ later st _) as [s| | |] eqn:E.
    + apply (extract_session_ok base64_decode hmac verify_slice Hmac) in E as (v & [= <-] & Hdec & Hws & _).
      rewrite (proj1 Hb64) in Hdec. apply (inj Some) in Hdec. by apply (signed_kinds_differ _ _ _ _ _ Hmac) in Hdec.
    + by destruct e.
    + exfalso. revert E. apply extract_session_total.
    + exfalso. revert E. apply extract_session_total.
Qed.

(** ** Witnesses *)

(** A base64 stand-in for examples: two letters per byte. *)
Definition demo_nibble (n : N) : byte := byte_of_N (97 + n).
Definition demo_encode (b : str) : str :=
  mjoin ((fun c => [demo_nibble (Byte.to_N c / 16); demo_nibble (Byte.to_N c mod 16)]) <$> b).
Fixpoint demo_decode64 (s : str) : str :=
  match s with
  | a :: b :: s => byte_of_N (16 * (Byte.to_N a - 97) + (Byte.to_N b - 97)) :: demo_decode64 s
  | _ => []
  end.

Lemma demo_base64_documented : base64_documented demo_encode (fun s => Some (demo_decode64 s)).
Proof.
  assert (Hbyte : forall c, [c] = demo_decode64 (demo_encode [c]) /\ forallb plain_byte (demo_encode [c]) = true).
  { assert (Hb : forall c, bool_decide ([c] = demo_decode64 (demo_encode [c])) && forallb plain_byte (demo_encode [c]) = true)
      by (apply forall_byte; vm_compute; reflexivity).
    intros c. specialize (Hb c). apply andb_prop in Hb as [Hb ?]. by apply bool_decide_eq_true in Hb. }
  split; [|split].
  - intros b. f_equal. induction b as [|c b IH]; [done|]. destruct (Hbyte c) as [Hc _].
    cbn [demo_encode fmap list_fmap mjoin list_join app demo_decode64] in Hc |- *.
    injection Hc as Hc. rewrite <- Hc. by f_equal.
  - intros b. induction b as [|c b IH]; [done|]. destruct (Hbyte c) as [_ Hc].
    change (demo_encode (c :: b)) with (demo_encode [c] ++ demo_encode b). by rewrite forallb_app, Hc, IH.
  - intros [|c b]; done.
Qed.

#[local] Instance demo_template T : Template T := fun _ _ => Ok (lit "page").

Definition ann : Username := mkUsername (lit "ann").
Definition demo_store : UserStore := store_build (with_session_duration
  (mkStoreBuilder {[ lit "ann" := mkUser (mkProfile INSTCMD ann) [] (default [] (demo_scrypt (lit "pw") [])) ]} None)
  AUTH_COOKIE_DURATION).
Definition demo_config : ServerConfig := ServerConfig_default (lit "key").
Definition demo_clock : Clock := mkClock 100 100 100 100.
Definition demo_session : UserSession :=
  mkUserSession ann (mkAccessToken INSTCMD (100 + 2592000) 100 3).

Lemma demo_users_valid : users_valid demo_store.
Proof.
  split; [by vm_compute|]. intros n u Hn.
  change (inner demo_store) with
    ({[ lit "ann" := mkUser (mkProfile INSTCMD ann) [] (default [] (demo_scrypt (lit "pw") [])) ]} : gmap str User) in Hn.
  apply lookup_singleton_Some in Hn as [<- <-]. split; by vm_compute.
Qed.

Lemma login_session_roundtrip_witness :
  exists c, login_post demo_encode demo_hmac demo_scrypt (fun _ => true) (fun _ => true) [] demo_config
      (Some demo_store) demo_clock 3 None (Ok (mkLoginForm ann (mkPassword (lit "pw")))) =
    Ok (mkWebResponse OK None (Some (lit "/")) None (Some c) []) /\
  extract_user_session (fun s => Some (demo_decode64 s)) demo_verify demo_config 500 demo_store
    (mkWebRequest false (Some (cookie_value c))) = Ok demo_session.
Proof.
  destruct (login_session_roundtrip demo_encode (fun s => Some (demo_decode64 s)) demo_hmac demo_verify demo_scrypt
    (fun _ => true) (fun _ => true) [] demo_config demo_hmac_documented demo_base64_documented demo_store
    demo_users_valid demo_clock 3 (mkLoginForm ann (mkPassword (lit "pw"))) ltac:(split; by vm_compute)
    ltac:(by vm_compute) ltac:(by vm_compute) demo_session ltac:(vm_compute; reflexivity) eq_refl eq_refl)
    as (c & Hpost & _ & _ & _ & _ & Hback).
  exists c. split; [exact Hpost|]. rewrite (Hback 500 false demo_store); [reflexivity|by vm_compute|by vm_compute].
Defined.

Definition demo_old_request : WebRequest :=
  mkWebRequest true (Some (demo_encode (sign_token demo_hmac (server_key demo_config) demo_session))).
Definition demo_renewed (now : Z) : UserSession :=
  new_session demo_store ann (mkUser (mkProfile INSTCMD ann) [] (default [] (demo_scrypt (lit "pw") []))) now 3.

(** A session of 30 days, used on its 25th and on its first day. *)
Lemma session_layers_spec_witness :
  let clock now := mkClock now now now now in
  let layers now := user_auth_call (fun s => Some (demo_decode64 s)) demo_verify demo_config now demo_store (lit "/login")
    (renew_session_call demo_encode demo_hmac (fun _ => true) demo_config (clock now) demo_store 3 AUTH_COOKIE_RENEW
       (fun _ session => no_conn (Ok (Html (default [] (username_str ∘ session_username <$> session)))))) in
  layers 2160100 demo_old_request None =
    no_conn (Ok (set_set_cookie (session_cookie demo_encode demo_hmac demo_config 2160100 (demo_renewed 2160100))
      (Html (lit "ann")))) /\
  AUTH_COOKIE_RENEW < ttl (2160100 + 1900000) (access_token (demo_renewed 2160100)) /\
  layers 200 demo_old_request None = no_conn (Ok (Html (lit "ann"))).
Proof.
  cbv zeta.
  pose proof (fun now => session_layers_spec demo_encode (fun s => Some (demo_decode64 s)) demo_hmac demo_verify
    (fun _ => true) demo_config demo_store (mkClock now now now now) 3 (lit "/login")
    (fun _ session => no_conn (Ok (Html (default [] (username_str ∘ session_username <$> session)))))
    demo_old_request None) as Hs. cbv zeta in Hs.
  assert (Hx : forall now, now = 2160100 \/ now = 200 -> extract_user_session (fun s => Some (demo_decode64 s)) demo_verify
    demo_config now demo_store demo_old_request = Ok demo_session) by (intros now [-> | ->]; vm_compute; reflexivity).
  pose proof (Hs 2160100) as H1. pose proof (Hs 200) as H2. cbn [at_auth at_check at_issue at_cookie] in H1, H2.
  rewrite Hx in H1, H2 by lia. destruct H1 as (_ & u & Hu & H1), H2 as (_ & v & _ & H2).
  vm_compute in Hu. injection Hu as <-.
  rewrite decide_True in H1 by (by vm_compute). rewrite decide_False in H2 by (by vm_compute).
  destruct H1 as (H1 & _ & _ & H3). split; [exact H1|]. split; [|exact H2].
  apply (H3 eq_refl); [by vm_compute|by vm_compute|lia].
Defined.

Lemma api_key_no_escalation_witness :
  api_key_post demo_encode demo_hmac demo_config (Some demo_store) 100 7 demo_session (Ok (mkApiKeyRequest FSD 60000)) =
  Ok (htmx_swap (Html (lit "page")) (lit "none")).
Proof.
  rewrite (proj1 (api_key_no_escalation demo_encode (fun s => Some (demo_decode64 s)) demo_hmac demo_verify
    demo_config (Some demo_store) demo_hmac_documented demo_base64_documented 100 7 ltac:(by vm_compute)
    ltac:(by vm_compute) demo_session (mkApiKeyRequest FSD 60000) ltac:(by vm_compute) ltac:(by vm_compute))).
  vm_compute. reflexivity.
Defined.
