(* ===== verification/WebWrite.v ===== *)
(** * Writing to a device from the web pages

    [http/hypermedia/route/ups/rw.rs], [instcmd.rs] and [fsd.rs]: the handlers
    behind the forms of a device's page. They run on the connection that the
    pool gives them, or fail with the pool's error. *)

From Stdlib Require Import SpecFloat.
From S2P Require Import Prelude RustStr Numbers Errors Escape Names VarName Value Client Status Auth Config State Api Semantic Web.

#[local] Open Scope Z_scope.

(** ** [rw.rs] *)

Record RwRequest := mkRwRequest { rw_name : VarName; rw_value : str }.

Inductive ValidationResult :=
  | Valid (value : Value)
  | Invalid (value : Value) (message : str).

Definition validate_request (request_value : str) (detail : VarDetail) : ValidationResult :=
  match detail with
  | DString max_len =>
      if decide (trim request_value = []) then Invalid (Value_from_str request_value) (lit "input is empty")
      else if max_len <? Z.of_nat (length request_value)
      then Invalid (Value_from_str request_value) (lit "input is too long")
      else Valid (Value_from_str request_value)
  | DNumber =>
      match infer_number_from request_value with
      | Ok value => Valid value
      | _ => Invalid (Value_from_str request_value) (lit "input is not a number")
      end
  | DEnum options =>
      let value := Value_from_str request_value in
      if existsb (fun option => Value_eq option value) options then Valid value
      else Invalid value (lit "invalid option")
  | DRange min max =>
      match infer_number_from request_value with
      | Ok value =>
          match as_lossly_f64 min, as_lossly_f64 max with
          | Some min, Some max =>
              let valuef64 := default (S754_zero false) (as_lossly_f64 value) in
              if f64_le min valuef64 && f64_le valuef64 max then Valid value
              else Invalid (Value_from_str request_value) (lit "value is not in range")
          | _, _ => Invalid (Value_from_str request_value)
                      (lit "driver reported min-max values are not numeric values")
          end
      | _ => Invalid (Value_from_str request_value) (lit "input is not a number")
      end
  end.

(** [RwFormTemplate] of [ups.rs]. *)
Record RwFormTemplate := mkRwForm {
  form_detail : VarDetail;
  form_message : option str;
  form_semantic : SemanticType;
  form_value : option Value;
  form_device : UpsName;
  form_namespace : str;
  form_var : VarName;
  form_notification : option NotificationTemplate;
}.

Section write.

Context `{Template ErrorPage, Template NotificationTemplate, Template RwFormTemplate}.
Context (config : ServerConfig) (servers : Servers).
(** What [get_client] of the device's pool gives. *)
Context (client : outcome ErrorKind Stream).

(** [Html(template.render_with_config(..)?).into_response()]. *)
Definition html_of {T} `{Template T} (t : T) (session : option UserSession) : outcome ErrorPage WebResponse :=
  let? html := ErrorPage_from (render_with_config t config session) in
  Ok (Html html).
Definition html_swapped {T} `{Template T} (t : T) (session : option UserSession) : outcome ErrorPage WebResponse :=
  let? response := html_of t session in
  Ok (htmx_swap response (lit "none")).

Definition read_only_notice : NotificationTemplate :=
  NotificationTemplate_from
    (lit "No username or password configured for UPS daemon. Server is in read-only mode.").

(** [get_client().await?], then [authenticate]; [k] goes on with its result. *)
Definition with_auth_client (user pass : str) (k : outcome ErrorKind unit -> Stream -> web_reply) : web_reply :=
  match client with
  | Ok client =>
      match authenticate user pass client with
      | (Panicked, s) => (Panicked, Some s)
      | (OutOfFuel, s) => (OutOfFuel, Some s)
      | (auth, s) => k auth s
      end
  | Err e => no_conn (Err (mkErrorPage (ErrorKind_fmt e)))
  | Panicked => no_conn Panicked
  | OutOfFuel => no_conn OutOfFuel
  end.

(** The call, then [_ = client.close().await]; [k] goes on with the result of the call. *)
Definition call_closed (call : io unit) (s : Stream)
  (k : outcome ErrorKind unit -> Stream -> web_reply) : web_reply :=
  match call s with
  | (Panicked, s) => (Panicked, Some s)
  | (OutOfFuel, s) => (OutOfFuel, Some s)
  | (result, s) => let '(_, s) := auth_close s in k result s
  end.

Definition rw_form (detail : VarDetail) (ns : str) (ups : UpsName) (name : VarName) (value : Value)
  (semantic : SemanticType) (message : option str) (notification : NotificationTemplate) : RwFormTemplate :=
  mkRwForm detail message semantic (Some value) ups ns name (Some notification).

Definition rw_patch_form (ns : str) (ups : UpsName) (session : option UserSession) (request : RwRequest)
  : web_reply :=
  match servers !! ns with
  | None => no_conn (Ok (redirect_not_found config))
  | Some upsd =>
      match devices (daemon_state upsd) !! ups with
      | None => no_conn (Ok (redirect_not_found config))
      | Some device =>
          match rw_variables device !! rw_name request with
          | None =>
              no_conn (html_swapped (set_level SError (NotificationTemplate_from
                (lit "device driver does not support write on " ++ VarName_as_str (rw_name request)))) session)
          | Some detail =>
              match validate_request (rw_value request) detail with
              | Invalid value message =>
                  no_conn (html_of (rw_form detail ns ups (rw_name request) value SError (Some message)
                    (set_level SError (NotificationTemplate_from (lit "Input validation failed")))) session)
              | Valid value =>
                  match pass (upsd_config upsd), user (upsd_config upsd) with
                  | Some pass, Some user =>
                      with_auth_client user pass (fun auth s =>
                        match auth with
                        | Ok _ =>
                            call_closed (Client.set_var ups (rw_name request) value) s (fun result s =>
                              (match result with
                               | Err err =>
                                   html_of (rw_form detail ns ups (rw_name request) value SError
                                     (Some (lit "value is rejected by device driver"))
                                     (set_ttl 15000 (set_level SError (NotificationTemplate_from
                                        (lit "Set var request failed, " ++ ErrorKind_fmt err))))) session
                               | _ =>
                                   html_of (rw_form detail ns ups (rw_name request) value SSuccess None
                                     (set_level SSuccess (NotificationTemplate_from
                                        (lit "Set var request is accepted")))) session
                               end, Some s))
                        | Err err =>
                            (html_swapped (set_level SError (NotificationTemplate_from
                               (lit "client authentication failed, " ++ ErrorKind_fmt err))) session, Some s)
                        | _ => (Panicked, Some s)
                        end)
                  | _, _ => no_conn (html_swapped read_only_notice session)
                  end
              end
          end
      end
  end.

(** ** [instcmd.rs] and [fsd.rs] *)

(** The part the two handlers share: [done] and [failed] are their notifications. *)
Definition command_form (ns : str) (ups : UpsName) (session : option UserSession) (call : io unit)
  (done : NotificationTemplate) (failed : str -> NotificationTemplate) : web_reply :=
  match servers !! ns with
  | None => no_conn (Ok (redirect_not_found config))
  | Some upsd =>
      match devices (daemon_state upsd) !! ups with
      | None => no_conn (Ok (redirect_not_found config))
      | Some _ =>
          match pass (upsd_config upsd), user (upsd_config upsd) with
          | Some pass, Some user =>
              let notify (result : outcome ErrorKind unit) (s : Stream) : web_reply :=
                (html_of (match result with Err err => failed (ErrorKind_fmt err) | _ => done end) session,
                 Some s) in
              with_auth_client user pass (fun auth s =>
                match auth with
                | Ok _ => call_closed call s notify
                | e => notify e s
                end)
          | _, _ => no_conn (html_of read_only_notice session)
          end
      end
  end.

Definition instcmd_post_form (ns : str) (ups : UpsName) (session : option UserSession) (command : CmdName)
  : web_reply :=
  command_form ns ups session (Client.instcmd ups command)
    (set_level SSuccess (NotificationTemplate_from
       (lit "'" ++ cmd_name command ++ lit "' successfully executed on " ++ ups_name ups ++ lit ".")))
    (fun err => set_level SError (NotificationTemplate_from (lit "INSTCMD call failed, " ++ err))).

Definition fsd_post_form (ns : str) (ups : UpsName) (session : option UserSession) : web_reply :=
  command_form ns ups session (Client.fsd ups)
    (set_level SWarning (NotificationTemplate_from (lit "FSD flag set on " ++ ups_name ups ++ lit ".")))
    (fun err => set_level SError (NotificationTemplate_from (lit "FSD failed, " ++ err))).

End write.

(** ** Lemmas *)

(** The value that the text of a form denotes, by the type of the variable. *)
Definition form_denotes (detail : VarDetail) (text : str) : option Value :=
  match detail with
  | DNumber | DRange _ _ => match infer_number_from text with Ok v => Some v | _ => None end
  | DString _ | DEnum _ => Some (VString text)
  end.
(** The length limit of the form is on the text as it is. *)
Definition form_fits (detail : VarDetail) (text : str) : Prop :=
  match detail with DString max_len => Z.of_nat (length text) <= max_len | _ => True end.

Lemma infer_number_numeric text v : infer_number_from text = Ok v -> is_numeric v = true /\ is_Some (as_lossly_f64 v).
Proof.
  unfold infer_number_from. case_bool_decide.
  - destruct (parse_f64 text); [|done]. intros [= <-]. by split.
  - destruct (parse_i64 text); [|done]. intros [= <-]. by split.
Qed.

Lemma infer_from_text t u : infer_from t = VString u -> u = t.
Proof. unfold infer_from. repeat case_match; by intros [= ->]. Qed.

(** What a form accepts is the value it denotes, checked as the JSON API checks it. *)
Lemma validate_valid {dbg : StrDebug} device variable detail text v : rw_variables device !! variable = Some detail ->
  validate_request text detail = Valid v <->
  form_denotes detail text = Some v /\ check_value device variable v = Ok tt /\ form_fits detail text.
Proof.
  intros Hd. unfold validate_request, check_value. rewrite Hd.
  destruct detail as [n| |options|min max]; cbn [form_denotes form_fits].
  - split.
    + case_decide as Ht; [done|]. destruct (Z.ltb_spec n (Z.of_nat (length text))) as [|Hl]; [done|]. intros [= <-].
      split; [done|]. split; [|done]. cbn [is_text Value_from_str Value_as_str cow_str]. rewrite decide_False by done.
      pose proof (trim_length text). by rewrite (proj2 (Z.ltb_ge _ _)) by lia.
    + intros ([= <-] & Hc & Hl). cbn [is_text Value_as_str cow_str] in Hc. case_decide as Ht; [done|].
      by rewrite (proj2 (Z.ltb_ge _ _)) by lia.
  - split.
    + destruct (infer_number_from text) as [v'| | |] eqn:E; [|done..]. intros [= <-].
      destruct (infer_number_numeric _ _ E) as [-> _]. done.
    + destruct (infer_number_from text) as [v'| | |] eqn:E; try (intros [? _]; done). by intros ([= <-] & _).
  - unfold Value_from_str. split.
    + destruct (existsb _ options) eqn:E; [|done]. intros [= <-]. by rewrite E.
    + intros ([= <-] & Hc & _). by destruct (existsb _ options).
  - destruct (infer_number_from text) as [v'| | |] eqn:E; try (by split; [|intros [? _]]).
    destruct (infer_number_numeric _ _ E) as [Hn [x Hx]].
    split.
    + destruct (as_lossly_f64 min), (as_lossly_f64 max); try done. rewrite Hx. cbn [default from_option id].
      unfold f64_le. destruct (_ && _) eqn:Eb; [|done]. intros [= <-]. rewrite Hn, Hx. cbn [default from_option id]. by rewrite Eb.
    + intros ([= <-] & Hc & _). rewrite Hn in Hc. destruct (as_lossly_f64 min), (as_lossly_f64 max); try done.
      rewrite Hx in *. cbn [default from_option id] in *. unfold f64_le. by destruct (_ && _).
Qed.

Section write_lemmas.

Context `{Template ErrorPage, Template NotificationTemplate, Template RwFormTemplate}.
Context (config : ServerConfig) (servers : Servers) (client : outcome ErrorKind Stream).

Lemma with_auth_client_conn user pass k s : (with_auth_client client user pass k).2 = Some s ->
  exists c, client = Ok c.
Proof. destruct client; [eauto|done..]. Qed.

Lemma rw_patch_form_conn ns ups session request s :
  (rw_patch_form config servers client ns ups session request).2 = Some s ->
  exists upsd device detail value, servers !! ns = Some upsd /\ devices (daemon_state upsd) !! ups = Some device /\
    rw_variables device !! rw_name request = Some detail /\ validate_request (rw_value request) detail = Valid value /\
    is_Some (user (upsd_config upsd)) /\ is_Some (pass (upsd_config upsd)) /\ is_ok client = true.
Proof.
  unfold rw_patch_form. destruct (servers !! ns) as [upsd|] eqn:Es; [|done].
  destruct (devices _ !! ups) as [device|] eqn:Ed; [|done].
  destruct (rw_variables device !! _) as [detail|] eqn:Er; [|done].
  destruct (validate_request _ _) as [value|value message] eqn:Ev; [|done].
  destruct (pass (upsd_config upsd)) as [pw|] eqn:Ep, (user (upsd_config upsd)) as [us|] eqn:Eu; try done.
  intros [c ->]%with_auth_client_conn. exists upsd, device, detail, value. rewrite Ep, Eu. by split_and!.
Qed.

Lemma command_form_conn ns ups session call ok failed s :
  (command_form config servers client ns ups session call ok failed).2 = Some s ->
  exists upsd device, servers !! ns = Some upsd /\ devices (daemon_state upsd) !! ups = Some device /\
    is_Some (user (upsd_config upsd)) /\ is_Some (pass (upsd_config upsd)) /\ is_ok client = true.
Proof.
  unfold command_form. destruct (servers !! ns) as [upsd|] eqn:Es; [|done].
  destruct (devices _ !! ups) as [device|] eqn:Ed; [|done].
  destruct (pass (upsd_config upsd)) as [pw|] eqn:Ep, (user (upsd_config upsd)) as [us|] eqn:Eu; try done.
  intros [c ->]%with_auth_client_conn. exists upsd, device. rewrite Ep, Eu. by split_and!.
Qed.

End write_lemmas.

(** ** The form and the JSON API *)

Definition is_int (v : Value) : bool := match v with VInt _ => true | _ => false end.

(** C26: The form of a writable variable accepts a text exactly when the JSON API accepts the value the text
    denotes, except that the form limits the length of the untrimmed text; an option of a
    driver that reads as an integer is accepted from JSON but always refused by the form. *)
Theorem form_agrees_with_json {dbg : StrDebug} (device : DeviceEntry) (variable : VarName) (detail : VarDetail) (text : str)
  (Hd : rw_variables device !! variable = Some detail) :
  (forall v, validate_request text detail = Valid v <->
     form_denotes detail text = Some v /\ check_value device variable v = Ok tt /\ form_fits detail text) /\
  (forall v m, validate_request text detail = Invalid v m -> v = VString text) /\
  (forall options, detail = DEnum (infer_from <$> options) -> text ∈ options -> is_int (infer_from text) = true ->
     check_value device variable (infer_from text) = Ok tt /\ exists m,
     validate_request text detail = Invalid (VString text) m).
Proof.
  split; [|split].
  - intros v. by apply validate_valid.
  - intros v m. unfold validate_request. repeat case_match; by intros [= <- _].
  - intros options -> Hin Hint. split.
    + unfold check_value. rewrite Hd. replace (existsb _ _) with true; [done|]. symmetry.
      apply existsb_exists. exists (infer_from text). split; [by apply list_elem_of_In, list_elem_of_fmap_2|].
      destruct (infer_from text); [done| |done]. apply Z.eqb_refl.
    + cbn [validate_request]. replace (existsb _ _) with false; [eauto|]. symmetry. apply not_true_is_false.
      rewrite existsb_exists. intros (o & Ho & Heq). apply list_elem_of_In, list_elem_of_fmap in Ho as (t & -> & _).
      destruct (infer_from t) as [x|z|u] eqn:Et; try done. apply bool_decide_eq_true in Heq as ->.
      apply infer_from_text in Et as Heq. subst t. by rewrite Et in Hint.
Qed.

(** ** Witness *)

#[local] Existing Instance demo_debug.

Lemma form_agrees_with_json_witness :
  let device := mkDeviceEntry [] [] [] 0 demo_ups
    {[ demo_var := DEnum (infer_from <$> [lit "208"; lit "220"]) ]} (mkStatus 0) ∅ in
  check_value device demo_var (VInt 208) = Ok tt /\
  exists m, validate_request (lit "208") (DEnum (infer_from <$> [lit "208"; lit "220"])) = Invalid (VString (lit "208")) m.
Proof.
  intros device.
  destruct (form_agrees_with_json device demo_var (DEnum (infer_from <$> [lit "208"; lit "220"])) (lit "208")
    ltac:(by apply lookup_singleton_Some)) as (_ & _ & H).
  destruct (H [lit "208"; lit "220"] eq_refl ltac:(by left) ltac:(vm_compute; reflexivity)) as [H1 H2].
  split; [exact H1|exact H2].
Defined.
