(* ===== verification/Topology.v ===== *)
(** * The topology graph

    [http/hypermedia/route/topology.rs]: the graph of the daemons, their devices
    and the clients attached to them, which the topology page draws. A device
    that several daemons report is one node with an alias per report. The maps
    of the source are [BTreeMap]s; the daemons and their devices come from hash
    maps, in an order the graph is proved for whatever it is. *)

From Stdlib Require Import SpecFloat.
From stdpp Require Import sorting.
From S2P Require Import Prelude RustStr Numbers Names VarName Value Ip UpsVariables Status Auth Config State.
From S2P Require Import Escape Collections Semantic Web.

#[local] Open Scope Z_scope.

(** ** Keys *)

Record DeviceId := mkDeviceId {
  manufacturer : option str; model : option str; serial : option str;
  id_name : UpsName; id_namespace : str }.

#[global] Instance DeviceId_eq_dec : EqDecision DeviceId.
Proof. solve_decision. Defined.

Definition is_none {A} (o : option A) : bool := match o with None => true | Some _ => false end.

Definition UpsName_cmp : UpsName -> UpsName -> comparison := cmp_on ups_name str_cmp.
Definition opt_str_cmp : option str -> option str -> comparison := cmp_option str_cmp.

(** [Ord for DeviceId]. *)
Definition DeviceId_cmp (a b : DeviceId) : comparison :=
  match opt_str_cmp (manufacturer a) (manufacturer b) with
  | Eq =>
      match opt_str_cmp (model a) (model b) with
      | Eq =>
          match opt_str_cmp (serial a) (serial b) with
          | Eq =>
              if is_none (serial a) && is_none (model a) && is_none (manufacturer a) then
                match str_cmp (id_namespace a) (id_namespace b) with
                | Eq => UpsName_cmp (id_name a) (id_name b)
                | ord => ord
                end
              else Eq
          | ord => ord
          end
      | ord => ord
      end
  | ord => ord
  end.

(** [Ord for IpAddr]: IPv4 before IPv6, then the octets or segments. *)
Definition IpAddr_cmp (a b : IpAddr) : comparison :=
  match a, b with
  | V4 a, V4 b => cmp_list Z.compare a b
  | V4 _, V6 _ => Lt
  | V6 _, V4 _ => Gt
  | V6 a, V6 b => cmp_list Z.compare a b
  end.

Inductive NodeType := NServer | NClient | NDevice | NEdge.
Definition NodeType_rank (t : NodeType) : nat :=
  match t with NServer => 0 | NClient => 1 | NDevice => 2 | NEdge => 3 end.
Definition NodeType_as_str (t : NodeType) : str :=
  match t with
  | NServer => lit "server"
  | NClient => lit "client"
  | NDevice => lit "device"
  | NEdge => lit "edge"
  end.

Record NodeId := mkNodeId { node_id : nat; node_type : NodeType }.
Definition NodeId_cmp : NodeId -> NodeId -> comparison :=
  cmp_lex (cmp_on node_id Nat.compare) (cmp_on (fun n => NodeType_rank (node_type n)) Nat.compare).
(** [Display] and [FastWritable]. *)
Definition NodeId_fmt (n : NodeId) : str :=
  NodeType_as_str (node_type n) ++ lit "_" ++ show_Z (Z.of_nat (node_id n)).

Inductive EdgeType := EData | EPower.
Definition EdgeType_as_class (t : EdgeType) : str :=
  match t with EPower => lit "edge-dashed" | EData => lit "edge-dotted" end.

Inductive Link := LDevice (id : DeviceId) | LClient (ip : IpAddr) | LServer (ns : str).

(** ** Nodes *)

Record ConnectionCounter := mkCounter { active : nat; degraded : nat; failed : nat }.
Definition ConnectionCounter_default : ConnectionCounter := mkCounter 0 0 0.
Definition increment_active (c : ConnectionCounter) := mkCounter (S (active c)) (degraded c) (failed c).
Definition increment_degraded (c : ConnectionCounter) := mkCounter (active c) (S (degraded c)) (failed c).
Definition increment_failed (c : ConnectionCounter) := mkCounter (active c) (degraded c) (S (failed c)).
Definition as_semantic_type (c : ConnectionCounter) : SemanticType :=
  if (0 <? active c)%nat then SSuccess
  else if (0 <? degraded c)%nat then SWarning
  else if (0 <? failed c)%nat then SError
  else SInfo.

Record ClientNode := mkClientNode {
  client_counter : ConnectionCounter; client_id : nat; address : IpAddr; client_name : option str }.
Record NutServerNode := mkServerNode {
  server_counter : ConnectionCounter; server_id : nat; server_namespace : str; server_address : str;
  server_port : Z; server_status : ConnectionStatus }.
Record DeviceAlias := mkAlias { alias_name : UpsName; alias_namespace : str }.
Record DeviceNode := mkDeviceNode {
  dev_node_id : nat; dev_semantic : SemanticType; aliases : list DeviceAlias;
  battery : option (Unit spec_float Percentage); device_id : DeviceId;
  input_voltage : option (Unit spec_float Voltage); load : option (Unit spec_float Percentage);
  runtime : option (Unit Z RemainingSeconds); dev_status : UpsStatus }.
Record EdgeRefNode := mkEdgeRef { ref_semantic : SemanticType; ref_from : Link; ref_to : Link; ref_type : EdgeType }.
Record EdgeNode := mkEdge {
  edge_semantic : SemanticType; edge_id : nat; edge_from : NodeId; edge_to : NodeId; edge_type : EdgeType }.

Definition ClientNode_new (ip : IpAddr) (name : option str) : ClientNode :=
  mkClientNode ConnectionCounter_default 0 ip name.

(** [trait GraphNode]. *)
Class GraphNode (N : Type) := { node_semantic : N -> SemanticType; get_id : N -> NodeId }.
#[global] Instance NutServerNode_graph : GraphNode NutServerNode := {
  node_semantic n := if bool_decide (server_status n = Dead) then SError else as_semantic_type (server_counter n);
  get_id n := mkNodeId (server_id n) NServer;
}.
#[global] Instance EdgeNode_graph : GraphNode EdgeNode := {
  node_semantic := edge_semantic;
  get_id n := mkNodeId (edge_id n) NEdge;
}.
#[global] Instance ClientNode_graph : GraphNode ClientNode := {
  node_semantic n := as_semantic_type (client_counter n);
  get_id n := mkNodeId (client_id n) NClient;
}.
#[global] Instance DeviceNode_graph : GraphNode DeviceNode := {
  node_semantic := dev_semantic;
  get_id n := mkNodeId (dev_node_id n) NDevice;
}.

(** ** The builder *)

Record TopologyGraphBuilder := mkBuilderState {
  b_servers : list (str * NutServerNode);
  b_clients : list (IpAddr * ClientNode);
  b_devices : list (DeviceId * DeviceNode);
  edge_refs : list EdgeRefNode;
}.
Record TopologyGraph := mkGraph {
  g_servers : list (str * NutServerNode);
  g_clients : list (IpAddr * ClientNode);
  g_devices : list (DeviceId * DeviceNode);
  g_edges : list EdgeNode;
}.

Definition TopologyGraphBuilder_new : TopologyGraphBuilder := mkBuilderState [] [] [] [].

Definition push_edge (e : EdgeRefNode) (g : TopologyGraphBuilder) : TopologyGraphBuilder :=
  mkBuilderState (b_servers g) (b_clients g) (b_devices g) (edge_refs g ++ [e]).
Definition set_clients (c : list (IpAddr * ClientNode)) (g : TopologyGraphBuilder) : TopologyGraphBuilder :=
  mkBuilderState (b_servers g) c (b_devices g) (edge_refs g).
Definition set_device_nodes (d : list (DeviceId * DeviceNode)) (g : TopologyGraphBuilder) : TopologyGraphBuilder :=
  mkBuilderState (b_servers g) (b_clients g) d (edge_refs g).

(** [match semantic_type { None => {}, Error => failed, Warning => degraded, _ => active }]. *)
Definition count_connection (s : SemanticType) (c : ConnectionCounter) : ConnectionCounter :=
  match s with
  | SNone => c
  | SError => increment_failed c
  | SWarning => increment_degraded c
  | _ => increment_active c
  end.
Definition count_server (s : SemanticType) (n : NutServerNode) : NutServerNode :=
  mkServerNode (count_connection s (server_counter n)) (server_id n) (server_namespace n) (server_address n)
    (server_port n) (server_status n).
Definition count_client (s : SemanticType) (n : ClientNode) : ClientNode :=
  mkClientNode (count_connection s (client_counter n)) (client_id n) (address n) (client_name n).
Definition push_alias (a : DeviceAlias) (n : DeviceNode) : DeviceNode :=
  mkDeviceNode (dev_node_id n) (dev_semantic n) (aliases n ++ [a]) (battery n) (device_id n) (input_voltage n)
    (load n) (runtime n) (dev_status n).

(** The class of a device's node and of its links. *)
Definition device_semantic (status : UpsStatus) : SemanticType :=
  let has_any := existsb (has status) in
  if has_any [NOCOMM; OFFLINE; BYPASS] then SNone
  else if has_any [FORCED_SHUTDOWN; LOW_BATTERY; REPLACE_BATTERY; ALARM; OVERLOADED] then SError
  else if has_any [ON_BATTERY; TRIM; BOOST] then SWarning
  else SSuccess.
Definition data_semantic (status : UpsStatus) : SemanticType := if has status NOCOMM then SError else SInfo.

(** The text of a variable, as [v.to_string()]. *)
Definition var_text (device : DeviceEntry) (n : StandardName.t) : option str :=
  (fun v => cow_str (Value_as_str v)) <$> var device n.

Definition device_key (device : DeviceEntry) (ns : str) : DeviceId :=
  mkDeviceId (var_text device StandardName.UpsMfr) (var_text device StandardName.UpsModel)
    (var_text device StandardName.UpsSerial) (name device) ns.

(** One attached client. *)
Definition attach_client (key : DeviceId) (s : SemanticType) (st : NutServerNode * TopologyGraphBuilder)
  (client : ClientInfo) : NutServerNode * TopologyGraphBuilder :=
  let '(server_node, g) := st in
  if is_loopback (ci_addr client) then
    (count_server s server_node,
     push_edge (mkEdgeRef s (LDevice key) (LServer (server_namespace server_node)) EPower) g)
  else
    let node := default (ClientNode_new (ci_addr client) (ci_name client))
                  (bt_get IpAddr_cmp (ci_addr client) (b_clients g)) in
    let node := count_client s node in
    (server_node,
     push_edge (mkEdgeRef s (LDevice key) (LClient (address node)) EPower)
       (set_clients (bt_insert IpAddr_cmp (ci_addr client) node (b_clients g)) g)).

Definition insert_from (device : DeviceEntry) (st : NutServerNode * TopologyGraphBuilder)
  : NutServerNode * TopologyGraphBuilder :=
  let '(server_node, g) := st in
  let key := device_key device (server_namespace server_node) in
  let alias := mkAlias (name device) (server_namespace server_node) in
  match bt_get DeviceId_cmp key (b_devices g) with
  | Some node =>
      (server_node,
       push_edge (mkEdgeRef (data_semantic (status device)) (LDevice (device_id node))
                    (LServer (server_namespace server_node)) EData)
         (set_device_nodes (bt_update DeviceId_cmp key (push_alias alias) (b_devices g)) g))
  | None =>
      let semantic_type := device_semantic (status device) in
      let device_node := mkDeviceNode 0 semantic_type [alias] (get_battery_charge device) key
        (get_input_voltage device) (get_ups_load device) (get_battery_runtime device) (status device) in
      let '(server_node, g) := foldl (attach_client key semantic_type) (server_node, g) (attached device) in
      let g := push_edge (mkEdgeRef (data_semantic (status device)) (LDevice key)
                            (LServer (server_namespace server_node)) EData) g in
      (server_node, set_device_nodes (bt_insert DeviceId_cmp key device_node (b_devices g)) g)
  end.

(** One daemon; [values] is the order in which its hash map of devices is iterated. *)
Definition insert_server (values : gmap UpsName DeviceEntry -> list DeviceEntry) (g : TopologyGraphBuilder)
  (entry : str * UpsdState) : TopologyGraphBuilder :=
  let '(ns, upsd) := entry in
  let server_node := mkServerNode ConnectionCounter_default 0 ns (addr (upsd_config upsd))
    (upsd_port (upsd_config upsd)) (conn_status (daemon_state upsd)) in
  let '(server_node, g) :=
    foldl (fun st device => insert_from device st) (server_node, g) (values (devices (daemon_state upsd))) in
  mkBuilderState (bt_insert str_cmp (server_namespace server_node) server_node (b_servers g)) (b_clients g)
    (b_devices g) (edge_refs g).

(** [servers] are the entries of the hash map of daemons, in the order of its iteration. *)
Definition from_server_state (values : gmap UpsName DeviceEntry -> list DeviceEntry)
  (servers : list (str * UpsdState)) : TopologyGraphBuilder :=
  foldl (insert_server values) TopologyGraphBuilder_new servers.

(** ** [finish] *)

(** [for (pos, v) in map.values_mut().enumerate() { v.id = pos }]. *)
Definition number {K V} (set_id : nat -> V -> V) (m : list (K * V)) : list (K * V) :=
  imap (fun pos e => (e.1, set_id pos e.2)) m.

Definition set_server_id (id : nat) (n : NutServerNode) : NutServerNode :=
  mkServerNode (server_counter n) id (server_namespace n) (server_address n) (server_port n) (server_status n).
Definition set_client_id (id : nat) (n : ClientNode) : ClientNode :=
  mkClientNode (client_counter n) id (address n) (client_name n).
Definition set_device_id (id : nat) (n : DeviceNode) : DeviceNode :=
  mkDeviceNode id (dev_semantic n) (aliases n) (battery n) (device_id n) (input_voltage n) (load n) (runtime n)
    (dev_status n).

Definition resolve_link (g : TopologyGraphBuilder) (link : Link) : option NodeId :=
  match link with
  | LDevice key => get_id <$> bt_get DeviceId_cmp key (b_devices g)
  | LClient key => get_id <$> bt_get IpAddr_cmp key (b_clients g)
  | LServer key => get_id <$> bt_get str_cmp key (b_servers g)
  end.

Definition resolve_edge (g : TopologyGraphBuilder) (id : nat) (e : EdgeRefNode) : option EdgeNode :=
  match resolve_link g (ref_from e), resolve_link g (ref_to e) with
  | Some from, Some to => Some (mkEdge (ref_semantic e) id from to (ref_type e))
  | _, _ => None
  end.

(** The order of the edges. *)
Definition edge_cmp : EdgeNode -> EdgeNode -> comparison :=
  cmp_lex (cmp_on edge_from NodeId_cmp) (cmp_on edge_to NodeId_cmp).

Definition graph_finish (g : TopologyGraphBuilder) : TopologyGraph :=
  let g := mkBuilderState (number set_server_id (b_servers g)) (number set_client_id (b_clients g))
             (number set_device_id (b_devices g)) (edge_refs g) in
  let edges := omap id (imap (resolve_edge g) (edge_refs g)) in
  mkGraph (b_servers g) (b_clients g) (b_devices g) (sort_by edge_cmp edges).

(** ** [get] *)

Record TopologyTemplate := mkTopologyTemplate { graph : TopologyGraph }.
(** [as_graph_nodes]. *)
Record GraphNodesBlock := as_graph_nodes { topology_template : TopologyTemplate }.

Definition topology_get `{Template TopologyTemplate, Template GraphNodesBlock} (config : ServerConfig)
  (values : gmap UpsName DeviceEntry -> list DeviceEntry) (servers : list (str * UpsdState))
  (section : option str) (session : option UserSession) : outcome ErrorPage WebResponse :=
  let template := mkTopologyTemplate (graph_finish (from_server_state values servers)) in
  let? html :=
    (if decide (section = Some (lit "graph_nodes"))
     then ErrorPage_from (render_with_config (as_graph_nodes template) config session)
     else ErrorPage_from (render_with_config template config session)) in
  Ok (Html html).

(** ** Lemmas: the orders *)

#[global] Instance UpsName_cmp_laws : OrdLaws UpsName_cmp := cmp_on_laws _ _.
#[global] Instance opt_str_cmp_laws : OrdLaws opt_str_cmp := cmp_option_laws _.
#[global] Instance NodeId_cmp_laws : OrdLaws NodeId_cmp := cmp_lex_laws _ _.
#[global] Instance edge_cmp_laws : OrdLaws edge_cmp := cmp_lex_laws _ _.

Lemma cmp_option_eq {A} (cmp : A -> A -> comparison) (Hc : forall a b, cmp a b = Eq <-> a = b) a b :
  cmp_option cmp a b = Eq <-> a = b.
Proof. destruct a, b; cbn; rewrite ?Hc; split; congruence. Qed.
Lemma cmp_list_eq {A} (cmp : A -> A -> comparison) (Hc : forall a b, cmp a b = Eq <-> a = b) a b :
  cmp_list cmp a b = Eq <-> a = b.
Proof.
  revert b. induction a as [|x a IH]; intros [|y b]; cbn; try done. destruct (cmp x y) eqn:E; cbn [cmp_then].
  - apply Hc in E as ->. rewrite IH. split; congruence.
  - split; [done|]. intros [= <- <-]. by rewrite (proj2 (Hc x x) eq_refl) in E.
  - split; [done|]. intros [= <- <-]. by rewrite (proj2 (Hc x x) eq_refl) in E.
Qed.

Lemma opt_str_cmp_eq a b : opt_str_cmp a b = Eq <-> a = b.
Proof. apply cmp_option_eq, str_cmp_eq. Qed.
Lemma UpsName_cmp_eq a b : UpsName_cmp a b = Eq <-> a = b.
Proof. unfold UpsName_cmp, cmp_on. rewrite str_cmp_eq. destruct a, b; cbn. split; congruence. Qed.
Lemma IpAddr_cmp_eq a b : IpAddr_cmp a b = Eq <-> a = b.
Proof. destruct a, b; cbn; rewrite ?(cmp_list_eq Z.compare Z.compare_eq_iff); split; congruence. Qed.

#[global] Instance IpAddr_cmp_laws : OrdLaws IpAddr_cmp.
Proof.
  split; [intros [a|a] [b|b]; try done; apply (cmp_antisym (cmp := cmp_list Z.compare))|].
  intros [a|a] [b|b] [c|c]; try done; apply (cmp_le_trans (cmp := cmp_list Z.compare)).
Qed.

(** A device that says nothing of itself is told by its daemon and name. *)
Definition anonymous (a : DeviceId) : bool := is_none (serial a) && is_none (model a) && is_none (manufacturer a).
Definition anonymous_key (a : DeviceId) : option DeviceId := if anonymous a then Some a else None.

Lemma DeviceId_cmp_lex a b : DeviceId_cmp a b =
  cmp_lex (cmp_on manufacturer opt_str_cmp) (cmp_lex (cmp_on model opt_str_cmp) (cmp_lex (cmp_on serial opt_str_cmp)
    (cmp_on anonymous_key (cmp_option (cmp_lex (cmp_on id_namespace str_cmp) (cmp_on id_name UpsName_cmp)))))) a b.
Proof.
  unfold DeviceId_cmp, cmp_lex, cmp_on.
  destruct (opt_str_cmp (manufacturer a) (manufacturer b)) eqn:E1; [|done..]. cbn [cmp_then].
  destruct (opt_str_cmp (model a) (model b)) eqn:E2; [|done..]. cbn [cmp_then].
  destruct (opt_str_cmp (serial a) (serial b)) eqn:E3; [|done..]. cbn [cmp_then].
  apply opt_str_cmp_eq in E1, E2, E3. unfold anonymous_key, anonymous. rewrite <- E1, <- E2, <- E3.
  destruct (_ && _ && _); [|done]. cbn. by destruct (str_cmp _ _).
Qed.

#[global] Instance DeviceId_cmp_laws : OrdLaws DeviceId_cmp.
Proof.
  split; intros *; rewrite !DeviceId_cmp_lex; [apply cmp_antisym|].
  apply cmp_le_trans.
Qed.

Lemma DeviceId_cmp_eq a b : DeviceId_cmp a b = Eq <->
  manufacturer a = manufacturer b /\ model a = model b /\ serial a = serial b /\
  (anonymous a = true -> id_namespace a = id_namespace b /\ id_name a = id_name b).
Proof.
  rewrite DeviceId_cmp_lex. unfold cmp_lex, cmp_on.
  destruct (opt_str_cmp (manufacturer a) (manufacturer b)) eqn:E1.
  2-3: split; [done|intros (E & _); apply opt_str_cmp_eq in E; congruence].
  destruct (opt_str_cmp (model a) (model b)) eqn:E2.
  2-3: split; [done|intros (_ & E & _); apply opt_str_cmp_eq in E; cbn [cmp_then] in *; congruence].
  destruct (opt_str_cmp (serial a) (serial b)) eqn:E3.
  2-3: split; [done|intros (_ & _ & E & _); apply opt_str_cmp_eq in E; cbn [cmp_then] in *; congruence].
  cbn [cmp_then]. apply opt_str_cmp_eq in E1, E2, E3.
  assert (Hb : anonymous b = anonymous a) by (unfold anonymous; congruence).
  unfold anonymous_key. rewrite Hb. destruct (anonymous a); cbn [cmp_option]; [|split; [done|done]].
  destruct (str_cmp _ _) eqn:E4; cbn [cmp_then].
  - apply str_cmp_eq in E4. rewrite UpsName_cmp_eq.
    split; [by intros Hn; split_and!|]. intros (_ & _ & _ & Hn). by apply Hn.
  - split; [done|]. intros (_ & _ & _ & H). destruct (H eq_refl) as [E _]. apply str_cmp_eq in E. congruence.
  - split; [done|]. intros (_ & _ & _ & H). destruct (H eq_refl) as [E _]. apply str_cmp_eq in E. congruence.
Qed.

(** ** Lemmas: the builder *)

(** Can a link be resolved; [nss] are the daemons that are or will be in the graph, [pending] a device
    that is about to be. *)
Definition link_known (nss : list str) (pending : option DeviceId) (g : TopologyGraphBuilder) (l : Link) : Prop :=
  match l with
  | LDevice k => is_Some (bt_get DeviceId_cmp k (b_devices g)) \/ pending = Some k
  | LClient ip => is_Some (bt_get IpAddr_cmp ip (b_clients g))
  | LServer ns => ns ∈ nss
  end.

(** Every edge goes from a device to a daemon or client. *)
Definition edge_known (nss : list str) (pending : option DeviceId) (g : TopologyGraphBuilder) (e : EdgeRefNode) : Prop :=
  (exists k, ref_from e = LDevice k) /\ (forall k, ref_to e <> LDevice k) /\
  link_known nss pending g (ref_from e) /\ link_known nss pending g (ref_to e).

Record builder_inv (nss : list str) (pending : option DeviceId) (g : TopologyGraphBuilder) : Prop := {
  inv_servers : bt_sorted str_cmp (b_servers g);
  inv_clients : bt_sorted IpAddr_cmp (b_clients g);
  inv_devices : bt_sorted DeviceId_cmp (b_devices g);
  inv_device_ids : Forall (fun e => device_id e.2 = e.1) (b_devices g);
  inv_addresses : Forall (fun e => address e.2 = e.1) (b_clients g);
  inv_edges : Forall (edge_known nss pending g) (edge_refs g);
}.

(** What only grows. *)
Definition grows (g g' : TopologyGraphBuilder) : Prop :=
  (forall k, is_Some (bt_get DeviceId_cmp k (b_devices g)) -> is_Some (bt_get DeviceId_cmp k (b_devices g'))) /\
  (forall k, is_Some (bt_get IpAddr_cmp k (b_clients g)) -> is_Some (bt_get IpAddr_cmp k (b_clients g'))).

Lemma edge_known_mono nss nss' pending pending' g g' e : grows g g' ->
  (forall ns, ns ∈ nss -> ns ∈ nss') ->
  (forall k, pending = Some k -> link_known nss' pending' g' (LDevice k)) ->
  edge_known nss pending g e -> edge_known nss' pending' g' e.
Proof.
  intros [Hd Hc] Hn Hp (Hf & Ht & Hk & Hk'). split; [done|]. split; [done|].
  assert (Hl : forall l, link_known nss pending g l -> link_known nss' pending' g' l).
  { intros [k|ip|ns]; cbn; [|apply Hc|apply Hn]. intros [Hs|Hs]; [left; by apply Hd|by apply Hp]. }
  split; by apply Hl.
Qed.

Lemma address_client m ip name : Forall (fun e => address e.2 = e.1) m ->
  address (default (ClientNode_new ip name) (bt_get IpAddr_cmp ip m)) = ip.
Proof.
  intros Hm. destruct (bt_get IpAddr_cmp ip m) as [n|] eqn:E; [|done].
  apply bt_get_elem in E as (ip' & Hin & ->%IpAddr_cmp_eq). rewrite list.Forall_forall in Hm. by apply (Hm (ip', n)).
Qed.

Lemma is_Some_get_insert {K V} (cmp : K -> K -> comparison) `{!OrdLaws cmp} k (v : V) m k' :
  is_Some (bt_get cmp k' m) -> is_Some (bt_get cmp k' (bt_insert cmp k v m)).
Proof. intros H. rewrite (bt_get_insert cmp). destruct (cmp k' k); [by eexists|done..]. Qed.

(** Attaching a client to the device that is about to be inserted. *)
Lemma attach_client_inv nss key sem sn g c : builder_inv nss (Some key) g -> server_namespace sn ∈ nss ->
  let '(sn', g') := attach_client key sem (sn, g) c in
  builder_inv nss (Some key) g' /\ server_namespace sn' = server_namespace sn /\
  b_devices g' = b_devices g /\ b_servers g' = b_servers g.
Proof.
  intros [Hs Hc Hd Hi Ha He] Hn. unfold attach_client.
  destruct (is_loopback (ci_addr c)); (split; [|done]); constructor; try done; cbn.
  - apply Forall_app. split; [done|]. constructor; [|constructor]. cbn. split; [by eexists|].
    split; [done|]. split; [by right|done].
  - apply (bt_insert_sorted IpAddr_cmp). exact Hc.
  - apply bt_insert_Forall; [done| |].
    + exact (address_client _ _ (ci_name c) Ha).
    + intros k' v' Hin <-%IpAddr_cmp_eq. exact (address_client _ _ (ci_name c) Ha).
  - apply Forall_app. split.
    + eapply list.Forall_impl; [exact He|]. intros e. apply edge_known_mono; [split; [done|]|done|by right].
      intros k. cbn. apply is_Some_get_insert. apply _.
    + constructor; [|constructor]. cbn. split; [by eexists|]. split; [done|]. split; [by right|].
      cbn [link_known set_clients push_edge b_clients address count_client]. rewrite address_client by done.
      cbn [ref_to link_known push_edge set_clients b_clients].
      rewrite (bt_get_insert IpAddr_cmp), (cmp_refl IpAddr_cmp). by eexists.
Qed.

Lemma attach_clients_inv nss key sem cs sn g : builder_inv nss (Some key) g -> server_namespace sn ∈ nss ->
  let '(sn', g') := foldl (attach_client key sem) (sn, g) cs in
  builder_inv nss (Some key) g' /\ server_namespace sn' = server_namespace sn /\
  b_devices g' = b_devices g /\ b_servers g' = b_servers g.
Proof.
  revert sn g. induction cs as [|c cs IH]; intros sn g Hg Hn; [done|]. cbn [foldl].
  pose proof (attach_client_inv nss key sem sn g c Hg Hn) as Hc.
  destruct (attach_client key sem (sn, g) c) as [sn1 g1]. destruct Hc as (Hg1 & Hns & Hd & Hs).
  specialize (IH sn1 g1 Hg1 ltac:(by rewrite Hns)). destruct (foldl _ _ _) as [sn2 g2].
  destruct IH as (? & ? & ? & ?). split; [done|]. by split_and!; etrans.
Qed.

(** The reports that the nodes stand for. *)
Definition all_aliases (m : list (DeviceId * DeviceNode)) : list DeviceAlias := mjoin ((fun e => aliases e.2) <$> m).

Lemma update_aliases k a m : is_Some (bt_get DeviceId_cmp k m) ->
  all_aliases (bt_update DeviceId_cmp k (push_alias a) m) ≡ₚ a :: all_aliases m.
Proof.
  unfold all_aliases. induction m as [|[k' n] m IH]; [by intros []|]. cbn [bt_get bt_update].
  destruct (DeviceId_cmp k k'); cbn.
  - intros _. by rewrite <- app_assoc, Permutation_middle.
  - intros H%IH. rewrite H. by rewrite Permutation_middle.
  - intros H%IH. rewrite H. by rewrite Permutation_middle.
Qed.

Lemma insert_from_inv nss device sn g : builder_inv nss None g -> server_namespace sn ∈ nss ->
  let '(sn', g') := insert_from device (sn, g) in
  builder_inv nss None g' /\ server_namespace sn' = server_namespace sn /\ b_servers g' = b_servers g /\
  all_aliases (b_devices g') ≡ₚ mkAlias (name device) (server_namespace sn) :: all_aliases (b_devices g).
Proof.
  intros Hg Hn. unfold insert_from. set (key := device_key device (server_namespace sn)).
  set (alias := mkAlias _ _). destruct (bt_get DeviceId_cmp key (b_devices g)) as [node|] eqn:E.
  - destruct Hg as [Hs Hc Hd Hi Ha He]. split; [|split; [done|split; [done|by apply update_aliases]]].
    destruct (bt_get_elem _ _ _ _ E) as (k' & Hin & Hk').
    assert (Hid : device_id node = k') by (rewrite list.Forall_forall in Hi; by apply (Hi (k', node))).
    assert (Hgrow : forall k, is_Some (bt_get DeviceId_cmp k (b_devices g)) ->
      is_Some (bt_get DeviceId_cmp k (bt_update DeviceId_cmp key (push_alias alias) (b_devices g)))).
    { intros k Hk. rewrite (bt_get_update DeviceId_cmp). case_decide; [by apply fmap_is_Some|done]. }
    constructor; try done; cbn.
    + by apply bt_update_sorted.
    + clear -Hi. induction (b_devices g) as [|[k n] m IH]; [done|].
      apply list.Forall_cons in Hi as [? ?]. cbn. destruct (DeviceId_cmp key k); constructor; auto.
    + apply Forall_app. split.
      * eapply list.Forall_impl; [exact He|]. intros e. by apply edge_known_mono.
      * constructor; [|constructor]. cbn. split; [by eexists|]. split; [done|]. split; [|done]. left.
        cbn. rewrite Hid. apply Hgrow. rewrite (bt_elem_get DeviceId_cmp _ _ _ Hd Hin). by eexists.
  - assert (Hg0 : builder_inv nss (Some key) g).
    { destruct Hg as [Hs Hc Hd Hi Ha He]. constructor; try done. eapply list.Forall_impl; [exact He|].
      intros e. by apply edge_known_mono. }
    pose proof (attach_clients_inv nss key (device_semantic (status device)) (attached device) sn g Hg0 Hn) as Hat.
    destruct (foldl _ _ _) as [sn1 g1]. destruct Hat as ([Hs Hc Hd Hi Ha He] & Hns & Hdev & Hsrv).
    split; [|split; [done|split; [done|]]].
    + constructor; try done; cbn.
      * apply (bt_insert_sorted DeviceId_cmp). exact Hd.
      * apply bt_insert_Forall; [done|done|]. intros k' v' Hin Hk'. exfalso. rewrite Hdev in Hin.
        destruct Hg as [_ _ Hd0 _ _ _]. apply (bt_elem_get DeviceId_cmp _ _ _ Hd0) in Hin.
        rewrite (bt_get_eq DeviceId_cmp _ _ _ Hk') in E. congruence.
      * assert (Hnew : forall k, link_known nss None (set_device_nodes (bt_insert DeviceId_cmp key
          (mkDeviceNode 0 (device_semantic (status device)) [alias] (get_battery_charge device) key
             (get_input_voltage device) (get_ups_load device) (get_battery_runtime device) (status device))
          (b_devices g1)) g1) (LDevice k) <-> is_Some (bt_get DeviceId_cmp k (b_devices g1)) \/ DeviceId_cmp k key = Eq).
        { intros k. cbn. rewrite (bt_get_insert DeviceId_cmp). destruct (DeviceId_cmp k key) eqn:Ek; split;
            [by right|by left; eexists|intros [?|?]; [by left|done]|intros [?|?]; [by left|done]
            |intros [?|?]; [by left|done]|intros [?|?]; [by left|done]]. }
        apply Forall_app. split.
        -- eapply list.Forall_impl; [exact He|]. intros e. apply edge_known_mono; [split; [|done]|done|].
           ++ intros k. apply is_Some_get_insert. apply _.
           ++ intros k [= <-]. apply Hnew. right. apply (cmp_refl DeviceId_cmp).
        -- constructor; [|constructor]. cbn [ref_from ref_to]. split; [by eexists|]. split; [done|].
           split; [apply Hnew; right; apply (cmp_refl DeviceId_cmp)|]. cbn. by rewrite Hns.
    + cbn. unfold all_aliases. rewrite bt_insert_new by (by rewrite Hdev). cbn. by rewrite Hdev.
Qed.

(** The reports of the devices of a daemon. *)
Definition reports (values : gmap UpsName DeviceEntry -> list DeviceEntry) (entry : str * UpsdState) : list DeviceAlias :=
  (fun d => mkAlias (name d) entry.1) <$> values (devices (daemon_state entry.2)).

Lemma insert_devices_inv nss ds sn g : builder_inv nss None g -> server_namespace sn ∈ nss ->
  let '(sn', g') := foldl (fun st device => insert_from device st) (sn, g) ds in
  builder_inv nss None g' /\ server_namespace sn' = server_namespace sn /\ b_servers g' = b_servers g /\
  all_aliases (b_devices g') ≡ₚ all_aliases (b_devices g) ++ ((fun d => mkAlias (name d) (server_namespace sn)) <$> ds).
Proof.
  revert sn g. induction ds as [|d ds IH]; intros sn g Hg Hn; [cbn; by rewrite app_nil_r|]. cbn [foldl].
  pose proof (insert_from_inv nss d sn g Hg Hn) as Hi. destruct (insert_from d (sn, g)) as [sn1 g1].
  destruct Hi as (Hg1 & Hns & Hs & Ha). specialize (IH sn1 g1 Hg1 ltac:(by rewrite Hns)).
  destruct (foldl _ _ _) as [sn2 g2]. destruct IH as (? & ? & ? & Ha2).
  split; [done|]. split; [by etrans|]. split; [by etrans|].
  rewrite Ha2, Ha, Hns. cbn. by rewrite Permutation_middle.
Qed.

Definition servers_known (nss : list str) (g : TopologyGraphBuilder) : Prop :=
  forall ns, is_Some (bt_get str_cmp ns (b_servers g)) <-> ns ∈ nss.

Lemma insert_server_inv values nss entry g : builder_inv nss None g -> servers_known nss g ->
  let g' := insert_server values g entry in
  builder_inv (entry.1 :: nss) None g' /\ servers_known (entry.1 :: nss) g' /\
  all_aliases (b_devices g') ≡ₚ all_aliases (b_devices g) ++ reports values entry.
Proof.
  intros [Hs Hc Hd Hi Ha He] Hk. destruct entry as [ns upsd]. cbn [fst]. unfold insert_server.
  set (sn := mkServerNode _ _ _ _ _ _).
  assert (Hg0 : builder_inv (ns :: nss) None g).
  { constructor; try done. eapply list.Forall_impl; [exact He|]. intros e. apply edge_known_mono; [done| |done].
    intros n Hn. by right. }
  pose proof (insert_devices_inv (ns :: nss) (values (devices (daemon_state upsd))) sn g Hg0 ltac:(by left)) as H.
  destruct (foldl _ _ _) as [sn1 g1]. destruct H as ([Hs1 Hc1 Hd1 Hi1 Ha1 He1] & Hns & Hsrv & Hal).
  split; [|split].
  - constructor; try done. cbn. by apply (bt_insert_sorted str_cmp).
  - intros n. cbn. rewrite (bt_get_insert str_cmp), elem_of_cons, <- (Hk n), <- Hsrv, Hns.
    destruct (str_cmp n (server_namespace sn)) eqn:E.
    + apply str_cmp_eq in E. split; [by left|by eexists].
    + split; [by right|]. intros [->|?]; [|done]. cbn in E. by rewrite str_cmp_refl in E.
    + split; [by right|]. intros [->|?]; [|done]. cbn in E. by rewrite str_cmp_refl in E.
  - exact Hal.
Qed.

Lemma from_server_state_inv values servers :
  let g := from_server_state values servers in
  exists nss, builder_inv nss None g /\ servers_known nss g /\ (forall ns, ns ∈ nss <-> ns ∈ servers.*1) /\
  all_aliases (b_devices g) ≡ₚ servers ≫= reports values.
Proof.
  cbv zeta. unfold from_server_state.
  assert (H : forall nss g, builder_inv nss None g -> servers_known nss g ->
    exists nss', builder_inv nss' None (foldl (insert_server values) g servers) /\
      servers_known nss' (foldl (insert_server values) g servers) /\
      (forall ns, ns ∈ nss' <-> ns ∈ nss \/ ns ∈ servers.*1) /\
      all_aliases (b_devices (foldl (insert_server values) g servers)) ≡ₚ
        all_aliases (b_devices g) ++ (servers ≫= reports values)).
  { induction servers as [|entry servers IH]; intros nss g Hg Hk; cbn.
    - exists nss. split_and!; [done|done| |by rewrite app_nil_r]. intros ns. split; [by left|].
      intros [|Hn]; [done|by apply not_elem_of_nil in Hn].
    - destruct (insert_server_inv values nss entry g Hg Hk) as (Hg1 & Hk1 & Hal1).
      destruct (IH _ _ Hg1 Hk1) as (nss' & Hg2 & Hk2 & Hn & Hal2). exists nss'. split_and!; [done|done| |].
      + intros ns. rewrite Hn, !elem_of_cons. tauto.
      + rewrite Hal2, Hal1. by rewrite app_assoc. }
  destruct (H [] TopologyGraphBuilder_new) as (nss & Hg & Hk & Hn & Hal).
  - constructor; constructor.
  - intros ns. cbn. split; [by intros []|by intros ?%not_elem_of_nil].
  - exists nss. split_and!; [done|done| |done]. intros ns. rewrite Hn. split; [|by right].
    by intros [?%not_elem_of_nil|].
Qed.

(** ** Lemmas: numbering *)

Lemma number_fst {K V} (f : nat -> V -> V) (m : list (K * V)) : (number f m).*1 = m.*1.
Proof. unfold number. rewrite fmap_imap. revert f. induction m as [|e m IH]; intros f; [done|]. cbn. f_equal. exact (IH (f ∘ S)). Qed.

Lemma number_sorted {K V} (cmp : K -> K -> comparison) (f : nat -> V -> V) m :
  bt_sorted cmp m -> bt_sorted cmp (number f m).
Proof. by rewrite !bt_sorted_fst, number_fst. Qed.

Lemma get_fst {K V V'} (cmp : K -> K -> comparison) k (m : list (K * V)) (m' : list (K * V')) :
  m.*1 = m'.*1 -> is_Some (bt_get cmp k m) -> is_Some (bt_get cmp k m').
Proof.
  revert m'. induction m as [|[k1 v] m IH]; intros [|[k2 v'] m'] [=]; [by intros []|]. subst. cbn.
  destruct (cmp k k2); [by eexists|by apply IH..].
Qed.

(** A key that is in the map resolves to the place of its node. *)
Lemma number_resolve {K V} (cmp : K -> K -> comparison) (f : nat -> V -> V) `{GraphNode V} t k m :
  (forall i v, get_id (f i v) = mkNodeId i t) -> is_Some (bt_get cmp k m) ->
  exists i k' v, get_id <$> bt_get cmp k (number f m) = Some (mkNodeId i t) /\ number f m !! i = Some (k', v) /\
    cmp k k' = Eq.
Proof.
  intros Hid Hk. destruct (get_fst cmp k m (number f m) (eq_sym (number_fst f m)) Hk) as [v Hv].
  destruct (bt_get_elem _ _ _ _ Hv) as (k' & Hin & Hk'). apply list_elem_of_lookup in Hin as [i Hi].
  exists i, k', v. split; [|done]. rewrite Hv. cbn. f_equal. unfold number in Hi. rewrite list_lookup_imap in Hi.
  destruct (m !! i) as [e|]; [|done]. injection Hi as _ <-. apply Hid.
Qed.

(** ** The graph *)

(** Where an edge ends. *)
Definition node_exists (g : TopologyGraph) (n : NodeId) : Prop :=
  match node_type n with
  | NServer => is_Some (g_servers g !! node_id n)
  | NClient => is_Some (g_clients g !! node_id n)
  | NDevice => is_Some (g_devices g !! node_id n)
  | NEdge => False
  end.

Lemma number_id {K V} (f : nat -> V -> V) `{GraphNode V} t (m : list (K * V)) i e :
  (forall i v, get_id (f i v) = mkNodeId i t) -> number f m !! i = Some e -> get_id e.2 = mkNodeId i t.
Proof.
  intros Hid Hi. unfold number in Hi. rewrite list_lookup_imap in Hi. destruct (m !! i) as [e'|]; [|done].
  injection Hi as <-. apply Hid.
Qed.

Lemma resolve_all (resolve : nat -> EdgeRefNode -> option EdgeNode) (es : list EdgeRefNode) (P : EdgeNode -> Prop) :
  (forall i e, es !! i = Some e -> exists n, resolve i e = Some n /\ edge_id n = i /\ P n) ->
  edge_id <$> omap id (imap resolve es) = seq 0 (length es) /\ Forall P (omap id (imap resolve es)).
Proof.
  intros H. assert (Hgen : forall k, (forall i e, es !! i = Some e -> exists n, resolve (k + i)%nat e = Some n /\
      edge_id n = (k + i)%nat /\ P n) ->
    edge_id <$> omap id (imap (fun i => resolve (k + i)%nat) es) = seq k (length es) /\
    Forall P (omap id (imap (fun i => resolve (k + i)%nat) es))); [|exact (Hgen 0%nat H)].
  clear H. induction es as [|e es IH]; intros k H; [by split|]. cbn.
  destruct (H 0%nat e eq_refl) as (n & Hn & Hi & Hp). rewrite Hn. cbn.
  destruct (IH (S k)) as [IH1 IH2].
  { intros i e' He'. destruct (H (S i) e' He') as (n' & ? & ? & ?). exists n'. by rewrite Nat.add_succ_l, <- Nat.add_succ_r. }
  assert (Heq : imap ((fun i => resolve (k + i)%nat) ∘ S) es = imap (fun i => resolve (S k + i)%nat) es).
  { apply imap_ext. intros i e' _. cbn. by rewrite Nat.add_succ_r. }
  rewrite Heq. split; [|by constructor]. f_equal; [lia|]. exact IH1.
Qed.

Lemma finish_edges g nss : builder_inv nss None g -> servers_known nss g ->
  edge_id <$> g_edges (graph_finish g) ≡ₚ seq 0 (length (edge_refs g)) /\
  Forall (fun e => node_type (edge_from e) = NDevice /\ node_type (edge_to e) <> NDevice /\
    node_exists (graph_finish g) (edge_from e) /\ node_exists (graph_finish g) (edge_to e)) (g_edges (graph_finish g)).
Proof.
  intros [Hs Hc Hd Hi Ha He] Hk.
  set (g' := mkBuilderState (number set_server_id (b_servers g)) (number set_client_id (b_clients g))
               (number set_device_id (b_devices g)) (edge_refs g)).
  assert (Hed : g_edges (graph_finish g) = sort_by edge_cmp (omap id (imap (resolve_edge g') (edge_refs g)))) by done.
  rewrite Hed.
  destruct (resolve_all (resolve_edge g') (edge_refs g) (fun e => node_type (edge_from e) = NDevice /\
    node_type (edge_to e) <> NDevice /\ node_exists (graph_finish g) (edge_from e) /\ node_exists (graph_finish g) (edge_to e)))
    as [Hids Hall].
  - intros i e Hin. rewrite list.Forall_forall in He. destruct (He e) as ((k & Hf) & Hto & Hkf & Hkt);
      [by eapply list_elem_of_lookup_2|].
    rewrite Hf in Hkf. destruct Hkf as [Hkf|]; [|done].
    destruct (number_resolve DeviceId_cmp set_device_id NDevice k (b_devices g) ltac:(done) Hkf)
      as (fi & fk & fv & Hrf & Hlf & _).
    assert (Hrt : exists ti t, resolve_link g' (ref_to e) = Some (mkNodeId ti t) /\ t <> NDevice /\
      node_exists (graph_finish g) (mkNodeId ti t)).
    { destruct (ref_to e) as [k'|ip|ns]; [by destruct (Hto k')| |].
      - destruct (number_resolve IpAddr_cmp set_client_id NClient ip (b_clients g) ltac:(done) Hkt)
          as (ti & tk & tv & Hrt & Hlt & _). exists ti, NClient. split; [exact Hrt|]. split; [done|]. by eexists.
      - destruct (number_resolve str_cmp set_server_id NServer ns (b_servers g) ltac:(done) (proj2 (Hk ns) Hkt))
          as (ti & tk & tv & Hrt & Hlt & _). exists ti, NServer. split; [exact Hrt|]. split; [done|]. by eexists. }
    destruct Hrt as (ti & t & Hrt & Ht & Hte). eexists. unfold resolve_edge. rewrite Hf, Hrt.
    change (resolve_link g' (LDevice k)) with (get_id <$> bt_get DeviceId_cmp k (number set_device_id (b_devices g))).
    rewrite Hrf. split; [done|]. cbn. split; [done|]. split_and!; [done|done| |done]. by eexists.
  - split; [|by rewrite sort_by_perm]. by rewrite sort_by_perm, Hids.
Qed.

(** C18: Whatever the order in which the hash maps of daemons and devices are iterated, the topology graph is
    well formed: daemons, clients and devices are listed in strictly ascending order of their keys
    and numbered by their place, every edge goes from a device to a daemon or a client of the
    graph, no edge is dropped, the edges are sorted, and the aliases of the device nodes are
    exactly the devices that the daemons report. *)
Theorem topology_graph_spec (values : gmap UpsName DeviceEntry -> list DeviceEntry)
  (servers : list (str * UpsdState)) :
  let builder := from_server_state values servers in
  let g := graph_finish builder in
  bt_sorted str_cmp (g_servers g) /\ bt_sorted IpAddr_cmp (g_clients g) /\ bt_sorted DeviceId_cmp (g_devices g) /\
  (forall i e, g_servers g !! i = Some e -> get_id e.2 = mkNodeId i NServer) /\
  (forall i e, g_clients g !! i = Some e -> get_id e.2 = mkNodeId i NClient) /\
  (forall i e, g_devices g !! i = Some e -> get_id e.2 = mkNodeId i NDevice) /\
  (forall ns, ns ∈ (g_servers g).*1 <-> ns ∈ servers.*1) /\
  all_aliases (g_devices g) ≡ₚ servers ≫= reports values /\
  edge_id <$> g_edges g ≡ₚ seq 0 (length (edge_refs builder)) /\
  StronglySorted (cmp_le edge_cmp) (g_edges g) /\
  Forall (fun e => node_type (edge_from e) = NDevice /\ node_type (edge_to e) <> NDevice /\
    node_exists g (edge_from e) /\ node_exists g (edge_to e)) (g_edges g).
Proof.
  cbv zeta. destruct (from_server_state_inv values servers) as (nss & Hg & Hk & Hn & Hal).
  set (b := from_server_state values servers) in *. pose proof (finish_edges b nss Hg Hk) as [He1 He2].
  destruct Hg as [Hs Hc Hd Hi Ha He].
  split_and!; [by apply number_sorted..|intros i e|intros i e|intros i e| | |done| |done].
  - by apply (number_id set_server_id).
  - by apply (number_id set_client_id).
  - by apply (number_id set_device_id).
  - intros ns. cbn. rewrite number_fst, <- Hn, <- (Hk ns). split.
    + intros ([k v] & -> & Hin)%list_elem_of_fmap. apply (bt_elem_get str_cmp) in Hin; [|done]. by eexists.
    + intros [v (k' & Hin & ->%str_cmp_eq)%bt_get_elem]. apply list_elem_of_fmap. by exists (k', v).
  - rewrite <- Hal. cbn. unfold all_aliases, number. rewrite fmap_imap. rewrite (imap_ext _ (fun _ e => aliases e.2)) by done.
    by rewrite <- (imap_const (fun e => aliases e.2)).
  - apply (sort_by_sorted edge_cmp).
Qed.

(** The order of device identities is a total preorder that does not agree with their equality: devices
    that state the same manufacturer, model and serial number are one node, whatever their name and
    daemon, and devices that state nothing are told apart by daemon and name; so two devices of one
    daemon that state the same model and no serial number share a node. *)
Lemma device_identity_spec (a b : DeviceId) :
  OrdLaws DeviceId_cmp /\
  (DeviceId_cmp a b = Eq <-> manufacturer a = manufacturer b /\ model a = model b /\ serial a = serial b /\
     (anonymous a = true -> id_namespace a = id_namespace b /\ id_name a = id_name b)) /\
  (is_Some (model a) -> serial a = None ->
     DeviceId_cmp a (mkDeviceId (manufacturer a) (model a) None (id_name b) (id_namespace a)) = Eq).
Proof.
  split; [apply _|]. split; [apply DeviceId_cmp_eq|]. intros [m Hm] Hs. apply DeviceId_cmp_eq. cbn.
  split_and!; [done..|]. unfold anonymous. rewrite Hm, Hs. done.
Qed.
