(* ===== verification/Pages.v ===== *)
(** * The pages

    [http/hypermedia/route/home.rs], [connection.rs], [system.rs] and [ups.rs]:
    what each page hands to its template. The hash maps of daemons and devices
    are iterated in an unspecified order: [iter] and [values] are any order, and
    the theorems show that the pages do not depend on it. *)

From stdpp Require Import sorting.
From S2P Require Import Prelude RustStr Numbers Errors Names VarName Value UpsVariables Auth Config State.
From S2P Require Import Collections Semantic Api Web WebWrite Topology.

#[local] Open Scope Z_scope.

(** ** [home.rs] *)

Record DeviceTableRow := mkDeviceRow { row_id : str; row_device : DeviceEntry }.
Record TableRowsTemplate := mkTableRows { row_devices : list DeviceTableRow; rows_namespace : str }.
Record RenderedRows := mkRenderedRows { rows_html : str; rendered_namespace : str }.
Record HomeTemplate := mkHomeTemplate {
  home_rows : list RenderedRows; active_namespace : option str; namespaces : list str }.
(** [as_device_table] and [as_device_container]. *)
Record DeviceTableBlock := as_device_table { table_of : HomeTemplate }.
Record DeviceContainerBlock := as_device_container { container_of : HomeTemplate }.

(** ** [connection.rs] and [system.rs] *)

Record UpsdInfoTemplate := mkUpsdInfo { info_config : UpsdConfig; info_state : DaemonState; info_name : str }.
Record RenderedUpsdInfo := mkRenderedInfo { info_html : str; info_namespace : str }.
Record ConnectionPageTemplate := mkConnectionPage { upsd_html : list RenderedUpsdInfo }.
Record InfoCardsBlock := as_info_cards { cards_of : ConnectionPageTemplate }.

Record AppDetails := mkAppDetails { app_version : str; app_license : str; app_repository : str }.
Record SystemPageTemplate := mkSystemPage {
  system_config : ServerConfig; app_info : AppDetails; system_users : option UserStore }.

(** ** [ups.rs] *)

Inductive TabName := TabCommands | TabClients | TabGrid | TabRw | TabUnknown | TabVariables.

Definition TabName_visit_str (v : str) : TabName :=
  let v := str_to_ascii_lowercase v in
  if decide (v = lit "commands") then TabCommands
  else if decide (v = lit "clients") then TabClients
  else if decide (v = lit "grid") then TabGrid
  else if decide (v = lit "rw") then TabRw
  else if decide (v = lit "variables") then TabVariables
  else TabUnknown.

(** The shared description table, as its lock gives it. *)
Definition Descriptions := gmap str str.

Inductive UpsPageTabTemplate :=
  | NoTab
  | CommandsTab (descriptions : Descriptions) (device : DeviceEntry) (ns : str)
  | VariablesTab (descriptions : Descriptions) (device_name : UpsName) (ns : str)
      (variables : list (VarName * Value)) (config : UpsdConfig)
  | GridTab (device : DeviceEntry) (ns : str) (config : UpsdConfig)
  | RwTab (descriptions : Descriptions) (inputs : list (VarName * RwFormTemplate)) (device_name : UpsName)
  | ClientsTab (device : DeviceEntry) (ns : str) (config : UpsdConfig).

Definition as_type_str (t : UpsPageTabTemplate) : str :=
  match t with
  | NoTab => lit "none"
  | CommandsTab _ _ _ => lit "commands"
  | VariablesTab _ _ _ _ _ => lit "variables"
  | GridTab _ _ _ => lit "grid"
  | RwTab _ _ _ => lit "rw"
  | ClientsTab _ _ _ => lit "clients"
  end.

Record UpsPageTemplate := mkUpsPage {
  page_device : DeviceEntry; page_namespace : str; tab_template : UpsPageTabTemplate; page_config : UpsdConfig }.
Record UpsStatusBlock := as_ups_status { status_of : UpsPageTemplate }.
Record TabContentBlock := as_tab_content { content_of : UpsPageTemplate }.

(** The input of a writable variable on the page. *)
Definition rw_input (device : DeviceEntry) (ns : str) (n : VarName) (detail : VarDetail) : RwFormTemplate :=
  mkRwForm detail None SNone (UpsVariables_get (variables device) n) (name device) ns n None.

Section pages.

Context `{Template ErrorPage, Template TableRowsTemplate, Template HomeTemplate, Template DeviceTableBlock}.
Context `{Template DeviceContainerBlock, Template UpsdInfoTemplate, Template ConnectionPageTemplate}.
Context `{Template InfoCardsBlock, Template SystemPageTemplate, Template UpsPageTemplate}.
Context `{Template UpsStatusBlock, Template TabContentBlock}.

(** The orders in which the hash maps are iterated. *)
Context (values : gmap UpsName DeviceEntry -> list DeviceEntry) (iter : Servers -> list (str * UpsdState)).
Context (vars_iter : UpsVariables -> list (VarName * Value)).
Context (rw_iter : gmap VarName VarDetail -> list (VarName * VarDetail)).
Context (config : ServerConfig) (servers : Servers).

Definition device_rows (upsd : UpsdState) : list DeviceTableRow :=
  sort_by (cmp_on (fun row => ups_name (name (row_device row))) str_cmp)
    ((fun device => mkDeviceRow
        (normalize_id (ups_name (name device)) ++ lit "@" ++ normalize_id (namespace upsd)) device)
     <$> values (devices (daemon_state upsd))).

Definition render_device_rows (upsd : UpsdState) (session : option UserSession) : outcome str str :=
  render_with_config (mkTableRows (device_rows upsd) (namespace upsd)) config session.

(** [for upsd in state.upsd_servers.values() { rendered_rows.push(..) }]. *)
Fixpoint render_all (upsds : list UpsdState) (session : option UserSession) (rendered : list RenderedRows)
  : outcome str (list RenderedRows) :=
  match upsds with
  | [] => Ok rendered
  | upsd :: upsds =>
      let? html := render_device_rows upsd session in
      render_all upsds session (rendered ++ [mkRenderedRows html (namespace upsd)])
  end.

(** A page, or the block of it that the query asks for. *)
Definition page_of {T} `{Template T} (t : T) (session : option UserSession) : outcome ErrorPage WebResponse :=
  let? html := ErrorPage_from (render_with_config t config session) in
  Ok (Html html).

Definition home_get (section ns : option str) (session : option UserSession) : outcome ErrorPage WebResponse :=
  let? rendered_rows :=
    ErrorPage_from (match ns ≫= (fun n => servers !! n) with
                    | Some upsd => render_all [upsd] session []
                    | None => render_all (iter servers).*2 session []
                    end) in
  let rendered_rows := sort_by (cmp_on rendered_namespace str_cmp) rendered_rows in
  let namespaces := sort_by str_cmp (iter servers).*1 in
  let template := mkHomeTemplate rendered_rows ns namespaces in
  if decide (section = Some (lit "device_table")) then page_of (as_device_table template) session
  else if decide (section = Some (lit "device_container")) then page_of (as_device_container template) session
  else page_of template session.

Fixpoint render_infos (upsds : list UpsdState) (session : option UserSession) (rendered : list RenderedUpsdInfo)
  : outcome str (list RenderedUpsdInfo) :=
  match upsds with
  | [] => Ok rendered
  | upsd :: upsds =>
      let? html := render_with_config
        (mkUpsdInfo (upsd_config upsd) (daemon_state upsd) (namespace upsd)) config session in
      render_infos upsds session (rendered ++ [mkRenderedInfo html (namespace upsd)])
  end.

Definition connection_get (section : option str) (session : option UserSession) : outcome ErrorPage WebResponse :=
  let? rendered := ErrorPage_from (render_infos (iter servers).*2 session []) in
  let template := mkConnectionPage (sort_by (cmp_on info_namespace str_cmp) rendered) in
  if decide (section = Some (lit "info_cards")) then page_of (as_info_cards template) session
  else page_of template session.

(** [get_app_info] gives constants of the build. *)
Definition system_get (app : AppDetails) (auth_user_store : option UserStore) (session : option UserSession)
  : outcome ErrorPage WebResponse :=
  page_of (mkSystemPage config app auth_user_store) session.

(** [get_tab_template]. *)
Definition get_tab_template (tab_name : TabName) (ns : str) (device : DeviceEntry) (descriptions : Descriptions)
  (upsd_config : UpsdConfig) : UpsPageTabTemplate :=
  match tab_name with
  | TabVariables =>
      VariablesTab descriptions (name device) ns
        (sort_by (cmp_on fst VarName_cmp) (vars_iter (variables device))) upsd_config
  | TabCommands => CommandsTab descriptions device ns
  | TabClients => ClientsTab device ns upsd_config
  | TabRw =>
      let inputs := (fun '(n, detail) => (n, rw_input device ns n detail)) <$> rw_iter (rw_variables device) in
      RwTab descriptions (bt_collect VarName_cmp inputs []) (name device)
  | _ => GridTab device ns upsd_config
  end.

Definition ups_get (ns : str) (ups : UpsName) (section : option str) (tab : option TabName)
  (descriptions : Descriptions) (session : option UserSession) : outcome ErrorPage WebResponse :=
  match servers !! ns with
  | None => Ok (redirect_not_found config)
  | Some upsd =>
      match devices (daemon_state upsd) !! ups with
      | None => Ok (redirect_not_found config)
      | Some device =>
          let tab_name := default TabGrid tab in
          let template tab := mkUpsPage device ns tab (upsd_config upsd) in
          let tab := get_tab_template tab_name ns device descriptions (upsd_config upsd) in
          if decide (section = Some (lit "status")) then page_of (as_ups_status (template NoTab)) session
          else if decide (section = Some (lit "tab_content")) then page_of (as_tab_content (template tab)) session
          else page_of (template tab) session
      end
  end.

End pages.

(** ** Lemmas *)

#[global] Instance VarName_cmp_laws : OrdLaws VarName_cmp := cmp_on_laws VarName_as_str str_cmp.

(** What the standard library says of the iteration of a hash map. *)
Definition iterates {K A} `{Countable K} (it : gmap K A -> list (K * A)) : Prop := forall m, it m ≡ₚ map_to_list m.
Definition iterates_values {K A} `{Countable K} (it : gmap K A -> list A) : Prop :=
  forall m, it m ≡ₚ (map_to_list m).*2.

(** A daemon is stored under its namespace, a device under its name. *)
Definition state_named (servers : Servers) : Prop :=
  (forall ns upsd, servers !! ns = Some upsd -> namespace upsd = ns) /\
  (forall ns upsd n d, servers !! ns = Some upsd -> devices (daemon_state upsd) !! n = Some d -> name d = n).
(** The names of variables that the parsers make are told apart by their text. *)
Definition vars_canonical {A} (m : gmap VarName A) : Prop :=
  forall a b, is_Some (m !! a) -> is_Some (m !! b) -> VarName_as_str a = VarName_as_str b -> a = b.

(** A map sorted by an injective key does not depend on how it was iterated. *)
Lemma sorted_map_unique {K A B} `{Countable K} (it it' : gmap K A -> list (K * A)) (m : gmap K A)
  (f : K * A -> B) (cmp : B -> B -> comparison) `{!OrdLaws cmp} :
  iterates it -> iterates it' ->
  (forall e e', m !! e.1 = Some e.2 -> m !! e'.1 = Some e'.2 -> cmp (f e) (f e') = Eq -> f e = f e') ->
  sort_by cmp (f <$> it m) = sort_by cmp (f <$> it' m).
Proof.
  intros Hit Hit' Hinj. apply (sort_by_unique cmp).
  - intros a b ([k v] & -> & Ha)%list_elem_of_fmap ([k' v'] & -> & Hb)%list_elem_of_fmap.
    rewrite (Hit m) in Ha, Hb. apply elem_of_map_to_list in Ha, Hb. by apply Hinj.
  - by rewrite (Hit m), (Hit' m).
Qed.

Lemma sorted_values_unique {K A B} `{Countable K} (it it' : gmap K A -> list A) (m : gmap K A)
  (f : A -> B) (cmp : B -> B -> comparison) `{!OrdLaws cmp} :
  iterates_values it -> iterates_values it' ->
  (forall k k' a a', m !! k = Some a -> m !! k' = Some a' -> cmp (f a) (f a') = Eq -> f a = f a') ->
  sort_by cmp (f <$> it m) = sort_by cmp (f <$> it' m).
Proof.
  intros Hit Hit' Hinj. apply (sort_by_unique cmp).
  - intros a b (v & -> & Ha)%list_elem_of_fmap (v' & -> & Hb)%list_elem_of_fmap.
    rewrite (Hit m) in Ha, Hb. apply list_elem_of_fmap in Ha as ([k v1] & -> & Ha), Hb as ([k' v1'] & -> & Hb).
    apply elem_of_map_to_list in Ha, Hb. by eapply Hinj.
  - by rewrite (Hit m), (Hit' m).
Qed.

Section page_lemmas.

Context `{Template TableRowsTemplate, Template UpsdInfoTemplate}.
Context (config : ServerConfig).

Lemma device_rows_unique (values values' : gmap UpsName DeviceEntry -> list DeviceEntry) upsd :
  iterates_values values -> iterates_values values' ->
  (forall n d, devices (daemon_state upsd) !! n = Some d -> name d = n) ->
  device_rows values upsd = device_rows values' upsd.
Proof.
  intros Hv Hv' Hn. unfold device_rows. apply sorted_values_unique; [apply _|done..|].
  intros k k' d d' Hk Hk'. unfold cmp_on. cbn. rewrite str_cmp_eq. intros Heq.
  rewrite (Hn _ _ Hk), (Hn _ _ Hk') in *. destruct k, k'. cbn in Heq. congruence.
Qed.

(** The fragment of a daemon, where it renders. *)
Definition html_of (o : outcome str str) : str := match o with Ok html => html | _ => [] end.

(** The loops render every daemon, or some fragment does not render and they fail. *)
Lemma render_all_cases values upsds session acc :
  (Forall (fun u => is_ok (render_device_rows values config u session) = true) upsds /\
   render_all values config upsds session acc = Ok (acc ++ ((fun u =>
     mkRenderedRows (html_of (render_device_rows values config u session)) (namespace u)) <$> upsds))) \/
  (Exists (fun u => is_ok (render_device_rows values config u session) = false) upsds /\
   is_ok (render_all values config upsds session acc) = false).
Proof.
  revert acc. induction upsds as [|u us IH]; intros acc; [left; split; [done|]; cbn; by rewrite app_nil_r|].
  cbn [render_all]. destruct (render_device_rows values config u session) as [html| | |] eqn:E; cbn [obind];
    [|right; split; [apply Exists_cons_hd; by rewrite E|done]..].
  destruct (IH (acc ++ [mkRenderedRows html (namespace u)])) as [[Hf ->]|[He Hr]].
  - left. split; [by constructor; [rewrite E|]|]. cbn [fmap list_fmap]. by rewrite E, <- app_assoc.
  - right. split; [by apply Exists_cons_tl|done].
Qed.

Definition render_info (session : option UserSession) (u : UpsdState) : outcome str str :=
  render_with_config (mkUpsdInfo (upsd_config u) (daemon_state u) (namespace u)) config session.

Lemma render_infos_cases upsds session acc :
  (Forall (fun u => is_ok (render_info session u) = true) upsds /\
   render_infos config upsds session acc = Ok (acc ++ ((fun u =>
     mkRenderedInfo (html_of (render_info session u)) (namespace u)) <$> upsds))) \/
  (Exists (fun u => is_ok (render_info session u) = false) upsds /\
   is_ok (render_infos config upsds session acc) = false).
Proof.
  revert acc. induction upsds as [|u us IH]; intros acc; [left; split; [done|]; cbn; by rewrite app_nil_r|].
  cbn [render_infos]. fold (render_info session u). destruct (render_info session u) as [html| | |] eqn:E; cbn [obind];
    [|right; split; [apply Exists_cons_hd; by rewrite E|done]..].
  destruct (IH (acc ++ [mkRenderedInfo html (namespace u)])) as [[Hf ->]|[He Hr]].
  - left. split; [by constructor; [rewrite E|]|]. cbn [fmap list_fmap]. by rewrite E, <- app_assoc.
  - right. split; [by apply Exists_cons_tl|done].
Qed.

End page_lemmas.

(** Rows of daemons, sorted by namespace, do not depend on the order of the daemons. *)
Lemma server_rows_unique {B} (iter iter' : Servers -> list (str * UpsdState)) (servers : Servers)
  (row row' : UpsdState -> B) (key : B -> str) :
  iterates iter -> iterates iter' -> state_named servers ->
  (forall ns u, servers !! ns = Some u -> row u = row' u) -> (forall u, key (row u) = namespace u) ->
  sort_by (cmp_on key str_cmp) (row <$> (iter servers).*2) = sort_by (cmp_on key str_cmp) (row' <$> (iter' servers).*2).
Proof.
  intros Hi Hi' [Hn _] Hrow Hkey. apply (sort_by_unique _).
  - intros a b (u & -> & Ha)%list_elem_of_fmap (u' & -> & Hb)%list_elem_of_fmap.
    apply list_elem_of_fmap in Ha as ([ns u1] & -> & Ha), Hb as ([ns' u1'] & -> & Hb).
    rewrite (Hi servers) in Ha, Hb. apply elem_of_map_to_list in Ha, Hb. unfold cmp_on. cbn.
    rewrite !Hkey, str_cmp_eq, (Hn _ _ Ha), (Hn _ _ Hb). intros ->. congruence.
  - etrans; [apply fmap_Permutation, fmap_Permutation, (Hi servers)|].
    etrans; [|symmetry; apply fmap_Permutation, fmap_Permutation, (Hi' servers)].
    apply Permutation_refl'. apply list_fmap_ext. intros i u Hu. apply list_elem_of_lookup_2, list_elem_of_fmap in Hu as ([ns u1] & -> & Hin).
    apply elem_of_map_to_list in Hin. by eapply Hrow.
Qed.

(** The variables and inputs of a device's page, whatever the order of its maps. *)
Lemma variables_unique (vars vars' : UpsVariables -> list (VarName * Value)) m :
  iterates vars -> iterates vars' -> vars_canonical m ->
  sort_by (cmp_on fst VarName_cmp) (vars m) = sort_by (cmp_on fst VarName_cmp) (vars' m).
Proof.
  intros Hr Hr' Hc. rewrite <- (list_fmap_id (vars m)), <- (list_fmap_id (vars' m)).
  apply (sorted_map_unique vars vars' m id); [apply _|done|done|].
  intros [a v] [b v'] Ha Hb Heq%str_cmp_eq. cbn in *. assert (a = b) as -> by (apply Hc; eauto). congruence.
Qed.

Lemma rw_inputs_unique {B} (rw rw' : gmap VarName VarDetail -> list (VarName * VarDetail)) m
  (f : VarName -> VarDetail -> B) : iterates rw -> iterates rw' -> vars_canonical m ->
  bt_collect VarName_cmp ((fun '(n, detail) => (n, f n detail)) <$> rw m) [] =
  bt_collect VarName_cmp ((fun '(n, detail) => (n, f n detail)) <$> rw' m) [].
Proof.
  intros Hr Hr' Hc.
  assert (Hone : forall it, iterates it -> let l := (fun '(n, detail) => (n, f n detail)) <$> it m in
    bt_sorted VarName_cmp (bt_collect VarName_cmp l []) /\ bt_collect VarName_cmp l [] ≡ₚ l).
  { intros it Hit l. assert (Hfst : l.*1 ≡ₚ (map_to_list m).*1).
    { unfold l. rewrite <- list_fmap_compose, <- (Hit m). apply Permutation_refl', list_fmap_ext. by intros i [n d] _. }
    apply (bt_collect_spec VarName_cmp); [constructor| | |done].
    - rewrite Hfst. apply NoDup_fst_map_to_list.
    - intros a b. rewrite !Hfst. intros ([k v] & -> & Ha)%list_elem_of_fmap ([k' v'] & -> & Hb)%list_elem_of_fmap.
      apply elem_of_map_to_list in Ha, Hb. intros Heq%str_cmp_eq. apply Hc; [by eexists..|done]. }
  destruct (Hone rw Hr) as [Hs Hp], (Hone rw' Hr') as [Hs' Hp'].
  apply (bt_sorted_unique VarName_cmp); [done..|]. rewrite Hp, Hp', (Hr m), (Hr' m). done.
Qed.

(** ** The pages *)

(** Two responses are the same; or both fail, and the fragment of some daemon does not render. *)
Definition same_or_fail {A} (servers : Servers) (fragment : UpsdState -> outcome str str) (a b : outcome ErrorPage A) : Prop :=
  a = b \/ (is_ok a = false /\ is_ok b = false /\
             exists ns u, servers !! ns = Some u /\ is_ok (fragment u) = false).

Lemma ErrorPage_from_fails {A B} (o : outcome str A) (f : A -> outcome ErrorPage B) : is_ok o = false ->
  is_ok (obind (ErrorPage_from o) f) = false.
Proof. by destruct o. Qed.

Section canonical.

Context `{Template TableRowsTemplate, Template HomeTemplate, Template DeviceTableBlock, Template DeviceContainerBlock}.
Context `{Template UpsdInfoTemplate, Template ConnectionPageTemplate, Template InfoCardsBlock}.
Context `{Template UpsPageTemplate, Template UpsStatusBlock, Template TabContentBlock}.
Context (config : ServerConfig) (servers : Servers) (Hservers : state_named servers).

Lemma exists_server (iter : Servers -> list (str * UpsdState)) (P : UpsdState -> Prop) : iterates iter ->
  Exists P (iter servers).*2 -> exists ns u, servers !! ns = Some u /\ P u.
Proof.
  intros Hi (u & Hin & Hu)%list.Exists_exists. apply list_elem_of_fmap in Hin as ([ns u'] & -> & Hin).
  exists ns, u'. split; [|done].
  rewrite (Hi servers) in Hin. by apply elem_of_map_to_list in Hin.
Qed.

Lemma forall_server (iter : Servers -> list (str * UpsdState)) (P : UpsdState -> Prop) : iterates iter ->
  Forall P (iter servers).*2 <-> forall ns u, servers !! ns = Some u -> P u.
Proof.
  intros Hi. rewrite list.Forall_fmap, list.Forall_forall. split.
  - intros Hf ns u Hu. apply (Hf (ns, u)). rewrite (Hi servers). by apply elem_of_map_to_list.
  - intros Hf [ns u] Hin. rewrite (Hi servers) in Hin. apply elem_of_map_to_list in Hin. by eapply Hf.
Qed.

(** The rows of all daemons: the same for every order, or they fail for every order. *)
Lemma rows_canonical (values values' : gmap UpsName DeviceEntry -> list DeviceEntry) (iter iter' : Servers -> list (str * UpsdState))
  {B} (f f' : list RenderedRows -> outcome ErrorPage B) session :
  (forall ns u, servers !! ns = Some u -> device_rows values u = device_rows values' u) -> iterates iter -> iterates iter' ->
  (forall l l', sort_by (cmp_on rendered_namespace str_cmp) l = sort_by (cmp_on rendered_namespace str_cmp) l' -> f l = f' l') ->
  same_or_fail servers (fun u => render_device_rows values config u session)
    (obind (ErrorPage_from (render_all values config (iter servers).*2 session [])) f)
    (obind (ErrorPage_from (render_all values' config (iter' servers).*2 session [])) f').
Proof.
  intros Hdev Hi Hi' Hf.
  assert (Hr : forall ns u, servers !! ns = Some u ->
    render_device_rows values config u session = render_device_rows values' config u session).
  { intros ns u Hu. unfold render_device_rows. by rewrite (Hdev ns u Hu). }
  destruct (render_all_cases config values (iter servers).*2 session []) as [[Ha ->]|[Ha Hfail]],
    (render_all_cases config values' (iter' servers).*2 session []) as [[Hb ->]|[Hb Hfail']].
  - left. cbn [ErrorPage_from map_err obind app]. apply Hf. apply server_rows_unique; [done..| |done].
    intros ns u Hu. cbn. by rewrite (Hr ns u Hu).
  - exfalso. apply (exists_server iter' _ Hi') in Hb as (ns & u & Hu & Hb).
    apply (proj1 (forall_server iter _ Hi)) with (ns := ns) (u := u) in Ha; [|done]. rewrite (Hr ns u Hu) in Ha. congruence.
  - exfalso. apply (exists_server iter _ Hi) in Ha as (ns & u & Hu & Ha).
    apply (proj1 (forall_server iter' _ Hi')) with (ns := ns) (u := u) in Hb; [|done]. rewrite (Hr ns u Hu) in Ha. congruence.
  - right. split; [by apply ErrorPage_from_fails|]. split; [by apply ErrorPage_from_fails|]. by apply (exists_server iter _ Hi).
Qed.

Lemma infos_canonical (iter iter' : Servers -> list (str * UpsdState)) section session :
  iterates iter -> iterates iter' ->
  same_or_fail servers (render_info config session)
    (connection_get iter config servers section session) (connection_get iter' config servers section session).
Proof.
  intros Hi Hi'. unfold connection_get.
  destruct (render_infos_cases config (iter servers).*2 session []) as [[Ha ->]|[Ha Hfail]],
    (render_infos_cases config (iter' servers).*2 session []) as [[Hb ->]|[Hb Hfail']].
  - left. cbn [ErrorPage_from map_err obind app]. by erewrite (server_rows_unique iter iter').
  - exfalso. apply (exists_server iter' _ Hi') in Hb as (ns & u & Hu & Hb).
    apply (proj1 (forall_server iter _ Hi)) with (ns := ns) (u := u) in Ha; [|done]. congruence.
  - exfalso. apply (exists_server iter _ Hi) in Ha as (ns & u & Hu & Ha).
    apply (proj1 (forall_server iter' _ Hi')) with (ns := ns) (u := u) in Hb; [|done]. congruence.
  - right. split; [by apply ErrorPage_from_fails|]. split; [by apply ErrorPage_from_fails|]. by apply (exists_server iter _ Hi).
Qed.

(** The home page, the connection page and every tab of a device's page are functions of the state: whatever
    the order in which the hash maps are iterated, the same request gives the same response, or fails
    because a fragment does not render. The home page lists the daemons by namespace and the devices of each
    by name, and a query for an unknown namespace shows every daemon. *)
Lemma pages_canonical
  (Hvars : forall ns u n d, servers !! ns = Some u -> devices (daemon_state u) !! n = Some d ->
     vars_canonical (variables d) /\ vars_canonical (rw_variables d))
  (values values' : gmap UpsName DeviceEntry -> list DeviceEntry) (Hv : iterates_values values) (Hv' : iterates_values values')
  (iter iter' : Servers -> list (str * UpsdState)) (Hi : iterates iter) (Hi' : iterates iter')
  (vars vars' : UpsVariables -> list (VarName * Value)) (Hr : iterates vars) (Hr' : iterates vars')
  (rw rw' : gmap VarName VarDetail -> list (VarName * VarDetail)) (Hw : iterates rw) (Hw' : iterates rw')
  (section : option str) (session : option UserSession) :
  (forall ns, same_or_fail servers (fun u => render_device_rows values config u session)
     (home_get values iter config servers section ns session) (home_get values' iter' config servers section ns session)) /\
  (forall ns u, servers !! ns = Some u -> home_get values iter config servers section (Some ns) session =
     home_get values' iter' config servers section (Some ns) session) /\
  same_or_fail servers (render_info config session)
    (connection_get iter config servers section session) (connection_get iter' config servers section session) /\
  (forall ns ups tab descriptions, ups_get vars rw config servers ns ups section tab descriptions session =
              ups_get vars' rw' config servers ns ups section tab descriptions session) /\
  (forall ns, servers !! ns = None ->
     (forall n u, servers !! n = Some u -> is_ok (render_device_rows values config u session) = true) ->
     home_get values iter config servers section (Some ns) session =
     (let rows := sort_by (cmp_on rendered_namespace str_cmp) ((fun u =>
        mkRenderedRows (html_of (render_device_rows values config u session)) (namespace u)) <$> (map_to_list servers).*2) in
      let template := mkHomeTemplate rows (Some ns) (sort_by str_cmp (map_to_list servers).*1) in
      if decide (section = Some (lit "device_table")) then page_of config (as_device_table template) session
      else if decide (section = Some (lit "device_container")) then page_of config (as_device_container template) session
      else page_of config template session)).
Proof using All.
  assert (Hdev : forall ns u, servers !! ns = Some u -> device_rows values u = device_rows values' u).
  { intros ns u Hu. destruct Hservers as [Hns Hnames]. apply device_rows_unique; [done|done|]. intros n d. by eapply Hnames. }
  assert (Hnamespaces : sort_by str_cmp (iter servers).*1 = sort_by str_cmp (iter' servers).*1).
  { apply (sorted_map_unique iter iter' servers fst str_cmp); [done|done|]. intros e e' _ _. apply str_cmp_eq. }
  assert (Hone : forall ns u, servers !! ns = Some u -> home_get values iter config servers section (Some ns) session =
     home_get values' iter' config servers section (Some ns) session).
  { intros ns u Hu. unfold home_get. cbn [mbind option_bind]. rewrite Hu, Hnamespaces. cbn [render_all].
    unfold render_device_rows. by rewrite (Hdev ns u Hu). }
  split_and!.
  - intros ns. destruct (ns ≫= (fun n => servers !! n)) as [u|] eqn:Eu.
    + destruct ns as [n|]; [|done]. left. by eapply Hone.
    + unfold home_get. rewrite Eu. apply rows_canonical; [done..|]. intros l l' Hl. by rewrite Hl, Hnamespaces.
  - done.
  - by apply infos_canonical.
  - intros ns ups tab descriptions. unfold ups_get. destruct (servers !! ns) as [u|] eqn:Eu; [|done].
    destruct (devices _ !! ups) as [d|] eqn:Ed; [|done]. destruct (Hvars _ _ _ _ Eu Ed) as [Hcv Hcr].
    assert (Htab : forall t, get_tab_template vars rw t ns d descriptions (upsd_config u) =
      get_tab_template vars' rw' t ns d descriptions (upsd_config u)); [|by rewrite Htab].
    intros []; try done; unfold get_tab_template; f_equal.
    + by apply rw_inputs_unique.
    + by apply variables_unique.
  - intros ns Hno Hok. cbv zeta. unfold home_get. cbn [mbind option_bind]. rewrite Hno.
    destruct (render_all_cases config values (iter servers).*2 session []) as [[Ha ->]|[Ha Hfail]].
    + cbn [ErrorPage_from map_err obind app].
      rewrite (server_rows_unique iter map_to_list servers _ (fun u =>
        mkRenderedRows (html_of (render_device_rows values config u session)) (namespace u)) rendered_namespace Hi);
        [|by intros m|done..].
      rewrite (sorted_map_unique iter map_to_list servers fst str_cmp); [done|done|by intros m|].
      intros e e' _ _. apply str_cmp_eq.
    + apply (exists_server iter _ Hi) in Ha as (n & u & Hu & Ha). rewrite (Hok n u Hu) in Ha. discriminate.
Qed.

End canonical.

(** ** The state of the examples *)

Lemma demo_lookup ns u : demo_servers !! ns = Some u -> ns = lit "main" /\ u = demo_upsd.
Proof.
  intros H. by destruct (proj1 (lookup_singleton_Some (M := gmap str) (lit "main") ns demo_upsd u) H) as [<- <-].
Qed.
Lemma demo_lookup_device n d : devices (daemon_state demo_upsd) !! n = Some d -> n = demo_ups /\ d = demo_device.
Proof.
  intros H. by destruct (proj1 (lookup_singleton_Some (M := gmap UpsName) demo_ups n demo_device d) H) as [<- <-].
Qed.
