(* ===== verification/Json.v ===== *)
(** * serde's data model

    The tree a value is serialised to and read back from, and the [Serialize]
    and [Deserialize] implementations that [nut_webgui_upsmc] writes by hand:
    names, values, statuses, protocol errors. What [derive] generates is a
    struct's fields in the order of their declaration. How serde_json spells a
    tree is its own; [JsonText] says what it documents. *)

From S2P Require Import Prelude RustStr Numbers Errors Escape Lexer Names VarName Value Ip IpText Status UpsVariables.

#[local] Open Scope Z_scope.

#[warnings="-register-all"]
Inductive Json :=
  | JNull
  | JBool (b : bool)
  | JInt (z : Z)
  | JFloat (x : SpecFloat.spec_float)
  | JStr (s : str)
  | JArr (l : list Json)
  | JObj (fields : list (str * Json)).

(** Induction with the hypothesis for every element of an array and of an object. *)
Section json_ind.
Context (P : Json -> Prop).
Context (Hnull : P JNull) (Hbool : forall b, P (JBool b)) (Hint : forall z, P (JInt z)).
Context (Hfloat : forall x, P (JFloat x)) (Hstr : forall s, P (JStr s)).
Context (Harr : forall l, Forall P l -> P (JArr l)).
Context (Hobj : forall fields, Forall (fun f => P f.2) fields -> P (JObj fields)).

Fixpoint Json_ind' (j : Json) : P j :=
  match j with
  | JNull => Hnull
  | JBool b => Hbool b
  | JInt z => Hint z
  | JFloat x => Hfloat x
  | JStr s => Hstr s
  | JArr l =>
      Harr l ((fix go l : Forall P l :=
        match l with
        | [] => @List.Forall_nil _ P
        | j :: l => @List.Forall_cons _ P j l (Json_ind' j) (go l)
        end) l)
  | JObj fields =>
      Hobj fields ((fix go l : Forall (fun f => P f.2) l :=
        match l with
        | [] => @List.Forall_nil _ (fun f => P f.2)
        | (k, j) :: l => @List.Forall_cons _ (fun f => P f.2) (k, j) l (Json_ind' j) (go l)
        end) fields)
  end.
End json_ind.

(** ** The interfaces *)

(** serde's errors: a value of another type than the visitor expects, an error that a visitor makes
    from its own, and a field that a struct lacks. *)
Inductive DeError :=
  | InvalidType (expecting : str)
  | CustomError (text : str)
  | MissingField (name : str).

Class Serialize (A : Type) := serialize : A -> Json.
Class Deserialize (A : Type) := deserialize : Json -> outcome DeError A.
#[global] Hint Mode Serialize ! : typeclass_instances.
#[global] Hint Mode Deserialize ! : typeclass_instances.

(** A type whose values are read back as they were written. *)
Class JsonRoundtrip (A : Type) `{Serialize A, Deserialize A} := {
  json_wf : A -> Prop;
  json_roundtrip a : json_wf a -> deserialize (serialize a) = Ok a }.
#[global] Arguments json_wf _ {_ _ _} _.
#[global] Hint Mode JsonRoundtrip ! - - : typeclass_instances.

(** A type that is written as a text and read by [visit_str]. *)
Definition visit_text {A} (expecting : string) (visit_str : str -> outcome DeError A) (j : Json) : outcome DeError A :=
  match j with JStr s => visit_str s | _ => Err (InvalidType (lit expecting)) end.

(** ** Base types *)

#[global] Instance bool_serialize : Serialize bool := JBool.
#[global] Instance int_serialize : Serialize Z := JInt.
#[global] Instance int_deserialize : Deserialize Z := fun j =>
  match j with JInt z => Ok z | _ => Err (InvalidType (lit "integer")) end.
#[global] Instance usize_serialize : Serialize nat := fun n => JInt (Z.of_nat n).
#[global] Instance usize_deserialize : Deserialize nat := fun j =>
  match j with
  | JInt z => if 0 <=? z then Ok (Z.to_nat z) else Err (InvalidType (lit "usize"))
  | _ => Err (InvalidType (lit "usize"))
  end.
#[global] Instance str_serialize : Serialize str := JStr.
#[global] Instance str_deserialize : Deserialize str := visit_text "a string" Ok.

#[global] Instance option_serialize {A} `{Serialize A} : Serialize (option A) := fun o =>
  match o with Some a => serialize a | None => JNull end.
#[global] Instance option_deserialize {A} `{Deserialize A} : Deserialize (option A) := fun j =>
  match j with JNull => Ok None | _ => omap_ok Some (deserialize j) end.

Fixpoint deserialize_seq {A} `{Deserialize A} (l : list Json) : outcome DeError (list A) :=
  match l with
  | [] => Ok []
  | j :: l =>
      let? a := deserialize j in
      let? l := deserialize_seq l in
      Ok (a :: l)
  end.
#[global] Instance list_serialize {A} `{Serialize A} : Serialize (list A) := fun l => JArr (serialize <$> l).
#[global] Instance list_deserialize {A} `{Deserialize A} : Deserialize (list A) := fun j =>
  match j with JArr l => deserialize_seq l | _ => Err (InvalidType (lit "a sequence")) end.

(** A field of an object, by its name. *)
Fixpoint field (name : str) (fields : list (str * Json)) : outcome DeError Json :=
  match fields with
  | [] => Err (MissingField name)
  | (k, j) :: fields => if decide (k = name) then Ok j else field name fields
  end.
Definition get_field {A} `{Deserialize A} (name : string) (fields : list (str * Json)) : outcome DeError A :=
  let? j := field (lit name) fields in deserialize j.

(** ** [nut_webgui_upsmc] *)

#[global] Instance UpsName_serialize : Serialize UpsName := fun u => JStr (UpsName_as_str u).
#[global] Instance UpsName_deserialize : Deserialize UpsName :=
  visit_text "expecting an ups name string" (fun v => map_err CustomError (UpsName_visit_str v)).

#[global] Instance CmdName_serialize : Serialize CmdName := fun c => JStr (CmdName_as_str c).
#[global] Instance CmdName_deserialize : Deserialize CmdName :=
  visit_text "expecting an cmd name string" (fun v => map_err CustomError (CmdName_visit_str v)).

#[global] Instance VarName_serialize : Serialize VarName := fun v =>
  match var_repr v with
  | Standard name => JStr (StandardName.as_str name)
  | Custom name => JStr name
  end.
#[global] Instance VarName_deserialize : Deserialize VarName :=
  visit_text "expecting a variable name string" (fun v => map_err CustomError (VarName_visit_str v)).

#[global] Instance Value_serialize : Serialize Value := fun v =>
  match v with
  | VFloat val => JFloat val
  | VInt val => JInt val
  | VString val => JStr val
  end.
#[global] Instance Value_deserialize : Deserialize Value := fun j =>
  match j with
  | JInt z => Ok (Value_visit_int z)
  | JFloat x => Ok (Value_visit_f64 x)
  | JStr s => Ok (Value_visit_str s)
  | _ => Err (InvalidType (lit "expecting number, float, or name"))
  end.

(** [to_string]: the loop of [Display] has as many rounds as the status has flags. *)
#[global] Instance UpsStatus_serialize : Serialize UpsStatus := fun s => JStr (default [] (UpsStatus_fmt s)).
#[global] Instance UpsStatus_deserialize : Deserialize UpsStatus :=
  visit_text "expecting an ups status string" (fun v => Ok (UpsStatus_visit_str v)).

#[global] Instance UpsEvent_serialize : Serialize UpsEvent := fun e => JStr (UpsEvent_as_str e).

#[global] Instance ProtocolError_serialize : Serialize ProtocolError := fun e => JStr (ProtocolError_as_str e).

(** [std::net::IpAddr] is its text. *)
#[global] Instance IpAddr_serialize : Serialize IpAddr := fun ip => JStr (IpAddr_fmt ip).
#[global] Instance IpAddr_deserialize : Deserialize IpAddr :=
  visit_text "IP address" (fun s => ok_or (CustomError (lit "invalid IP address syntax")) (IpAddr_parse s)).

(** Hash maps and sets are written in the order in which they are iterated. *)
Class HashIter (M E : Type) := hash_iter : M -> list E.

#[global] Instance UpsVariables_serialize `{HashIter UpsVariables (VarName * Value)} : Serialize UpsVariables := fun m =>
  JObj ((fun e => (VarName_as_str e.1, serialize e.2)) <$> hash_iter m).

(** The key of an entry is read by the visitor of its type. *)
Definition deserialize_key {A} `{Deserialize A} (k : str) : outcome DeError A := deserialize (JStr k).

(** [visit_map]: the last entry of a name wins. *)
Fixpoint UpsVariables_visit_map (entries : list (str * Json)) (vars : UpsVariables) : outcome DeError UpsVariables :=
  match entries with
  | [] => Ok vars
  | (k, v) :: entries =>
      let? k := deserialize_key k in
      let? v := deserialize v in
      UpsVariables_visit_map entries (UpsVariables_insert vars k v).2
  end.
#[global] Instance UpsVariables_deserialize : Deserialize UpsVariables := fun j =>
  match j with
  | JObj entries => UpsVariables_visit_map entries UpsVariables_new
  | _ => Err (InvalidType (lit "expecting a ups variable map object"))
  end.

(** ** What is written is read back *)

#[global] Program Instance int_roundtrip : JsonRoundtrip Z := {| json_wf := fun _ => True |}.
Next Obligation. done. Qed.
#[global] Program Instance usize_roundtrip : JsonRoundtrip nat := {| json_wf := fun _ => True |}.
Next Obligation.
  intros n _. unfold deserialize, serialize, usize_deserialize, usize_serialize.
  rewrite (proj2 (Z.leb_le _ _)) by lia. by rewrite Nat2Z.id.
Qed.
#[global] Program Instance str_roundtrip : JsonRoundtrip str := {| json_wf := fun _ => True |}.
Next Obligation. done. Qed.

(** A type with [null] among its values would read [Some null] back as [None]. *)
Class NonNull (A : Type) `{JsonRoundtrip A} := serialize_not_null (a : A) : serialize a <> JNull.
#[global] Instance str_non_null : NonNull str.
Proof. done. Qed.

#[global] Program Instance option_roundtrip {A} `{NonNull A} : JsonRoundtrip (option A) :=
  {| json_wf := from_option (json_wf A) True |}.
Next Obligation.
  intros A ? ? ? Hn [a|] Hw; [|done]. unfold serialize, option_serialize, deserialize, option_deserialize.
  pose proof (serialize_not_null a) as Ha. pose proof (json_roundtrip a Hw) as Hr. destruct (serialize a); try done;
    by rewrite Hr.
Qed.

Lemma deserialize_seq_roundtrip {A} `{JsonRoundtrip A} (l : list A) : Forall (json_wf A) l ->
  deserialize_seq (serialize <$> l) = Ok l.
Proof.
  induction 1 as [|a l Ha _ IH]; [done|]. cbn [fmap list_fmap deserialize_seq]. by rewrite json_roundtrip, IH.
Qed.

#[global] Program Instance list_roundtrip {A} `{JsonRoundtrip A} : JsonRoundtrip (list A) :=
  {| json_wf := Forall (json_wf A) |}.
Next Obligation. intros A ? ? ? l Hl. by apply deserialize_seq_roundtrip. Qed.

#[global] Program Instance UpsName_roundtrip : JsonRoundtrip UpsName := {| json_wf := UpsName_wf |}.
Next Obligation.
  intros u Hu. assert (E := wn_try_from_str u (Borrowed (UpsName_as_str u)) Hu eq_refl).
  unfold deserialize, UpsName_deserialize, serialize, UpsName_serialize, visit_text, UpsName_visit_str.
  cbn in E. by destruct (UpsName_new _); simplify_eq/=.
Qed.

#[global] Program Instance CmdName_roundtrip : JsonRoundtrip CmdName := {| json_wf := CmdName_wf |}.
Next Obligation.
  intros c Hc. assert (E := wn_try_from_str c (Borrowed (CmdName_as_str c)) Hc eq_refl).
  unfold deserialize, CmdName_deserialize, serialize, CmdName_serialize, visit_text, CmdName_visit_str.
  cbn in E. by destruct (CmdName_new _); simplify_eq/=.
Qed.

Lemma VarName_serialize_text n : serialize n = JStr (VarName_as_str n).
Proof. unfold serialize, VarName_serialize, VarName_as_str. by destruct (var_repr n). Qed.

#[global] Program Instance VarName_roundtrip : JsonRoundtrip VarName := {| json_wf := VarName_wf |}.
Next Obligation.
  intros n [Hc Hw]. rewrite VarName_serialize_text. unfold deserialize, VarName_deserialize, visit_text, VarName_visit_str.
  rewrite VarName_new_spec, Hw. cbn. by rewrite canonical_unchecked.
Qed.

(** What the program stores: 64-bit integers. *)
Definition Value_wf (v : Value) : Prop := match v with VInt z => is_i64 z | _ => True end.

#[global] Program Instance Value_roundtrip : JsonRoundtrip Value := {| json_wf := Value_wf |}.
Next Obligation.
  intros [x|z|s] Hv; [done| |done]. unfold deserialize, serialize. cbn. unfold Value_visit_int, Value_from_int.
  by rewrite wrap_i64_id.
Qed.

#[global] Program Instance UpsStatus_roundtrip : JsonRoundtrip UpsStatus := {| json_wf := known |}.
Next Obligation.
  intros s Hs. destruct (status_text_roundtrip s Hs) as (text & Ht & Hn & _).
  unfold deserialize, serialize, UpsStatus_serialize. rewrite Ht. change (Ok (UpsStatus_new text) = Ok s :> outcome DeError _). by rewrite Hn.
Qed.

#[global] Program Instance IpAddr_json_roundtrip : JsonRoundtrip IpAddr := {| json_wf := IpAddr_wf |}.
Next Obligation.
  intros ip Hip. unfold deserialize, serialize, IpAddr_deserialize, IpAddr_serialize. cbn [visit_text].
  by rewrite IpAddr_roundtrip.
Qed.

(** ** The text of a tree *)

(** The trees without what JSON has no text for: doubles may be no numbers, integers are of 64 bits, and
    the names of an object differ. *)
Fixpoint json_plain (j : Json) : bool :=
  match j with
  | JFloat _ => false
  | JInt z => (i64_min <=? z) && (z <=? u64_max)
  | JArr l => forallb json_plain l
  | JObj fields => bool_decide (NoDup fields.*1) && forallb (fun f => json_plain f.2) fields
  | _ => true
  end.

(** What serde_json documents of [to_string] and [from_str]: a plain tree is written, and its text is
    read as the same tree. *)
Definition json_text_documented {E} (to_string : Json -> outcome E str) (from_str : str -> option Json) : Prop :=
  forall j, json_plain j = true -> exists s, to_string j = Ok s /\ from_str s = Some j.
