(* ===== verification/ApiBody.v ===== *)
(** * The bodies of the write requests

    [RwRequest] of [json_api/route/rw.rs] and [InstcmdRequest] of
    [json_api/route/instcmd.rs], and the way from the JSON of a request to the
    command that the daemon is sent. The structs are read by what serde documents
    of [derive(Deserialize)]: the fields of an object in any order, others
    ignored, none twice, or the elements of an array in the order of the
    declaration. axum's [Json] extractor, which makes the tree of a request or
    rejects it, is a parameter. *)

From S2P Require Import Prelude RustStr Numbers Errors Escape Lexer Names VarName Value Command Client.
From S2P Require Import Ip UpsVariables Status Auth Config State Api Json.

#[local] Open Scope Z_scope.

(** ** [derive(Deserialize)] *)

Definition duplicate_field (name : String.string) : DeError := CustomError (lit "duplicate field `" ++ lit name ++ lit "`").
Definition invalid_length (len : nat) (expected : String.string) : DeError :=
  CustomError (lit "invalid length " ++ show_Z (Z.of_nat len) ++ lit ", expected " ++ lit expected).

Section derive.

Context {A B : Type} `{Deserialize A, Deserialize B} (name_a name_b : String.string).

(** A field of the struct, of which there must be one. *)
Definition set_field {T} `{Deserialize T} (name : String.string) (slot : option T) (j : Json) : outcome DeError (option T) :=
  match slot with Some _ => Err (duplicate_field name) | None => omap_ok Some (deserialize j) end.
Definition need_field {T} (name : String.string) (slot : option T) : outcome DeError T :=
  ok_or (MissingField (lit name)) slot.

(** [visit_map] of a struct of one field, and of two. *)
Fixpoint visit_map1 (fields : list (str * Json)) (a : option A) : outcome DeError A :=
  match fields with
  | [] => need_field name_a a
  | (k, j) :: fields =>
      if decide (k = lit name_a) then let? a := set_field name_a a j in visit_map1 fields a
      else visit_map1 fields a
  end.
Fixpoint visit_map2 (fields : list (str * Json)) (a : option A) (b : option B) : outcome DeError (A * B) :=
  match fields with
  | [] =>
      let? a := need_field name_a a in
      let? b := need_field name_b b in
      Ok (a, b)
  | (k, j) :: fields =>
      if decide (k = lit name_a) then let? a := set_field name_a a j in visit_map2 fields a b
      else if decide (k = lit name_b) then let? b := set_field name_b b j in visit_map2 fields a b
      else visit_map2 fields a b
  end.

(** [visit_seq]; serde_json rejects what is left of the array. *)
Definition visit_seq1 (expected : String.string) (l : list Json) : outcome DeError A :=
  match l with
  | [] => Err (invalid_length 0 expected)
  | j :: rest =>
      let? a := deserialize j in
      match rest with [] => Ok a | _ => Err (CustomError (lit "trailing characters")) end
  end.
Definition visit_seq2 (expected : String.string) (l : list Json) : outcome DeError (A * B) :=
  match l with
  | [] => Err (invalid_length 0 expected)
  | j :: rest =>
      let? a := deserialize j in
      match rest with
      | [] => Err (invalid_length 1 expected)
      | j :: rest =>
          let? b := deserialize j in
          match rest with [] => Ok (a, b) | _ => Err (CustomError (lit "trailing characters")) end
      end
  end.

End derive.
#[global] Arguments duplicate_field _%_string_scope.
#[global] Arguments invalid_length _ _%_string_scope.

(** ** The two requests *)

Record RwRequest := mkRwRequest { variable : VarName; value : Value }.
Record InstcmdRequest := mkInstcmdRequest { instcmd : CmdName }.

#[global] Instance RwRequest_deserialize : Deserialize RwRequest := fun j =>
  omap_ok (fun r : VarName * Value => mkRwRequest r.1 r.2)
    match j with
    | JObj fields => visit_map2 "variable" "value" fields None None
    | JArr l => visit_seq2 "struct RwRequest with 2 elements" l
    | _ => Err (InvalidType (lit "struct RwRequest"))
    end.
#[global] Instance InstcmdRequest_deserialize : Deserialize InstcmdRequest := fun j =>
  omap_ok mkInstcmdRequest
    match j with
    | JObj fields => visit_map1 "instcmd" fields None
    | JArr l => visit_seq1 "struct InstcmdRequest with 1 element" l
    | _ => Err (InvalidType (lit "struct InstcmdRequest"))
    end.

Section body.

(** The [Json] extractor: the tree of a request, or why there is none; and its rejection of a tree that is no
    such struct. *)
Context {HttpRequest : Type} (json_tree : HttpRequest -> outcome JsonRejection Json) (data_error : DeError -> JsonRejection).

Definition extract_json (T : Type) `{Deserialize T} (request : HttpRequest) : outcome JsonRejection T :=
  let? j := json_tree request in map_err data_error (deserialize j).

(** What the three routes take from the request. *)
Inductive WriteRoute := RwRoute | InstcmdRoute | FsdRoute.
Definition write_body (route : WriteRoute) (request : HttpRequest) : WriteBody :=
  match route with
  | RwRoute => RwBody (omap_ok (fun body => (variable body, value body)) (extract_json RwRequest request))
  | InstcmdRoute => InstcmdBody (omap_ok instcmd (extract_json InstcmdRequest request))
  | FsdRoute => FsdBody
  end.

End body.

(** ** Specification *)

(** The values that an object gives to a name. *)
Definition entries (name : String.string) (fields : list (str * Json)) : list Json :=
  (filter (fun f : str * Json => f.1 = lit name) fields).*2.
#[global] Arguments entries _%_string_scope _.

(** What the values of the fields denote. *)
Inductive json_name {A E} (new : str -> outcome E A) : Json -> A -> Prop :=
  | json_name_text s a : new s = Ok a -> json_name new (JStr s) a.
Inductive json_value : Json -> Value -> Prop :=
  | json_value_int z : json_value (JInt z) (VInt (wrap_i64 z))
  | json_value_float x : json_value (JFloat x) (VFloat x)
  | json_value_text s : json_value (JStr s) (VString s).

Inductive rw_request : Json -> VarName -> Value -> Prop :=
  | rw_object fields jn jv n v : entries "variable" fields = [jn] -> entries "value" fields = [jv] ->
      json_name VarName_new jn n -> json_value jv v -> rw_request (JObj fields) n v
  | rw_array jn jv n v : json_name VarName_new jn n -> json_value jv v -> rw_request (JArr [jn; jv]) n v.
Inductive instcmd_request : Json -> CmdName -> Prop :=
  | instcmd_object fields jc c : entries "instcmd" fields = [jc] -> json_name CmdName_new jc c -> instcmd_request (JObj fields) c
  | instcmd_array jc c : json_name CmdName_new jc c -> instcmd_request (JArr [jc]) c.

(** ** Lemmas *)

Lemma entries_nil name : entries name [] = [].
Proof. done. Qed.
Lemma entries_here name j fields : entries name ((lit name, j) :: fields) = j :: entries name fields.
Proof. unfold entries. by rewrite filter_cons_True. Qed.
Lemma entries_other name k j fields : k <> lit name -> entries name ((k, j) :: fields) = entries name fields.
Proof. intros H. unfold entries. by rewrite filter_cons_False. Qed.

(** What a slot holds in the end: what it held, or the one value that the rest of the object gives. *)
Definition slot_filled {T} `{Deserialize T} (slot : option T) (l : list Json) (t : T) : Prop :=
  match slot with
  | Some t' => l = [] /\ t' = t
  | None => exists j, l = [j] /\ deserialize j = Ok t
  end.

Lemma set_field_ok {T} `{Deserialize T} name (slot : option T) j l (t : T) :
  (exists t' : T, set_field name slot j = Ok (Some t') /\ slot_filled (Some t') l t) <-> slot_filled slot (j :: l) t.
Proof.
  destruct slot as [t0|]; cbn.
  - split; [by intros (? & ? & _)|by intros []].
  - destruct (deserialize j) as [t1| | |] eqn:E; cbn.
    + split; [intros (t' & [= <-] & -> & ->); by exists j|]. intros (j' & [= <- ->] & Hj). exists t1.
      split_and!; [done..|congruence].
    + split; [by intros (? & ? & _)|]. intros (j' & [= <- _] & Hj). congruence.
    + split; [by intros (? & ? & _)|]. intros (j' & [= <- _] & Hj). congruence.
    + split; [by intros (? & ? & _)|]. intros (j' & [= <- _] & Hj). congruence.
Qed.
Lemma set_field_some {T} `{Deserialize T} name (slot : option T) j o : set_field name slot j = Ok o -> is_Some o.
Proof. destruct slot; cbn; [done|]. destruct (deserialize j); [intros [= <-]; by eexists|done..]. Qed.
Lemma need_field_ok {T} `{Deserialize T} name (slot : option T) t : need_field name slot = Ok t <-> slot_filled slot [] t.
Proof.
  unfold need_field. destruct slot as [t'|]; cbn; [|by split; [|intros (? & ? & _)]]. split; [by intros [= ->]|by intros [_ ->]].
Qed.

Section derive.

Context {A B : Type} `{Deserialize A, Deserialize B} (name_a name_b : String.string).

Lemma visit_map1_ok fields slot (a : A) : visit_map1 name_a fields slot = Ok a <-> slot_filled slot (entries name_a fields) a.
Proof.
  revert slot. induction fields as [|[k j] fields IH]; intros slot; cbn [visit_map1]; [apply need_field_ok|].
  destruct (decide (k = lit name_a)) as [->|Hk]; [|by rewrite entries_other].
  rewrite entries_here, <- (set_field_ok name_a). split.
  - destruct (set_field name_a slot j) as [o| | |] eqn:E; cbn [obind]; [|done..].
    destruct (set_field_some _ _ _ _ E) as [t' ->]. intros Hv. exists t'. split; [done|]. by apply IH.
  - intros (t' & -> & Hs). cbn [obind]. by apply IH.
Qed.

Context (Hne : lit name_a <> lit name_b).

Lemma visit_map2_ok fields slot_a slot_b (a : A) (b : B) : visit_map2 name_a name_b fields slot_a slot_b = Ok (a, b) <->
  slot_filled slot_a (entries name_a fields) a /\ slot_filled slot_b (entries name_b fields) b.
Proof using Hne.
  revert slot_a slot_b. induction fields as [|[k j] fields IH]; intros slot_a slot_b; cbn [visit_map2].
  { rewrite !entries_nil, <- (need_field_ok name_a), <- (need_field_ok name_b).
    destruct (need_field name_a slot_a), (need_field name_b slot_b); cbn [obind]; split; try done; try (by intros []).
    - by intros [= -> ->].
    - by intros [[= ->] [= ->]]. }
  destruct (decide (k = lit name_a)) as [->|Ha]; [|destruct (decide (k = lit name_b)) as [->|Hb]].
  - rewrite entries_here, entries_other by done. rewrite <- (set_field_ok name_a). split.
    + destruct (set_field name_a slot_a j) as [o| | |] eqn:E; cbn [obind]; [|done..].
      destruct (set_field_some _ _ _ _ E) as [t' ->]. intros [Hs1 Hs2]%IH. split; [|done]. by exists t'.
    + intros [(t' & -> & Hs) Hs2]. cbn [obind]. by apply IH.
  - rewrite entries_here, entries_other by done. rewrite <- (set_field_ok name_b). split.
    + destruct (set_field name_b slot_b j) as [o| | |] eqn:E; cbn [obind]; [|done..].
      destruct (set_field_some _ _ _ _ E) as [t' ->]. intros [Hs1 Hs2]%IH. split; [done|]. by exists t'.
    + intros [Hs1 (t' & -> & Hs)]. cbn [obind]. by apply IH.
  - by rewrite !entries_other.
Qed.

End derive.

(** A name is read from its text alone. *)
Lemma VarName_json j n : deserialize j = Ok n <-> json_name VarName_new j n.
Proof.
  split.
  - destruct j as [| | | |s| |]; try done. unfold deserialize, VarName_deserialize, visit_text, VarName_visit_str.
    intros Hs. constructor. by destruct (VarName_new s); cbn in Hs; simplify_eq.
  - intros [s a Hs]. unfold deserialize, VarName_deserialize, visit_text, VarName_visit_str. by rewrite Hs.
Qed.
Lemma CmdName_json j c : deserialize j = Ok c <-> json_name CmdName_new j c.
Proof.
  split.
  - destruct j as [| | | |s| |]; try done. unfold deserialize, CmdName_deserialize, visit_text, CmdName_visit_str.
    intros Hs. constructor. by destruct (CmdName_new s); cbn in Hs; simplify_eq.
  - intros [s a Hs]. unfold deserialize, CmdName_deserialize, visit_text, CmdName_visit_str. by rewrite Hs.
Qed.
Lemma Value_json j v : deserialize j = Ok v <-> json_value j v.
Proof.
  split.
  - destruct j as [| |z|x|s| |]; try done; intros [= <-]; constructor.
  - by intros [].
Qed.

(** What the two structs are read from. *)
Lemma RwRequest_json j n v : deserialize j = Ok (mkRwRequest n v) <-> rw_request j n v.
Proof.
  assert (Hne : lit "variable" <> lit "value") by done.
  assert (Hp : forall o : outcome DeError (VarName * Value),
    omap_ok (fun r => mkRwRequest r.1 r.2) o = Ok (mkRwRequest n v) <-> o = Ok (n, v)).
  { intros [[n' v']| | |]; cbn; split; try done; by intros [= -> ->]. }
  unfold deserialize, RwRequest_deserialize. rewrite Hp. destruct j as [| | | | |l|fields];
    try (split; [done|by inversion 1]).
  - split.
    + destruct l as [|jn [|jv rest]]; cbn [visit_seq2]; [done|by destruct (deserialize jn)|].
      destruct (deserialize jn) as [n'| | |] eqn:En; cbn [obind]; [|done..].
      destruct (deserialize jv) as [v'| | |] eqn:Ev; cbn [obind]; [|done..].
      destruct rest; [|done]. intros [= -> ->]. apply rw_array; [by apply VarName_json|by apply Value_json].
    + inversion 1 as [|jn jv n' v' Hn Hv]; subst. apply VarName_json in Hn. apply Value_json in Hv. cbn [visit_seq2].
      by rewrite Hn, Hv.
  - rewrite visit_map2_ok by done. cbn [slot_filled]. split.
    + intros [(jn & En & Hn) (jv & Ev & Hv)]. eapply rw_object; [done|done|by apply VarName_json|by apply Value_json].
    + inversion 1 as [? jn jv n' v' En Ev Hn Hv|]; subst. apply VarName_json in Hn. apply Value_json in Hv. by split; [exists jn|exists jv].
Qed.
Lemma InstcmdRequest_json j c : deserialize j = Ok (mkInstcmdRequest c) <-> instcmd_request j c.
Proof.
  assert (Hp : forall o : outcome DeError CmdName, omap_ok mkInstcmdRequest o = Ok (mkInstcmdRequest c) <-> o = Ok c).
  { intros [c'| | |]; cbn; split; try done; by intros [= ->]. }
  unfold deserialize, InstcmdRequest_deserialize. rewrite Hp. destruct j as [| | | | |l|fields];
    try (split; [done|by inversion 1]).
  - split.
    + destruct l as [|jc rest]; cbn [visit_seq1]; [done|].
      destruct (deserialize jc) as [c'| | |] eqn:Ec; cbn [obind]; [|done..]. destruct rest; [|done].
      intros [= ->]. apply instcmd_array. by apply CmdName_json.
    + inversion 1 as [|jc c' Hc]; subst. apply CmdName_json in Hc. cbn [visit_seq1]. by rewrite Hc.
  - rewrite visit_map1_ok. cbn [slot_filled]. split.
    + intros (jc & Ec & Hc). eapply instcmd_object; [done|by apply CmdName_json].
    + inversion 1 as [? jc c' Ec Hc|]; subst. apply CmdName_json in Hc. by exists jc.
Qed.

(** ** From a request to a command *)

Section wire.

Context {HttpRequest : Type} (json_tree : HttpRequest -> outcome JsonRejection Json) (data_error : DeError -> JsonRejection).

(** What a request on a route asks of a device, and the command for that. *)
Definition asks (upsd : UpsdState) (ups : UpsName) (route : WriteRoute) (request : HttpRequest) (command : option str) : Prop :=
  exists device, devices (daemon_state upsd) !! ups = Some device /\
  match route with
  | RwRoute => exists j n v d, json_tree request = Ok j /\ rw_request j n v /\
      rw_variables device !! n = Some d /\ admissible d v /\ command = SetVariable_serialize ups n v
  | InstcmdRoute => exists j c, json_tree request = Ok j /\ instcmd_request j c /\
      c ∈ commands device /\ command = InstCmd_serialize ups c
  | FsdRoute => command = FsdCommand_serialize ups
  end.

Lemma extract_json_ok (T : Type) `{Deserialize T} request (a : T) :
  extract_json json_tree data_error T request = Ok a <-> exists j, json_tree request = Ok j /\ deserialize j = Ok a.
Proof.
  unfold extract_json. destruct (json_tree request) as [j| | |]; cbn [obind]; try (split; [done|by intros (? & ? & _)]).
  split; [intros Ha%map_err_ok; by exists j|]. intros (? & [= <-] & Ha). by rewrite Ha.
Qed.

Lemma write_body_asks upsd ups route request :
  write_allowed upsd ups (write_body json_tree data_error route request) <->
  asks upsd ups route request (write_command ups (write_body json_tree data_error route request)).
Proof.
  destruct route; cbn [write_body].
  - pose proof (extract_json_ok RwRequest request) as Hx. split; intros (device & Hd & Hb); exists device; (split; [done|]).
    + destruct (extract_json _ _ _ _) as [[n v]| | |]; try done. destruct Hb as (d & Hv & Ha). cbn in *.
      destruct (proj1 (Hx _) eq_refl) as (j & Hj & Hr). apply RwRequest_json in Hr. by exists j, n, v, d.
    + destruct Hb as (j & n & v & d & Hj & Hr & Hv & Ha & _). apply RwRequest_json in Hr.
      rewrite (proj2 (Hx _)) by (by exists j). by exists d.
  - pose proof (extract_json_ok InstcmdRequest request) as Hx. split; intros (device & Hd & Hb); exists device; (split; [done|]).
    + destruct (extract_json _ _ _ _) as [[c]| | |]; try done. cbn in *.
      destruct (proj1 (Hx _) eq_refl) as (j & Hj & Hr). apply InstcmdRequest_json in Hr. by exists j, c.
    + destruct Hb as (j & c & Hj & Hr & Hc & _). apply InstcmdRequest_json in Hr.
      by rewrite (proj2 (Hx _)) by (by exists j).
  - by split; intros (device & Hd & _); exists device.
Qed.

Lemma asks_command upsd ups route request command :
  asks upsd ups route request command -> command = write_command ups (write_body json_tree data_error route request).
Proof.
  intros (device & _ & Hb). destruct route; cbn [write_body write_command]; [| |done].
  - destruct Hb as (j & n & v & d & Hj & Hr & _ & _ & ->). apply RwRequest_json in Hr.
    by rewrite (proj2 (extract_json_ok RwRequest request _)) by (by exists j).
  - destruct Hb as (j & c & Hj & Hr & _ & ->). apply InstcmdRequest_json in Hr.
    by rewrite (proj2 (extract_json_ok InstcmdRequest request _)) by (by exists j).
Qed.

Definition route_ack (route : WriteRoute) : str := match route with FsdRoute => lit "OK FSD-SET" ++ [LF] | _ => OK_LINE end.


End wire.

(** ** Witness *)

#[local] Instance demo_debug : StrDebug := fun s => DQUOTE :: s ++ [DQUOTE].
(** A body with its fields in the other order and one too many. *)
#[local] Definition demo_tree : Json :=
  JObj [(lit "value", JInt 5); (lit "comment", JNull); (lit "variable", JStr (lit "test.delay"))].

(** As clients send it, with the length of its body. *)
#[local] Definition demo_sized_request : ApiRequest :=
  mkApiRequest (accepts_json demo_request) (authorization demo_request) (Some (lit "52")) (path_map demo_request) (paths demo_request).

