(* ===== verification/JsonRead.v ===== *)
(** * The read side of the data API

    [json_api/route/namespace.rs], [ups_list.rs], [ups.rs], [not_found.rs], the
    read routes of [create_data_routes], and the bodies they answer with: what
    is serialised of devices, daemons and problems, what a client reads in
    it, and where it differs from the published schema. *)

From stdpp Require Import sorting.
From S2P Require Import Prelude RustStr Numbers Errors Names VarName Value Ip IpText Status UpsVariables Auth Config State.
From S2P Require Import Collections Api Topology Pages Json.

#[local] Open Scope Z_scope.

(** ** Serialisation

    [state.rs], [tls_mode.rs] and [problem_detail.rs], by hand or derived. chrono writes the time stamps. *)

Class TimeText := time_text : Z -> str.

(** A map whose keys are variables is an object of their names. *)
Definition serialize_map {V} `{Serialize V} (entries : list (VarName * V)) : Json :=
  JObj ((fun e => (VarName_as_str e.1, serialize e.2)) <$> entries).

#[global] Instance VarDetail_serialize : Serialize VarDetail := fun d =>
  match d with
  | DString max_len => JObj [(lit "type", serialize (lit "string")); (lit "max_len", serialize max_len)]
  | DNumber => JObj [(lit "type", serialize (lit "number"))]
  | DEnum options => JObj [(lit "type", serialize (lit "enum")); (lit "options", serialize options)]
  | DRange min max =>
      JObj [(lit "type", serialize (lit "range")); (lit "min", serialize min); (lit "max", serialize max)]
  end.

#[global] Instance ClientInfo_serialize : Serialize ClientInfo := fun c =>
  JObj [(lit "addr", serialize (ci_addr c)); (lit "name", serialize (ci_name c))].

(** A unit variant is written as its name; [Display] has a space in the last. *)
#[global] Instance ConnectionStatus_serialize : Serialize ConnectionStatus := fun s =>
  JStr (match s with Dead => lit "Dead" | OnlineConn => lit "Online" | NotReady => lit "NotReady" end).

#[global] Instance TlsMode_json : Serialize TlsMode := fun m => JStr (TlsMode_as_str m).

#[global] Instance DeviceEntry_serialize `{TimeText, HashIter UpsVariables (VarName * Value)}
    `{HashIter (gmap VarName VarDetail) (VarName * VarDetail)} : Serialize DeviceEntry := fun d =>
  JObj [(lit "attached", serialize (attached d)); (lit "commands", serialize (commands d));
        (lit "desc", serialize (desc d)); (lit "last_modified", serialize (time_text (last_modified d)));
        (lit "name", serialize (name d)); (lit "rw_variables", serialize_map (hash_iter (rw_variables d)));
        (lit "status", serialize (status d)); (lit "variables", serialize (variables d))].

#[global] Instance ProblemDetail_serialize : Serialize ProblemDetail := fun p =>
  JObj [(lit "title", serialize (title p)); (lit "detail", serialize (detail p));
        (lit "status", serialize (problem_status p))].

(** ** The handlers *)

Record UpsdEntry := mkUpsdEntry {
  ue_address : str; ue_device_count : nat; ue_last_sync_time : option Z; ue_namespace : str;
  ue_poll_freq : Z; ue_poll_interval : Z; ue_port : Z; ue_protocol_version : option str;
  ue_status : ConnectionStatus; ue_tls_mode : TlsMode; ue_version : option str }.

Definition upsd_entry (upsd : UpsdState) : UpsdEntry :=
  let daemon := daemon_state upsd in
  let cfg := upsd_config upsd in
  mkUpsdEntry (addr cfg) (size (devices daemon)) (last_device_sync daemon) (namespace upsd) (poll_freq cfg)
    (poll_interval cfg) (upsd_port cfg) (prot_ver daemon) (conn_status daemon) (tls_mode cfg) (ver daemon).

#[global] Instance UpsdEntry_serialize `{TimeText} : Serialize UpsdEntry := fun e =>
  JObj [(lit "address", serialize (ue_address e)); (lit "device_count", serialize (ue_device_count e));
        (lit "last_sync_time", serialize (time_text <$> ue_last_sync_time e)); (lit "namespace", serialize (ue_namespace e));
        (lit "poll_freq", serialize (ue_poll_freq e)); (lit "poll_interval", serialize (ue_poll_interval e));
        (lit "port", serialize (ue_port e)); (lit "protocol_version", serialize (ue_protocol_version e));
        (lit "status", serialize (ue_status e)); (lit "tls_mode", serialize (ue_tls_mode e));
        (lit "version", serialize (ue_version e))].

Definition namespace_get (servers : Servers) (ns : str) : outcome ProblemDetail UpsdEntry :=
  let? upsd := extract_upsd servers ns in
  Ok (upsd_entry upsd).

Definition namespace_get_list (iter : Servers -> list (str * UpsdState)) (servers : Servers) : list UpsdEntry :=
  upsd_entry <$> (iter servers).*2.

Definition ups_list_get (values : gmap UpsName DeviceEntry -> list DeviceEntry) (servers : Servers) (ns : str)
  : outcome ProblemDetail (list DeviceEntry) :=
  let? upsd := extract_upsd servers ns in
  Ok (sort_by (cmp_on name UpsName_cmp) (values (devices (daemon_state upsd)))).

Definition ups_get_json (servers : Servers) (paths : outcome PathRejection (str * UpsName))
  : outcome ProblemDetail DeviceEntry :=
  let? path := map_err ProblemDetail_from_path paths in
  let? upsd := extract_upsd servers path.1 in
  ok_or device_not_found (devices (daemon_state upsd) !! path.2).

Definition not_found : ProblemDetail := mkProblem (lit "Route not found") NOT_FOUND.

(** ** The read routes of [create_data_routes] *)

Inductive ReadRoute := GetList | GetNamespace (ns : str) | GetDevices (ns : str) | GetDevice | OtherRoute.

Inductive ReadBody :=
  | EntryList (entries : list UpsdEntry)
  | Entry (e : UpsdEntry)
  | DeviceList (devices : list DeviceEntry)
  | Device (d : DeviceEntry).

Section read.

Context (values : gmap UpsName DeviceEntry -> list DeviceEntry) (iter : Servers -> list (str * UpsdState)).
Context (base64_decode : str -> option str) (verify_slice : str -> str -> str -> bool).

Definition read_handler (servers : Servers) (route : ReadRoute) (req : ApiRequest) : outcome ProblemDetail ReadBody :=
  match route with
  | GetList => Ok (EntryList (namespace_get_list iter servers))
  | GetNamespace ns => omap_ok Entry (namespace_get servers ns)
  | GetDevices ns => omap_ok DeviceList (ups_list_get values servers ns)
  | GetDevice => omap_ok Device (ups_get_json servers (paths req))
  | OtherRoute => Err not_found
  end.

(** [Json(body).into_response()] and [IntoResponse for ProblemDetail]: the status code and the body. *)
Definition ReadBody_serialize `{TimeText, HashIter UpsVariables (VarName * Value)}
    `{HashIter (gmap VarName VarDetail) (VarName * VarDetail)} (b : ReadBody) : Json :=
  match b with
  | EntryList entries => serialize entries
  | Entry e => serialize e
  | DeviceList devices => serialize devices
  | Device d => serialize d
  end.
Definition ProblemDetail_into_response (p : ProblemDetail) : Z * Json := (problem_status p, serialize p).
Definition read_response `{TimeText, HashIter UpsVariables (VarName * Value)}
    `{HashIter (gmap VarName VarDetail) (VarName * VarDetail)} (o : outcome ProblemDetail ReadBody) : option (Z * Json) :=
  match o with
  | Ok b => Some (OK, ReadBody_serialize b)
  | Err p => Some (ProblemDetail_into_response p)
  | Panicked | OutOfFuel => None
  end.

(** A reply with its body; the layers themselves answer with a status and no body. *)
Definition ReadReply : Type := Z * option ReadBody.
#[global] Instance read_status : FromStatus ReadReply := fun status => (status, None).

(** The read handlers ask no pool for a connection: [conn] is that of the write routes. *)
Definition read_route (servers : Servers) (route : ReadRoute) : service ReadReply := fun req _ =>
  mkReply (omap_ok (fun body => (OK, Some body)) (read_handler servers route req)) false None.

Definition data_api_read (auth : bool) (server_key : str) (servers : Servers) (now : Z) (route : ReadRoute)
  (req : ApiRequest) : Reply ReadReply :=
  accept_layer
    (option_layer auth (api_auth_call base64_decode verify_slice server_key now)
      (daemon_state_call servers (read_route servers route))) req None.

End read.

(** ** Lemmas *)

(** The list route: exactly the devices of the daemon, in ascending order of their names. *)
Lemma device_list_spec (values : gmap UpsName DeviceEntry -> list DeviceEntry) servers ns upsd :
  iterates_values values -> state_named servers -> servers !! ns = Some upsd ->
  exists l, ups_list_get values servers ns = Ok l /\ StronglySorted (cmp_le (cmp_on name UpsName_cmp)) l /\
    (forall d, d ∈ l <-> devices (daemon_state upsd) !! name d = Some d).
Proof.
  intros Hv [_ Hn] Hu. unfold ups_list_get, extract_upsd. rewrite Hu. cbn [ok_or obind].
  eexists. split; [done|]. split; [apply (sort_by_sorted _)|].
  intros d. rewrite (sort_by_perm _), (Hv _). split.
  - intros ([n d'] & -> & Hin)%list_elem_of_fmap. apply elem_of_map_to_list in Hin. cbn.
    by rewrite (Hn _ _ _ _ Hu Hin).
  - intros Hd. apply list_elem_of_fmap. exists (name d, d). split; [done|]. by apply elem_of_map_to_list.
Qed.

(** ** What a client reads

    The reader of a body, written as serde would derive it of the same types: it knows the spelling of the code,
    which is not everywhere that of the published schema (below). *)

Definition entry_map {V} `{Deserialize V} (j : Json) : outcome DeError (gmap VarName V) :=
  match j with
  | JObj entries =>
      (fix go entries (m : gmap VarName V) : outcome DeError (gmap VarName V) :=
        match entries with
        | [] => Ok m
        | (k, v) :: entries =>
            let? k := deserialize_key k in
            let? v := deserialize v in
            go entries (<[k := v]> m)
        end) entries ∅
  | _ => Err (InvalidType (lit "a map"))
  end.

(** A reader of an object's fields. *)
Definition object {A} (read : list (str * Json) -> outcome DeError A) (j : Json) : outcome DeError A :=
  match j with JObj fields => read fields | _ => Err (InvalidType (lit "struct")) end.

#[global] Instance VarDetail_deserialize : Deserialize VarDetail := object (fun fields =>
  let? kind := get_field "type" fields in
  if decide (kind = lit "string") then omap_ok DString (get_field "max_len" fields)
  else if decide (kind = lit "number") then Ok DNumber
  else if decide (kind = lit "enum") then omap_ok DEnum (get_field "options" fields)
  else if decide (kind = lit "range") then
    let? min := get_field "min" fields in
    omap_ok (DRange min) (get_field "max" fields)
  else Err (CustomError (lit "unknown variant"))).

#[global] Instance ClientInfo_deserialize : Deserialize ClientInfo := object (fun fields =>
  let? addr := get_field "addr" fields in
  omap_ok (mkClientInfo addr) (get_field "name" fields)).

#[global] Instance ConnectionStatus_deserialize : Deserialize ConnectionStatus :=
  visit_text "variant identifier" (fun s =>
    if decide (s = lit "Dead") then Ok Dead
    else if decide (s = lit "Online") then Ok OnlineConn
    else if decide (s = lit "NotReady") then Ok NotReady
    else Err (CustomError (lit "unknown variant"))).

#[global] Instance TlsMode_deserialize : Deserialize TlsMode :=
  visit_text "a tls mode" (fun s => map_err (fun _ => CustomError s) (TlsMode_from_str s)).

#[global] Instance ProblemDetail_deserialize : Deserialize ProblemDetail := object (fun fields =>
  let? title := get_field "title" fields in
  let? detail := get_field "detail" fields in
  omap_ok (mkProblemDetail title detail) (get_field "status" fields)).

Definition VarDetail_json_wf (d : VarDetail) : Prop :=
  match d with
  | DEnum options => Forall Value_wf options
  | DRange min max => Value_wf min /\ Value_wf max
  | _ => True
  end.

#[global] Program Instance VarDetail_roundtrip : JsonRoundtrip VarDetail := {| json_wf := VarDetail_json_wf |}.
Next Obligation.
  intros [n| |options|min max]; intros Hd; unfold serialize, deserialize; [done|done| |].
  - change (omap_ok DEnum (deserialize (serialize options)) = Ok (DEnum options)). by rewrite json_roundtrip.
  - destruct Hd as [Hmin Hmax].
    change ((let? min := deserialize (serialize min) in omap_ok (DRange min) (deserialize (serialize max))) = Ok (DRange min max)).
    rewrite json_roundtrip by done. cbn [obind]. by rewrite json_roundtrip.
Qed.

#[global] Program Instance ClientInfo_roundtrip : JsonRoundtrip ClientInfo :=
  {| json_wf := fun c => IpAddr_wf (ci_addr c) |}.
Next Obligation.
  intros [ip n] Hip. cbn in Hip.
  change ((let? addr := deserialize (serialize ip) in omap_ok (mkClientInfo addr) (deserialize (serialize n))) =
    Ok (mkClientInfo ip n)).
  rewrite json_roundtrip by done. cbn [obind]. rewrite json_roundtrip; [done|by destruct n].
Qed.

#[global] Program Instance ConnectionStatus_roundtrip : JsonRoundtrip ConnectionStatus := {| json_wf := fun _ => True |}.
Next Obligation. by intros []. Qed.
#[global] Program Instance TlsMode_roundtrip : JsonRoundtrip TlsMode := {| json_wf := fun _ => True |}.
Next Obligation. by intros []. Qed.
#[global] Program Instance ProblemDetail_roundtrip : JsonRoundtrip ProblemDetail := {| json_wf := fun _ => True |}.
Next Obligation. by intros [t [d|] s]. Qed.

(** The names of a map's entries are names that the parsers make, and its values are read back. *)
Definition entries_wf {V} `{JsonRoundtrip V} (m : gmap VarName V) : Prop :=
  forall n v, m !! n = Some v -> VarName_wf n /\ json_wf V v.

Section maps.

Context {V : Type} `{JsonRoundtrip V}.

Lemma foldl_insert_map (l : list (VarName * V)) (m : gmap VarName V) : NoDup l.*1 ->
  foldl (fun m e => <[e.1 := e.2]> m) m l = list_to_map l ∪ m.
Proof.
  revert m. induction l as [|[n v] l IH]; intros m Hnd; [cbn; by rewrite (left_id_L ∅ (∪))|].
  cbn [fmap list_fmap fst] in Hnd. apply list.NoDup_cons in Hnd as [Hn Hnd]. cbn [foldl fst snd]. rewrite IH by done.
  cbn [list_to_map foldr]. rewrite <- insert_union_l, <- insert_union_r; [done|]. by apply not_elem_of_list_to_map.
Qed.

Lemma foldl_iterates (it : gmap VarName V -> list (VarName * V)) m : iterates it ->
  foldl (fun m e => <[e.1 := e.2]> m) ∅ (it m) = m.
Proof.
  intros Hit. rewrite foldl_insert_map by (rewrite (Hit m); apply NoDup_fst_map_to_list).
  rewrite (right_id_L ∅ (∪)). rewrite <- (list_to_map_to_list m) at 2.
  apply list_to_map_proper; [rewrite (Hit m); apply NoDup_fst_map_to_list|apply Hit].
Qed.

Lemma key_roundtrip n : VarName_wf n -> deserialize_key (VarName_as_str n) = Ok n.
Proof. intros Hn. unfold deserialize_key. rewrite <- VarName_serialize_text. by apply json_roundtrip. Qed.

(** Whatever the order in which the map was written. *)
Lemma entry_map_roundtrip (it : gmap VarName V -> list (VarName * V)) m : iterates it -> entries_wf m ->
  entry_map (serialize_map (it m)) = Ok m.
Proof.
  intros Hit Hm. unfold entry_map, serialize_map. rewrite <- (foldl_iterates it m Hit) at 2.
  assert (Hl : forall e, e ∈ it m -> VarName_wf e.1 /\ json_wf V e.2).
  { intros [n v] He. rewrite (Hit m) in He. apply elem_of_map_to_list in He. by apply Hm. }
  revert Hl. generalize (it m) as l, (∅ : gmap VarName V). clear. intros l.
  induction l as [|[n v] l IH]; intros m Hl; [done|]. cbn [fmap list_fmap fst snd foldl].
  destruct (Hl (n, v) ltac:(by left)) as [Hn Hv]. cbn [fst snd] in *.
  rewrite key_roundtrip by done. cbn [obind]. rewrite json_roundtrip by done. cbn [obind].
  apply IH. intros e He. apply Hl. by right.
Qed.

End maps.

Lemma visit_map_entries l vars : (forall e, e ∈ l -> VarName_wf e.1 /\ Value_wf e.2) ->
  UpsVariables_visit_map ((fun e => (VarName_as_str e.1, serialize e.2)) <$> l) vars =
  Ok (foldl (fun m e => <[e.1 := e.2]> m) vars l).
Proof.
  revert vars. induction l as [|[n v] l IH]; intros vars Hl; [done|]. cbn [fmap list_fmap UpsVariables_visit_map fst snd].
  destruct (Hl (n, v) ltac:(by left)) as [Hn Hv]. cbn [fst snd] in *.
  rewrite key_roundtrip by done. cbn [obind]. rewrite json_roundtrip by done. cbn [obind foldl].
  apply IH. intros e He. apply Hl. by right.
Qed.

(** chrono's reader of a time stamp. *)
Class TimeRead := read_time : str -> option Z.
Definition get_time `{TimeRead} (name : string) (fields : list (str * Json)) : outcome DeError Z :=
  let? text := get_field name fields in
  ok_or (CustomError (lit "invalid time")) (read_time text).

#[global] Instance DeviceEntry_deserialize `{TimeRead} : Deserialize DeviceEntry := object (fun fields =>
  let? attached := get_field "attached" fields in
  let? commands := get_field "commands" fields in
  let? desc := get_field "desc" fields in
  let? last_modified := get_time "last_modified" fields in
  let? name := get_field "name" fields in
  let? rw_variables := obind (field (lit "rw_variables") fields) entry_map in
  let? status := get_field "status" fields in
  let? variables := get_field "variables" fields in
  Ok (mkDeviceEntry attached commands desc last_modified name rw_variables status variables)).

#[global] Instance UpsdEntry_deserialize `{TimeRead} : Deserialize UpsdEntry := object (fun fields =>
  let? address := get_field "address" fields in
  let? device_count := get_field "device_count" fields in
  let? last_sync_time := get_field "last_sync_time" fields in
  let? last_sync_time := match last_sync_time with
                         | Some text => omap_ok Some (ok_or (CustomError (lit "invalid time")) (read_time text))
                         | None => Ok None
                         end in
  let? namespace := get_field "namespace" fields in
  let? poll_freq := get_field "poll_freq" fields in
  let? poll_interval := get_field "poll_interval" fields in
  let? port := get_field "port" fields in
  let? protocol_version := get_field "protocol_version" fields in
  let? status := get_field "status" fields in
  let? tls_mode := get_field "tls_mode" fields in
  let? version := get_field "version" fields in
  Ok (mkUpsdEntry address device_count last_sync_time namespace poll_freq poll_interval port protocol_version status
    tls_mode version)).

(** The devices whose parts are what the program's parsers make. *)
Definition device_json_wf (d : DeviceEntry) : Prop :=
  Forall (fun c => IpAddr_wf (ci_addr c)) (attached d) /\ Forall CmdName_wf (commands d) /\ UpsName_wf (name d) /\
  entries_wf (rw_variables d) /\ known (status d) /\ entries_wf (variables d).

Section bodies.

Context {vars_order : HashIter UpsVariables (VarName * Value)}.
Context {details_order : HashIter (gmap VarName VarDetail) (VarName * VarDetail)}.
Context {time : TimeText} {chrono_read : TimeRead}.
Context (Hvars : iterates (K := VarName) (A := Value) hash_iter).
Context (Hdetails : iterates (K := VarName) (A := VarDetail) hash_iter).
(** The text of a time stamp tells which it is. *)
Context (Htime : forall t, read_time (time_text t) = Some t).

(** The variables of a device, whatever the order in which the map is written: names to the same names,
    64-bit integers, doubles and texts to the same values. *)
Lemma variables_json_roundtrip (m : UpsVariables) : entries_wf m -> deserialize (serialize m) = Ok m.
Proof using Hvars.
  intros Hm. unfold deserialize, serialize, UpsVariables_deserialize, UpsVariables_serialize, UpsVariables_new.
  rewrite visit_map_entries; [by rewrite foldl_iterates|].
  intros [n v] He. rewrite (Hvars m) in He. apply elem_of_map_to_list in He. by apply Hm.
Qed.

#[local] Instance DeviceEntry_roundtrip : JsonRoundtrip DeviceEntry.
Proof using Hvars Hdetails Htime.
  exists device_json_wf. intros [att cmds ds t n rw st vs] (Ha & Hc & Hn & Hrw & Hst & Hvs). cbn in *.
  change ((let? attached := deserialize (serialize att) in
           let? commands := deserialize (serialize cmds) in
           let? desc := deserialize (serialize ds) in
           let? last_modified := ok_or (CustomError (lit "invalid time")) (read_time (time_text t)) in
           let? name := deserialize (serialize n) in
           let? rw_variables := entry_map (serialize_map (hash_iter rw)) in
           let? status := deserialize (serialize st) in
           let? variables := deserialize (serialize vs) in
           Ok (mkDeviceEntry attached commands desc last_modified name rw_variables status variables)) =
          Ok (mkDeviceEntry att cmds ds t n rw st vs)).
  rewrite json_roundtrip by done. cbn [obind]. rewrite json_roundtrip by done. cbn [obind].
  rewrite json_roundtrip by done. cbn [obind]. rewrite Htime. cbn [ok_or obind].
  rewrite json_roundtrip by done. cbn [obind]. rewrite entry_map_roundtrip by done. cbn [obind].
  rewrite json_roundtrip by done. cbn [obind]. by rewrite variables_json_roundtrip.
Defined.

#[local] Instance UpsdEntry_roundtrip : JsonRoundtrip UpsdEntry.
Proof using Htime.
  exists (fun _ => True). intros [a n t ns pf pi p pv st tls v] _.
  change ((let? address := deserialize (serialize a) in
           let? device_count := deserialize (serialize n) in
           let? last_sync_time := deserialize (serialize (time_text <$> t)) in
           let? last_sync_time := match last_sync_time with
                         | Some text => omap_ok Some (ok_or (CustomError (lit "invalid time")) (read_time text))
                         | None => Ok None
                         end in
           let? namespace := deserialize (serialize ns) in
           let? poll_freq := deserialize (serialize pf) in
           let? poll_interval := deserialize (serialize pi) in
           let? port := deserialize (serialize p) in
           let? protocol_version := deserialize (serialize pv) in
           let? status := deserialize (serialize st) in
           let? tls_mode := deserialize (serialize tls) in
           let? version := deserialize (serialize v) in
           Ok (mkUpsdEntry address device_count last_sync_time namespace poll_freq poll_interval port protocol_version
             status tls_mode version)) = Ok (mkUpsdEntry a n t ns pf pi p pv st tls v)).
  do 2 (rewrite json_roundtrip by done; cbn [obind]).
  rewrite json_roundtrip by (by destruct t). cbn [obind].
  replace (match time_text <$> t with Some text => _ | None => _ end) with (Ok t : outcome DeError (option Z))
    by (destruct t as [t|]; [cbn; by rewrite Htime|done]). cbn [obind].
  do 4 (rewrite json_roundtrip by done; cbn [obind]). rewrite json_roundtrip by (by destruct pv). cbn [obind].
  do 2 (rewrite json_roundtrip by done; cbn [obind]). by rewrite json_roundtrip by (by destruct v).
Defined.

(** What a client of the read routes reads is the state: the body of the device route is read back as the
    device, that of the list route as all devices of the daemon in the order of their names, that of
    the daemon route as its configuration and status, and the body of a problem as the problem, its
    status with the code of the response; whatever the order in which the hash maps are written. *)
Lemma read_bodies (values : gmap UpsName DeviceEntry -> list DeviceEntry) (Hv : iterates_values values)
  (iter : Servers -> list (str * UpsdState)) (servers : Servers) (Hs : state_named servers)
  (Hwf : forall ns upsd n d, servers !! ns = Some upsd -> devices (daemon_state upsd) !! n = Some d -> device_json_wf d) :
  (forall ns upsd n d req, servers !! ns = Some upsd -> devices (daemon_state upsd) !! n = Some d ->
     paths req = Ok (ns, n) -> exists body,
     read_response (read_handler values iter servers GetDevice req) = Some (OK, body) /\ deserialize body = Ok d) /\
  (forall ns upsd req, servers !! ns = Some upsd -> exists body l,
     read_response (read_handler values iter servers (GetDevices ns) req) = Some (OK, body) /\ deserialize body = Ok l /\
     StronglySorted (cmp_le (cmp_on name UpsName_cmp)) l /\
     (forall d, d ∈ l <-> devices (daemon_state upsd) !! name d = Some d)) /\
  (forall ns upsd req, servers !! ns = Some upsd -> exists body,
     read_response (read_handler values iter servers (GetNamespace ns) req) = Some (OK, body) /\
     deserialize body = Ok (upsd_entry upsd)) /\
  (forall route req p, read_handler values iter servers route req = Err p -> exists body,
     read_response (Err p) = Some (problem_status p, body) /\ deserialize body = Ok p).
Proof using Hvars Hdetails Htime.
  split_and!.
  - intros ns upsd n d req Hu Hd Hp. cbn [read_handler]. unfold ups_get_json, extract_upsd. rewrite Hp.
    cbn [map_err obind fst snd]. rewrite Hu. cbn [ok_or obind]. rewrite Hd. eexists. split; [reflexivity|].
    apply (json_roundtrip (A := DeviceEntry)). by eapply Hwf.
  - intros ns upsd req Hu. destruct (device_list_spec values servers ns upsd Hv Hs Hu) as (l & Hl & Hsort & Hin).
    cbn [read_handler]. rewrite Hl. do 2 eexists. split; [reflexivity|]. split; [|done].
    apply (json_roundtrip (A := list DeviceEntry)), list.Forall_forall. intros d Hd. apply Hin in Hd. by eapply Hwf.
  - intros ns upsd req Hu. cbn [read_handler]. unfold namespace_get, extract_upsd. rewrite Hu. eexists.
    split; [reflexivity|]. by apply (json_roundtrip (A := UpsdEntry)).
  - intros route req p _. eexists. split; [reflexivity|]. by apply (json_roundtrip (A := ProblemDetail)).
Qed.

(** ** The published schema: [docs/api_specs/openapi3_spec.yaml]

    The members of a device and of a daemon, and the texts of a status, that it documents. *)
Definition documented_device : list str := lit <$>
  ["attached"; "commands"; "desc"; "last_modified"; "name"; "rw_variables"; "status"; "variables"]%string.
Definition documented_namespace : list str := lit <$>
  ["address"; "device_count"; "last_sync_time"; "namespace"; "poll_freq"; "poll_interval"; "port"; "protocol_version";
   "status"; "tls_mode"; "version"]%string.
Definition documented_statuses : list str := lit <$> ["Online"; "Dead"; "Not Ready"]%string.

(** What of it the bodies keep: the members of a device and of a daemon; the status of a daemon unless it is not
    ready; and of a problem the title and the status, but never the documented [details]. *)
Definition schema_kept (r : option (Z * Json)) (members : list str) (P : list (str * Json) -> Prop) : Prop :=
  exists status fields, r = Some (status, JObj fields) /\ fields.*1 = members /\ P fields.

Lemma read_schemas (values : gmap UpsName DeviceEntry -> list DeviceEntry)
  (iter : Servers -> list (str * UpsdState)) (servers : Servers) :
  (forall ns upsd n d req, servers !! ns = Some upsd -> devices (daemon_state upsd) !! n = Some d ->
     paths req = Ok (ns, n) ->
     schema_kept (read_response (read_handler values iter servers GetDevice req)) documented_device (fun _ => True)) /\
  (forall ns upsd req, servers !! ns = Some upsd ->
     schema_kept (read_response (read_handler values iter servers (GetNamespace ns) req)) documented_namespace (fun fields =>
       exists text, field (lit "status") fields = Ok (JStr text) /\
         (text ∈ documented_statuses <-> conn_status (daemon_state upsd) <> NotReady))) /\
  (forall p, schema_kept (read_response (Err p)) (lit <$> ["title"; "detail"; "status"]%string) (fun fields =>
     is_ok (field (lit "details") fields) = false)).
Proof.
  split_and!.
  - intros ns upsd n d req Hu Hd Hp. cbn [read_handler]. unfold ups_get_json, extract_upsd. rewrite Hp.
    cbn [map_err obind fst snd]. rewrite Hu. cbn [ok_or obind]. rewrite Hd. by eexists _, _.
  - intros ns upsd req Hu. cbn [read_handler]. unfold namespace_get, extract_upsd. rewrite Hu. eexists _, _.
    split; [reflexivity|]. split; [reflexivity|]. eexists. split; [reflexivity|]. cbn [upsd_entry ue_status].
    destruct (conn_status (daemon_state upsd)); (split; [intros Hin; try done|intros Hne]);
      first [apply (bool_decide_unpack _); vm_compute; exact I | by destruct Hne | idtac].
    apply (bool_decide_pack _) in Hin. vm_compute in Hin. destruct Hin.
  - intros p. by eexists _, _.
Qed.

End bodies.

(** ** The read API *)

(** What an entry of the API says of a daemon. *)
Definition describes (upsd : UpsdState) (e : UpsdEntry) : Prop :=
  ue_namespace e = namespace upsd /\
  (ue_address e = addr (upsd_config upsd) /\ ue_port e = upsd_port (upsd_config upsd) /\
   ue_tls_mode e = tls_mode (upsd_config upsd) /\
   ue_poll_freq e = poll_freq (upsd_config upsd) /\ ue_poll_interval e = poll_interval (upsd_config upsd)) /\
  (ue_device_count e = length (map_to_list (devices (daemon_state upsd))) /\
   ue_last_sync_time e = last_device_sync (daemon_state upsd) /\ ue_status e = conn_status (daemon_state upsd) /\
   ue_protocol_version e = prot_ver (daemon_state upsd) /\ ue_version e = ver (daemon_state upsd)).

(** The daemon of a route, and that the path parameters are those of the route. *)
Definition route_namespace (route : ReadRoute) (req : ApiRequest) : option str :=
  match route with
  | GetNamespace ns | GetDevices ns => Some ns
  | GetDevice => match paths req with Ok (ns, _) => Some ns | _ => None end
  | GetList | OtherRoute => None
  end.
Definition path_of_route (route : ReadRoute) (req : ApiRequest) : Prop :=
  match route_namespace route req with
  | Some ns => exists m, path_map req = Ok (Some m) /\ m !! lit "namespace" = Some ns
  | None => match route with
            | GetDevice => True
            | _ => exists m, path_map req = Ok m /\ forall m', m = Some m' -> m' !! lit "namespace" = None
            end
  end.

Lemma describes_entry upsd : describes upsd (upsd_entry upsd).
Proof. unfold describes, upsd_entry. cbn. by rewrite length_map_to_list. Qed.

Section layers.

Context (values : gmap UpsName DeviceEntry -> list DeviceEntry) (iter : Servers -> list (str * UpsdState)).
Context (base64_decode : str -> option str) (verify_slice : str -> str -> str -> bool).
Context (auth : bool) (key : str) (servers : Servers) (now : Z).

Abbreviation api route req := (data_api_read values iter base64_decode verify_slice auth key servers now route req)
  (only parsing).

(** A request that the accept and the token layer let pass. *)
Definition read_admitted (req : ApiRequest) : Prop :=
  accepts_json req = true /\
  (auth = true -> exists t, extract_bearer_token base64_decode verify_slice key now req = Ok t).

(** It is answered by the handler if its daemon is not known, or online. *)
Lemma api_admitted route req : read_admitted req -> daemon_connection servers req = Ok tt ->
  api route req = read_route values iter servers route req None.
Proof.
  intros [Hacc Ha] Hd. unfold data_api_read, accept_layer. rewrite Hacc.
  destruct auth; cbn [option_layer]; [destruct (Ha eq_refl) as [t Ht]; unfold api_auth_call; rewrite Ht|];
    unfold daemon_state_call; by rewrite Hd.
Qed.

Lemma api_offline route req p : read_admitted req -> daemon_connection servers req = Err p ->
  api route req = refuse p.
Proof.
  intros [Hacc Ha] Hd. unfold data_api_read, accept_layer. rewrite Hacc.
  destruct auth; cbn [option_layer]; [destruct (Ha eq_refl) as [t Ht]; unfold api_auth_call; rewrite Ht|];
    unfold daemon_state_call; by rewrite Hd.
Qed.

Lemma route_connection route req : path_of_route route req -> route <> GetDevice \/ is_ok (paths req) = true ->
  daemon_connection servers req =
  match route_namespace route req ≫= (servers !!.) with
  | Some upsd => match conn_status (daemon_state upsd) with
                 | OnlineConn => Ok tt
                 | Dead => Err (with_detail (mkProblem (lit "No UPSD connection") SERVICE_UNAVAILABLE)
                     (lit "Server is unable to connect UPSD. See application logs for more details."))
                 | NotReady => Err (mkProblem (lit "Upsd state is not ready") SERVICE_UNAVAILABLE)
                 end
  | None => Ok tt
  end.
Proof.
  unfold path_of_route, daemon_connection. destruct (route_namespace route req) as [ns|] eqn:E; cbn [mbind option_bind].
  - by intros (m & -> & ->) _.
  - intros Hm Hr. assert (Hm' : exists m, path_map req = Ok m /\ forall m', m = Some m' -> m' !! lit "namespace" = None).
    { destruct route; try exact Hm. destruct Hr as [|Hr]; [done|]. cbn in E. by destruct (paths req) as [[]| | |]. }
    destruct Hm' as (m & -> & Hn). destruct m as [m|]; [|done]. by rewrite (Hn m eq_refl).
Qed.

(** An admitted request of a route: 503 if its daemon is known and not online, and else its handler's answer. *)
Lemma api_route route req : path_of_route route req -> route <> GetDevice \/ is_ok (paths req) = true ->
  read_admitted req ->
  match route_namespace route req ≫= (servers !!.) with
  | Some upsd => conn_status (daemon_state upsd) = OnlineConn ->
      result (api route req) = omap_ok (fun body => (OK, Some body)) (read_handler values iter servers route req)
  | None => result (api route req) = omap_ok (fun body => (OK, Some body)) (read_handler values iter servers route req)
  end /\
  (forall upsd, route_namespace route req ≫= (servers !!.) = Some upsd -> conn_status (daemon_state upsd) <> OnlineConn ->
     exists p, result (api route req) = Err p /\ problem_status p = SERVICE_UNAVAILABLE).
Proof.
  intros Hp Hr Ha. pose proof (route_connection route req Hp Hr) as Hd.
  destruct (route_namespace route req ≫= (servers !!.)) as [upsd|].
  - split.
    + intros Hon. rewrite Hon in Hd. by rewrite (api_admitted route req Ha Hd).
    + intros u [= <-] Hon. destruct (conn_status (daemon_state upsd)); [|done|];
        rewrite (api_offline route req _ Ha Hd); by eexists.
  - split; [|done]. by rewrite (api_admitted route req Ha Hd).
Qed.

End layers.

(** The order in which the hash map is read does not matter. *)
Lemma device_list_order (values values' : gmap UpsName DeviceEntry -> list DeviceEntry) servers ns :
  iterates_values values -> iterates_values values' -> state_named servers ->
  ups_list_get values servers ns = ups_list_get values' servers ns.
Proof.
  intros Hv Hv' [_ Hn]. unfold ups_list_get, extract_upsd. destruct (servers !! ns) as [upsd|] eqn:Hu; [|done].
  cbn [ok_or obind]. f_equal. rewrite <- (list_fmap_id (values _)), <- (list_fmap_id (values' _)).
  apply (sorted_values_unique values values' _ id); [apply _|done|done|].
  intros k k' a a' Ha Ha'. unfold cmp_on. cbn. rewrite UpsName_cmp_eq, (Hn _ _ _ _ Hu Ha), (Hn _ _ _ _ Hu Ha').
  intros ->. congruence.
Qed.

Lemma bearer_token_total base64_decode verify_slice key now req :
  match extract_bearer_token base64_decode verify_slice key now req with Ok _ | Err _ => True | _ => False end.
Proof.
  unfold extract_bearer_token. destruct (mjoin (authorization req)); [|done]. cbn [ok_or obind].
  case_decide; [done|]. destruct (split_once_ws _) as [[scheme token]|]; [|done]. destruct (negb _); [done|].
  destruct (base64_decode _) as [bytes|]; [|done]. cbn [ok_or obind].
  destruct (signer_total verify_slice (H0 := AccessToken_laws) key bytes) as [Hp Hf].
  destruct (signer_from_bytes _ _ _) as [t| | |]; try done. cbn [map_err obind]. by destruct (is_active _ _).
Qed.

(** C29: What the read routes of the data API answer, through all their layers. A request that does not accept
    JSON gets 406, and with users one without an active signed token 401. Else a daemon that is known and not
    online is 503, and one that is not known 404; of one that is online the daemon route gives exactly its
    settings and what was last read of it, the list route exactly its devices in ascending order of their
    names, whatever the order of the hash map, and the device route the device of that name, or 404. The list
    of the daemons has one entry for each, online or not; a path whose parameters cannot be read is refused
    with that reason, and one that names no route is 404. *)
Theorem json_read_spec (values values' : gmap UpsName DeviceEntry -> list DeviceEntry)
  (Hv : iterates_values values) (Hv' : iterates_values values')
  (iter : Servers -> list (str * UpsdState)) (Hi : iterates iter)
  (base64_decode : str -> option str) (verify_slice : str -> str -> str -> bool)
  (auth : bool) (key : str) (servers : Servers) (Hs : state_named servers) (now : Z) (req : ApiRequest) :
  let api route := result (data_api_read values iter base64_decode verify_slice auth key servers now route req) in
  let admitted := read_admitted base64_decode verify_slice auth key now req in
  (accepts_json req = false -> forall route, api route = Ok (406, None)) /\
  (accepts_json req = true -> auth = true -> (forall t, extract_bearer_token base64_decode verify_slice key now req <> Ok t) ->
     forall route, exists p, api route = Err p /\ problem_status p = 401) /\
  (admitted -> forall route ns upsd, path_of_route route req -> route_namespace route req = Some ns ->
     servers !! ns = Some upsd -> conn_status (daemon_state upsd) <> OnlineConn ->
     exists p, api route = Err p /\ problem_status p = 503) /\
  (admitted -> forall route ns, path_of_route route req -> route_namespace route req = Some ns -> servers !! ns = None ->
     exists p, api route = Err p /\ problem_status p = 404) /\
  (admitted -> path_of_route GetList req -> exists order entries, api GetList = Ok (200, Some (EntryList entries)) /\
     order ≡ₚ (map_to_list servers).*2 /\ Forall2 describes order entries) /\
  (admitted -> forall ns upsd, path_of_route (GetNamespace ns) req -> servers !! ns = Some upsd ->
     conn_status (daemon_state upsd) = OnlineConn ->
     exists e, api (GetNamespace ns) = Ok (200, Some (Entry e)) /\ describes upsd e) /\
  (admitted -> forall ns upsd, path_of_route (GetDevices ns) req -> servers !! ns = Some upsd ->
     conn_status (daemon_state upsd) = OnlineConn ->
     exists l, api (GetDevices ns) = Ok (200, Some (DeviceList l)) /\
       result (data_api_read values' iter base64_decode verify_slice auth key servers now (GetDevices ns) req) =
         api (GetDevices ns) /\
       StronglySorted (cmp_le (cmp_on name UpsName_cmp)) l /\
       (forall d, d ∈ l <-> devices (daemon_state upsd) !! name d = Some d)) /\
  (admitted -> forall ns ups upsd, path_of_route GetDevice req -> paths req = Ok (ns, ups) -> servers !! ns = Some upsd ->
     conn_status (daemon_state upsd) = OnlineConn ->
     match devices (daemon_state upsd) !! ups with
     | Some d => api GetDevice = Ok (200, Some (Device d))
     | None => exists p, api GetDevice = Err p /\ problem_status p = 404
     end) /\
  (admitted -> forall rejection, paths req = Err rejection -> daemon_connection servers req = Ok tt ->
     api GetDevice = Err (ProblemDetail_from_path rejection)) /\
  (admitted -> path_of_route OtherRoute req -> exists p, api OtherRoute = Err p /\ problem_status p = 404).
Proof.
  intros api admitted.
  pose proof (fun (Ha : admitted) route Hp Hr =>
    api_route values iter base64_decode verify_slice auth key servers now route req Hp Hr Ha) as Hroute.
  assert (Hget : forall route ns, route_namespace route req = Some ns -> route <> GetDevice \/ is_ok (paths req) = true).
  { intros route ns Hn. destruct route; try by left. right. cbn in Hn. by destruct (paths req). }
  split_and!.
  - intros Hacc route. unfold api, data_api_read, accept_layer. by rewrite Hacc.
  - intros Hacc Hauth Ht route. unfold api, data_api_read, accept_layer. rewrite Hacc, Hauth. cbn [option_layer].
    unfold api_auth_call. pose proof (bearer_token_total base64_decode verify_slice key now req) as Htot.
    destruct (extract_bearer_token _ _ _ _ _) as [t| | |]; [by destruct (Ht t)|by eexists|done..].
  - intros Ha route ns upsd Hp Hn Hu Hon. apply (proj2 (Hroute Ha route Hp (Hget _ _ Hn)) upsd); [by rewrite Hn|done].
  - intros Ha route ns Hp Hn Hu. pose proof (proj1 (Hroute Ha route Hp (Hget _ _ Hn))) as Hr. rewrite Hn in Hr.
    cbn [mbind option_bind] in Hr. rewrite Hu in Hr. fold (api route) in Hr. rewrite Hr.
    destruct route as [|ns'|ns'| |]; cbn [route_namespace] in Hn; try done;
      cbn [read_handler]; unfold namespace_get, ups_list_get, ups_get_json, extract_upsd.
    + injection Hn as ->. rewrite Hu. by eexists.
    + injection Hn as ->. rewrite Hu. by eexists.
    + destruct (paths req) as [[n u]| | |]; try done. injection Hn as ->. cbn [map_err obind fst snd].
      rewrite Hu. by eexists.
  - intros Ha Hp. pose proof (proj1 (Hroute Ha GetList Hp ltac:(by left))) as Hr. cbn in Hr.
    exists (iter servers).*2, (namespace_get_list iter servers). split; [exact Hr|]. split; [by rewrite (Hi servers)|].
    unfold namespace_get_list. apply Forall2_fmap_r, Forall_Forall2_diag, list.Forall_true. apply describes_entry.
  - intros Ha ns upsd Hp Hu Hon. pose proof (proj1 (Hroute Ha _ Hp ltac:(by left))) as Hr. cbn in Hr. rewrite Hu in Hr.
    unfold namespace_get, extract_upsd in Hr. rewrite Hu in Hr. eexists. split; [exact (Hr Hon)|]. apply describes_entry.
  - intros Ha ns upsd Hp Hu Hon. pose proof (proj1 (Hroute Ha _ Hp ltac:(by left))) as Hr.
    pose proof (proj1 (api_route values' iter base64_decode verify_slice auth key servers now _ req Hp ltac:(by left) Ha)) as Hr'.
    cbn [route_namespace mbind option_bind] in Hr, Hr'. rewrite Hu in Hr, Hr'. specialize (Hr Hon). specialize (Hr' Hon).
    destruct (device_list_spec values servers ns upsd Hv Hs Hu) as (l & Hl & Hsort & Hin).
    exists l. unfold api. rewrite Hr, Hr'. cbn [read_handler].
    rewrite <- (device_list_order values values' servers ns Hv Hv' Hs), Hl. done.
  - intros Ha ns ups upsd Hp Hpath Hu Hon.
    pose proof (proj1 (Hroute Ha _ Hp ltac:(right; by rewrite Hpath))) as Hr.
    cbn [route_namespace] in Hr. rewrite Hpath in Hr. cbn [mbind option_bind] in Hr. rewrite Hu in Hr.
    specialize (Hr Hon). unfold api. rewrite Hr. cbn [read_handler]. unfold ups_get_json, extract_upsd. rewrite Hpath.
    cbn [map_err obind fst snd]. rewrite Hu. cbn [ok_or obind].
    destruct (devices _ !! ups) as [d|]; [done|by eexists].
  - intros Ha rejection Hr Hd. unfold api. rewrite (api_admitted _ _ _ _ _ _ _ _ GetDevice req Ha Hd).
    unfold read_route. cbn [result read_handler]. unfold ups_get_json. by rewrite Hr.
  - intros Ha Hp. pose proof (proj1 (Hroute Ha OtherRoute Hp ltac:(by left))) as Hr. cbn in Hr. eexists. by split; [exact Hr|].
Qed.

(** ** Witnesses *)



Lemma demo_named : state_named demo_servers.
Proof.
  split.
  - intros ns u Hu. by apply demo_lookup in Hu as [-> ->].
  - intros ns u n d Hu Hd. apply demo_lookup in Hu as [_ ->]. by apply demo_lookup_device in Hd as [-> ->].
Qed.

Lemma json_read_spec_witness :
  let api := data_api_read (fun m => (map_to_list m).*2) map_to_list demo_decode demo_verify true [] demo_servers 400 in
  result (api GetDevice demo_request) = Ok (200, Some (Device demo_device)) /\
  (exists e, result (api (GetNamespace (lit "main")) demo_request) = Ok (200, Some (Entry e)) /\ describes demo_upsd e) /\
  exists p, result (api (GetDevices (lit "other"))
    (mkApiRequest true (authorization demo_request) None (Ok (Some {[lit "namespace" := lit "other"]})) (paths demo_request))) = Err p /\
    problem_status p = 404.
Proof.
  intros api.
  assert (Hu : demo_servers !! lit "main" = Some demo_upsd) by (by apply (lookup_singleton_Some (M := gmap str))).
  assert (Ht : exists t, extract_bearer_token demo_decode demo_verify [] 400 demo_request = Ok t)
    by (exists demo_token; vm_compute; reflexivity).
  pose proof (fun req => json_read_spec (fun m => (map_to_list m).*2) (fun m => (map_to_list m).*2)
    (fun m => reflexivity _) (fun m => reflexivity _) map_to_list (fun m => reflexivity _) demo_decode demo_verify true [] demo_servers
    demo_named 400 req) as Hspec.
  destruct (Hspec demo_request) as (_ & _ & _ & _ & _ & Hns & _ & Hd & _).
  assert (Hadm : read_admitted demo_decode demo_verify true [] 400 demo_request) by (split; [reflexivity|intros _; exact Ht]).
  split_and!.
  - specialize (Hd Hadm (lit "main") demo_ups demo_upsd).
    assert (He : devices (daemon_state demo_upsd) !! demo_ups = Some demo_device).
    { apply lookup_singleton_Some. split; reflexivity. }
    rewrite He in Hd. apply Hd; [|reflexivity|exact Hu|reflexivity].
    exact (demo_same_path _ _ eq_refl).
  - apply (Hns Hadm (lit "main") demo_upsd); [|exact Hu|reflexivity].
    exact (demo_same_path _ _ eq_refl).
  - destruct (Hspec (mkApiRequest true (authorization demo_request) None (Ok (Some {[lit "namespace" := lit "other"]}))
      (paths demo_request))) as (_ & _ & _ & Hno & _).
    apply (Hno (conj eq_refl (fun _ => Ht)) (GetDevices (lit "other")) (lit "other")); [|reflexivity|].
    + exists {[lit "namespace" := lit "other"]}. split; [reflexivity|by apply (lookup_singleton_Some (M := gmap str))].
    + by apply (lookup_singleton_None (M := gmap str)).
Defined.
