(* ===== verification/WebRoutes.v ===== *)
(** * The web pages behind their layers

    [create_hypermedia_routes] of [http.rs]: the routes of the pages composed
    with the session, permission and redirect layers, as the router composes
    them. A route carries what its extractors read from the request, or the
    status of their rejection. The static files are outside the layers. *)

From S2P Require Import Prelude RustStr Numbers Errors Names VarName Value UpsVariables Client Auth Config State.
From S2P Require Import Collections Semantic Api Web WebWrite Topology Pages.

#[local] Open Scope Z_scope.

Inductive WebRoute :=
  | HomeRoute (section ns : option str)
  | TopologyRoute (section : option str)
  | ConnectionRoute (section : option str)
  | SystemRoute
  | UpsRoute (ns : str) (ups : UpsName) (section : option str) (tab : option TabName)
  | InstcmdRoute (form : outcome Z (str * UpsName * CmdName))
  | FsdRoute (path : outcome Z (str * UpsName))
  | RwRoute (form : outcome Z (str * UpsName * RwRequest))
  | NotFoundRoute     (** [/not-found] and the fallback *)
  | LogoutRoute
  | ApiKeysGet
  | ApiKeysPost (form : outcome str ApiKeyForm)
  | LoginGet
  | LoginPost (form : outcome str LoginForm)
  | ThemesRoute.

(** The layers a route is under when there are users. *)
Inductive RouteClass := Renewed | Authenticated | Open.
Definition route_class (r : WebRoute) : RouteClass :=
  match r with
  | LogoutRoute | ApiKeysGet | ApiKeysPost _ => Authenticated
  | LoginGet | LoginPost _ | ThemesRoute => Open
  | _ => Renewed
  end.

(** Only pages with a user store have routes to log in and out and to make keys. *)
Definition needs_store (r : WebRoute) : bool :=
  match r with
  | LogoutRoute | ApiKeysGet | ApiKeysPost _ | LoginGet | LoginPost _ => true
  | _ => false
  end.

Definition rejected (status : Z) : web_reply := no_conn (Ok (mkWebResponse status None None None None [])).

Section routes.

Context (base64_encode : str -> str) (base64_decode : str -> option str).
Context (hmac : str -> str -> str) (verify_slice : str -> str -> str -> bool).
Context (scrypt : str -> str -> option str).
Context (cookie_header_ok : Cookie -> bool) (header_ok : str -> bool) (invalid_header : str).
Context `{Template ErrorPage, Template NotificationTemplate, Template LoginTemplate, Template LoginFormBlock}.
Context `{Template ApiKeyFormTemplate, Template ApiKeyFormBlock, Template ApiKeySuccessTemplate}.
Context `{Template NotFoundTemplate, Template ThemesTemplate, Template RwFormTemplate}.
Context `{Template TableRowsTemplate, Template HomeTemplate, Template DeviceTableBlock}.
Context `{Template DeviceContainerBlock, Template UpsdInfoTemplate, Template ConnectionPageTemplate}.
Context `{Template InfoCardsBlock, Template SystemPageTemplate, Template UpsPageTemplate}.
Context `{Template UpsStatusBlock, Template TabContentBlock, Template TopologyTemplate, Template GraphNodesBlock}.
Context (values : gmap UpsName DeviceEntry -> list DeviceEntry) (iter : Servers -> list (str * UpsdState)).
Context (vars_iter : UpsVariables -> list (VarName * Value)).
Context (rw_iter : gmap VarName VarDetail -> list (VarName * VarDetail)).

(** The state of the server, the connection its pool gives, the clock and a fresh nonce. *)
Context (config : ServerConfig) (auth_user_store : option UserStore) (servers : Servers) (app : AppDetails).
Context (descriptions : Descriptions) (client : outcome ErrorKind Stream) (clock : Clock) (fresh : Z).

(** [option_layer] with [AuthorizeUserLayer]. *)
Definition authorize_layer (p : Permissions) (next : WebService) : WebService :=
  match auth_user_store with
  | Some _ => authorize_user_call config p next
  | None => next
  end.

Definition handler (r : WebRoute) : WebService :=
  match r with
  | HomeRoute section ns => fun _ session =>
      no_conn (home_get values iter config servers section ns session)
  | TopologyRoute section => fun _ session =>
      no_conn (topology_get config values (iter servers) section session)
  | ConnectionRoute section => fun _ session => no_conn (connection_get iter config servers section session)
  | SystemRoute => fun _ session => no_conn (system_get config app auth_user_store session)
  | UpsRoute ns ups section tab => fun _ session =>
      no_conn (ups_get vars_iter rw_iter config servers ns ups section tab descriptions session)
  | InstcmdRoute form => authorize_layer INSTCMD (fun _ session =>
      match form with
      | Ok (ns, ups, command) => instcmd_post_form config servers client ns ups session command
      | Err status => rejected status
      | Panicked | OutOfFuel => no_conn Panicked
      end)
  | FsdRoute path => authorize_layer Auth.FSD (fun _ session =>
      match path with
      | Ok (ns, ups) => fsd_post_form config servers client ns ups session
      | Err status => rejected status
      | Panicked | OutOfFuel => no_conn Panicked
      end)
  | RwRoute form => authorize_layer SETVAR (fun _ session =>
      match form with
      | Ok (ns, ups, request) => rw_patch_form config servers client ns ups session request
      | Err status => rejected status
      | Panicked | OutOfFuel => no_conn Panicked
      end)
  | NotFoundRoute => fun _ session => no_conn (not_found_get config session)
  | LogoutRoute => fun _ _ => no_conn (logout_post cookie_header_ok invalid_header config)
  | ApiKeysGet => fun _ session =>
      match session with
      | Some session => no_conn (api_key_get config session)
      | None => rejected INTERNAL_SERVER_ERROR
      end
  | ApiKeysPost form => fun _ session =>
      match session with
      | Some session => no_conn (api_key_post base64_encode hmac config auth_user_store (at_issue clock) fresh session form)
      | None => rejected INTERNAL_SERVER_ERROR
      end
  | LoginGet => fun _ session => no_conn (login_get config auth_user_store (at_auth clock) session)
  | LoginPost form => fun _ session =>
      no_conn (login_post base64_encode hmac scrypt cookie_header_ok header_ok invalid_header config auth_user_store
                 clock fresh session form)
  | ThemesRoute => fun _ _ => no_conn (get_themes config)
  end.

(** The handler's response, an [ErrorPage] turned into one. *)
Definition respond (r : WebRoute) : WebService := fun req session => into_response (handler r req session).

Definition login_path : str := uri (base_path (http_server config)) ++ lit "/login".

(** The route under its layers, before [HtmxRedirectLayer]. *)
Definition layered (r : WebRoute) : WebService :=
  match auth_user_store with
  | Some store =>
      let auth := user_auth_call base64_decode verify_slice config (at_auth clock) store login_path in
      match route_class r with
      | Renewed =>
          auth (renew_session_call base64_encode hmac cookie_header_ok config clock store fresh AUTH_COOKIE_RENEW
                  (respond r))
      | Authenticated => auth (respond r)
      | Open => respond r
      end
  | None => respond (if needs_store r then NotFoundRoute else r)
  end.

(** A request through [create_hypermedia_routes]: at first there is no session. *)
Definition hypermedia (r : WebRoute) (req : WebRequest) : web_reply := htmx_redirect_call (layered r) req None.

End routes.

(** ** Lemmas *)

(** What a write needs. *)
Definition web_permission (r : WebRoute) : option Permissions :=
  match r with
  | InstcmdRoute _ => Some INSTCMD
  | FsdRoute _ => Some Auth.FSD
  | RwRoute _ => Some SETVAR
  | _ => None
  end.
Definition web_target (r : WebRoute) : option (str * UpsName) :=
  match r with
  | InstcmdRoute (Ok (ns, ups, _)) => Some (ns, ups)
  | FsdRoute (Ok (ns, ups)) => Some (ns, ups)
  | RwRoute (Ok (ns, ups, _)) => Some (ns, ups)
  | _ => None
  end.

Section guard.

Context (base64_encode : str -> str) (base64_decode : str -> option str).
Context (hmac : str -> str -> str) (verify_slice : str -> str -> str -> bool).
Context (scrypt : str -> str -> option str).
Context (cookie_header_ok : Cookie -> bool) (header_ok : str -> bool) (invalid_header : str).
Context `{Template ErrorPage, Template NotificationTemplate, Template LoginTemplate, Template LoginFormBlock}.
Context `{Template ApiKeyFormTemplate, Template ApiKeyFormBlock, Template ApiKeySuccessTemplate}.
Context `{Template NotFoundTemplate, Template ThemesTemplate, Template RwFormTemplate}.
Context `{Template TableRowsTemplate, Template HomeTemplate, Template DeviceTableBlock}.
Context `{Template DeviceContainerBlock, Template UpsdInfoTemplate, Template ConnectionPageTemplate}.
Context `{Template InfoCardsBlock, Template SystemPageTemplate, Template UpsPageTemplate}.
Context `{Template UpsStatusBlock, Template TabContentBlock, Template TopologyTemplate, Template GraphNodesBlock}.
Context (values : gmap UpsName DeviceEntry -> list DeviceEntry) (iter : Servers -> list (str * UpsdState)).
Context (vars_iter : UpsVariables -> list (VarName * Value)).
Context (rw_iter : gmap VarName VarDetail -> list (VarName * VarDetail)).
Context (config : ServerConfig) (servers : Servers) (app : AppDetails).
Context (descriptions : Descriptions) (client : outcome ErrorKind Stream) (clock : Clock) (fresh : Z).

Abbreviation handle store r := (respond base64_encode hmac scrypt cookie_header_ok header_ok invalid_header values iter
  vars_iter rw_iter config store servers app descriptions client clock fresh r) (only parsing).
Abbreviation answer store r := (handler base64_encode hmac scrypt cookie_header_ok header_ok invalid_header values iter
  vars_iter rw_iter config store servers app descriptions client clock fresh r) (only parsing).
Abbreviation web store r := (hypermedia base64_encode base64_decode hmac verify_slice scrypt cookie_header_ok header_ok
  invalid_header values iter vars_iter rw_iter config store servers app descriptions client clock fresh r) (only parsing).

(** A device that can be written to. *)
Definition web_writable (r : WebRoute) : Prop :=
  exists ns ups upsd device, web_target r = Some (ns, ups) /\ servers !! ns = Some upsd /\
    devices (daemon_state upsd) !! ups = Some device /\
    is_Some (user (upsd_config upsd)) /\ is_Some (pass (upsd_config upsd)) /\
    (forall n u request, r = RwRoute (Ok (n, u, request)) -> exists detail value,
       rw_variables device !! rw_name request = Some detail /\ validate_request (rw_value request) detail = Valid value).

Lemma authorize_layer_conn store p next req session s :
  (authorize_layer config store p next req session).2 = Some s ->
  (is_Some store -> exists ses, session = Some ses /\ has_permission (access_token ses) p = true) /\
  (next req session).2 = Some s.
Proof.
  unfold authorize_layer. destruct store as [st|]; [|intros Hs; split; [by intros []|done]].
  unfold authorize_user_call. destruct session as [ses|]; [|done].
  destruct (has_permission (access_token ses) p) eqn:E; [|done]. intros Hs. split; [eauto|done].
Qed.

(** Only the write routes touch a connection, and only with the permission they need. *)
Lemma respond_conn store r req session s : (handle store r req session).2 = Some s ->
  exists p, web_permission r = Some p /\
    (is_Some store -> exists ses, session = Some ses /\ has_permission (access_token ses) p = true) /\ web_writable r.
Proof.
  unfold respond, into_response. cbn [snd].
  destruct r as [| | | | |form|path|form| | | | | | |]; cbn [handler web_permission]; try done.
  - intros [Hp Hc]%authorize_layer_conn. exists INSTCMD. split; [done|]. split; [done|].
    destruct form as [[[ns ups] c]| | |]; [|done..]. apply command_form_conn in Hc as (upsd & device & ? & ? & ? & ? & _).
    exists ns, ups, upsd, device. by split_and!.
  - intros [Hp Hc]%authorize_layer_conn. exists Auth.FSD. split; [done|]. split; [done|].
    destruct path as [[ns ups]| | |]; [|done..]. apply command_form_conn in Hc as (upsd & device & ? & ? & ? & ? & _).
    exists ns, ups, upsd, device. by split_and!.
  - intros [Hp Hc]%authorize_layer_conn. exists SETVAR. split; [done|]. split; [done|].
    destruct form as [[[ns ups] request]| | |]; [|done..].
    apply rw_patch_form_conn in Hc as (upsd & device & detail & value & ? & ? & ? & ? & ? & ? & _).
    exists ns, ups, upsd, device. split_and!; try done. intros n u request' [= -> -> ->]. eauto.
  - by destruct session.
  - by destruct session.
Qed.

(** The permissions a request is served with: those of the session, or, when it is renewed on this very
    request, those that the user has now. *)
Definition granted (u : User) (session : UserSession) : Permissions :=
  if decide (ttl (at_check clock) (access_token session) <= AUTH_COOKIE_RENEW)
  then profile_permissions (profile u) else permissions (access_token session).

Lemma renew_conn store next req session s : contains_user store (session_username session) = true ->
  (renew_session_call base64_encode hmac cookie_header_ok config clock store fresh AUTH_COOKIE_RENEW next req
     (Some session)).2 = Some s ->
  exists u session', inner store !! username_str (session_username session) = Some u /\
    (next req (Some session')).2 = Some s /\ permissions (access_token session') = granted u session.
Proof.
  unfold renew_session_call, granted. intros Hu. rewrite Hu, andb_true_r.
  apply bool_decide_eq_true in Hu as [u Hu]. case_decide as Hd.
  - rewrite (proj2 (Z.leb_le _ _) Hd). unfold renew_session. rewrite Hu. destruct (cookie_header_ok _); [|done].
    intros Hs. by exists u, (new_session store (session_username session) u (at_issue clock) fresh).
  - rewrite (proj2 (Z.leb_gt _ _)) by lia. intros Hs. by exists u, session.
Qed.

Lemma htmx_conn next req session : (htmx_redirect_call next req session).2 = (next req session).2.
Proof. unfold htmx_redirect_call. by destruct (hx_request req). Qed.

(** C3: Through the web pages a daemon connection is used only by the three write routes, for a known device of a
    daemon with credentials, a variable only with a value that its form accepts; and when there are users,
    only for a request whose cookie carries a signed, live session of a known user, and the permission of
    the route is one of that session, or, exactly when the session has at most a week left and is
    therefore replaced on this very request, one that the user has now. *)
Theorem web_write_guard (store : option UserStore) (r : WebRoute) (req : WebRequest) (s : Stream)
  (Hmac : hmac_documented hmac verify_slice) (Hconn : (web store r req).2 = Some s) :
  web_writable r /\
  forall st, store = Some st -> exists p value session u, web_permission r = Some p /\
    auth_cookie req = Some value /\ base64_decode value = Some (sign_token hmac (server_key config) session) /\
    UserSession_wf session /\ is_active (at_auth clock) (access_token session) = true /\
    inner st !! username_str (session_username session) = Some u /\
    perm_has (if decide (ttl (at_check clock) (access_token session) <= AUTH_COOKIE_RENEW)
              then profile_permissions (profile u) else permissions (access_token session)) p = true.
Proof.
  unfold hypermedia in Hconn. rewrite htmx_conn in Hconn. unfold layered in Hconn. destruct store as [st|].
  - destruct (route_class r) eqn:Ec.
    + unfold user_auth_call in Hconn.
      destruct (extract_user_session _ _ _ _ _ _) as [session| | |] eqn:Hex; [|done..].
      apply (extract_session_ok base64_decode hmac verify_slice Hmac) in Hex as (v & Hc & Hv & Hwf & Hact & Hu).
      destruct (renew_conn _ _ _ _ _ Hu Hconn) as (u & session' & Hin & Hs & Hgrant).
      apply respond_conn in Hs as (p & Hp & Hperm & Hw). split; [done|]. intros st' [= <-].
      destruct (Hperm ltac:(eauto)) as (ses & [= <-] & Hh). exists p, v, session, u. split_and!; try done.
      unfold has_permission in Hh. by rewrite Hgrant in Hh.
    + unfold user_auth_call in Hconn. destruct (extract_user_session _ _ _ _ _ _) as [session| | |]; [|done..].
      apply respond_conn in Hconn as (p & Hp & _). by destruct r.
    + apply respond_conn in Hconn as (p & Hp & _). by destruct r.
  - apply respond_conn in Hconn as (p & Hp & _ & Hw). split; [|done]. by destruct r.
Qed.

Lemma respond_no_err store r req session e : (handle store r req session).1 <> Err e.
Proof. unfold respond, into_response. cbn [fst]. by case_match. Qed.

Lemma map_reply_no_err f (reply : web_reply) e : reply.1 <> Err e -> (map_reply f reply).1 <> Err e.
Proof. destruct reply as [[]]; cbn; congruence. Qed.

(** The route that is there: without users, those of [needs_store] are not. *)
Definition found (store : option UserStore) (r : WebRoute) : WebRoute :=
  match store with Some _ => r | None => if needs_store r then NotFoundRoute else r end.

(** The session that the layers hand to the handler, with the cookie they set; nothing if they answer
    themselves. *)
Definition served (store : option UserStore) (r : WebRoute) (req : WebRequest)
  : option (option UserSession * option Cookie) :=
  match store, route_class r with
  | Some st, Authenticated =>
      match extract_user_session base64_decode verify_slice config (at_auth clock) st req with
      | Ok s => Some (Some s, None)
      | _ => None
      end
  | Some st, Renewed =>
      match extract_user_session base64_decode verify_slice config (at_auth clock) st req with
      | Ok s =>
          if decide (ttl (at_check clock) (access_token s) <= AUTH_COOKIE_RENEW) then
            u ← inner st !! username_str (session_username s);
            let s' := new_session st (session_username s) u (at_issue clock) fresh in
            let cookie := session_cookie base64_encode hmac config (at_cookie clock) s' in
            if cookie_header_ok cookie then Some (Some s', Some cookie) else None
          else Some (Some s, None)
      | _ => None
      end
  | _, _ => Some (None, None)
  end.

Lemma web_served store r req session cookie : served store r req = Some (session, cookie) ->
  web store r req = (if hx_request req then map_reply htmx_redirect else id)
    (match cookie with Some c => map_reply (set_set_cookie c) | None => id end
       (handle store (found store r) req session)).
Proof.
  unfold served, hypermedia, htmx_redirect_call, layered, found. destruct store as [st|].
  2:{ intros [= <- <-]. by destruct (hx_request req). }
  destruct (route_class r).
  - unfold user_auth_call. destruct (extract_user_session _ _ _ _ _ _) as [s| | |] eqn:E; [|done..].
    apply extract_session_live in E as [_ Hc]. unfold renew_session_call. rewrite Hc, andb_true_r.
    apply bool_decide_eq_true in Hc as [u Hu]. unfold renew_session. rewrite Hu. cbn [mbind option_bind].
    destruct (decide (_ <= AUTH_COOKIE_RENEW)) as [Hd|Hd].
    + rewrite (proj2 (Z.leb_le _ _) Hd). destruct (cookie_header_ok _); [|done]. intros [= <- <-].
      by destruct (hx_request req).
    + rewrite (proj2 (Z.leb_gt _ _)) by lia. intros [= <- <-]. by destruct (hx_request req).
  - unfold user_auth_call. destruct (extract_user_session _ _ _ _ _ _) as [s| | |]; [|done..].
    intros [= <- <-]. by destruct (hx_request req).
  - intros [= <- <-]. by destruct (hx_request req).
Qed.

Lemma web_no_err store r req e : (web store r req).1 <> Err e.
Proof.
  unfold hypermedia, htmx_redirect_call.
  assert (Hl : (layered base64_encode base64_decode hmac verify_slice scrypt cookie_header_ok header_ok
    invalid_header values iter vars_iter rw_iter config store servers app descriptions client clock fresh r req None).1
    <> Err e).
  { unfold layered. destruct store as [st|]; [|apply respond_no_err].
    assert (Hauth : forall next, (forall s, (next req (Some s)).1 <> Err e) ->
      (user_auth_call base64_decode verify_slice config (at_auth clock) st (login_path config) next req None).1 <> Err e).
    { intros next Hn. unfold user_auth_call. destruct (extract_user_session _ _ _ _ _ _); [apply Hn|done..]. }
    destruct (route_class r); [| |apply respond_no_err]; apply Hauth; intros s; [|apply respond_no_err].
    unfold renew_session_call. destruct (_ && _); [|apply respond_no_err].
    destruct (renew_session _ _ _ _) as [s'| | |]; [|apply respond_no_err..].
    destruct (cookie_header_ok _); [|done]. apply map_reply_no_err, respond_no_err. }
  destruct (hx_request req); [by apply map_reply_no_err|done].
Qed.

(** C37: The router of the web pages, by what the handler returns for the session that its layers pass on: an
    error becomes the error page, status 500 with the rendered text or, if that cannot be rendered, with a
    plain one, and reaches the client with that status; a reply reaches him with the cookie of the
    layers, and with its redirection taken over by HTMX; no request ends in an unanswered error; HTMX
    requests never see a redirection they could not follow; with users configured, a request without a live
    session gets the login redirect from every route but the login form and the themes; the login form never
    looks at the cookie, so a user who is logged in is shown the form again; and without users the routes to
    log in and out and to make keys do not exist. *)
Theorem web_router_spec (store : option UserStore) (r : WebRoute) (req : WebRequest) :
  (forall session cookie e conn, served store r req = Some (session, cookie) ->
     answer store (found store r) req session = (Err e, conn) ->
     web store r req = (Ok (mkWebResponse 500 None None None cookie
       match render e with Ok html => html | Err err => lit "Something went wrong " ++ err | _ => [] end), conn)) /\
  (forall session cookie reply conn, served store r req = Some (session, cookie) ->
     answer store (found store r) req session = (Ok reply, conn) ->
     web store r req = (Ok ((if hx_request req then htmx_redirect else id)
       (match cookie with Some c => set_set_cookie c reply | None => reply end)), conn)) /\
  (forall e, (web store r req).1 <> Err e) /\
  (forall reply, hx_request req = true -> (web store r req).1 = Ok reply ->
     300 <= web_status reply < 400 -> location reply = None) /\
  (forall st, store = Some st -> route_class r <> Open ->
     extract_user_session base64_decode verify_slice config (at_auth clock) st req = Err mkInvalidCookieValue ->
     web store r req = no_conn (Ok (if hx_request req
       then mkWebResponse OK None (Some (login_path config)) None None [] else Redirect_to (login_path config)))) /\
  (forall st cookie, store = Some st -> web store LoginGet req = web store LoginGet (mkWebRequest (hx_request req) cookie)) /\
  (store = None -> needs_store r = true -> web store r req = web store NotFoundRoute req).
Proof.
  split_and!.
  - intros session cookie e conn Hs He. rewrite (web_served _ _ _ _ _ Hs). unfold respond, into_response. rewrite He.
    by destruct (hx_request req), cookie.
  - intros session cookie reply conn Hs He. rewrite (web_served _ _ _ _ _ Hs). unfold respond, into_response.
    rewrite He. by destruct (hx_request req), cookie.
  - apply web_no_err.
  - intros reply Hx. unfold hypermedia, htmx_redirect_call. rewrite Hx. cbn [map_reply fst].
    destruct (layered _ _ _ _ _ _ _ _ _ _ _ _ _ _ _ _ _ _ _ _ _ _) as [[reply'| | |] c]; try done.
    cbn [fst omap_ok]. intros [= <-]. unfold htmx_redirect. destruct (_ && _) eqn:E.
    + destruct (location reply') eqn:El; cbn; [unfold OK; lia|done].
    + intros Hs. apply andb_false_iff in E as [E|E]; [apply Z.leb_gt in E|apply Z.ltb_ge in E]; lia.
  - intros st -> Hc He. unfold hypermedia, htmx_redirect_call, layered.
    assert (Hauth : forall next, user_auth_call base64_decode verify_slice config (at_auth clock) st (login_path config)
      next req None = no_conn (Ok (if hx_request req
        then mkWebResponse OK None (Some (login_path config)) None None [] else Redirect_to (login_path config)))).
    { intros next. unfold user_auth_call. by rewrite He. }
    destruct (route_class r); [| |done]; rewrite Hauth; by destruct (hx_request req).
  - intros st cookie ->. reflexivity.
  - intros -> Hn. unfold hypermedia, layered. rewrite Hn. reflexivity.
Qed.

End guard.

(** ** Witness *)

#[local] Instance demo_template T : Template T := fun _ _ => Ok (lit "page").

Definition demo_route : WebRoute := InstcmdRoute (Ok (lit "main", demo_ups, mkCmdName (lit "beeper.off"))).
Definition demo_web_request : WebRequest :=
  mkWebRequest true (Some (demo_encode (sign_token demo_hmac (server_key demo_config) demo_session))).
Definition demo_web (store : option UserStore) : web_reply :=
  hypermedia demo_encode (fun s => Some (demo_decode64 s)) demo_hmac demo_verify demo_scrypt (fun _ => true)
    (fun _ => true) [] (fun m => (map_to_list m).*2) map_to_list map_to_list map_to_list demo_config store demo_servers
    (mkAppDetails [] [] []) ∅ (Ok demo_stream) demo_clock 3 demo_route demo_web_request.

Lemma web_write_guard_witness : is_Some (demo_web (Some demo_store)).2 /\ web_writable demo_servers demo_route /\
  exists session u, is_active (at_auth demo_clock) (access_token session) = true /\
    inner demo_store !! username_str (session_username session) = Some u /\
    perm_has (if decide (ttl (at_check demo_clock) (access_token session) <= AUTH_COOKIE_RENEW)
              then profile_permissions (profile u) else permissions (access_token session)) INSTCMD = true.
Proof.
  destruct (demo_web (Some demo_store)).2 as [s|] eqn:E; [|vm_compute in E; discriminate].
  split; [by exists s|].
  destruct (web_write_guard demo_encode (fun s => Some (demo_decode64 s)) demo_hmac demo_verify demo_scrypt
    (fun _ => true) (fun _ => true) [] (fun m => (map_to_list m).*2) map_to_list map_to_list map_to_list demo_config
    demo_servers (mkAppDetails [] [] []) ∅ (Ok demo_stream) demo_clock 3 (Some demo_store) demo_route
    demo_web_request s demo_hmac_documented E) as [Hw Hp].
  split; [exact Hw|]. destruct (Hp demo_store eq_refl) as (p & v & session & u & [= <-] & _ & _ & _ & Hact & Hu & Hh).
  exists session, u. split; [exact Hact|]. split; [exact Hu|exact Hh].
Defined.

(** Without users, and with templates that cannot be rendered. *)
#[local] Definition broken_template T : Template T := fun _ _ => Err (lit "no template").

Lemma web_router_spec_witness :
  @hypermedia demo_encode (fun s => Some (demo_decode64 s)) demo_hmac demo_verify demo_scrypt (fun _ => true)
    (fun _ => true) [] (broken_template _) (broken_template _) (broken_template _) (broken_template _) (broken_template _)
    (broken_template _) (broken_template _) (broken_template _) (broken_template _) (broken_template _) (broken_template _)
    (broken_template _) (broken_template _) (broken_template _) (broken_template _) (broken_template _) (broken_template _)
    (broken_template _) (broken_template _) (broken_template _) (broken_template _) (broken_template _) (broken_template _)
    (fun m => (map_to_list m).*2) map_to_list map_to_list map_to_list demo_config None demo_servers
    (mkAppDetails [] [] []) ∅ (Ok demo_stream) demo_clock 3 SystemRoute demo_web_request =
  (Ok (mkWebResponse 500 None None None None (lit "Something went wrong no template")), None).
Proof.
  refine (proj1 (@web_router_spec demo_encode (fun s => Some (demo_decode64 s)) demo_hmac demo_verify demo_scrypt (fun _ => true)
    (fun _ => true) [] (broken_template _) (broken_template _) (broken_template _) (broken_template _) (broken_template _)
    (broken_template _) (broken_template _) (broken_template _) (broken_template _) (broken_template _) (broken_template _)
    (broken_template _) (broken_template _) (broken_template _) (broken_template _) (broken_template _) (broken_template _)
    (broken_template _) (broken_template _) (broken_template _) (broken_template _) (broken_template _) (broken_template _)
    (fun m => (map_to_list m).*2) map_to_list map_to_list map_to_list demo_config demo_servers
    (mkAppDetails [] [] []) ∅ (Ok demo_stream) demo_clock 3 None SystemRoute demo_web_request) None None
    (mkErrorPage (lit "no template")) None _ _); reflexivity.
Defined.
