(* ===== verification/Broadcast.v ===== *)
(** * Event messages and their broadcast

    [http/event_api/message.rs], [event_api/error.rs] and
    [event_api/message_broadcast.rs]: the messages of the event API, and the
    background service that turns every system event into a payload of JSON
    texts for the open sockets. [serde_json] is the parameter [to_json]. *)

From S2P Require Import Prelude RustStr Names Ip Status Auth State Events.

(** An error of a library, by its text. *)
Abbreviation LibError := (list Byte.byte) (only parsing).

(** ** [event_api/error.rs] *)

Inductive HandshakeError :=
  | ConnectionClosed
  | ExpiredKey
  | InvalidAccessToken
  | InvalidHandshakeMessage
  | HandshakeSerializeError (inner : LibError)
  | HandshakeSocketError (inner : LibError)
  | TimedOut.

Inductive SendError := SessionExpired | SendSocketError (inner : LibError).

Definition HandshakeError_fmt (e : HandshakeError) : str :=
  match e with
  | ConnectionClosed => lit "connection closed unexpectedly"
  | ExpiredKey => lit "key has expired"
  | InvalidAccessToken => lit "invalid access token"
  | InvalidHandshakeMessage => lit "invalid handshake message received"
  | HandshakeSerializeError inner | HandshakeSocketError inner => inner
  | TimedOut => lit "handshake timed out"
  end.

Definition SendError_fmt (e : SendError) : str :=
  match e with
  | SendSocketError inner => inner
  | SessionExpired => lit "auth key is expired"
  end.

(** ** [event_api/message.rs] *)

Inductive NutEventMessage :=
  | MsgDeviceConnected (name : UpsName) (namespace : str) (timestamp : Z)
  | MsgDeviceRemoved (name : UpsName) (namespace : str) (timestamp : Z)
  | MsgDeviceUpdate (name : UpsName) (namespace : str) (timestamp : Z)
  | MsgDeviceStatus (name : UpsName) (namespace : str) (status_new status_old : UpsStatus)
      (events : gset UpsEvent) (timestamp : Z)
  | MsgDaemonStatus (namespace : str) (status : ConnectionStatus) (timestamp : Z)
  | MsgClientConnect (client_ip : IpAddr) (name : UpsName) (namespace : str) (timestamp : Z)
  | MsgClientDisconnect (client_ip : IpAddr) (name : UpsName) (namespace : str) (timestamp : Z)
  | MsgHandshakeError (message : HandshakeError)
  | MsgSessionEnded
  | MsgWaitingForAuth
  | MsgAuthOk.

(** [Arc<[String]>]. *)
Abbreviation MessagePayload := (list (list Byte.byte)) (only parsing).

(** The broadcast sender: how many receivers subscribe, and the payloads sent. *)
Record MessageBroadcast := mkBroadcast { receiver_count : nat; payloads : list MessagePayload }.

Definition broadcast_send (b : MessageBroadcast) (payload : MessagePayload) : MessageBroadcast :=
  if decide (receiver_count b = 0) then b
  else mkBroadcast (receiver_count b) (payloads b ++ [payload]).

(** What [listener.recv()] or the cancellation of the service brings. *)
Inductive ServiceInput :=
  | EventReceived (timestamp : Z) (event : SystemEvent)
  | ListenerLagged (lagged : nat)
  | ListenerClosed
  | ServiceCancelled.

Section broadcast.

(** [serde_json::to_string]. *)
Context (to_json : NutEventMessage -> outcome LibError str).

(** [let value = serde_json::to_string(&message)?; data.push(value)] for every element. *)
Fixpoint push_messages {A} (message : A -> outcome LibError NutEventMessage) (xs : list A) (data : list str)
  : outcome LibError (list str) :=
  match xs with
  | [] => Ok data
  | x :: xs =>
      let? m := message x in
      let? value := to_json m in
      push_messages message xs (data ++ [value])
  end.

Definition process_device_addition (devices : list UpsName) (namespace : str) (timestamp : Z)
  : outcome LibError MessagePayload :=
  push_messages (fun name => Ok (MsgDeviceConnected name namespace timestamp)) devices [].
Definition process_device_removal (devices : list UpsName) (namespace : str) (timestamp : Z)
  : outcome LibError MessagePayload :=
  push_messages (fun name => Ok (MsgDeviceRemoved name namespace timestamp)) devices [].
Definition process_device_update (devices : list UpsName) (namespace : str) (timestamp : Z)
  : outcome LibError MessagePayload :=
  push_messages (fun name => Ok (MsgDeviceUpdate name namespace timestamp)) devices [].

Definition process_device_status_update (changes : list DeviceStatusChange) (namespace : str) (timestamp : Z)
  : outcome LibError MessagePayload :=
  push_messages (fun change =>
    match UpsEvents_new (status_old change) (status_new change) with
    | Some events => Ok (MsgDeviceStatus (sc_name change) namespace (status_new change) (status_old change)
                           events timestamp)
    | None => OutOfFuel
    end) changes [].

Definition process_daemon_state (status : ConnectionStatus) (namespace : str) (timestamp : Z)
  : outcome LibError MessagePayload :=
  let? value := to_json (MsgDaemonStatus namespace status timestamp) in Ok [value].

(** The two nested loops over the devices and their clients. *)
Fixpoint process_clients (message : UpsName -> IpAddr -> NutEventMessage) (devices : list DeviceClientInfo)
  (data : list str) : outcome LibError (list str) :=
  match devices with
  | [] => Ok data
  | info :: devices =>
      let? data := push_messages (fun ip => Ok (message (dc_name info) ip)) (dc_clients info) data in
      process_clients message devices data
  end.
Definition process_client_connect (devices : list DeviceClientInfo) (namespace : str) (timestamp : Z)
  : outcome LibError MessagePayload :=
  process_clients (fun name ip => MsgClientConnect ip name namespace timestamp) devices [].
Definition process_client_disconnect (devices : list DeviceClientInfo) (namespace : str) (timestamp : Z)
  : outcome LibError MessagePayload :=
  process_clients (fun name ip => MsgClientDisconnect ip name namespace timestamp) devices [].

Definition event_payload (timestamp : Z) (event : SystemEvent) : outcome LibError MessagePayload :=
  match event with
  | DeviceAddition devices namespace => process_device_addition devices namespace timestamp
  | DeviceRemoval devices namespace => process_device_removal devices namespace timestamp
  | DeviceUpdate devices namespace => process_device_update devices namespace timestamp
  | DeviceStatusChanges changes namespace => process_device_status_update changes namespace timestamp
  | DaemonStatusUpdate status namespace => process_daemon_state status namespace timestamp
  | ClientConnection devices namespace => process_client_connect devices namespace timestamp
  | ClientDisconnection devices namespace => process_client_disconnect devices namespace timestamp
  end.

(** [SerializeTask::next]. *)
Definition serialize_next (timestamp : Z) (event : SystemEvent) (broadcast : MessageBroadcast) : MessageBroadcast :=
  if decide (receiver_count broadcast < 1) then broadcast
  else match event_payload timestamp event with
       | Ok payload => broadcast_send broadcast payload
       | _ => broadcast
       end.

(** [MessageBroadcastService::run]: the broadcast after the inputs, and whether
    the service has left its loop. *)
Fixpoint broadcast_run (inputs : list ServiceInput) (broadcast : MessageBroadcast) : MessageBroadcast * bool :=
  match inputs with
  | [] => (broadcast, false)
  | EventReceived timestamp event :: inputs => broadcast_run inputs (serialize_next timestamp event broadcast)
  | ListenerLagged _ :: inputs => broadcast_run inputs broadcast
  | ListenerClosed :: _ | ServiceCancelled :: _ => (broadcast, true)
  end.

End broadcast.

(** ** Reference definitions *)

(** The messages an event stands for: one per device, or per device and client. *)
Definition event_messages (timestamp : Z) (event : SystemEvent) : list NutEventMessage :=
  match event with
  | DeviceAddition devices ns => (fun n => MsgDeviceConnected n ns timestamp) <$> devices
  | DeviceRemoval devices ns => (fun n => MsgDeviceRemoved n ns timestamp) <$> devices
  | DeviceUpdate devices ns => (fun n => MsgDeviceUpdate n ns timestamp) <$> devices
  | DeviceStatusChanges changes ns => (fun c =>
      MsgDeviceStatus (sc_name c) ns (status_new c) (status_old c)
        (default ∅ (UpsEvents_new (status_old c) (status_new c))) timestamp) <$> changes
  | DaemonStatusUpdate status ns => [MsgDaemonStatus ns status timestamp]
  | ClientConnection devices ns =>
      d ← devices; ip ← dc_clients d; [MsgClientConnect ip (dc_name d) ns timestamp]
  | ClientDisconnection devices ns =>
      d ← devices; ip ← dc_clients d; [MsgClientDisconnect ip (dc_name d) ns timestamp]
  end.

(** The statuses of an event are 32-bit words, as the parser makes them. *)
Definition event_wf (event : SystemEvent) : Prop :=
  match event with
  | DeviceStatusChanges changes _ => Forall (fun c => status_wf (status_old c) /\ status_wf (status_new c)) changes
  | _ => True
  end.

Definition change_wf (c : DeviceStatusChange) : Prop := status_wf (status_old c) /\ status_wf (status_new c).
Definition batch_wf (b : EventBatch) : Prop := Forall change_wf (status_changes b).

(** The texts of a list of messages, when all of them serialize. *)
Definition to_texts (to_json : NutEventMessage -> outcome LibError str) (ms : list NutEventMessage)
  : outcome LibError (list str) := push_messages to_json (fun m => Ok m) ms [].

(** ** Lemmas *)

Lemma batch_events_wf b : batch_wf b -> Forall event_wf (batch_events b).
Proof.
  unfold batch_wf. intros Hw. unfold batch_events. rewrite !list.Forall_app.
  split_and!; case_match; try (apply list.Forall_nil_2); (apply list.Forall_cons; split; [|apply list.Forall_nil_2]);
    try exact I; exact Hw.
Qed.

Section broadcast_lemmas.

Context (to_json : NutEventMessage -> outcome LibError str).

Lemma push_messages_app {A} (message : A -> outcome LibError NutEventMessage) xs ys data :
  push_messages to_json message (xs ++ ys) data =
  (let? data := push_messages to_json message xs data in push_messages to_json message ys data).
Proof.
  revert data. induction xs as [|x xs IH]; intros data; [done|]. cbn.
  destruct (message x); [|done..]. cbn. destruct (to_json _); [|done..]. cbn. apply IH.
Qed.

Lemma push_messages_fmap {A} (message : A -> outcome LibError NutEventMessage) (f : A -> NutEventMessage) xs data :
  Forall (fun x => message x = Ok (f x)) xs ->
  push_messages to_json message xs data = push_messages to_json (fun m => Ok m) (f <$> xs) data.
Proof.
  intros Hx. revert data. induction Hx as [|x xs Hm _ IH]; intros data; [done|]. cbn. rewrite Hm. cbn.
  destruct (to_json _); [|done..]. cbn. apply IH.
Qed.

Lemma process_clients_spec (message : UpsName -> IpAddr -> NutEventMessage) devices data :
  process_clients to_json message devices data =
  push_messages to_json (fun m => Ok m) (d ← devices; ip ← dc_clients d; [message (dc_name d) ip]) data.
Proof.
  revert data. induction devices as [|d devices IH]; intros data; [done|].
  cbn [process_clients mbind list_bind]. rewrite push_messages_app.
  rewrite (push_messages_fmap _ (message (dc_name d))) by (by apply list.Forall_forall).
  assert (Hb : message (dc_name d) <$> dc_clients d = dc_clients d ≫= (fun ip => [message (dc_name d) ip])).
  { induction (dc_clients d) as [|ip l IHl]; [done|]. cbn. by f_equal. }
  rewrite Hb. destruct (push_messages _ _ _ data); [apply IH|done..].
Qed.

(** The handlers serialize the messages the event stands for, in order. *)
Lemma event_payload_spec timestamp event : event_wf event ->
  event_payload to_json timestamp event = to_texts to_json (event_messages timestamp event).
Proof.
  unfold to_texts. intros Hw.
  destruct event; cbn [event_payload event_messages];
    try (apply push_messages_fmap; by apply list.Forall_forall); try apply process_clients_spec.
  - apply (push_messages_fmap _ (fun c => MsgDeviceStatus (sc_name c) namespace (status_new c) (status_old c)
        (default ∅ (UpsEvents_new (status_old c) (status_new c))) timestamp)).
    eapply list.Forall_impl; [exact Hw|]. intros c [Ho Hn]. cbv beta. by rewrite (events_ok _ _ Ho Hn).
  - done.
Qed.

Lemma to_texts_total ms : (forall m, m ∈ ms -> exists s, to_json m = Ok s) ->
  exists texts, to_texts to_json ms = Ok texts /\ Forall2 (fun m s => to_json m = Ok s) ms texts.
Proof.
  unfold to_texts. intros Hm.
  enough (Hgen : forall data, exists texts, push_messages to_json (fun m => Ok m) ms data = Ok (data ++ texts) /\
    Forall2 (fun m s => to_json m = Ok s) ms texts) by apply (Hgen []).
  induction ms as [|m ms IH]; intros data; [exists []; by rewrite app_nil_r|].
  destruct (Hm m) as [s Hs]; [left|]. cbn. rewrite Hs. cbn.
  destruct (IH ltac:(intros; apply Hm; by right) (data ++ [s])) as (texts & -> & Hf).
  exists (s :: texts). rewrite <- app_assoc. split; [done|]. by constructor.
Qed.

Lemma broadcast_run_app inputs more b :
  broadcast_run to_json (inputs ++ more) b =
  let '(b', stopped) := broadcast_run to_json inputs b in
  if stopped then (b', true) else broadcast_run to_json more b'.
Proof.
  revert b. induction inputs as [|[t e|n| |] inputs IH]; intros b; cbn; [done|apply IH|apply IH|done..].
Qed.

Lemma broadcast_events evs b : receiver_count b <> 0 -> Forall event_wf evs.*2 ->
  (forall p m, p ∈ evs -> m ∈ event_messages p.1 p.2 -> exists s, to_json m = Ok s) ->
  exists ps, broadcast_run to_json ((fun p => EventReceived p.1 p.2) <$> evs) b =
      (mkBroadcast (receiver_count b) (payloads b ++ ps), false) /\
    Forall2 (fun p payload => Forall2 (fun m s => to_json m = Ok s) (event_messages p.1 p.2) payload) evs ps.
Proof.
  intros Hr Hw Hj. revert b Hr. induction evs as [|[t e] evs IH]; intros [r p] Hr.
  { exists []. cbn. by rewrite app_nil_r. }
  cbn in Hw. apply list.Forall_cons in Hw as [He Hw]. cbn in Hr.
  rewrite fmap_cons. cbn [broadcast_run fst snd].
  destruct (to_texts_total (event_messages t e)) as (texts & Ht & Hf); [intros m; apply (Hj (t, e)); by left|].
  unfold serialize_next. cbn [receiver_count]. rewrite decide_False by lia. rewrite event_payload_spec, Ht by done.
  unfold broadcast_send. cbn [receiver_count payloads]. rewrite decide_False by done.
  destruct (IH Hw ltac:(intros p' m Hp; apply Hj; by right) (mkBroadcast r (p ++ [texts])) Hr) as (ps & -> & Hps).
  exists (texts :: ps). cbn. rewrite <- app_assoc. split; [done|]. by constructor.
Qed.

(** The payloads of a published batch. *)
Lemma broadcast_batch (Hj : forall m, exists s, to_json m = Ok s) batch channel : subscribed channel = true ->
  Forall (fun c => status_wf (status_old c) /\ status_wf (status_new c)) (status_changes batch) ->
  forall b, receiver_count b <> 0 -> forall timestamp, exists texts,
    published (EventBatch_send batch channel).2 = published channel ++ batch_events batch /\
    broadcast_run to_json (EventReceived timestamp <$> batch_events batch) b =
      (mkBroadcast (receiver_count b) (payloads b ++ texts), false) /\
    Forall2 (fun e payload => Forall2 (fun m s => to_json m = Ok s) (event_messages timestamp e) payload)
      (batch_events batch) texts.
Proof.
  intros Hsub Hw b Hr timestamp.
  pose proof (batch_events_wf batch Hw) as Hwf.
  destruct (broadcast_events ((fun e => (timestamp, e)) <$> batch_events batch) b Hr) as (ps & Hrun & Hps);
    [by rewrite <- list_fmap_compose, list_fmap_id|by intros|].
  rewrite <- list_fmap_compose in Hrun. apply (list.Forall2_fmap_l (fun e => (timestamp, e))) in Hps.
  exists ps. rewrite batch_send_spec, Hsub. by split_and!.
Qed.

(** With nobody listening nothing is sent. *)
Lemma broadcast_unheard inputs b : receiver_count b = 0 -> (broadcast_run to_json inputs b).1 = b.
Proof.
  intros Hr. induction inputs as [|[t e|n| |] inputs IH]; cbn; try done.
  unfold serialize_next. by rewrite decide_True by lia.
Qed.

End broadcast_lemmas.

Lemma fmap_zip {A B C} (f : A -> B -> C) l k : (fun p => f p.1 p.2) <$> zip l k = zip_with f l k.
Proof. revert k. induction l as [|a l IH]; intros [|b k]; cbn; [done..|]. by f_equal. Qed.

(** ** Properties *)

(** C31: What the synchronisation of a daemon publishes as one batch reaches the broadcast that the open sockets
    read whole and in order: one event for each kind that occurred, the additions, removals, updates, changes
    of status, disconnections and connections of clients and the status of the daemon, in this order and with
    all that the batch has of it. Each event becomes one payload, whose texts are the JSON of one message per
    device (per device and client for client events), with the time at which the event was taken, and a
    change of status carries both statuses and every event between them. Lagging does not stop the service; a
    closed channel or the cancellation does, and nothing after it is sent; with no socket open nothing is
    sent, and a batch that nobody listens to is not published. *)
Theorem broadcast_spec (to_json : NutEventMessage -> outcome LibError str)
  (Hj : forall m, exists s, to_json m = Ok s) (batch : EventBatch) (channel : EventChannel)
  (Hw : Forall (fun c => status_wf (status_old c) /\ status_wf (status_new c)) (status_changes batch))
  (b : MessageBroadcast) (Hr : receiver_count b <> 0) :
  let ns := b_namespace batch in
  let events :=
    match new_devices batch with [] => [] | devices => [DeviceAddition devices ns] end ++
    match removed batch with [] => [] | devices => [DeviceRemoval devices ns] end ++
    match updated batch with [] => [] | devices => [DeviceUpdate devices ns] end ++
    match status_changes batch with [] => [] | changes => [DeviceStatusChanges changes ns] end ++
    match disconnections batch with [] => [] | devices => [ClientDisconnection devices ns] end ++
    match connections batch with [] => [] | devices => [ClientConnection devices ns] end ++
    match upsd_status batch with None => [] | Some status => [DaemonStatusUpdate status ns] end in
  published (EventBatch_send batch channel).2 = published channel ++ (if subscribed channel then events else []) /\
  (forall timestamps : list Z, length timestamps = length events -> exists texts,
     (forall lagged more, let taken := zip_with EventReceived timestamps events in
        let after := mkBroadcast (receiver_count b) (payloads b ++ texts) in
        broadcast_run to_json taken b = (after, false) /\
        broadcast_run to_json (taken ++ ListenerLagged lagged :: more) b = broadcast_run to_json more after /\
        broadcast_run to_json (taken ++ ListenerClosed :: more) b = (after, true) /\
        broadcast_run to_json (taken ++ ServiceCancelled :: more) b = (after, true)) /\
     Forall2 (Forall2 (fun m s => to_json m = Ok s)) (zip_with event_messages timestamps events) texts) /\
  (forall c, c ∈ status_changes batch -> is_Some (UpsEvents_new (status_old c) (status_new c))) /\
  (forall inputs, (broadcast_run to_json inputs (mkBroadcast 0 (payloads b))).1 = mkBroadcast 0 (payloads b)).
Proof.
  intros ns events.
  assert (He : events = batch_events batch) by (unfold events, batch_events, ns; by repeat case_match).
  rewrite He. clearbody events. subst events. split_and!.
  - rewrite batch_send_spec. destruct (subscribed channel); [done|]. by rewrite app_nil_r.
  - intros ts Hlen. pose proof (batch_events_wf batch Hw) as Hwf.
    destruct (broadcast_events to_json (zip ts (batch_events batch)) b Hr) as (ps & Hrun & Hps).
    + by rewrite snd_zip by lia.
    + intros p m _ _. apply Hj.
    + exists ps. rewrite fmap_zip in Hrun.
      split; [intros lagged more; cbv zeta; rewrite !broadcast_run_app, Hrun; by split_and!|].
      replace (zip_with event_messages ts (batch_events batch)) with
        ((fun p => event_messages p.1 p.2) <$> zip ts (batch_events batch)) by (by rewrite fmap_zip).
      by apply list.Forall2_fmap_l.
  - intros c Hc. rewrite list.Forall_forall in Hw. destruct (Hw c Hc) as [Ho Hn]. rewrite (events_ok _ _ Ho Hn). by eexists.
  - intros inputs. by apply broadcast_unheard.
Qed.

(** ** Witnesses *)

(** A serializer for examples: the kind of the message. *)
Definition demo_json (m : NutEventMessage) : outcome LibError str :=
  Ok (match m with
      | MsgDeviceConnected _ _ _ => lit "connected"
      | MsgDeviceRemoved _ _ _ => lit "removed"
      | MsgDeviceUpdate _ _ _ => lit "update"
      | MsgDeviceStatus _ _ _ _ _ _ => lit "status"
      | MsgDaemonStatus _ _ _ => lit "daemon"
      | MsgClientConnect _ _ _ _ => lit "client"
      | MsgClientDisconnect _ _ _ _ => lit "gone"
      | MsgHandshakeError e => lit "error: " ++ HandshakeError_fmt e
      | MsgSessionEnded => lit "ended"
      | MsgWaitingForAuth => lit "waiting"
      | MsgAuthOk => lit "auth ok"
      end).

Definition demo_batch : EventBatch :=
  status_change (mkUpsName (lit "ups")) ONLINE ON_BATTERY
    (client_connection (mkUpsName (lit "ups")) [V4 [127; 0; 0; 1]; V4 [10; 0; 0; 1]]%Z (EventBatch_new (lit "nut"))).

Lemma broadcast_spec_witness :
  exists events texts,
    published (EventBatch_send demo_batch (mkChannel [] true)).2 = events /\
    broadcast_run demo_json (zip_with EventReceived [5%Z; 6%Z] events) (mkBroadcast 1 []) = (mkBroadcast 1 texts, false) /\
    texts = [[lit "status"]; [lit "client"; lit "client"]].
Proof.
  destruct (broadcast_spec demo_json (fun m => ex_intro _ _ eq_refl) demo_batch (mkChannel [] true)
    ltac:(repeat constructor; by vm_compute) (mkBroadcast 1 []) ltac:(done)) as (Hp & Hrun & _).
  destruct (Hrun [5%Z; 6%Z] eq_refl) as (texts & Hr & _). destruct (Hr 0%nat []) as [Hr1 _].
  eexists _, texts. split; [exact Hp|]. split; [exact Hr1|].
  vm_compute in Hr1. injection Hr1 as <-. reflexivity.
Defined.
