(* ===== verification/Messages.v ===== *)
(** * The messages of the event API as JSON

    [event_api/message.rs] and [event_api/error.rs]: an internally tagged enum,
    written as an object whose first field is the name of the variant, and what
    a client reads in it. The text of an object is serde_json's. *)

From S2P Require Import Prelude RustStr Numbers Names Ip IpText Status State Events Broadcast Json JsonRead.

(** A hash set of events, in the order in which it is iterated. *)
#[global] Instance UpsEvents_serialize `{HashIter (gset UpsEvent) UpsEvent} : Serialize (gset UpsEvent) := fun events =>
  serialize (hash_iter events : list UpsEvent).

#[global] Instance HandshakeError_serialize : Serialize HandshakeError := fun e => JStr (HandshakeError_fmt e).

(** [#[serde(tag = "type")]]. *)
Definition tagged (variant : string) (fields : list (str * Json)) : Json :=
  JObj ((lit "type", JStr (lit variant)) :: fields).

#[global] Instance NutEventMessage_serialize `{HashIter (gset UpsEvent) UpsEvent} : Serialize NutEventMessage := fun m =>
  let device variant name namespace timestamp :=
    tagged variant [(lit "name", serialize (name : UpsName)); (lit "namespace", serialize (namespace : str));
                    (lit "timestamp", serialize (timestamp : Z))] in
  let client variant client_ip name namespace timestamp :=
    tagged variant [(lit "client_ip", serialize (client_ip : IpAddr)); (lit "name", serialize (name : UpsName));
                    (lit "namespace", serialize (namespace : str)); (lit "timestamp", serialize (timestamp : Z))] in
  match m with
  | MsgDeviceConnected name namespace timestamp => device "DeviceConnected"%string name namespace timestamp
  | MsgDeviceRemoved name namespace timestamp => device "DeviceRemoved"%string name namespace timestamp
  | MsgDeviceUpdate name namespace timestamp => device "DeviceUpdate"%string name namespace timestamp
  | MsgDeviceStatus name namespace status_new status_old events timestamp =>
      tagged "DeviceStatus" [(lit "name", serialize name); (lit "namespace", serialize namespace);
        (lit "status_new", serialize status_new); (lit "status_old", serialize status_old);
        (lit "events", serialize events); (lit "timestamp", serialize timestamp)]
  | MsgDaemonStatus namespace status timestamp =>
      tagged "DaemonStatus" [(lit "namespace", serialize namespace); (lit "status", serialize status);
        (lit "timestamp", serialize timestamp)]
  | MsgClientConnect client_ip name namespace timestamp => client "ClientConnect"%string client_ip name namespace timestamp
  | MsgClientDisconnect client_ip name namespace timestamp =>
      client "ClientDisconnect"%string client_ip name namespace timestamp
  | MsgHandshakeError message => tagged "HandshakeError" [(lit "message", serialize message)]
  | MsgSessionEnded => tagged "SessionEnded" []
  | MsgWaitingForAuth => tagged "WaitingForAuth" []
  | MsgAuthOk => tagged "AuthOk" []
  end.

(** [TryInto<Message>] and the texts of the broadcast; [to_string] is serde_json's. *)
Definition message_text `{HashIter (gset UpsEvent) UpsEvent} (to_string : Json -> outcome LibError str)
  (m : NutEventMessage) : outcome LibError str := to_string (serialize m).

(** ** What a client reads *)

#[global] Instance UpsEvent_deserialize : Deserialize UpsEvent :=
  visit_text "an event" (fun s => ok_or (CustomError (lit "unknown event")) (event_of_str s)).

#[global] Program Instance UpsEvent_roundtrip : JsonRoundtrip UpsEvent := {| json_wf := fun _ => True |}.
Next Obligation.
  intros e _. unfold deserialize, serialize, UpsEvent_deserialize, UpsEvent_serialize. cbn [visit_text].
  by rewrite event_of_as_str.
Qed.

(** The name of a device is taken as it is. *)
Definition get_name (fields : list (str * Json)) : outcome DeError UpsName :=
  omap_ok UpsName_new_unchecked (get_field "name" fields).

Definition device_message (m : UpsName -> str -> Z -> NutEventMessage) (fields : list (str * Json))
  : outcome DeError NutEventMessage :=
  let? name := get_name fields in
  let? namespace := get_field "namespace" fields in
  omap_ok (m name namespace) (get_field "timestamp" fields).

Definition client_message (m : IpAddr -> UpsName -> str -> Z -> NutEventMessage) (fields : list (str * Json))
  : outcome DeError NutEventMessage :=
  let? client_ip := get_field "client_ip" fields in
  device_message (m client_ip) fields.

(** The text of a failed handshake does not tell the error: it is read as no message. *)
#[global] Instance NutEventMessage_deserialize : Deserialize NutEventMessage := object (fun fields =>
  let? variant := get_field (A := list Byte.byte) "type" fields in
  if decide (variant = lit "DeviceConnected") then device_message MsgDeviceConnected fields
  else if decide (variant = lit "DeviceRemoved") then device_message MsgDeviceRemoved fields
  else if decide (variant = lit "DeviceUpdate") then device_message MsgDeviceUpdate fields
  else if decide (variant = lit "DeviceStatus") then
    let? status_new := get_field "status_new" fields in
    let? status_old := get_field "status_old" fields in
    let? events := get_field (A := list UpsEvent) "events" fields in
    device_message (fun name namespace => MsgDeviceStatus name namespace status_new status_old (list_to_set events)) fields
  else if decide (variant = lit "DaemonStatus") then
    let? namespace := get_field "namespace" fields in
    let? status := get_field "status" fields in
    omap_ok (MsgDaemonStatus namespace status) (get_field "timestamp" fields)
  else if decide (variant = lit "ClientConnect") then client_message MsgClientConnect fields
  else if decide (variant = lit "ClientDisconnect") then client_message MsgClientDisconnect fields
  else if decide (variant = lit "SessionEnded") then Ok MsgSessionEnded
  else if decide (variant = lit "WaitingForAuth") then Ok MsgWaitingForAuth
  else if decide (variant = lit "AuthOk") then Ok MsgAuthOk
  else Err (CustomError (lit "unknown variant"))).

Definition message_wf (m : NutEventMessage) : Prop :=
  match m with
  | MsgDeviceStatus _ _ status_new status_old _ _ => known status_new /\ known status_old
  | MsgClientConnect ip _ _ _ | MsgClientDisconnect ip _ _ _ => IpAddr_wf ip
  | MsgHandshakeError _ => False
  | _ => True
  end.

Definition message_timestamp (m : NutEventMessage) : option Z :=
  match m with
  | MsgDeviceConnected _ _ t | MsgDeviceRemoved _ _ t | MsgDeviceUpdate _ _ t | MsgDeviceStatus _ _ _ _ _ t
  | MsgDaemonStatus _ _ t | MsgClientConnect _ _ _ t | MsgClientDisconnect _ _ _ t => Some t
  | _ => None
  end.

Section messages.

Context {events_order : HashIter (gset UpsEvent) UpsEvent}.

(** Every message has a text, once its time stamp is of 64 bits. *)
Lemma message_plain m : from_option is_i64 True (message_timestamp m) -> json_plain (serialize m) = true.
Proof.
  assert (Hts : forall t, is_i64 t -> (i64_min <=? t)%Z && (t <=? u64_max)%Z = true).
  { intros t [H1 H2]. apply andb_true_iff. rewrite !Z.leb_le. split; [done|]. unfold i64_max, u64_max in *. lia. }
  assert (Hobj : forall keys fields, fields.*1 = keys -> bool_decide (NoDup keys) = true ->
    forallb (fun f => json_plain f.2) fields = true -> json_plain (JObj fields) = true).
  { intros keys fields <- Hk Hf. cbn [json_plain]. by rewrite Hk. }
  intros Ht. destruct m; cbn [message_timestamp from_option] in Ht; (eapply Hobj; [reflexivity|vm_compute; reflexivity|]);
    cbn [forallb snd json_plain serialize UpsName_serialize str_serialize int_serialize UpsStatus_serialize
      IpAddr_serialize ConnectionStatus_serialize HandshakeError_serialize]; rewrite ?(Hts _ Ht); try done.
  rewrite !andb_true_r. cbn [andb]. unfold UpsEvents_serialize, serialize, list_serialize. cbn [json_plain].
  induction (hash_iter events : list UpsEvent) as [|e l IH]; [done|exact IH].
Qed.

(** A message of the feed is read back from its JSON. *)
Lemma message_roundtrip (Hevents : forall events, hash_iter events ≡ₚ elements events) m : message_wf m ->
  deserialize (serialize m) = Ok m.
Proof.
  intros Hm. destruct m as [[n] ns t|[n] ns t|[n] ns t|[n] ns new old evs t|ns st t|ip [n] ns t|ip [n] ns t|e| | |]; try done.
  - destruct Hm as [Hnew Hold].
    change ((let? status_new := deserialize (serialize new) in
      let? status_old := deserialize (serialize old) in
      let? events := deserialize (serialize (hash_iter evs : list UpsEvent)) in
      Ok (MsgDeviceStatus (mkUpsName n) ns status_new status_old (list_to_set (events : list UpsEvent)) t)) =
      Ok (MsgDeviceStatus (mkUpsName n) ns new old evs t)).
    rewrite json_roundtrip by done. cbn [obind]. rewrite json_roundtrip by done. cbn [obind].
    rewrite json_roundtrip by (by apply list.Forall_forall). cbn [obind]. do 2 f_equal. apply set_eq. intros e.
    by rewrite elem_of_list_to_set, Hevents, elem_of_elements.
  - by destruct st.
  - change ((let? client_ip := deserialize (serialize ip) in Ok (MsgClientConnect client_ip (mkUpsName n) ns t)) =
      Ok (MsgClientConnect ip (mkUpsName n) ns t)). by rewrite json_roundtrip.
  - change ((let? client_ip := deserialize (serialize ip) in Ok (MsgClientDisconnect client_ip (mkUpsName n) ns t)) =
      Ok (MsgClientDisconnect ip (mkUpsName n) ns t)). by rewrite json_roundtrip.
Qed.

End messages.
