(* ===== verification/EventApi.v ===== *)
(** * The event API

    [http/event_api.rs] and [event_api/handshake.rs]: the log-in of a web
    socket, and the two tasks that serve it. The tasks run concurrently: a
    connection is the state of both and of the cancellation token they share,
    and one [conn_step] is what either task does between two awaits. The socket, the
    clocks and the scheduler choose the action. *)

From S2P Require Import Prelude RustStr Numbers Names Auth Status State Events Broadcast Web.

Open Scope Z_scope.

(** ** [handshake.rs] *)

(** [Instant] and [Duration] are counted in nanoseconds. *)
Record SessionInfo := mkSessionInfo { start : Z; duration : Duration }.
Definition SessionInfo_new (now : Z) (duration : Duration) : SessionInfo := mkSessionInfo now duration.
Definition is_expired (now : Z) (s : SessionInfo) : bool := bool_decide (duration s <= Z.max 0 (now - start s)).

Inductive WsMessage := Text (s : str) | Binary (s : str) | Ping (s : str) | Pong (s : str) | Close.

(** What awaiting the next message gives: a message, an error, or the end of the stream. *)
Inductive SocketEvent := Received (m : WsMessage) | ReceiveError (e : LibError) | StreamEnd.

(** What awaiting a send gives; [SendStalled]: it is pending when the handshake's timer fires. *)
Inductive SendResult := Sent | SendFailed (e : LibError) | SendStalled.

(** The clock at [is_active()], at [ttl()] (seconds), and at [Instant::now()]. *)
Record HandshakeClock := mkHandshakeClock { at_active : Z; at_ttl : Z; at_start : Z }.

Section handshake.

Context (to_json : NutEventMessage -> outcome LibError str).
Context (base64_decode : str -> option str) (verify_slice : str -> str -> str -> bool).
Context (server_key : str) (clock : HandshakeClock).

(** [socket.send(message.try_into()?).await?] *)
Definition send_message (m : NutEventMessage) (sent : SendResult) : outcome HandshakeError (list str) :=
  let? data := map_err HandshakeSerializeError (to_json m) in
  match sent with
  | Sent => Ok [data]
  | SendFailed e => Err (HandshakeSocketError e)
  | SendStalled => Err TimedOut
  end.

(** The receive loop, up to the check of the token. The events are those that
    arrive before the timer of [timeout(HANDSHAKE_TIMEOUT, ..)]. *)
Fixpoint handshake_loop (events : list SocketEvent) : outcome HandshakeError AccessToken :=
  match events with
  | [] => Err TimedOut
  | StreamEnd :: _ => Err ConnectionClosed
  | ReceiveError e :: _ => Err (HandshakeSocketError e)
  | Received m :: events =>
      match m with
      | Text content =>
          match strip_prefix (lit "LOGIN:") content with
          | Some key =>
              let? bytes := ok_or InvalidAccessToken (base64_decode (trim key)) in
              let? access_token := map_err (fun _ => InvalidAccessToken)
                (signer_from_bytes (T := AccessToken) verify_slice server_key bytes) in
              if is_active (at_active clock) access_token then Ok access_token else Err ExpiredKey
          | None => Err InvalidHandshakeMessage
          end
      | Binary _ => Err InvalidHandshakeMessage
      | Ping _ | Pong _ => handshake_loop events
      | Close => Err ConnectionClosed
      end
  end.

(** [auth_handshake]: its result and the texts sent. *)
Definition auth_handshake (waiting_sent auth_sent : SendResult) (events : list SocketEvent)
  : outcome HandshakeError SessionInfo * list str :=
  match send_message MsgWaitingForAuth waiting_sent with
  | Ok texts =>
      match handshake_loop events with
      | Ok access_token =>
          match send_message MsgAuthOk auth_sent with
          | Ok more => (Ok (SessionInfo_new (at_start clock) (ttl (at_ttl clock) access_token)), texts ++ more)
          | Err e => (Err e, texts)
          | Panicked => (Panicked, texts)
          | OutOfFuel => (OutOfFuel, texts)
          end
      | Err e => (Err e, texts)
      | Panicked => (Panicked, texts)
      | OutOfFuel => (OutOfFuel, texts)
      end
  | Err e => (Err e, [])
  | Panicked => (Panicked, [])
  | OutOfFuel => (OutOfFuel, [])
  end.

(** [if let Ok(msg) = msg.try_into() { socket.feed(msg) }] *)
Definition feed_message (m : NutEventMessage) : list str :=
  match to_json m with Ok data => [data] | _ => [] end.

(** [handler_with_auth]: the texts given to the socket, and the session the
    connection goes on with; [None]: the socket is closed. *)
Definition handler_with_auth (waiting_sent auth_sent : SendResult) (events : list SocketEvent)
  : outcome HandshakeError (option SessionInfo) * list str :=
  match auth_handshake waiting_sent auth_sent events with
  | (Ok session, texts) => (Ok (Some session), texts)
  | (Err ConnectionClosed, texts) => (Ok None, texts)
  | (Err err, texts) => (Ok None, texts ++ feed_message (MsgHandshakeError err) ++ feed_message MsgSessionEnded)
  | (Panicked, texts) => (Panicked, texts)
  | (OutOfFuel, texts) => (OutOfFuel, texts)
  end.

End handshake.

(** ** [event_api.rs]: the two tasks of a connection *)

(** [socket_send]: in its [select!], feeding the rest of a payload, in
    [end_with_notify], or returned. *)
Inductive SendTask := SSelect | SSending (rest : list str) | SNotify | SDone.
(** [socket_recv]: in its [select!], or returned. *)
Inductive RecvTask := RSelect | RDone.

(** [cancelled]: the shared token; [closed]: [handler] has joined the tasks and
    closed the socket; [outgoing]: the texts given to the socket so far. *)
Record Conn := mkConn {
  session_info : option SessionInfo;
  s_task : SendTask; r_task : RecvTask; cancelled : bool; closed : bool; outgoing : list str }.

Definition event_handler (session : option SessionInfo) : Conn := mkConn session SSelect RSelect false false [].

Definition set_send (t : SendTask) (c : Conn) : Conn :=
  mkConn (session_info c) t (r_task c) (cancelled c) (closed c) (outgoing c).
Definition set_recv (t : RecvTask) (c : Conn) : Conn :=
  mkConn (session_info c) (s_task c) t (cancelled c) (closed c) (outgoing c).
Definition cancel (c : Conn) : Conn :=
  mkConn (session_info c) (s_task c) (r_task c) true (closed c) (outgoing c).
Definition emit (texts : list str) (c : Conn) : Conn :=
  mkConn (session_info c) (s_task c) (r_task c) (cancelled c) (closed c) (outgoing c ++ texts).
Definition close (c : Conn) : Conn :=
  mkConn (session_info c) (s_task c) (r_task c) (cancelled c) true (outgoing c).

(** What [listener.recv()] gives. *)
Inductive BroadcastEvent := PayloadReceived (payload : MessagePayload) | Lagged (lagged : nat) | ChannelClosed.

Inductive ConnAction :=
  | ListenerRecv (now : Z) (e : BroadcastEvent)  (* socket_send: the listener's branch *)
  | SendCancelled                                (* socket_send: the token's branch *)
  | SinkWrite (ok : bool)                        (* socket_send: the next feed, or the flush, ends *)
  | NotifyEnd (ok : bool)                        (* socket_send: end_with_notify ends *)
  | SocketRecv (e : SocketEvent)                 (* socket_recv: the stream's branch *)
  | RecvCancelled                                (* socket_recv: the token's branch *)
  | JoinClose.                                   (* handler: both tasks have returned *)

Section connection.

Context (to_json : NutEventMessage -> outcome LibError str).

(** [MessageSink::send_payload], up to its first await. *)
Definition begin_payload (now : Z) (payload : MessagePayload) (c : Conn) : Conn :=
  match session_info c with
  | Some session =>
      if is_expired now session then set_send SNotify (cancel c) else set_send (SSending payload) c
  | None => set_send (SSending payload) c
  end.

(** One step of a task, when it can take it. *)
Definition conn_step (c : Conn) (a : ConnAction) : option Conn :=
  match a with
  | ListenerRecv now e =>
      match s_task c with
      | SSelect => Some match e with
                        | PayloadReceived payload => begin_payload now payload c
                        | Lagged _ => c
                        | ChannelClosed => set_send SDone (cancel c)
                        end
      | _ => None
      end
  | SendCancelled =>
      match s_task c with
      | SSelect => if cancelled c then Some (set_send SNotify c) else None
      | _ => None
      end
  | SinkWrite ok =>
      match s_task c with
      | SSending rest => Some (if ok then match rest with
                                          | value :: rest => set_send (SSending rest) (emit [value] c)
                                          | [] => set_send SSelect c
                                          end
                               else set_send SDone (cancel c))
      | _ => None
      end
  | NotifyEnd ok =>
      match s_task c with
      | SNotify => Some (set_send SDone (if ok then emit (feed_message to_json MsgSessionEnded) c else c))
      | _ => None
      end
  | SocketRecv e =>
      match r_task c with
      | RSelect => Some match e with
                        | Received (Ping _) | Received (Pong _) => c
                        | _ => set_recv RDone (cancel c)
                        end
      | _ => None
      end
  | RecvCancelled =>
      match r_task c with
      | RSelect => if cancelled c then Some (set_recv RDone c) else None
      | _ => None
      end
  | JoinClose =>
      match s_task c, r_task c with
      | SDone, RDone => if closed c then None else Some (close c)
      | _, _ => None
      end
  end.

(** A finite history: every action is one its task could take. *)
Fixpoint conn_steps (c : Conn) (actions : list ConnAction) : option Conn :=
  match actions with
  | [] => Some c
  | a :: actions => match conn_step c a with Some c => conn_steps c actions | None => None end
  end.

(** An infinite schedule: an action its task cannot take changes nothing. *)
Fixpoint conn_at (schedule : nat -> ConnAction) (c : Conn) (n : nat) : Conn :=
  match n with
  | O => c
  | S n => let c' := conn_at schedule c n in default c' (conn_step c' (schedule n))
  end.

End connection.

(** ** Lemmas: the log-in *)

Definition keepalive (e : SocketEvent) : Prop :=
  match e with Received (Ping _) | Received (Pong _) => True | _ => False end.

Section handshake_lemmas.

Context (base64_decode : str -> option str) (hmac : str -> str -> str) (verify_slice : str -> str -> str -> bool).
Context (Hmac : hmac_documented hmac verify_slice).
Context (server_key : str) (clock : HandshakeClock).

Lemma handshake_loop_keepalive pings events : Forall keepalive pings ->
  handshake_loop base64_decode verify_slice server_key clock (pings ++ events) =
  handshake_loop base64_decode verify_slice server_key clock events.
Proof. induction 1 as [|[[]| |] pings Hk _ IH]; done. Qed.

Lemma handshake_loop_login key bytes t events : base64_decode (trim key) = Some bytes ->
  signer_from_bytes verify_slice server_key bytes = Ok t ->
  handshake_loop base64_decode verify_slice server_key clock (Received (Text (lit "LOGIN:" ++ key)) :: events) =
  if is_active (at_active clock) t then Ok t else Err ExpiredKey.
Proof.
  intros Hb Hs. cbn [handshake_loop]. rewrite strip_prefix_app, Hb. cbn [ok_or obind]. by rewrite Hs.
Qed.

(** A token is taken from the first message that is not a ping or a pong, a
    log-in with a signed token that is active. *)
Lemma handshake_loop_Ok events t :
  handshake_loop base64_decode verify_slice server_key clock events = Ok t <->
  exists pings key rest, events = pings ++ Received (Text (lit "LOGIN:" ++ key)) :: rest /\ Forall keepalive pings /\
    base64_decode (trim key) = Some (sign_token hmac server_key t) /\ AccessToken_wf t /\
    is_active (at_active clock) t = true.
Proof using Hmac.
  assert (Hsign : forall bytes u, signer_from_bytes verify_slice server_key bytes = Ok u <->
    AccessToken_wf u /\ bytes = sign_token hmac server_key u).
  { intros bytes u. rewrite (signer_accepts hmac verify_slice Hmac _ (H0 := AccessToken_laws)).
    split; [intros (? & _ & ?); by split|intros [? ?]; split_and!; [done| |done]].
    intros Hn. apply (f_equal length) in Hn. by change (length (AccessToken_as_bytes u) = 0%nat) in Hn. }
  split.
  - induction events as [|[[content|s|s|s|]|e|] events IH]; try done.
    + intros Hl. cbn [handshake_loop] in Hl.
      destruct (strip_prefix _ content) as [key|] eqn:Ep; [|done]. apply strip_prefix_Some in Ep as ->.
      destruct (base64_decode (trim key)) as [bytes|] eqn:Eb; [|done]. cbn [ok_or obind] in Hl.
      destruct (signer_from_bytes _ _ bytes) as [u| | |] eqn:Es; try done. cbn [map_err obind] in Hl.
      destruct (is_active _ u) eqn:Ea; [|done]. injection Hl as <-. apply Hsign in Es as [Hw ->].
      exists [], key, events. by split_and!.
    + intros (pings & key & rest & -> & Hp & Hr)%IH. exists (Received (Ping s) :: pings), key, rest.
      split_and!; try done; [by constructor|apply Hr..].
    + intros (pings & key & rest & -> & Hp & Hr)%IH. exists (Received (Pong s) :: pings), key, rest.
      split_and!; try done; [by constructor|apply Hr..].
  - intros (pings & key & rest & -> & Hp & Hb & Hw & Ha). rewrite handshake_loop_keepalive by done.
    rewrite (handshake_loop_login _ _ t _ Hb); [by rewrite Ha|]. apply Hsign. by split.
Qed.

Lemma handshake_loop_total events :
  handshake_loop base64_decode verify_slice server_key clock events <> Panicked /\
  handshake_loop base64_decode verify_slice server_key clock events <> OutOfFuel.
Proof.
  induction events as [|[[content|s|s|s|]|e|] events IH]; try done. cbn [handshake_loop].
  destruct (strip_prefix _ content) as [key|]; [|done].
  destruct (base64_decode (trim key)) as [bytes|]; [|done]. cbn [ok_or obind].
  destruct (signer_total (T := AccessToken) verify_slice (H0 := AccessToken_laws) server_key bytes) as [Hp Hf].
  destruct (signer_from_bytes _ _ bytes); try done. cbn. by destruct (is_active _ _).
Qed.

End handshake_lemmas.

(** ** Lemmas: histories of a connection *)

(** The texts of the payloads that the sender takes before the session expires. *)
Definition accepted (session : option SessionInfo) (actions : list ConnAction) : list str :=
  a ← actions;
  match a with
  | ListenerRecv now (PayloadReceived payload) =>
      if from_option (is_expired now) false session then [] else payload
  | _ => []
  end.

Section history.

Context (to_json : NutEventMessage -> outcome LibError str).

Abbreviation goodbye := (feed_message to_json MsgSessionEnded).

(** The invariant of the histories of a connection. *)
Definition conn_inv (session : option SessionInfo) (actions : list ConnAction) (c : Conn) : Prop :=
  session_info c = session /\
  match s_task c with
  | SSelect => outgoing c = accepted session actions
  | SSending rest => outgoing c ++ rest = accepted session actions
  | SNotify => outgoing c = accepted session actions /\ cancelled c = true
  | SDone => cancelled c = true /\ exists texts rest, texts ++ rest = accepted session actions /\
      (outgoing c = texts \/ (rest = [] /\ outgoing c = texts ++ goodbye))
  end /\
  (r_task c = RDone -> cancelled c = true) /\
  (closed c = true -> s_task c = SDone /\ r_task c = RDone).

Lemma conn_inv_step session actions c a c' : conn_inv session actions c -> conn_step to_json c a = Some c' ->
  conn_inv session (actions ++ [a]) c'.
Proof.
  assert (Hacc : accepted session (actions ++ [a]) = accepted session actions ++ accepted session [a]).
  { unfold accepted. by rewrite bind_app. }
  intros (Hsess & Hs & Hr & Hcl) Hstep. unfold conn_inv. rewrite Hacc. clear Hacc.
  destruct c as [session' st rt can cl out]. cbn in Hsess, Hs, Hr, Hcl. subst session'.
  assert (Hclosed : st <> SDone -> cl = false) by (intros; destruct cl; [by destruct Hcl|done]).
  assert (Hclosed' : rt <> RDone -> cl = false) by (intros; destruct cl; [by destruct Hcl|done]).
  destruct a as [now e| |ok|ok|e| |]; cbn in Hstep; rewrite ?app_nil_r.
  - destruct st; try done. rewrite Hclosed in * by done. injection Hstep as <-.
    destruct e as [payload|n|]; cbn; rewrite ?app_nil_r.
    + unfold begin_payload. cbn. destruct session as [s|]; cbn; [destruct (is_expired now s)|];
        cbn; rewrite ?app_nil_r; split_and!; try done; by rewrite Hs.
    + by split_and!.
    + split_and!; try done. exists out, []. rewrite app_nil_r. split; [done|by left].
  - destruct st; try done. destruct can; [|done]. rewrite Hclosed in * by done. injection Hstep as <-. by split_and!.
  - destruct st as [|[|v rest]| |]; try done; rewrite Hclosed in * by done; injection Hstep as <-; destruct ok; cbn;
      split_and!; try done.
    + by rewrite <- Hs, app_nil_r.
    + exists out, []. split; [done|by left].
    + by rewrite <- app_assoc.
    + exists out, (v :: rest). split; [done|by left].
  - destruct st; try done. destruct Hs as [Ho Hc]. rewrite Hclosed in * by done. injection Hstep as <-.
    destruct ok; cbn; split_and!; try done; exists out, []; rewrite app_nil_r; (split; [done|]); [by right; split|by left].
  - destruct rt; [|done]. rewrite Hclosed' in * by done. injection Hstep as <-.
    assert (Hcan : conn_inv session actions (mkConn session st RDone true false out)).
    { split_and!; cbn; try done. by destruct st as [| | |]; destruct_and?. }
    destruct e as [[]| |]; try exact Hcan; by split_and!.
  - destruct rt; [|done]. destruct can; [|done]. rewrite Hclosed' in * by done. injection Hstep as <-. by split_and!.
  - destruct st; try done. destruct rt; [done|]. destruct cl; [done|]. injection Hstep as <-. by split_and!.
Qed.

Lemma conn_inv_steps session actions c : conn_steps to_json (event_handler session) actions = Some c -> conn_inv session actions c.
Proof.
  enough (Hgen : forall before c0, conn_inv session before c0 -> conn_steps to_json c0 actions = Some c ->
    conn_inv session (before ++ actions) c).
  { apply (Hgen []). by split_and!. }
  induction actions as [|a actions IH]; intros before c0 Hinv Hsteps; cbn in Hsteps.
  { injection Hsteps as <-. by rewrite app_nil_r. }
  destruct (conn_step to_json c0 a) as [c1|] eqn:E; [|done].
  replace (before ++ a :: actions) with ((before ++ [a]) ++ actions) by (by rewrite <- app_assoc).
  eapply IH; [by eapply conn_inv_step|done].
Qed.

End history.

(** ** Lemmas: infinite schedules *)

Section liveness.

Context (to_json : NutEventMessage -> outcome LibError str) (schedule : nat -> ConnAction) (c0 : Conn).

Abbreviation at_ n := (conn_at to_json schedule c0 n).

(** The [n]-th action is taken, and is one of [P]. *)
Definition taken (P : ConnAction -> Prop) (n : nat) : Prop :=
  P (schedule n) /\ is_Some (conn_step to_json (at_ n) (schedule n)).

(** A branch [P] is not starved: from any point on it is taken, or it stays
    disabled from some point on. *)
Definition fair (P : ConnAction -> Prop) : Prop :=
  forall n, exists m, (n <= m)%nat /\
    (taken P m \/ forall m' a, (m <= m')%nat -> P a -> conn_step to_json (at_ m') a = None).

(** Every branch that can end a connection is scheduled fairly: awaited writes
    end, and [select!] does not favour the listener for ever. *)
Record fair_schedule : Prop := {
  fair_write : fair (fun a => exists ok, a = SinkWrite ok);
  fair_notify : fair (fun a => exists ok, a = NotifyEnd ok);
  fair_send : fair (eq SendCancelled);
  fair_recv : fair (eq RecvCancelled);
  fair_join : fair (eq JoinClose) }.

Lemma at_S n : at_ (S n) = default (at_ n) (conn_step to_json (at_ n) (schedule n)).
Proof. done. Qed.

(** What every step keeps, every schedule keeps. *)
Lemma at_stable (Q : Conn -> Prop) n m : (forall c a c', Q c -> conn_step to_json c a = Some c' -> Q c') ->
  (n <= m)%nat -> Q (at_ n) -> Q (at_ m).
Proof.
  intros Hstep Hnm Hq. induction Hnm as [|m _ IH]; [done|]. rewrite at_S.
  destruct (conn_step to_json (at_ m) (schedule m)) eqn:E; [|done]. by eapply Hstep.
Qed.

(** [Q] holds until an action of [P] is taken. *)
Lemma at_until (Q : Conn -> Prop) (P : ConnAction -> Prop) n m :
  (forall c a c', Q c -> conn_step to_json c a = Some c' -> Q c' \/ P a) -> (n <= m)%nat -> Q (at_ n) ->
  Q (at_ m) \/ exists k, (n <= k)%nat /\ Q (at_ k) /\ taken P k.
Proof.
  intros Hstep Hnm Hq. induction Hnm as [|m Hnm IH]; [by left|].
  destruct IH as [Hm|?]; [|by right]. rewrite at_S.
  destruct (conn_step to_json (at_ m) (schedule m)) as [c'|] eqn:E; [|by left].
  destruct (Hstep _ _ _ Hm E); [by left|]. right. exists m. unfold taken. rewrite E. by eauto.
Qed.

(** A fair branch that [Q] enables, and that alone leaves [Q], is taken. *)
Lemma fair_leaves (Q : Conn -> Prop) (P : ConnAction -> Prop) n : fair P ->
  (forall c a c', Q c -> conn_step to_json c a = Some c' -> Q c' \/ P a) ->
  (forall c, Q c -> exists a, P a /\ is_Some (conn_step to_json c a)) -> Q (at_ n) ->
  exists k, (n <= k)%nat /\ Q (at_ k) /\ taken P k.
Proof.
  intros Hfair Hstep Hen Hq. destruct (Hfair n) as (m & Hnm & Hm).
  destruct (at_until Q P n m Hstep Hnm Hq) as [Hqm|]; [|done].
  destruct Hm as [Ht|Hd]; [by exists m|].
  destruct (Hen _ Hqm) as (a & Ha & Hs). rewrite (Hd m a) in Hs by done. by destruct Hs.
Qed.

Ltac break_step :=
  repeat match goal with
  | H : conn_step _ _ ?a = Some _ |- _ => destruct a; cbn in H
  | H : (match ?x with _ => _ end) = Some _ |- _ => destruct x eqn:?; cbn in H
  | H : Some _ = Some _ |- _ => injection H as <-
  end; try done.

Lemma session_const c a c' : conn_step to_json c a = Some c' -> session_info c' = session_info c.
Proof.
  intros Hs. destruct c as [session st rt can cl out]. break_step; cbn.
  all: try unfold begin_payload; cbn; try done; repeat case_match; done.
Qed.

Lemma cancelled_step c a c' : cancelled c = true -> conn_step to_json c a = Some c' -> cancelled c' = true.
Proof.
  intros Hc Hs. destruct c as [session st rt can cl out]. cbn in Hc. subst can. break_step.
  all: try unfold begin_payload; cbn; repeat case_match; done.
Qed.

Lemma SDone_step c a c' : s_task c = SDone -> conn_step to_json c a = Some c' -> s_task c' = SDone /\ outgoing c' = outgoing c.
Proof.
  intros Hc Hs. destruct c as [session st rt can cl out]. cbn in Hc. subst st.
  break_step; try (cbn; repeat case_match; done).
Qed.

Lemma RDone_step c a c' : r_task c = RDone -> conn_step to_json c a = Some c' -> r_task c' = RDone.
Proof.
  intros Hc Hs. destruct c as [session st rt can cl out]. cbn in Hc. subst rt. break_step.
  all: try unfold begin_payload; cbn; repeat case_match; done.
Qed.

Lemma SSending_step rest c a c' : s_task c = SSending rest -> conn_step to_json c a = Some c' ->
  s_task c' = SSending rest \/ exists ok, a = SinkWrite ok.
Proof.
  intros Hc Hs. destruct c as [session st rt can cl out]. cbn in Hc. subst st.
  break_step; try (left; cbn; repeat case_match; done); right; eauto.
Qed.

Lemma SNotify_step c a c' : s_task c = SNotify -> conn_step to_json c a = Some c' ->
  s_task c' = SNotify \/ exists ok, a = NotifyEnd ok.
Proof.
  intros Hc Hs. destruct c as [session st rt can cl out]. cbn in Hc. subst st.
  break_step; try (left; cbn; repeat case_match; done); right; eauto.
Qed.

(** A payload being written is written, or the socket fails. *)
Lemma sending_ends n rest : fair_schedule -> s_task (at_ n) = SSending rest ->
  exists m, (n <= m)%nat /\ (s_task (at_ m) = SSelect \/ s_task (at_ m) = SDone).
Proof.
  intros Hf. revert n. induction rest as [|v rest IH]; intros n Hq.
  - destruct (fair_leaves _ _ n (fair_write Hf) (SSending_step [])) as (k & Hnk & Hk & (ok & Ha) & _); [|exact Hq|].
    { intros c Hc. exists (SinkWrite true). cbn. rewrite Hc. eauto. }
    exists (S k). split; [lia|]. rewrite at_S, Ha. cbn. rewrite Hk. destruct ok; [by left|by right].
  - destruct (fair_leaves _ _ n (fair_write Hf) (SSending_step (v :: rest)))
      as (k & Hnk & Hk & (ok & Ha) & _); [|exact Hq|].
    { intros c Hc. exists (SinkWrite true). cbn. rewrite Hc. eauto. }
    pose proof (at_S k) as Hn. rewrite Ha in Hn. cbn [conn_step] in Hn. rewrite Hk in Hn. destruct ok.
    + destruct (IH (S k)) as (m & ? & ?); [by rewrite Hn|]. exists m. split; [lia|done].
    + exists (S k). split; [lia|]. rewrite Hn. by right.
Qed.

Lemma stays_cancelled n m : cancelled (at_ n) = true -> (n <= m)%nat -> cancelled (at_ m) = true.
Proof. intros Hc Hm. exact (at_stable (fun c => cancelled c = true) n m cancelled_step Hm Hc). Qed.

(** A cancelled sender leaves its loop. *)
Lemma cancelled_leaves n : fair_schedule -> cancelled (at_ n) = true ->
  exists m, (n <= m)%nat /\ (s_task (at_ m) = SNotify \/ s_task (at_ m) = SDone).
Proof.
  intros Hf Hc. destruct (fair_send Hf n) as (m & Hnm & [[Ha [c' Hs]]|Hd]).
  { exists (S m). split; [lia|]. left. rewrite at_S, Hs. rewrite <- Ha in Hs. cbn in Hs |- *.
    destruct (s_task (at_ m)); try done. rewrite (stays_cancelled n m) in Hs by done. by injection Hs as <-. }
  assert (Hnot : forall k, (m <= k)%nat -> s_task (at_ k) <> SSelect).
  { intros k Hk Hst. specialize (Hd k SendCancelled Hk eq_refl). cbn in Hd.
    by rewrite Hst, (stays_cancelled n k) in Hd by (done || lia). }
  destruct (s_task (at_ m)) as [|rest| |] eqn:Est; [by destruct (Hnot m)| |exists m; auto..].
  destruct (sending_ends m rest Hf Est) as (k & Hk & [Hst|Hst]); [by destruct (Hnot k)|].
  exists k. split; [lia|by right].
Qed.

(** Both tasks of a cancelled connection return. *)
Lemma cancelled_sender_returns n : fair_schedule -> cancelled (at_ n) = true ->
  exists m, (n <= m)%nat /\ s_task (at_ m) = SDone.
Proof.
  intros Hf Hc. destruct (cancelled_leaves n Hf Hc) as (k & Hk & [Hst|]); [|by exists k].
  destruct (fair_leaves _ _ k (fair_notify Hf) SNotify_step) as (m & Hm & Hsm & (ok & Ha) & _); [|exact Hst|].
  { intros c Hcc. exists (NotifyEnd true). cbn. rewrite Hcc. eauto. }
  exists (S m). split; [lia|]. rewrite at_S, Ha. cbn. by rewrite Hsm; destruct ok.
Qed.

Lemma cancelled_receiver_returns n : fair_schedule -> cancelled (at_ n) = true ->
  exists m, (n <= m)%nat /\ r_task (at_ m) = RDone.
Proof.
  intros Hf Hc. destruct (fair_recv Hf n) as (m & Hnm & [[Ha [c' Hs]]|Hd]).
  { exists (S m). split; [lia|]. rewrite at_S, Hs. rewrite <- Ha in Hs. cbn in Hs |- *.
    destruct (r_task (at_ m)); [|done]. rewrite (stays_cancelled n m) in Hs by done. by injection Hs as <-. }
  exists m. split; [done|]. specialize (Hd m RecvCancelled ltac:(lia) eq_refl). cbn in Hd.
  destruct (r_task (at_ m)); [|done]. by rewrite (stays_cancelled n m) in Hd by done.
Qed.

(** ... and the socket is closed. *)
Lemma cancelled_closes n : fair_schedule -> cancelled (at_ n) = true ->
  exists m, (n <= m)%nat /\ closed (at_ m) = true.
Proof.
  intros Hf Hc. destruct (cancelled_sender_returns n Hf Hc) as (k & Hk & Hsd).
  destruct (cancelled_receiver_returns k Hf) as (l & Hl & Hrd); [by apply (stays_cancelled n)|].
  assert (Hs' : s_task (at_ l) = SDone).
  { apply (at_stable (fun c => s_task c = SDone) k l); [|done|done]. intros c a c' H1 H2. by eapply SDone_step. }
  destruct (fair_join Hf l) as (m & Hlm & Hm).
  assert (Hm' : s_task (at_ m) = SDone /\ r_task (at_ m) = RDone).
  { apply (at_stable (fun c => s_task c = SDone /\ r_task c = RDone) l m); [|done|by split].
    intros c a c' [H1 H2] H3. split; [by eapply SDone_step|by eapply RDone_step]. }
  destruct Hm' as [Hsm Hrm]. destruct Hm as [[Ha [c' Hs]]|Hd].
  - exists (S m). split; [lia|]. rewrite at_S, Hs. rewrite <- Ha in Hs. cbn in Hs |- *.
    rewrite Hsm, Hrm in Hs. destruct (closed (at_ m)); [done|]. by injection Hs as <-.
  - exists m. split; [lia|]. specialize (Hd m JoinClose ltac:(lia) eq_refl). cbn in Hd.
    rewrite Hsm, Hrm in Hd. by destruct (closed (at_ m)).
Qed.

End liveness.

(** ** Properties *)

(** The actions that end a connection. *)
Definition ends_session (c : Conn) (a : ConnAction) : bool :=
  match a with
  | SocketRecv (Received (Ping _)) | SocketRecv (Received (Pong _)) => false
  | SocketRecv _ => true
  | ListenerRecv now (PayloadReceived _) => from_option (is_expired now) false (session_info c)
  | ListenerRecv _ ChannelClosed => true
  | SinkWrite ok => negb ok
  | _ => false
  end.

Lemma step_cancels to_json c a c' : conn_step to_json c a = Some c' -> cancelled c' = cancelled c || ends_session c a.
Proof.
  intros Hs. destruct c as [session st rt can cl out]. destruct a as [now [p|l|]| |[]|[]|[[]| |]| |]; cbn in Hs;
    repeat (destruct_and? || case_match || (injection Hs as <-)); cbn;
    try unfold begin_payload; cbn; rewrite ?orb_false_r, ?orb_true_r; try done;
    destruct session as [s|]; cbn; rewrite ?orb_false_r; try done; destruct (is_expired now s); cbn;
    by rewrite ?orb_false_r, ?orb_true_r.
Qed.

(** The connections of a schedule are those of a history. *)
Lemma at_inv to_json schedule session n :
  exists actions, conn_inv to_json session actions (conn_at to_json schedule (event_handler session) n).
Proof.
  apply (at_stable to_json schedule (event_handler session) (fun c => exists actions, conn_inv to_json session actions c) 0 n);
    [|lia|exists []; by split_and!].
  intros c a c' [actions Hi] Ha. exists (actions ++ [a]). by eapply conn_inv_step.
Qed.

(** A closed connection takes no step. *)
Lemma closed_stuck to_json session actions c a : conn_inv to_json session actions c -> closed c = true ->
  conn_step to_json c a = None.
Proof.
  intros (_ & _ & _ & Hd) Hc. destruct (Hd Hc) as [Hs Hr].
  destruct a as [? e| | | |e| |]; cbn; rewrite ?Hs, ?Hr; try done. by rewrite Hc.
Qed.

(** C12: A connection that any of its ends gives up (a message of the client other
    than ping and pong, the end or an error of the stream, a failed write, an
    expired session, a closed broadcast) is closed for good, whatever the
    interleaving of its two tasks, as long as writes end and [select!] starves
    no branch; and it is closed for no other reason. *)
Theorem event_socket_closes (to_json : NutEventMessage -> outcome LibError str) (schedule : nat -> ConnAction)
  (session : option SessionInfo) (Hfair : fair_schedule to_json schedule (event_handler session)) :
  let conn n := conn_at to_json schedule (event_handler session) n in
  (forall n, is_Some (conn_step to_json (conn n) (schedule n)) -> ends_session (conn n) (schedule n) = true ->
     exists m, (n < m)%nat /\ forall m', (m <= m')%nat -> closed (conn m') = true /\ outgoing (conn m') = outgoing (conn m)) /\
  (forall n, closed (conn n) = true ->
     exists k, (k < n)%nat /\ is_Some (conn_step to_json (conn k) (schedule k)) /\ ends_session (conn k) (schedule k) = true).
Proof.
  intros conn. split.
  - intros n [c' Hs] He.
    assert (Hc : cancelled (conn (S n)) = true).
    { unfold conn. rewrite at_S. fold (conn n). rewrite Hs. cbn. by rewrite (step_cancels _ _ _ _ Hs), He, orb_true_r. }
    destruct (cancelled_closes to_json schedule (event_handler session) (S n) Hfair Hc) as (m & Hm & Hcl).
    exists m. split; [lia|]. intros m' Hm'.
    induction Hm' as [|m' Hm' [IHc IHo]]; [done|]. unfold conn. rewrite at_S. fold (conn m').
    destruct (at_inv to_json schedule session m') as [actions Hi]. fold (conn m') in Hi.
    by rewrite (closed_stuck _ _ _ _ _ Hi IHc).
  - intros n Hcl.
    destruct (at_inv to_json schedule session n) as (actions & _ & _ & Hr & Hd). fold (conn n) in Hr, Hd.
    destruct (Hd Hcl) as [_ Hrd]. specialize (Hr Hrd). clear Hcl Hd Hrd.
    induction n as [|n IH]; [done|].
    pose proof (at_S to_json schedule (event_handler session) n) as Hn. fold (conn n) (conn (S n)) in Hn.
    destruct (conn_step to_json (conn n) (schedule n)) as [c'|] eqn:E; cbn [default from_option id] in Hn.
    + rewrite Hn, (step_cancels _ _ _ _ E) in Hr. apply orb_true_iff in Hr as [Hc|He].
      * destruct (IH Hc) as (k & ? & ?). exists k. split; [lia|done].
      * exists n. rewrite E. eauto.
    + rewrite Hn in Hr. destruct (IH Hr) as (k & ? & ?). exists k. split; [lia|done].
Qed.

(** C13: What a connection has given its socket is, at every moment of every
    history, the texts of the payloads taken while the session was valid, in
    order and cut at most by a failed or pending write, followed at the end by at
    most one goodbye: nothing is sent twice, nothing from after the expiry, and
    nothing after the goodbye or the close. *)
Theorem event_socket_safety (to_json : NutEventMessage -> outcome LibError str) (session : option SessionInfo)
  (actions : list ConnAction) (c : Conn) (Hc : conn_steps to_json (event_handler session) actions = Some c) :
  (exists texts rest, texts ++ rest = accepted session actions /\
     (outgoing c = texts \/
      (s_task c = SDone /\ rest = [] /\ outgoing c = texts ++ feed_message to_json MsgSessionEnded))) /\
  (s_task c = SSelect -> outgoing c = accepted session actions) /\
  (cancelled c = false -> exists rest, outgoing c ++ rest = accepted session actions /\ r_task c = RSelect /\ closed c = false) /\
  (s_task c = SDone -> forall a c', conn_step to_json c a = Some c' -> outgoing c' = outgoing c) /\
  (closed c = true -> s_task c = SDone /\ r_task c = RDone /\ forall a, conn_step to_json c a = None).
Proof.
  apply conn_inv_steps in Hc as Hi. pose proof Hi as (_ & Hs & Hr & Hcl). split_and!.
  - destruct (s_task c) as [|rest| |].
    + exists (outgoing c), []. rewrite app_nil_r. by split; [|left].
    + exists (outgoing c), rest. by split; [|left].
    + exists (outgoing c), []. rewrite app_nil_r. split; [apply Hs|by left].
    + destruct Hs as [_ (texts & rest & Ht & [Ho|[-> Ho]])]; [exists texts, rest; by split; [|left]|].
      exists texts, []. split; [done|]. right. by split_and!.
  - intros Hst. by rewrite Hst in Hs.
  - intros Hcan. rewrite Hcan in *.
    assert (Hrt : r_task c = RSelect) by (destruct (r_task c); [done|by specialize (Hr eq_refl)]).
    destruct (closed c); [destruct (Hcl eq_refl); congruence|].
    destruct (s_task c) as [|rest| |]; [exists []; by rewrite app_nil_r|by exists rest|by destruct Hs..].
  - intros Hst a c' Ha. by eapply SDone_step.
  - intros Hcc. destruct (Hcl Hcc). split_and!; try done. intros a. by eapply closed_stuck.
Qed.

(** The log-in, when the prompt and the acknowledgement are sent. *)
Lemma handler_with_auth_run (to_json : NutEventMessage -> outcome LibError str)
  (Hj : forall m, exists s, to_json m = Ok s) decode verify key clock events :
  handler_with_auth to_json decode verify key clock Sent Sent events =
  let waiting := feed_message to_json MsgWaitingForAuth in
  match handshake_loop decode verify key clock events with
  | Ok t => (Ok (Some (SessionInfo_new (at_start clock) (ttl (at_ttl clock) t))),
              waiting ++ feed_message to_json MsgAuthOk)
  | Err ConnectionClosed => (Ok None, waiting)
  | Err e => (Ok None, waiting ++ feed_message to_json (MsgHandshakeError e) ++ feed_message to_json MsgSessionEnded)
  | Panicked => (Panicked, waiting)
  | OutOfFuel => (OutOfFuel, waiting)
  end.
Proof.
  assert (Hm : forall m, send_message to_json m Sent = Ok (feed_message to_json m)).
  { intros m. unfold send_message, feed_message. by destruct (Hj m) as [s ->]. }
  unfold handler_with_auth, auth_handshake. rewrite !Hm.
  by destruct (handshake_loop _ _ _ _ events) as [t|[]| |].
Qed.

(** C20: With authentication, a socket gets no event before a log-in: the session
    starts exactly when the first message that is neither ping nor pong is
    ["LOGIN:"] and a key that decodes to a token signed with the server's key
    and active, and then lasts no longer than the token. Any other end of the
    handshake closes the socket, having sent at most the prompt, the error and
    the goodbye. The key that the pages issue for a token is such a log-in. *)
Theorem handshake_spec (to_json : NutEventMessage -> outcome LibError str)
  (Hj : forall m, exists s, to_json m = Ok s)
  (base64_encode : str -> str) (base64_decode : str -> option str)
  (hmac : str -> str -> str) (verify_slice : str -> str -> str -> bool)
  (Hmac : hmac_documented hmac verify_slice) (Hb64 : base64_documented base64_encode base64_decode)
  (server_key : str) (clock : HandshakeClock) (events : list SocketEvent) :
  let run := handler_with_auth to_json base64_decode verify_slice server_key clock Sent Sent in
  (forall s texts, run events = (Ok (Some s), texts) <->
    exists pings key rest t, events = pings ++ Received (Text (lit "LOGIN:" ++ key)) :: rest /\
      Forall keepalive pings /\ base64_decode (trim key) = Some (sign_token hmac server_key t) /\ AccessToken_wf t /\
      is_active (at_active clock) t = true /\ s = SessionInfo_new (at_start clock) (ttl (at_ttl clock) t) /\
      texts = feed_message to_json MsgWaitingForAuth ++ feed_message to_json MsgAuthOk) /\
  (forall t now, is_expired now (SessionInfo_new (at_start clock) (ttl (at_ttl clock) t)) = false ->
    at_ttl clock < valid_until t /\ now - at_start clock < (valid_until t - at_ttl clock) * 1000000000) /\
  (forall t, AccessToken_wf t ->
    run (Received (Text (lit "LOGIN:" ++ base64_encode (sign_token hmac server_key t))) :: events) =
    (Ok (if is_active (at_active clock) t then Some (SessionInfo_new (at_start clock) (ttl (at_ttl clock) t)) else None),
     feed_message to_json MsgWaitingForAuth ++
     if is_active (at_active clock) t then feed_message to_json MsgAuthOk
     else feed_message to_json (MsgHandshakeError ExpiredKey) ++ feed_message to_json MsgSessionEnded)) /\
  (exists session texts, run events = (Ok session, texts) /\ (session = None ->
    texts = feed_message to_json MsgWaitingForAuth \/
    exists e, e <> ConnectionClosed /\ texts = feed_message to_json MsgWaitingForAuth ++
      feed_message to_json (MsgHandshakeError e) ++ feed_message to_json MsgSessionEnded)).
Proof.
  intros run.
  assert (Hrun : forall evs, run evs = _) by (intros evs; apply (handler_with_auth_run to_json Hj)).
  split_and!.
  - intros s texts. rewrite Hrun. split.
    + intros Hr. destruct (handshake_loop _ _ _ _ events) as [t|[]| |] eqn:El; try done. injection Hr as <- <-.
      apply (handshake_loop_Ok base64_decode hmac verify_slice Hmac) in El as (pings & key & rest & El).
      exists pings, key, rest, t. by destruct_and!; split_and!.
    + intros (pings & key & rest & t & He & Hp & Hd & Hw & Ha & -> & ->).
      rewrite (proj2 (handshake_loop_Ok base64_decode hmac verify_slice Hmac server_key clock events t)); [done|].
      exists pings, key, rest. by split_and!.
  - intros t now Hx. apply bool_decide_eq_false in Hx. unfold ttl, from_secs, u64_saturating_sub in Hx. cbn in Hx. lia.
  - intros t Hw. rewrite Hrun. destruct Hb64 as (Hd & Hplain & _).
    rewrite (handshake_loop_login base64_decode verify_slice server_key clock _ (sign_token hmac server_key t) t).
    + by destruct (is_active _ t).
    + rewrite plain_trim by apply Hplain. apply Hd.
    + apply (signer_accepts hmac verify_slice Hmac _ (H0 := AccessToken_laws)). split_and!; [done| |done].
      intros Hn. apply (f_equal length) in Hn. by change (length (AccessToken_as_bytes t) = 0%nat) in Hn.
  - rewrite Hrun. destruct (handshake_loop_total base64_decode verify_slice server_key clock events) as [Hp Hf].
    destruct (handshake_loop _ _ _ _ events) as [t|e| |]; try done; [by eexists _, _|].
    destruct e; eexists _, _; (split; [done|]); intros _; try (by left); right; eexists; (split; [|done]); done.
Qed.

(** ** Delivery *)

(** The steps by which the sender takes a payload and writes it out. *)
Definition deliver (now : Z) (payload : MessagePayload) : list ConnAction :=
  ListenerRecv now (PayloadReceived payload) :: replicate (S (length payload)) (SinkWrite true).

Lemma conn_steps_app to_json c l1 l2 :
  conn_steps to_json c (l1 ++ l2) =
  match conn_steps to_json c l1 with Some c => conn_steps to_json c l2 | None => None end.
Proof. revert c. induction l1 as [|a l1 IH]; intros c; [done|]. cbn. by destruct (conn_step to_json c a). Qed.

Lemma write_steps to_json session rt can cl out rest :
  conn_steps to_json (mkConn session (SSending rest) rt can cl out) (replicate (S (length rest)) (SinkWrite true)) =
  Some (mkConn session SSelect rt can cl (out ++ rest)).
Proof.
  revert out. induction rest as [|v rest IH]; intros out; [by rewrite app_nil_r|].
  change (conn_steps to_json (mkConn session (SSending rest) rt can cl (out ++ [v]))
    (replicate (S (length rest)) (SinkWrite true)) = Some (mkConn session SSelect rt can cl (out ++ v :: rest))).
  by rewrite IH, <- app_assoc.
Qed.

Lemma deliver_steps to_json now session rt can cl out ps : from_option (is_expired now) false session = false ->
  conn_steps to_json (mkConn session SSelect rt can cl out) (mjoin (deliver now <$> ps)) =
  Some (mkConn session SSelect rt can cl (out ++ mjoin ps)).
Proof.
  intros He. revert out. induction ps as [|p ps IH]; intros out; [cbn; by rewrite app_nil_r|].
  cbn [fmap list_fmap mjoin list_join]. rewrite conn_steps_app. unfold deliver at 1. cbn [conn_steps conn_step s_task].
  assert (Hb : begin_payload now p (mkConn session SSelect rt can cl out) = mkConn session (SSending p) rt can cl out).
  { unfold begin_payload. cbn. destruct session as [s|]; [|done]. cbn in He. by rewrite He. }
  by rewrite Hb, write_steps, IH, <- app_assoc.
Qed.

(** What a synchronisation publishes as one batch is delivered: the broadcast
    service turns it into payloads that an open connection, whose session is
    valid, writes to its socket after all that it has sent before: the JSON of
    one message per device, client and change, in the order of the batch. *)
Lemma events_delivered (to_json : NutEventMessage -> outcome LibError str)
  (Hj : forall m, exists s, to_json m = Ok s) (batch : EventBatch) (channel : EventChannel)
  (Hsub : subscribed channel = true)
  (Hw : Forall (fun c => status_wf (status_old c) /\ status_wf (status_new c)) (status_changes batch))
  (b : MessageBroadcast) (Hr : receiver_count b <> 0%nat) (timestamp now : Z)
  (c : Conn) (Hopen : s_task c = SSelect) (He : from_option (is_expired now) false (session_info c) = false) :
  exists events texts c',
    published (EventBatch_send batch channel).2 = published channel ++ events /\
    broadcast_run to_json (EventReceived timestamp <$> events) b =
      (mkBroadcast (receiver_count b) (payloads b ++ texts), false) /\
    conn_steps to_json c (mjoin (deliver now <$> texts)) = Some c' /\
    s_task c' = SSelect /\ outgoing c' = outgoing c ++ mjoin texts /\
    Forall2 (fun m s => to_json m = Ok s) (mjoin (event_messages timestamp <$> events)) (mjoin texts).
Proof.
  destruct (broadcast_batch to_json Hj batch channel Hsub Hw b Hr timestamp) as (texts & Hp & Hrun & Hf).
  destruct c as [session st rt can cl out]. cbn in Hopen, He. subst st.
  exists (batch_events batch), texts, (mkConn session SSelect rt can cl (out ++ mjoin texts)).
  split_and!; [done|done|by apply deliver_steps|done|done|].
  clear -Hf. induction Hf as [|e p es ps Hep _ IH]; [constructor|]. cbn. by apply Forall2_app.
Qed.

(** ** Witnesses *)

(** The client closes; both tasks return; the socket is closed. *)
Definition demo_schedule (n : nat) : ConnAction :=
  match n with
  | 0%nat => SocketRecv StreamEnd
  | 1%nat => SendCancelled
  | 2%nat => NotifyEnd true
  | _ => JoinClose
  end.

Lemma demo_final k : conn_at demo_json demo_schedule (event_handler None) (4 + k) =
  mkConn None SDone RDone true true [lit "ended"].
Proof. induction k as [|k IH]; [reflexivity|]. rewrite Nat.add_succ_r, at_S, IH. reflexivity. Qed.

Lemma demo_fair : fair_schedule demo_json demo_schedule (event_handler None).
Proof.
  assert (Hfair : forall P, fair demo_json demo_schedule (event_handler None) P).
  { intros P n. exists (4 + n)%nat. split; [lia|]. right. intros m a Hm _.
    replace m with (4 + (m - 4))%nat by lia. rewrite demo_final. by destruct a. }
  constructor; apply Hfair.
Qed.

Lemma event_socket_closes_witness :
  exists m, (0 < m)%nat /\ closed (conn_at demo_json demo_schedule (event_handler None) m) = true.
Proof.
  destruct (event_socket_closes demo_json demo_schedule None demo_fair) as [Hcl _].
  destruct (Hcl 0%nat ltac:(vm_compute; eauto) eq_refl) as (m & Hm & Hall).
  exists m. split; [exact Hm|]. exact (proj1 (Hall m (le_n m))).
Defined.

Lemma event_socket_safety_witness :
  exists c, conn_steps demo_json (event_handler (Some (mkSessionInfo 0 100)))
      [ListenerRecv 7 (PayloadReceived [lit "a"; lit "b"]); SinkWrite true; SinkWrite true; SinkWrite true;
       ListenerRecv 100 (PayloadReceived [lit "c"]); RecvCancelled; NotifyEnd true; JoinClose] = Some c /\
    closed c = true /\ outgoing c = [lit "a"; lit "b"; lit "ended"] /\ (forall a, conn_step demo_json c a = None).
Proof.
  eexists. split; [vm_compute; reflexivity|]. split; [reflexivity|]. split; [vm_compute; reflexivity|].
  exact (proj2 (proj2 (proj2 (proj2 (proj2 (proj2 (event_socket_safety demo_json (Some (mkSessionInfo 0 100))
    [ListenerRecv 7 (PayloadReceived [lit "a"; lit "b"]); SinkWrite true; SinkWrite true; SinkWrite true;
       ListenerRecv 100 (PayloadReceived [lit "c"]); RecvCancelled; NotifyEnd true; JoinClose] _
    ltac:(vm_compute; reflexivity))))) eq_refl))).
Defined.

Lemma handshake_spec_witness :
  handler_with_auth demo_json (fun s => Some (demo_decode64 s)) demo_verify (lit "key")
    (mkHandshakeClock 400 401 0) Sent Sent
    [Received (Text (lit "LOGIN:" ++ demo_encode (sign_token demo_hmac (lit "key") demo_token)))] =
  (Ok (Some (mkSessionInfo 0 499000000000)), [lit "waiting"; lit "auth ok"]).
Proof.
  destruct (handshake_spec demo_json (fun m => ex_intro _ _ eq_refl) demo_encode (fun s => Some (demo_decode64 s))
    demo_hmac demo_verify demo_hmac_documented demo_base64_documented (lit "key") (mkHandshakeClock 400 401 0) [])
    as (_ & _ & Hlogin & _).
  rewrite (Hlogin demo_token ltac:(by vm_compute)). vm_compute. reflexivity.
Defined.

Lemma events_delivered_witness :
  exists texts c', conn_steps demo_json (event_handler None) (mjoin (deliver 7 <$> texts)) = Some c' /\
    s_task c' = SSelect /\ outgoing c' = mjoin texts.
Proof.
  destruct (events_delivered demo_json (fun m => ex_intro _ _ eq_refl) demo_batch (mkChannel [] true) eq_refl
    ltac:(repeat constructor; by vm_compute) (mkBroadcast 1 []) ltac:(done) 5 7 (event_handler None) eq_refl eq_refl)
    as (events & texts & c' & _ & _ & Hs & Ht & Ho & _).
  exists texts, c'. split; [exact Hs|]. split; [exact Ht|exact Ho].
Defined.
