(* ===== verification/Tls.v ===== *)
(** * Whom a connection trusts

    [skip_tls_verifier.rs], and the part of rustls that [create_pool] of
    [main.rs] sets: the configuration of a client with the verifier of the
    server's certificate. The platform's verifier and the handshake are the
    library's. *)

From S2P Require Import Prelude RustStr.

(** DER bytes, a server's name, seconds: as the trait passes them on. *)
Inductive SignatureScheme :=
  | RSA_PKCS1_SHA1 | ECDSA_SHA1_Legacy | RSA_PKCS1_SHA256 | ECDSA_NISTP256_SHA256 | RSA_PKCS1_SHA384
  | ECDSA_NISTP384_SHA384 | RSA_PKCS1_SHA512 | ECDSA_NISTP521_SHA512 | RSA_PSS_SHA256 | RSA_PSS_SHA384
  | RSA_PSS_SHA512 | ED25519 | ED448.

Record DigitallySignedStruct := mkDss { dss_scheme : SignatureScheme; dss_signature : str }.

(** An error of rustls, by its text. *)
Inductive TlsError := mkTlsError (text : str).

(** The trait [ServerCertVerifier]. *)
Record ServerCertVerifier := mkVerifier {
  verify_server_cert : forall (end_entity : str) (intermediates : list str) (server_name ocsp : str) (now : Z),
    outcome TlsError unit;
  verify_tls12_signature : forall (message cert : str) (dss : DigitallySignedStruct), outcome TlsError unit;
  verify_tls13_signature : forall (message cert : str) (dss : DigitallySignedStruct), outcome TlsError unit;
  supported_verify_schemes : list SignatureScheme }.

Definition SkipTlsVerifier : ServerCertVerifier := {|
  verify_server_cert _ _ _ _ _ := Ok tt;
  verify_tls12_signature _ _ _ := Ok tt;
  verify_tls13_signature _ _ _ := Ok tt;
  supported_verify_schemes :=
    [RSA_PKCS1_SHA1; ECDSA_SHA1_Legacy; RSA_PKCS1_SHA256; ECDSA_NISTP256_SHA256; RSA_PKCS1_SHA384;
     ECDSA_NISTP384_SHA384; RSA_PKCS1_SHA512; ECDSA_NISTP521_SHA512; RSA_PSS_SHA256; RSA_PSS_SHA384;
     RSA_PSS_SHA512; ED25519; ED448] |}.

(** A client's configuration, without a certificate of its own. *)
Record ClientConfig := mkClientConfig { certificate_verifier : ServerCertVerifier }.

(** [ClientConfig::builder().with_platform_verifier()?.with_no_client_auth()]. *)
Definition with_platform_verifier {E} (platform : outcome E ServerCertVerifier) : outcome E ClientConfig :=
  omap_ok mkClientConfig platform.
(** [config.dangerous().set_certificate_verifier(verifier)]. *)
Definition set_certificate_verifier (verifier : ServerCertVerifier) (config : ClientConfig) : ClientConfig :=
  mkClientConfig verifier.

(** What a handshake shows the verifier: the certificate of the peer, what came with it, and the time. *)
Record Presented := mkPresented { pr_end_entity : str; pr_intermediates : list str; pr_ocsp : str; pr_now : Z }.
Definition accepts (v : ServerCertVerifier) (server_name : str) (p : Presented) : Prop :=
  verify_server_cert v (pr_end_entity p) (pr_intermediates p) server_name (pr_ocsp p) (pr_now p) = Ok tt.

(** Skipping the verification accepts every certificate for every name, and every signature. *)
Lemma skip_accepts server_name p : accepts SkipTlsVerifier server_name p.
Proof. done. Qed.
