(* ===== verification/PoolClient.v ===== *)
(** * The pooled client

    [client/client_pool.rs]: the calls of [NutPoolClient] on the connections of
    its pool. [ItemPool.v] has the pool's interleavings, with connections as
    numbers; here one task runs a call on the connections themselves, with
    nobody else holding one, and a lemma shows that such a run is one of the
    pool's. Opening a connection is the parameter [tcp_connect]: what the n-th
    attempt gives, and what setting it up gives. *)

From S2P Require Import Prelude RustStr Numbers Errors Names VarName Value Ip VarType UpsVariables.
From S2P Require Import ParserUtils Response Command Client Tls.
From S2P Require ItemPool.

(** [std::net::SocketAddr]. *)
Record SockAddr := mkSockAddr { sock_ip : IpAddr; sock_port : Z }.

Inductive ServerAddr := SocketAddr (socket_addr : SockAddr) | Host (host : str).

Record TlsConfig := mkTlsConfig { srv_name : str; config : ClientConfig }.

Record ClientAllocator := mkAllocator { addr : ServerAddr; timeout : option Z; tls_config : option TlsConfig }.

Record NutPoolClientBuilder := mkPoolBuilder { allocator : ClientAllocator; limit : nat }.

Definition NutPoolClientBuilder_new (a : ServerAddr) : NutPoolClientBuilder :=
  mkPoolBuilder (mkAllocator a None None) 1.
Definition with_timeout (t : Z) (b : NutPoolClientBuilder) : NutPoolClientBuilder :=
  mkPoolBuilder (mkAllocator (addr (allocator b)) (Some t) (tls_config (allocator b))) (limit b).
Definition with_limit (n : nat) (b : NutPoolClientBuilder) : NutPoolClientBuilder := mkPoolBuilder (allocator b) n.
Definition with_tls (srv_name : str) (config : ClientConfig) (b : NutPoolClientBuilder) : NutPoolClientBuilder :=
  mkPoolBuilder (mkAllocator (addr (allocator b)) (timeout (allocator b)) (Some (mkTlsConfig srv_name config))) (limit b).

Inductive ItemPoolError := PoolClosed | AllocatorError (inner : ErrorKind).

Definition Error_from_pool (e : ItemPoolError) : ErrorKind :=
  match e with PoolClosed => ConnectionPoolClosed | AllocatorError inner => inner end.

(** The pool: the permits of its semaphore that are free, its idle connections,
    whether the semaphore is closed, and what it has done to the world: how often
    it has dialed, and the connections that it has let go of. *)
Record NutPoolClient := mkPoolClient {
  pool_allocator : ClientAllocator; permits : nat;
  idle : list Stream; is_closed : bool; dialed : nat; dropped : list Stream }.

Definition pool_build (b : NutPoolClientBuilder) : NutPoolClient :=
  mkPoolClient (allocator b) (limit b) [] false 0 [].

Definition set_idle (l : list Stream) (p : NutPoolClient) : NutPoolClient :=
  mkPoolClient (pool_allocator p) (permits p) l (is_closed p) (dialed p) (dropped p).
Definition drop_client (c : Stream) (p : NutPoolClient) : NutPoolClient :=
  mkPoolClient (pool_allocator p) (permits p) (idle p) (is_closed p) (dialed p) (dropped p ++ [c]).
Definition dial (p : NutPoolClient) : NutPoolClient :=
  mkPoolClient (pool_allocator p) (permits p) (idle p) (is_closed p) (S (dialed p)) (dropped p).
Definition set_permits (n : nat) (p : NutPoolClient) : NutPoolClient :=
  mkPoolClient (pool_allocator p) n (idle p) (is_closed p) (dialed p) (dropped p).
(** An [OwnedSemaphorePermit] goes out of scope. *)
Definition drop_permit (p : NutPoolClient) : NutPoolClient := set_permits (S (permits p)) p.
Definition close_permits (p : NutPoolClient) : NutPoolClient :=
  mkPoolClient (pool_allocator p) (permits p) (idle p) true (dialed p) (dropped p).

(** A TCP connection: its bytes, and what the two calls that [NutClient::connect] makes of it give. *)
Record TcpStream := mkTcpStream { tcp_stream : Stream; set_nodelay : outcome ErrorKind unit; ready : outcome ErrorKind unit }.

Section pool_client.

(** DNS, [TcpStream::connect] (what the n-th attempt gives) and the TLS handshake. *)
Context (resolve : str -> outcome ErrorKind (list SockAddr)).
Context (tcp_connect : nat -> list SockAddr -> outcome ErrorKind TcpStream).
Context (tls_handshake : TlsConfig -> Stream -> outcome ErrorKind Stream).

Definition to_socket_addrs (a : ServerAddr) : outcome ErrorKind (list SockAddr) :=
  match a with SocketAddr socket_addr => Ok [socket_addr] | Host host => resolve host end.

(** [NutClient::connect]. *)
Definition connect (attempt : nat) (addrs : list SockAddr) : outcome ErrorKind Stream :=
  let? connection := tcp_connect attempt addrs in
  let? _ := set_nodelay connection in
  let? _ := ready connection in
  Ok (tcp_stream connection).

(** [NutClient::connect_with_tls]. *)
Definition connect_with_tls (attempt : nat) (addrs : list SockAddr) (tls : TlsConfig) : outcome ErrorKind Stream :=
  let? client := connect attempt addrs in
  let '(r, client) := starttls client in
  let? _ := r in
  tls_handshake tls client.

(** [ClientAllocator::init]. *)
Definition init (p : NutPoolClient) : outcome ErrorKind Stream * NutPoolClient :=
  match to_socket_addrs (addr (pool_allocator p)) with
  | Ok addr_resolutions =>
      (match tls_config (pool_allocator p) with
       | Some tls_config => connect_with_tls (dialed p) addr_resolutions tls_config
       | None => connect (dialed p) addr_resolutions
       end, dial p)
  | Err e => (Err e, p)
  | Panicked => (Panicked, p)
  | OutOfFuel => (OutOfFuel, p)
  end.

(** [ClientAllocator::dealloc]: an error of the socket is only logged. *)
Definition dealloc (c : Stream) (p : NutPoolClient) : NutPoolClient := drop_client (shutdown c).2 p.

(** [permits.acquire_owned()]: without a free permit the task waits until another gives one back. *)
Definition acquire_owned (p : NutPoolClient) : outcome ItemPoolError unit * NutPoolClient :=
  if is_closed p then (Err PoolClosed, p)
  else match permits p with
       | S n => (Ok tt, set_permits n p)
       | O => (OutOfFuel, p)
       end.

(** [allocator.init()] with its error wrapped: the guard takes the permit over, without one it is dropped. *)
Definition init_guard (p : NutPoolClient) : outcome ItemPoolError Stream * NutPoolClient :=
  let '(r, p) := init p in (map_err AllocatorError r, if is_ok r then p else drop_permit p).

(** [ItemPool::get]: the item of the guard, whose permit is missing from the pool. *)
Definition pool_get (p : NutPoolClient) : outcome ItemPoolError Stream * NutPoolClient :=
  match acquire_owned p with
  | (Ok _, p) =>
      match idle p with
      | item :: rest => (Ok item, set_idle rest p)
      | [] => init_guard p
      end
  | (Err e, p) => (Err e, p)
  | (Panicked, p) => (Panicked, p)
  | (OutOfFuel, p) => (OutOfFuel, p)
  end.

(** The loop of [ItemPool::get_checked], with [prealloc_check]. *)
Fixpoint checked_loop (items : list Stream) (p : NutPoolClient) : outcome ItemPoolError Stream * NutPoolClient :=
  match items with
  | [] => init_guard (set_idle [] p)
  | item :: rest =>
      let '(open, item) := is_open item in
      if open then (Ok item, set_idle rest p) else checked_loop rest (dealloc item p)
  end.
Definition pool_get_checked (p : NutPoolClient) : outcome ItemPoolError Stream * NutPoolClient :=
  match acquire_owned p with
  | (Ok _, p) => checked_loop (idle p) p
  | (Err e, p) => (Err e, p)
  | (Panicked, p) => (Panicked, p)
  | (OutOfFuel, p) => (OutOfFuel, p)
  end.

(** [PoolGuard::release], and a guard that goes out of scope: the permit is dropped after the item. *)
Definition pool_release (item : Stream) (p : NutPoolClient) : NutPoolClient :=
  drop_permit (if is_closed p then dealloc item p else set_idle (idle p ++ [item]) p).
Definition drop_guard (item : Stream) (p : NutPoolClient) : NutPoolClient := drop_permit (drop_client item p).

(** [clear], [close] and [get_client]. *)
Definition pool_clear (p : NutPoolClient) : NutPoolClient := foldr dealloc (set_idle [] p) (idle p).
Definition pool_close (p : NutPoolClient) : NutPoolClient := pool_clear (close_permits p).
(** [into_inner] drops the permit: the connection is its caller's alone. *)
Definition get_client (p : NutPoolClient) : outcome ItemPoolError Stream * NutPoolClient :=
  match pool_get_checked p with
  | (Ok item, p) => (Ok item, drop_permit p)
  | r => r
  end.

(** [impl_pooled_call!(@action client, ..)]; a panic, or a future that is dropped, drops the guard. *)
Definition call_action {A} (call : io A) (client : Stream) (p : NutPoolClient) : outcome ErrorKind A * NutPoolClient :=
  let '(r, client) := call client in
  match r with
  | Ok result => (Ok result, pool_release client p)
  | Err err => (Err err, if drops_client err then drop_guard client p else pool_release client p)
  | r => (r, drop_guard client p)
  end.

(** [impl_pooled_call!]. *)
Definition impl_pooled_call {A} (call : io A) (p : NutPoolClient) : outcome ErrorKind A * NutPoolClient :=
  match pool_get p with
  | (Ok client, p) =>
      match call_action call client p with
      | (Err err, p) =>
          if retries err then
            match pool_get_checked p with
            | (Ok client, p) => call_action call client p
            | (Err err, p) => (Err (Error_from_pool err), p)
            | (Panicked, p) => (Panicked, p)
            | (OutOfFuel, p) => (OutOfFuel, p)
            end
          else (Err err, p)
      | r => r
      end
  | (Err err, p) => (Err (Error_from_pool err), p)
  | (Panicked, p) => (Panicked, p)
  | (OutOfFuel, p) => (OutOfFuel, p)
  end.

(** [impl AsyncNutClient for &NutPoolClient]. *)
Definition pool_get_cmd_desc (ups : UpsName) (cmd : CmdName) := impl_pooled_call (get_cmd_desc ups cmd).
Definition pool_get_protver := impl_pooled_call get_protver.
Definition pool_get_ups_desc (ups : UpsName) := impl_pooled_call (get_ups_desc ups).
Definition pool_get_var (ups : UpsName) (var : VarName) := impl_pooled_call (get_var ups var).
Definition pool_get_var_type (ups : UpsName) (var : VarName) := impl_pooled_call (get_var_type ups var).
Definition pool_get_var_desc (ups : UpsName) (var : VarName) := impl_pooled_call (get_var_desc ups var).
Definition pool_get_ver := impl_pooled_call get_ver.
Definition pool_list_client (ups : UpsName) := impl_pooled_call (list_client ups).
Definition pool_list_cmd (ups : UpsName) := impl_pooled_call (list_cmd ups).
Definition pool_list_enum (ups : UpsName) (var : VarName) := impl_pooled_call (list_enum ups var).
Definition pool_list_range (ups : UpsName) (var : VarName) := impl_pooled_call (list_range ups var).
Definition pool_list_rw (ups : UpsName) := impl_pooled_call (list_rw ups).
Definition pool_list_ups := impl_pooled_call list_ups.
Definition pool_list_var (ups : UpsName) := impl_pooled_call (list_var ups).

End pool_client.

(** ** Lemmas: one call *)

(** A connection that the check finds closed, and what is left of it. *)
Definition dead (c : Stream) : Prop := (is_open c).1 = false.
Definition discarded (c : Stream) : Stream := (shutdown (is_open c).2).2.

Section call_lemmas.

Context (resolve : str -> outcome ErrorKind (list SockAddr)).
Context (tcp_connect : nat -> list SockAddr -> outcome ErrorKind TcpStream).
Context (tls_handshake : TlsConfig -> Stream -> outcome ErrorKind Stream).

Lemma checked_loop_dead ds items p : Forall dead ds ->
  checked_loop resolve tcp_connect tls_handshake (ds ++ items) p =
  checked_loop resolve tcp_connect tls_handshake items
    (mkPoolClient (pool_allocator p) (permits p) (idle p) (is_closed p) (dialed p) (dropped p ++ (discarded <$> ds))).
Proof.
  intros Hd. revert p. induction Hd as [|c ds Hc _ IH]; intros p; [by destruct p; cbn; rewrite app_nil_r|].
  cbn [app checked_loop fmap list_fmap]. unfold dead in Hc. unfold discarded at 1.
  destruct (is_open c) as [o c'] eqn:E. cbn in Hc. subst o. rewrite IH. cbn. by rewrite <- app_assoc.
Qed.

(** The loop ends: with the first connection that is open, or with a new one. *)
Lemma checked_loop_cases items p :
  (exists ds c rest, items = ds ++ c :: rest /\ Forall dead ds /\ (is_open c).1 = true /\
     checked_loop resolve tcp_connect tls_handshake items p =
     (Ok (is_open c).2, mkPoolClient (pool_allocator p) (permits p) rest (is_closed p) (dialed p)
                          (dropped p ++ (discarded <$> ds)))) \/
  (Forall dead items /\ checked_loop resolve tcp_connect tls_handshake items p =
     init_guard resolve tcp_connect tls_handshake
       (mkPoolClient (pool_allocator p) (permits p) [] (is_closed p) (dialed p) (dropped p ++ (discarded <$> items)))).
Proof.
  assert (Hsplit : Forall dead items \/ exists ds c rest, items = ds ++ c :: rest /\ Forall dead ds /\ (is_open c).1 = true).
  { induction items as [|c items [IH|(ds & d & rest & -> & Hd & Ho)]]; [by left| |].
    - destruct (is_open c).1 eqn:E; [right; exists [], c, items; by split_and!|left; by constructor].
    - right. destruct (is_open c).1 eqn:E; [exists [], c, (ds ++ d :: rest); by split_and!|].
      exists (c :: ds), d, rest. split_and!; [done| |done]. by constructor. }
  destruct Hsplit as [Hd|(ds & c & rest & -> & Hd & Ho)]; [right|left].
  - split; [done|]. rewrite <- (app_nil_r items) at 1. by rewrite checked_loop_dead.
  - exists ds, c, rest. split_and!; [done..|]. rewrite checked_loop_dead by done. cbn [checked_loop].
    destruct (is_open c) as [o c']. cbn in Ho |- *. by subst o.
Qed.

End call_lemmas.

(** ** Lemmas: the pool of [ItemPool.v] *)

Section refinement.

Import ItemPool.
Context (t : nat).

(** The pool at rest, and while the task holds a connection. *)
Definition at_rest (p : NutPoolClient) (s : PoolState) : Prop :=
  exists ids n, length ids = length (idle p) /\ s = mkPool (permits p) (is_closed p) ids None ∅ n.
Definition holding (p : NutPoolClient) (s : PoolState) : Prop :=
  exists ids n i, length ids = length (idle p) /\ is_closed p = false /\
    s = mkPool (permits p) false ids None {[t := Guard i]} n.

Definition runs (s s' : PoolState) : Prop := exists actions, run s ((fun a => (t, a)) <$> actions) = Some s'.

Lemma runs_trans s1 s2 s3 : runs s1 s2 -> runs s2 s3 -> runs s1 s3.
Proof.
  intros [l1 H1] [l2 H2]. exists (l1 ++ l2). revert s1 H1. induction l1 as [|a l1 IH]; intros s1 H1.
  - by injection H1 as ->.
  - cbn in *. destruct (step s1 t a); [by apply IH|done].
Qed.

Ltac pool_run actions :=
  exists actions; cbn [fmap list_fmap run];
  repeat (progress (unfold step, add_permit, end_task, set_task, set_items, set_lock;
    cbn [ItemPool.tasks ItemPool.closed ItemPool.available ItemPool.items ItemPool.lock ItemPool.next_item];
    rewrite ?lookup_singleton_eq, ?lookup_empty, ?lookup_insert_eq, ?insert_insert_eq, ?insert_singleton_eq,
      ?delete_singleton_eq, ?insert_empty)); reflexivity.

Lemma action_runs {A} (call : io A) c p s : holding p s ->
  exists s', runs s s' /\ at_rest (call_action call c p).2 s'.
Proof.
  intros (ids & n & i & Hl & Hc & ->). unfold call_action. destruct (call c) as [r c'].
  assert (Hrel : exists s', runs (mkPool (permits p) false ids None {[t := Guard i]} n) s' /\ at_rest (pool_release c' p) s').
  { exists (mkPool (S (permits p)) false (ids ++ [i]) None ∅ n). split; [pool_run [Release; Push; DropPermit]|].
    unfold pool_release. rewrite Hc. exists (ids ++ [i]), n. cbn. rewrite !length_app, Hl, Hc. by split. }
  assert (Hdrop : exists s', runs (mkPool (permits p) false ids None {[t := Guard i]} n) s' /\ at_rest (drop_guard c' p) s').
  { exists (mkPool (S (permits p)) false ids None ∅ n). split; [pool_run [DropGuard]|]. exists ids, n. cbn. by rewrite Hc. }
  destruct r as [a|e| |]; cbn; [done| |done..]. by destruct (drops_client e).
Qed.

Context (resolve : str -> outcome ErrorKind (list SockAddr)).
Context (tcp_connect : nat -> list SockAddr -> outcome ErrorKind TcpStream).
Context (tls_handshake : TlsConfig -> Stream -> outcome ErrorKind Stream).

(** What taking a connection leaves: the guard, or the pool at rest. *)
Definition got {E A} (r : outcome E A) (p : NutPoolClient) (s : PoolState) : Prop :=
  match r with Ok _ => holding p s | _ => at_rest p s end.

Lemma init_fields p : let p' := (init resolve tcp_connect tls_handshake p).2 in
  pool_allocator p' = pool_allocator p /\ idle p' = idle p /\ permits p' = permits p /\ is_closed p' = is_closed p.
Proof. unfold init. by destruct (to_socket_addrs _ _). Qed.

Lemma init_runs p n : idle p = [] -> is_closed p = false ->
  exists s', runs (mkPool (permits p) false [] None {[t := Initing]} n) s' /\
    got (init_guard resolve tcp_connect tls_handshake p).1 (init_guard resolve tcp_connect tls_handshake p).2 s'.
Proof.
  intros Hi Hc. unfold init_guard. destruct (init_fields p) as (_ & Hi' & Hk' & Hc').
  destruct (init _ _ _ p) as [r p']. cbn in Hi', Hk', Hc' |- *. rewrite Hi in Hi'. rewrite Hc in Hc'. rewrite <- Hk'.
  assert (Herr : exists s', runs (mkPool (permits p') false [] None {[t := Initing]} n) s' /\ at_rest (drop_permit p') s').
  { exists (mkPool (S (permits p')) false [] None ∅ n). split; [pool_run [InitErr]|]. exists [], n. cbn. by rewrite Hi', Hc'. }
  destruct r as [c|e| |]; cbn; try done.
  exists (mkPool (permits p') false [] None {[t := Guard n]} (S n)). split; [pool_run [InitOk]|].
  exists [], (S n), n. cbn. by rewrite Hi', Hc'.
Qed.

(** What a wait for a permit finds: the end of the pool, none, or one. *)
Lemma get_runs p s : at_rest p s ->
  exists s', runs s s' /\ got (pool_get resolve tcp_connect tls_handshake p).1 (pool_get resolve tcp_connect tls_handshake p).2 s'.
Proof.
  intros Hr. pose proof Hr as (ids & n & Hl & ->). unfold pool_get, acquire_owned. destruct (is_closed p) eqn:Hc.
  { eexists. split; [by exists []|exact Hr]. }
  destruct (permits p) as [|k] eqn:Hk; [eexists; split; [by exists []|exact Hr]|].
  destruct (idle (set_permits k p)) as [|c rest] eqn:Hi; cbn in Hi; rewrite Hi in Hl.
  - destruct ids; [|done].
    destruct (init_runs (set_permits k p) n Hi Hc) as (s' & Hr' & Hg). exists s'. split; [|done].
    eapply runs_trans; [|exact Hr']. pool_run [Acquire false; Pop].
  - destruct ids as [|i ids]; [done|]. injection Hl as Hl.
    exists (mkPool k false ids None {[t := Guard i]} n). split; [pool_run [Acquire false; Pop]|].
    exists ids, n, i. cbn. by split_and!.
Qed.

Lemma checked_loop_runs cs p ids n : length ids = length cs -> is_closed p = false ->
  exists s', runs (mkPool (permits p) false ids None {[t := WantPop true]} n) s' /\
    got (checked_loop resolve tcp_connect tls_handshake cs p).1 (checked_loop resolve tcp_connect tls_handshake cs p).2 s'.
Proof.
  revert p ids. induction cs as [|c cs IH]; intros p ids Hl Hc.
  - destruct ids; [|done]. cbn [checked_loop].
    destruct (init_runs (set_idle [] p) n eq_refl Hc) as (s' & Hr & Hg). exists s'. split; [|done].
    eapply runs_trans; [|exact Hr]. pool_run [Pop].
  - destruct ids as [|i ids]; [done|]. injection Hl as Hl. cbn [checked_loop].
    destruct (is_open c) as [[] c'].
    + exists (mkPool (permits p) false ids None {[t := Guard i]} n). split; [pool_run [Pop; CheckReady]|].
      exists ids, n, i. cbn. by split_and!.
    + destruct (IH (dealloc c' p) ids Hl Hc) as (s' & Hr & Hg). exists s'. split; [|done].
      eapply runs_trans; [|exact Hr]. pool_run [Pop; CheckDestroy; Dealloced].
Qed.

Lemma get_checked_runs p s : at_rest p s ->
  exists s', runs s s' /\ got (pool_get_checked resolve tcp_connect tls_handshake p).1
                              (pool_get_checked resolve tcp_connect tls_handshake p).2 s'.
Proof.
  intros Hr. pose proof Hr as (ids & n & Hl & ->). unfold pool_get_checked, acquire_owned. destruct (is_closed p) eqn:Hc.
  { eexists. split; [by exists []|exact Hr]. }
  destruct (permits p) as [|k] eqn:Hk; [eexists; split; [by exists []|exact Hr]|].
  destruct (checked_loop_runs (idle p) (set_permits k p) ids n Hl Hc) as (s' & Hr' & Hg). exists s'. split; [|done].
  eapply runs_trans; [|exact Hr']. pool_run [Acquire true].
Qed.

Lemma runs_reachable l s s' : reachable l s -> runs s s' -> reachable l s'.
Proof. intros Hr [actions Hs]. by eapply run_reachable. Qed.

(** A call is a run of the task. *)
Lemma impl_pooled_call_runs {A} (call : io A) p s : at_rest p s ->
  exists s', runs s s' /\ at_rest (impl_pooled_call resolve tcp_connect tls_handshake call p).2 s'.
Proof.
  intros Hr. unfold impl_pooled_call.
  destruct (get_runs p s Hr) as (s1 & Hr1 & Hg).
  destruct (pool_get _ _ _ p) as [[c|e| |] p1]; cbn in Hg; try (by exists s1).
  destruct (action_runs call c p1 s1 Hg) as (s2 & Hr2 & Hg2).
  assert (Hr12 : runs s s2) by (by eapply runs_trans).
  destruct (call_action call c p1) as [[a|e| |] p2]; cbn in Hg2; try (by exists s2).
  destruct (retries e); [|by exists s2].
  destruct (get_checked_runs p2 s2 Hg2) as (s3 & Hr3 & Hg3).
  assert (Hr13 : runs s s3) by (by eapply runs_trans).
  destruct (pool_get_checked _ _ _ p2) as [[c2|e2| |] p3]; cbn in Hg3; try (by exists s3).
  destruct (action_runs call c2 p3 s3 Hg3) as (s4 & Hr4 & Hg4). exists s4.
  split; [by eapply runs_trans|done].
Qed.

End refinement.

(** ** Lemmas: the permits of a call *)

Lemma call_action_result {A} (call : io A) c p : (call_action call c p).1 = (call c).1.
Proof. unfold call_action. by destruct (call c) as [[a|e| |] c']. Qed.

Lemma call_action_permits {A} (call : io A) c p : permits (call_action call c p).2 = S (permits p).
Proof.
  unfold call_action, pool_release. destruct (call c) as [[a|e| |] c']; cbn; [|destruct (drops_client e)| |];
    by repeat case_match.
Qed.

Section fuel.

Context (resolve : str -> outcome ErrorKind (list SockAddr)).
Context (tcp_connect : nat -> list SockAddr -> outcome ErrorKind TcpStream).
Context (tls_handshake : TlsConfig -> Stream -> outcome ErrorKind Stream).
Context (Hinit : forall p, (init resolve tcp_connect tls_handshake p).1 <> OutOfFuel).

Lemma init_guard_fuel p : (init_guard resolve tcp_connect tls_handshake p).1 <> OutOfFuel.
Proof using Hinit. unfold init_guard. pose proof (Hinit p) as H. by destruct (init _ _ _ p) as [[] q]. Qed.

Lemma checked_loop_fuel cs p : (checked_loop resolve tcp_connect tls_handshake cs p).1 <> OutOfFuel.
Proof using Hinit.
  revert p. induction cs as [|c cs IH]; intros p; cbn [checked_loop]; [apply init_guard_fuel|].
  by destruct (is_open c) as [[] c'].
Qed.

(** With a permit to take, a call does not wait for ever: the retry finds the permit of the first attempt. *)
Lemma pooled_call_fuel {A} (call : io A) p : (forall c, (call c).1 <> OutOfFuel) -> permits p <> 0 ->
  (impl_pooled_call resolve tcp_connect tls_handshake call p).1 <> OutOfFuel.
Proof using Hinit.
  intros Hcall Hp. unfold impl_pooled_call.
  assert (Hget : (pool_get resolve tcp_connect tls_handshake p).1 <> OutOfFuel).
  { unfold pool_get, acquire_owned. destruct (is_closed p); [done|]. destruct (permits p) as [|k]; [done|].
    destruct (idle _); [apply init_guard_fuel|done]. }
  destruct (pool_get _ _ _ p) as [[c|e| |] p1]; try done.
  pose proof (Hcall c) as Hc. rewrite <- (call_action_result call c p1) in Hc.
  pose proof (call_action_permits call c p1) as Hk.
  destruct (call_action call c p1) as [[a|e| |] p2]; try done. destruct (retries e); [|done].
  assert (Hchecked : (pool_get_checked resolve tcp_connect tls_handshake p2).1 <> OutOfFuel).
  { unfold pool_get_checked, acquire_owned. destruct (is_closed p2); [done|]. cbn in Hk. rewrite Hk. apply checked_loop_fuel. }
  destruct (pool_get_checked _ _ _ p2) as [[c2|e2| |] p3]; try done.
  rewrite call_action_result. apply Hcall.
Qed.

End fuel.

(** ** Lemmas: what a call gives *)

Section gives.

Context (resolve : str -> outcome ErrorKind (list SockAddr)).
Context (tcp_connect : nat -> list SockAddr -> outcome ErrorKind TcpStream).
Context (tls_handshake : TlsConfig -> Stream -> outcome ErrorKind Stream).
Context {A : Type} (call : io A) (p : NutPoolClient).

(** The pool between calls, with these idle connections, this number of attempts to connect and
    these connections let go. *)
Definition pool_with (l : list Stream) (n : nat) (d : list Stream) : NutPoolClient :=
  mkPoolClient (pool_allocator p) (permits p) l false n d.

(** What opening a new connection gives, as the n-th attempt if the name of the daemon has an address. *)
Definition fresh_client (n : nat) : outcome ErrorKind Stream :=
  let? addrs := to_socket_addrs resolve (addr (pool_allocator p)) in
  match tls_config (pool_allocator p) with
  | None => connect tcp_connect n addrs
  | Some tls => connect_with_tls tcp_connect tls_handshake n addrs tls
  end.
Definition attempts_after (n : nat) : nat :=
  if is_ok (to_socket_addrs resolve (addr (pool_allocator p))) then S n else n.

(** A connection is kept after an answer and after an error that does not say that it is broken. *)
Definition kept (r : outcome ErrorKind A) : bool :=
  match r with
  | Ok _ => true
  | Err (IOError _) | Err ConnectionPoolClosed | Err EmptyResponse | Err RequestTimeout => false
  | Err _ => true
  | _ => false
  end.
(** The errors after which the call is made once more. *)
Definition again (r : outcome ErrorKind A) : bool :=
  match r with Err (IOError _) | Err EmptyResponse | Err RequestTimeout => true | _ => false end.

(** The answer on a connection, and what becomes of it. *)
Definition last_answer (c : Stream) (l : list Stream) (n : nat) (d : list Stream) : outcome ErrorKind A * NutPoolClient :=
  let '(r, c') := call c in (r, if kept r then pool_with (l ++ [c']) n d else pool_with l n (d ++ [c'])).

(** On a connection that has just been taken, or has just been tried in vain. *)
Definition on_new (l : list Stream) (n : nat) (d : list Stream)
  (k : Stream -> list Stream -> nat -> list Stream -> outcome ErrorKind A * NutPoolClient -> Prop)
  (run : outcome ErrorKind A * NutPoolClient) : Prop :=
  match fresh_client n with
  | Ok c => k c l (attempts_after n) d run
  | Err e => run = (Err e, pool_with l (attempts_after n) d)
  | Panicked => run = (Panicked, pool_with l (attempts_after n) d)
  | OutOfFuel => run = (OutOfFuel, pool_with l (attempts_after n) d)
  end.

(** The first attempt on [c], with [l] idle behind it. *)
Definition first_answer (c : Stream) (l : list Stream) (n : nat) (d : list Stream)
  (run : outcome ErrorKind A * NutPoolClient) : Prop :=
  let '(r, c') := call c in
  if again r then
    (forall ds live tl, l = ds ++ live :: tl -> Forall dead ds -> (is_open live).1 = true ->
       run = last_answer (is_open live).2 tl n (d ++ c' :: (discarded <$> ds))) /\
    (Forall dead l -> on_new [] n (d ++ c' :: (discarded <$> l)) (fun c l n d run => run = last_answer c l n d) run)
  else run = last_answer c l n d.

Lemma call_action_last c l n d k : S k = permits p ->
  call_action call c (mkPoolClient (pool_allocator p) k l false n d) = last_answer c l n d.
Proof.
  intros Hk. unfold call_action, last_answer, pool_with. rewrite <- Hk.
  destruct (call c) as [[a|e| |] c']; try done. by destruct e.
Qed.

Lemma init_guard_fresh k l n d : S k = permits p ->
  init_guard resolve tcp_connect tls_handshake (mkPoolClient (pool_allocator p) k l false n d) =
  match fresh_client n with
  | Ok c => (Ok c, mkPoolClient (pool_allocator p) k l false (attempts_after n) d)
  | r => (map_err AllocatorError r, pool_with l (attempts_after n) d)
  end.
Proof.
  intros Hk. unfold init_guard, init, fresh_client, attempts_after, pool_with. rewrite <- Hk. cbn [pool_allocator dialed].
  destruct (to_socket_addrs _ _) as [addrs| | |]; cbn [obind is_ok]; [|done..].
  destruct (tls_config _); [destruct (connect_with_tls _ _ _ _ _)|destruct (connect _ _ _)]; done.
Qed.

(** The second attempt. *)
Lemma checked_last l n d run : permits p <> 0 ->
  run = (match pool_get_checked resolve tcp_connect tls_handshake (pool_with l n d) with
         | (Ok client, q) => call_action call client q
         | (Err err, q) => (Err (Error_from_pool err), q)
         | (Panicked, q) => (Panicked, q)
         | (OutOfFuel, q) => (OutOfFuel, q)
         end) ->
  (forall ds live tl, l = ds ++ live :: tl -> Forall dead ds -> (is_open live).1 = true ->
     run = last_answer (is_open live).2 tl n (d ++ (discarded <$> ds))) /\
  (Forall dead l -> on_new [] n (d ++ (discarded <$> l)) (fun c l n d run => run = last_answer c l n d) run).
Proof.
  intros Hp ->. unfold pool_get_checked, acquire_owned, pool_with. cbn [is_closed permits].
  destruct (permits p) as [|k] eqn:Hk; [done|]. symmetry in Hk. split.
  - intros ds live tl -> Hd Ho. cbn [idle set_permits]. rewrite checked_loop_dead by done. cbn [checked_loop].
    destruct (is_open live) as [o live']. cbn in Ho |- *. subst o. by apply call_action_last.
  - intros Hd. unfold set_permits. cbn [idle pool_allocator is_closed dialed dropped].
    pose proof (checked_loop_dead resolve tcp_connect tls_handshake l []
      (mkPoolClient (pool_allocator p) k l false n d) Hd) as Hl.
    rewrite app_nil_r in Hl. rewrite Hl. cbn [checked_loop]. unfold set_idle. cbn [pool_allocator permits is_closed dialed dropped].
    rewrite init_guard_fresh by done. unfold on_new. destruct (fresh_client n); [|done..]. by apply call_action_last.
Qed.

(** The first. *)
Lemma first_gives c l n d k : S k = permits p ->
  first_answer c l n d
    (match call_action call c (mkPoolClient (pool_allocator p) k l false n d) with
     | (Err err, q) =>
         if retries err then
           match pool_get_checked resolve tcp_connect tls_handshake q with
           | (Ok client, q) => call_action call client q
           | (Err err, q) => (Err (Error_from_pool err), q)
           | (Panicked, q) => (Panicked, q)
           | (OutOfFuel, q) => (OutOfFuel, q)
           end
         else (Err err, q)
     | r => r
     end).
Proof.
  intros Hk. rewrite (call_action_last _ _ _ _ _ Hk). unfold first_answer, last_answer.
  destruct (call c) as [r c']. destruct (again r) eqn:Hr.
  - assert (Hn : kept r = false /\ exists e, r = Err e /\ retries e = true).
    { destruct r as [|[]| |]; try done; (split; [done|by eexists]). }
    destruct Hn as (-> & e & -> & ->).
    destruct (checked_last l n (d ++ [c']) _ ltac:(lia) eq_refl) as [H1 H2]. rewrite <- app_assoc in H2. split; [|done].
    intros ds live tl Hl Hd Ho. specialize (H1 ds live tl Hl Hd Ho). by rewrite <- app_assoc in H1.
  - destruct r as [a|e| |]; [done| |done..]. assert (He : retries e = false) by (by destruct e). by rewrite He.
Qed.

End gives.

(** ** Properties *)

(** C8: A pooled call refines the pool's state machine: run alone, it is a run of
    one task of the machine of [ItemPool.v], whatever the connections answer and
    however it fails; it takes its permits from the semaphore and has given all of
    them back at its end, so all that holds of the machine's states holds of the
    states between calls, and even with a single permit the second attempt does not
    wait for the first. *)
Theorem pool_call_refines {A} (resolve : str -> outcome ErrorKind (list SockAddr))
  (tcp_connect : nat -> list SockAddr -> outcome ErrorKind TcpStream)
  (tls_handshake : TlsConfig -> Stream -> outcome ErrorKind Stream) (call : io A) (t limit : nat)
  (p : NutPoolClient) (s : ItemPool.PoolState) (Hr : at_rest p s) (Hn : limit <> 0)
  (Hreach : ItemPool.reachable limit s) :
  let '(r, p') := impl_pooled_call resolve tcp_connect tls_handshake call p in
  (exists s', runs t s s' /\ at_rest p' s' /\ ItemPool.reachable limit s' /\
     ItemPool.available s' = limit /\ ItemPool.tasks s' = ∅) /\
  permits p = limit /\ permits p' = limit /\ length (idle p') <= limit /\
  ((forall c, (call c).1 <> OutOfFuel) -> (forall q, (init resolve tcp_connect tls_handshake q).1 <> OutOfFuel) ->
   r <> OutOfFuel).
Proof.
  destruct (impl_pooled_call_runs t resolve tcp_connect tls_handshake call p s Hr) as (s' & Hruns & Hrest).
  assert (Hreach' : ItemPool.reachable limit s') by (by eapply runs_reachable).
  assert (Hall : forall q u, at_rest q u -> ItemPool.reachable limit u ->
    permits q = limit /\ ItemPool.available u = limit /\ length (idle q) <= limit).
  { intros q u (ids & n & Hl & ->) Hu. pose proof (ItemPool.reachable_inv _ _ Hu) as Hinv.
    pose proof (ItemPool.inv_permits _ _ Hinv) as Hp. pose proof (ItemPool.inv_items _ _ Hinv) as Hi. cbn [ItemPool.available ItemPool.items ItemPool.tasks] in *. change (ItemPool.count ItemPool.holds_permit ∅) with 0 in Hp. lia. }
  destruct (Hall _ _ Hr Hreach) as (Hp & _). destruct (Hall _ _ Hrest Hreach') as (Hp' & Ha & Hl).
  pose proof (fun Hc Hi => pooled_call_fuel resolve tcp_connect tls_handshake Hi call p Hc ltac:(by rewrite Hp)) as Hf.
  destruct (impl_pooled_call _ _ _ _ p) as [r p']. cbn in Hrest, Hp', Hl, Hf.
  split_and!; [|done..|exact Hf]. exists s'. split_and!; [done..|]. by destruct Hrest as (ids & n & _ & ->).
Qed.

(** C30: What a pooled call gives, for every answer and every failure. A closed
    pool is an error and no request. The call is made on the first idle connection,
    or on a new one when none is idle, whose failure (of the look-up, the
    connection or the TLS handshake) is the result. The connection goes back to the
    end of the queue, unless the error says that it is broken: after an I/O error,
    an empty response, a time-out or [ConnectionPoolClosed] it is dropped. After
    the first three the call is made once more and for the last time: on the first
    idle connection that answers a probe, the silent ones before it being closed,
    or on a new connection, whose failure is the result again; so a pool whose
    connections have all gone stale recovers as soon as the daemon is back, and
    while it is not the error is that of the last attempt to connect. *)
Theorem pool_call_spec {A} (resolve : str -> outcome ErrorKind (list SockAddr))
  (tcp_connect : nat -> list SockAddr -> outcome ErrorKind TcpStream)
  (tls_handshake : TlsConfig -> Stream -> outcome ErrorKind Stream) (call : io A)
  (p : NutPoolClient) (Hpermit : permits p <> 0) :
  let run := impl_pooled_call resolve tcp_connect tls_handshake call p in
  let first := first_answer resolve tcp_connect tls_handshake call p in
  (is_closed p = true -> run = (Err ConnectionPoolClosed, p)) /\
  (is_closed p = false ->
    (forall c rest, idle p = c :: rest -> first c rest (dialed p) (dropped p) run) /\
    (idle p = [] -> on_new resolve tcp_connect tls_handshake p [] (dialed p) (dropped p) first run)).
Proof.
  cbv zeta. split.
  { intros Hc. unfold impl_pooled_call, pool_get, acquire_owned. by rewrite Hc. }
  intros Hc. destruct (permits p) as [|k] eqn:Hk; [done|].
  unfold impl_pooled_call, pool_get, acquire_owned. rewrite Hc, Hk. cbn [idle set_permits].
  split.
  - intros c rest Hi. rewrite Hi.
    replace (set_idle rest (set_permits k p)) with (mkPoolClient (pool_allocator p) k rest false (dialed p) (dropped p))
      by (unfold set_idle, set_permits; cbn; by rewrite Hc).
    by apply first_gives.
  - intros Hi. rewrite Hi.
    replace (set_permits k p) with (mkPoolClient (pool_allocator p) k [] false (dialed p) (dropped p))
      by (unfold set_permits; by rewrite Hc, Hi).
    rewrite (init_guard_fresh _ _ _ p) by done. unfold on_new.
    destruct (fresh_client _ _ _ p (dialed p)); [|done..]. by apply first_gives.
Qed.

(** ** Witnesses *)

Definition demo_resolve (host : str) : outcome ErrorKind (list SockAddr) :=
  Ok [mkSockAddr (V4 [127; 0; 0; 1]%Z) 3493].
(** The daemon answers a new connection once. *)
Definition demo_connect (attempt : nat) (addrs : list SockAddr) : outcome ErrorKind TcpStream :=
  Ok (mkTcpStream (demo_stream (lit "1.3" ++ [LF]) false) (Ok tt) (Ok tt)).
(** Two connections that the daemon has closed while they were idle. *)
Definition demo_pool : NutPoolClient :=
  mkPoolClient (mkAllocator (Host (lit "ups")) None None) 2 [demo_stream [] true; demo_stream [] true] false 2 [].

Lemma pool_call_spec_witness :
  pool_get_protver demo_resolve demo_connect (fun _ => Ok) demo_pool =
    (Ok (lit "1.3"), pool_with demo_pool [mkStream GetProtVer_serialize [] false None] 3
       [mkStream GetProtVer_serialize [] true None; discarded (demo_stream [] true)]).
Proof.
  destruct (proj2 (pool_call_spec demo_resolve demo_connect (fun _ => Ok) get_protver demo_pool ltac:(done)) eq_refl) as [Hfirst _].
  destruct (Hfirst (demo_stream [] true) [demo_stream [] true] eq_refl) as [_ Hfresh].
  unfold pool_get_protver. rewrite (Hfresh ltac:(repeat constructor; by vm_compute)). vm_compute. reflexivity.
Defined.

Lemma pool_call_refines_witness :
  let '(r, p') := pool_get_protver demo_resolve demo_connect (fun _ => Ok)
      (pool_build (with_limit 1 (NutPoolClientBuilder_new (Host (lit "ups"))))) in
  (exists s', runs 7 (ItemPool.ItemPool_new 1) s' /\ at_rest p' s' /\ ItemPool.available s' = 1) /\ permits p' = 1.
Proof.
  pose proof (pool_call_refines demo_resolve demo_connect (fun _ => Ok) get_protver 7 1
    (pool_build (with_limit 1 (NutPoolClientBuilder_new (Host (lit "ups"))))) (ItemPool.ItemPool_new 1)
    ltac:(exists [], 0; by split) ltac:(done) (ItemPool.reach_new 1)) as H.
  unfold pool_get_protver. destruct (impl_pooled_call _ _ _ _ _) as [r p'].
  destruct H as ((s' & Hr & Ha & _ & Hav & _) & _ & Hp & _).
  split; [exists s'; split; [exact Hr|split; [exact Ha|exact Hav]]|exact Hp].
Defined.
