(* ===== verification/Startup.v ===== *)
(** * Start-up and background services

    [main.rs], [config/cfg_user.rs] and [background_service.rs]: the layers of
    the configuration with the errors of their sources, the table of users, the
    servers with their connection pools, the services that run in the
    background, and how they are stopped. Files, the environment, TLS set-up,
    scrypt, random salts and the runtime are parameters. *)

From S2P Require Import Prelude RustStr Numbers Errors Names VarName Value Ip UpsVariables Status Auth Config State.
From S2P Require Import Web Pages Tls.
From S2P Require PoolClient.

Open Scope Z_scope.

(** ** [cfg_user.rs] *)

Record UserConfig := mkUserConfig { uc_password : PasswordStr; uc_permissions : option Permissions }.
(** [HashMap<Username, UserConfig>], by the text of the name. *)
Record UsersConfigFile := mkUsersFile { file_users : gmap str UserConfig }.

(** [visit_map]: the entries of the file in order, or the first that is not one. *)
Fixpoint users_visit_map {E} (entries : list (outcome E (Username * UserConfig))) (users : gmap str UserConfig)
  : outcome E UsersConfigFile :=
  match entries with
  | [] => Ok (mkUsersFile users)
  | entry :: entries =>
      let? kv := entry in
      users_visit_map entries (<[username_str kv.1 := kv.2]> users)
  end.

(** ** [main.rs]: configuration *)

Section startup.

(** An error of a library, and of the process. *)
Context {E : Type}.

Definition EnvArgs_default : ServerEnvArgs :=
  mkEnvArgs None None None None HttpSection_none None None (mkUpsdSection None None None None None None None None).
Definition TomlArgs_default : ServerTomlArgs := mkTomlArgs None None None None None.

(** [load_configs]; [allow_env] is the flag of the command line. *)
Definition load_configs (random_key : str) (cli : outcome E (bool * ServerCliArgs)) (env : outcome E ServerEnvArgs)
  (toml : str -> outcome E ServerTomlArgs) : outcome E ServerConfig :=
  let? cli_args := cli in
  let '(allow_env, cli_args) := cli_args in
  let? env_args := if allow_env : bool then env else Ok EnvArgs_default in
  let toml_path := match c_config_file cli_args with Some path => Some path | None => e_config_file env_args end in
  let? toml_args := match toml_path with Some path => toml path | None => Ok TomlArgs_default end in
  Ok (load_layers random_key toml_args env_args cli_args).

(** ** [main.rs]: users *)

Context (scrypt : str -> str -> option str).

(** The loop over the users; the replaced user that [add_user] gives is ignored. *)
Fixpoint add_users (fresh_salt : str -> str) (entries : list (str * UserConfig)) (builder : UserStoreBuilder)
  : outcome E UserStoreBuilder :=
  match entries with
  | [] => Ok builder
  | (username, user_config) :: entries =>
      match add_user scrypt builder
              (mkProfile (default perm_default (uc_permissions user_config)) (mkUsername username))
              (password_text (uc_password user_config)) (fresh_salt username) with
      | Ok (_, builder) => add_users fresh_salt entries builder
      | _ => Panicked
      end
  end.

Definition create_user_store (load : str -> outcome E UsersConfigFile)
  (into_iter : gmap str UserConfig -> list (str * UserConfig)) (fresh_salt : str -> str) (config : ServerConfig)
  : outcome E (option UserStore) :=
  match auth_users_file config with
  | Some users_file =>
      let? users_file := load users_file in
      let builder := with_session_duration UserStoreBuilder_new AUTH_COOKIE_DURATION in
      let? builder := add_users fresh_salt (into_iter (file_users users_file)) builder in
      Ok (Some (store_build builder))
  | None => Ok None
  end.

(** ** [main.rs]: daemons *)

(** [with_platform_verifier] and [ServerName::try_from]. *)
Context (platform_verifier : outcome E ServerCertVerifier) (server_name : str -> outcome E str).

Definition create_pool (config : UpsdConfig) : outcome E PoolClient.NutPoolClient :=
  let? tls_client_conf := match tls_mode config with
                          | Disable => Ok None
                          | Strict =>
                              let? config := with_platform_verifier platform_verifier in
                              Ok (Some config)
                          | SkipVerify =>
                              let? config := with_platform_verifier platform_verifier in
                              Ok (Some (set_certificate_verifier SkipTlsVerifier config))
                          end in
  let builder := PoolClient.with_limit (Z.to_nat (max_conn config))
    (PoolClient.with_timeout (from_secs (poll_freq config))
       (PoolClient.NutPoolClientBuilder_new (PoolClient.Host (get_socket_addr config)))) in
  let? builder := match tls_client_conf with
                  | Some tls_config =>
                      let? server_name := server_name (addr config) in
                      Ok (PoolClient.with_tls server_name tls_config builder)
                  | None => Ok builder
                  end in
  Ok (PoolClient.pool_build builder).

(** The loop over [config.upsd]: the servers, and the pool of each. *)
Fixpoint create_servers (upsd : list (str * UpsdConfig))
  (servers : gmap str (UpsdState * PoolClient.NutPoolClient))
  : outcome E (gmap str (UpsdState * PoolClient.NutPoolClient)) :=
  match upsd with
  | [] => Ok servers
  | (name, upsd_cfg) :: upsd =>
      let? pool := create_pool upsd_cfg in
      create_servers upsd (<[name := (mkUpsdState DaemonState_new upsd_cfg name, pool)]> servers)
  end.

End startup.

(** The services that [start_server] adds, in order. *)
Inductive ServiceKind :=
  | DescriptionSync | MessageBroadcastService | DeviceSync (namespace : str) | StatusSync (namespace : str).

Definition bg_services (servers : list str) : list ServiceKind :=
  [DescriptionSync; MessageBroadcastService] ++ (ns ← servers; [DeviceSync ns; StatusSync ns]).

(** ** [background_service.rs] *)

Record BackgroundServiceRunner (S : Type) := mkRunner { runner_timeout : option Duration; services : list S }.
#[global] Arguments mkRunner {S} _ _.
#[global] Arguments runner_timeout {S} _.
#[global] Arguments services {S} _.

Record RunnerHandle (S : Type) := mkHandle { wait_timeout : Duration; handles : list S }.
#[global] Arguments mkHandle {S} _ _.
#[global] Arguments wait_timeout {S} _.
#[global] Arguments handles {S} _.

Definition Runner_new {S} : BackgroundServiceRunner S := mkRunner None [].
Definition with_max_timeout {S} (d : Duration) (r : BackgroundServiceRunner S) : BackgroundServiceRunner S :=
  mkRunner (Some d) (services r).
Definition add_service {S} (s : S) (r : BackgroundServiceRunner S) : BackgroundServiceRunner S :=
  mkRunner (runner_timeout r) (services r ++ [s]).
Definition runner_start {S} (r : BackgroundServiceRunner S) : RunnerHandle S :=
  mkHandle (default (from_secs 60) (runner_timeout r)) (services r).

(** The end of a service that [stop] leaves behind. *)
Inductive Fate := Finished | Aborted | LeftRunning.
Inductive Poll := PollOk | PollElapsed | PollPending.

Section stop.

(** When a service ends after the cancellation, by returning or panicking;
    [None]: it never does. *)
Context {S : Type} (ends : S -> option Duration).

Definition ended (now : Duration) (s : S) : bool :=
  match ends s with Some d => bool_decide (d <= now) | None => false end.

(** One poll of [try_join_all]: it polls the handles in order and returns at the
    first error, whose handle alone is aborted; dropping a handle detaches its task. *)
Fixpoint poll_handles (wait_timeout now : Duration) (handles : list S) : Poll * list Fate :=
  match handles with
  | [] => (PollOk, [])
  | s :: handles =>
      if ended now s then let '(r, fates) := poll_handles wait_timeout now handles in (r, Finished :: fates)
      else if bool_decide (wait_timeout <= now)
      then (PollElapsed, Aborted :: ((fun s => if ended now s then Finished else LeftRunning) <$> handles))
      else match poll_handles wait_timeout now handles with
           | (PollElapsed, fates) => (PollElapsed, LeftRunning :: fates)
           | (_, fates) => (PollPending, LeftRunning :: fates)
           end
  end.

(** [stop]: the handles are polled when the runtime wakes the task; the result,
    the time, and what became of every service. [None]: still waiting. *)
Fixpoint stop (h : RunnerHandle S) (wakeups : list Duration) : option (bool * Duration * list Fate) :=
  match wakeups with
  | [] => None
  | now :: wakeups =>
      match poll_handles (wait_timeout h) now (handles h) with
      | (PollOk, fates) => Some (true, now, fates)
      | (PollElapsed, fates) => Some (false, now, fates)
      | (PollPending, _) => stop h wakeups
      end
  end.

End stop.

(** ** Lemmas: users *)

Section users_lemmas.

Context {E : Type} (scrypt : str -> str -> option str) (Htotal : forall p s, is_Some (scrypt p s)).
Context (fresh_salt : str -> str).

(** The user that is stored for an entry of the file. *)
Definition stored_user (n : str) (uc : UserConfig) : User :=
  mkUser (mkProfile (default perm_default (uc_permissions uc)) (mkUsername n)) (fresh_salt n)
    (default [] (scrypt (password_text (uc_password uc)) (fresh_salt n))).

Lemma add_users_spec entries b : NoDup entries.*1 ->
  exists b', add_users (E := E) scrypt fresh_salt entries b = Ok b' /\ builder_duration b' = builder_duration b /\
    forall n, users b' !! n = match list_to_map (M := gmap str UserConfig) entries !! n with
                              | Some uc => Some (stored_user n uc)
                              | None => users b !! n
                              end.
Proof using Htotal.
  revert b. induction entries as [|[n uc] entries IH]; intros b Hnd.
  { exists b. split_and!; [done..|]. intros n. by rewrite list_to_map_nil, lookup_empty. }
  cbn in Hnd. apply list.NoDup_cons in Hnd as [Hn Hnd]. cbn [add_users]. unfold add_user. cbn [profile_username username_str].
  destruct (Htotal (password_text (uc_password uc)) (fresh_salt n)) as [h Hh]. rewrite Hh. cbn [or_panic obind].
  match goal with |- context [add_users _ _ _ ?b0] => destruct (IH b0 Hnd) as (b' & -> & Hd & Hl) end.
  exists b'. split_and!; [done|done|]. intros m. rewrite Hl, list_to_map_cons.
  destruct (decide (n = m)) as [<-|Hne].
  - rewrite lookup_insert_eq. assert (Hnone : list_to_map (M := gmap str UserConfig) entries !! n = None)
      by by apply not_elem_of_list_to_map_1.
    rewrite Hnone. cbn [users]. rewrite lookup_insert_eq. unfold stored_user. by rewrite Hh.
  - rewrite lookup_insert_ne by done. destruct (list_to_map entries !! m); [done|]. cbn [users]. by rewrite lookup_insert_ne.
Qed.

End users_lemmas.

(** ** Lemmas: servers *)

Lemma create_servers_spec {E} (verifier : outcome E ServerCertVerifier) (server_name : str -> outcome E str) entries acc servers :
  NoDup entries.*1 -> create_servers verifier server_name entries acc = Ok servers ->
  forall ns, match list_to_map (M := gmap str UpsdConfig) entries !! ns with
  | Some cfg => exists pool, create_pool verifier server_name cfg = Ok pool /\
                  servers !! ns = Some (mkUpsdState DaemonState_new cfg ns, pool)
  | None => servers !! ns = acc !! ns
  end.
Proof.
  revert acc. induction entries as [|[n cfg] entries IH]; intros acc Hnd Hc ns.
  { injection Hc as <-. by rewrite list_to_map_nil, lookup_empty. }
  cbn in Hnd. apply list.NoDup_cons in Hnd as [Hn Hnd]. cbn [create_servers] in Hc.
  destruct (create_pool _ _ cfg) as [pool| | |] eqn:Ep; try done. cbn [obind] in Hc.
  specialize (IH _ Hnd Hc ns). rewrite list_to_map_cons.
  destruct (decide (n = ns)) as [<-|Hne].
  - assert (Hnone : list_to_map (M := gmap str UpsdConfig) entries !! n = None) by by apply not_elem_of_list_to_map_1.
    rewrite Hnone in IH. rewrite lookup_insert_eq. exists pool. split; [done|]. by rewrite IH, lookup_insert_eq.
  - rewrite lookup_insert_ne by done. destruct (list_to_map entries !! ns); [done|]. by rewrite IH, lookup_insert_ne.
Qed.

(** A pool never does more than its configuration says. *)
Lemma create_pool_spec {E} (verifier : outcome E ServerCertVerifier) (server_name : str -> outcome E str) cfg pool :
  create_pool verifier server_name cfg = Ok pool ->
  PoolClient.permits pool = Z.to_nat (max_conn cfg) /\ PoolClient.idle pool = [] /\ PoolClient.is_closed pool = false /\
  PoolClient.addr (PoolClient.pool_allocator pool) = PoolClient.Host (get_socket_addr cfg) /\
  PoolClient.timeout (PoolClient.pool_allocator pool) = Some (from_secs (poll_freq cfg)) /\
  (PoolClient.tls_config (PoolClient.pool_allocator pool) = None <-> tls_mode cfg = Disable).
Proof.
  unfold create_pool. destruct (tls_mode cfg); cbn; intros Hp.
  - injection Hp as <-. by split_and!.
  - destruct verifier; try done. cbn in Hp. destruct (server_name _); try done. injection Hp as <-. by split_and!.
  - destruct verifier; try done. cbn in Hp. destruct (server_name _); try done. injection Hp as <-. by split_and!.
Qed.

(** Whom its connections trust. *)
Lemma create_pool_tls {E} (verifier : outcome E ServerCertVerifier) (server_name : str -> outcome E str) cfg pool :
  create_pool verifier server_name cfg = Ok pool ->
  match tls_mode cfg with
  | Disable => PoolClient.tls_config (PoolClient.pool_allocator pool) = None
  | mode => exists platform name, verifier = Ok platform /\ server_name (addr cfg) = Ok name /\
      PoolClient.tls_config (PoolClient.pool_allocator pool) = Some (PoolClient.mkTlsConfig name
        (mkClientConfig (if decide (mode = Strict) then platform else SkipTlsVerifier)))
  end.
Proof.
  unfold create_pool. destruct (tls_mode cfg); cbn; intros Hp.
  - by injection Hp as <-.
  - destruct verifier as [platform| | |]; try done. cbn in Hp. destruct (server_name _); try done. injection Hp as <-. eauto.
  - destruct verifier as [platform| | |]; try done. cbn in Hp. destruct (server_name _); try done. injection Hp as <-. eauto.
Qed.

(** One server per configured daemon. *)
Lemma create_servers_dom {E : Type} (verifier : outcome E ServerCertVerifier) (server_name : str -> outcome E str)
  (cfgs : gmap str UpsdConfig) (entries : list (str * UpsdConfig)) servers : entries ≡ₚ map_to_list cfgs ->
  create_servers verifier server_name entries ∅ = Ok servers ->
  forall ns, match cfgs !! ns with
             | Some cfg => exists pool, create_pool verifier server_name cfg = Ok pool /\
                 servers !! ns = Some (mkUpsdState DaemonState_new cfg ns, pool)
             | None => servers !! ns = None
             end.
Proof.
  intros Hit Hc ns. assert (Hnd : NoDup entries.*1) by (rewrite Hit; apply NoDup_fst_map_to_list).
  assert (Hm : list_to_map entries = cfgs).
  { rewrite <- (list_to_map_to_list cfgs). by apply list_to_map_proper. }
  pose proof (create_servers_spec _ _ _ _ _ Hnd Hc ns) as Hl. rewrite Hm in Hl.
  destruct (cfgs !! ns); [done|]. by rewrite Hl, lookup_empty.
Qed.

(** ** Lemmas: stopping *)

Section stop_lemmas.

Context {S : Type} (ends : S -> option Duration).

Lemma poll_all_ended wait now (l : list S) : Forall (fun s => ended ends now s = true) l ->
  poll_handles ends wait now l = (PollOk, (fun _ => Finished) <$> l).
Proof. induction 1 as [|s l Hs _ IH]; [done|]. cbn [poll_handles]. by rewrite Hs, IH. Qed.

Lemma poll_first_hung wait now (l : list S) s r : Forall (fun s => ended ends now s = true) l ->
  ended ends now s = false -> wait <= now ->
  poll_handles ends wait now (l ++ s :: r) =
  (PollElapsed, ((fun _ => Finished) <$> l) ++ Aborted :: ((fun s => if ended ends now s then Finished else LeftRunning) <$> r)).
Proof.
  intros Hl Hs Hw. induction Hl as [|x l Hx _ IH]; cbn.
  - by rewrite Hs, bool_decide_eq_true_2.
  - by rewrite Hx, IH.
Qed.

Lemma poll_early wait now (l : list S) : now < wait ->
  (poll_handles ends wait now l).1 = PollOk /\ Forall (fun s => ended ends now s = true) l \/
  (poll_handles ends wait now l).1 = PollPending /\ Exists (fun s => ended ends now s = false) l.
Proof.
  intros Hw. induction l as [|s l IH]; [by left|]. cbn [poll_handles].
  rewrite bool_decide_eq_false_2 by lia. destruct (ended ends now s) eqn:Es.
  - destruct IH as [[Hp Hf]|[Hp Hf]]; destruct (poll_handles _ _ _ l); cbn in Hp |- *; subst;
      [left; split; [done|by constructor]|right; split; [done|by right]].
  - right. destruct IH as [[Hp _]|[Hp _]]; destruct (poll_handles _ _ _ l); cbn in Hp |- *; subst; by split; [|left].
Qed.

Lemma first_not_ended now (l : list S) :
  Forall (fun s => ended ends now s = true) l \/
  exists l1 s l2, l = l1 ++ s :: l2 /\ Forall (fun s => ended ends now s = true) l1 /\ ended ends now s = false.
Proof.
  induction l as [|x l IH]; [by left|]. destruct (ended ends now x) eqn:Ex; [|right; by exists [], x, l].
  destruct IH as [Hf|(l1 & s & l2 & -> & Hf & Hs)]; [left; by constructor|].
  right. exists (x :: l1), s, l2. split_and!; [done|by constructor|done].
Qed.

Lemma ended_mono now later s : now <= later -> ended ends now s = true -> ended ends later s = true.
Proof. unfold ended. destruct (ends s); [|done]. rewrite !bool_decide_eq_true. lia. Qed.

End stop_lemmas.

(** How [stop] ends, with the time-out among the wake-ups: every service has ended, or the first that
    has not is aborted. *)
Lemma stop_cases {S : Type} (ends : S -> option Duration) wait (l : list S) early more :
  Forall (fun now => now < wait) early ->
  let ended_by s := ended ends wait s = true in
  exists now, now <= wait /\
    ((Forall ended_by l /\ stop ends (mkHandle wait l) (early ++ wait :: more) = Some (true, now, (fun _ => Finished) <$> l)) \/
     exists before s after, l = before ++ s :: after /\ Forall ended_by before /\ ended ends wait s = false /\
       stop ends (mkHandle wait l) (early ++ wait :: more) =
       Some (false, now, ((fun _ => Finished) <$> before) ++ Aborted ::
         ((fun s => if ended ends wait s then Finished else LeftRunning) <$> after))).
Proof.
  intros He ended_by. induction He as [|now early Hn _ IH]; cbn [app stop wait_timeout handles].
  - exists wait. split; [lia|]. destruct (first_not_ended ends wait l) as [Hf|(l1 & s & l2 & -> & Hf & Hs)].
    + left. by rewrite poll_all_ended.
    + right. exists l1, s, l2. by rewrite poll_first_hung.
  - destruct (poll_early ends wait now l Hn) as [[Hp Hf]|[Hp Hf]].
    + exists now. split; [lia|]. left. rewrite poll_all_ended by done. split; [|done].
      eapply list.Forall_impl; [exact Hf|]. intros s. apply ended_mono. lia.
    + destruct (poll_handles ends wait now l) as [r fates]. cbn in Hp. subst r. exact IH.
Qed.

(** ** Lemmas: services *)

Lemma bg_services_in order : (forall ns, DeviceSync ns ∈ bg_services order <-> ns ∈ order) /\
  (forall ns, StatusSync ns ∈ bg_services order <-> ns ∈ order).
Proof.
  unfold bg_services. split; intros ns; rewrite elem_of_app, list_elem_of_bind; (split;
    [intros [H|(x & H & Hx)]; [set_solver|]; assert (x = ns) as -> by set_solver; done|]);
    intros Hn; right; exists ns; (split; [set_solver|done]).
Qed.

Lemma bg_services_nodup order : NoDup order -> NoDup (bg_services order).
Proof.
  unfold bg_services. intros Hnd. apply list.NoDup_app. split_and!; [repeat constructor; set_solver| |].
  - intros s Hs. rewrite list_elem_of_bind. intros (x & Hx & _). set_solver.
  - induction Hnd as [|ns order Hn _ IH]; [constructor|]. cbn [mbind list_bind app].
    assert (Hin : forall s, s ∈ (order ≫= fun ns => [DeviceSync ns; StatusSync ns]) ->
      exists x, x ∈ order /\ (s = DeviceSync x \/ s = StatusSync x)).
    { intros s. rewrite list_elem_of_bind. intros (x & Hx & Ho). exists x. set_solver. }
    constructor; [|constructor; [|done]].
    + rewrite elem_of_cons. intros [?|Hx]; [done|]. apply Hin in Hx as (x & Hx & [[= <-]|?]); done.
    + intros Hx. apply Hin in Hx as (x & Hx & [?|[= <-]]); done.
Qed.

(** ** Properties *)

(** The users of the users file are the users of the server: whatever the
    order of the hash map, a user logs in exactly with the password of his entry
    (up to the hash), and his session has the permissions of the entry, none if
    it names none, for the duration of the cookie; nobody else logs in. Without a
    users file there is no store, and an unreadable one stops the start. *)
Lemma startup_users_spec {E : Type} (scrypt : str -> str -> option str) (Hs : scrypt_documented scrypt)
  (Htotal : forall p s, is_Some (scrypt p s)) (load : str -> outcome E UsersConfigFile)
  (into_iter : gmap str UserConfig -> list (str * UserConfig)) (Hit : iterates into_iter)
  (fresh_salt : str -> str) (config : ServerConfig) :
  match auth_users_file config with
  | None => create_user_store scrypt load into_iter fresh_salt config = Ok None
  | Some path =>
      match load path with
      | Ok file => exists store,
          create_user_store scrypt load into_iter fresh_salt config = Ok (Some store) /\
          forall name pw now fresh, login_user scrypt store name pw now fresh =
            match file_users file !! username_str name with
            | Some uc =>
                if bool_decide (scrypt (password_text pw) (fresh_salt (username_str name)) =
                                scrypt (password_text (uc_password uc)) (fresh_salt (username_str name)))
                then Ok (mkUserSession name (build now fresh (with_valid_until
                       (with_permissions AccessTokenBuilder_new (default perm_default (uc_permissions uc)))
                       AUTH_COOKIE_DURATION)))
                else Err InvalidLogin
            | None => Err InvalidLogin
            end
      | Err e => create_user_store scrypt load into_iter fresh_salt config = Err e
      | _ => is_ok (create_user_store scrypt load into_iter fresh_salt config) = false
      end
  end.
Proof.
  unfold create_user_store. destruct (auth_users_file config) as [path|]; [|done].
  destruct (load path) as [file| | |]; [|done..]. cbn [obind].
  assert (Hnd : NoDup (into_iter (file_users file)).*1).
  { rewrite (Hit (file_users file)). apply NoDup_fst_map_to_list. }
  destruct (add_users_spec (E := E) scrypt Htotal fresh_salt _ (with_session_duration UserStoreBuilder_new AUTH_COOKIE_DURATION) Hnd)
    as (b & -> & Hd & Hl). cbn [obind]. eexists. split; [done|]. intros name pw now fresh.
  assert (Hm : list_to_map (into_iter (file_users file)) = file_users file).
  { rewrite <- (list_to_map_to_list (file_users file)) at 2. apply list_to_map_proper; [done|apply Hit]. }
  unfold login_user. cbn [inner store_build]. rewrite Hl, Hm.
  destruct (file_users file !! username_str name) as [uc|]; [|done].
  unfold stored_user. cbn [salt password_hash].
  destruct (Htotal (password_text pw) (fresh_salt (username_str name))) as [h Hh].
  destruct (Htotal (password_text (uc_password uc)) (fresh_salt (username_str name))) as [h' Hh'].
  rewrite Hh, Hh'. cbn [default from_option id].
  rewrite cmp_hash_equality by (by eapply Hs). rewrite (bool_decide_ext (h = h') (Some h = Some h')) by naive_solver.
  destruct (bool_decide _); [|done]. unfold new_session, store_build. cbn [profile profile_permissions session_duration].
  by rewrite Hd.
Qed.

(** The start builds one server per configured daemon, under its name, with
    its configuration, an empty state that is not ready, and an open pool limited
    to the configured connections that uses TLS exactly when the mode asks for it;
    and one device and one status service for each. *)
Lemma startup_servers_spec {E : Type} (verifier : outcome E ServerCertVerifier) (server_name : str -> outcome E str)
  (config : ServerConfig) (entries : list (str * UpsdConfig)) (Hit : entries ≡ₚ map_to_list (upsd config))
  (servers : gmap str (UpsdState * PoolClient.NutPoolClient))
  (Hc : create_servers verifier server_name entries ∅ = Ok servers) :
  (forall ns, is_Some (servers !! ns) <-> is_Some (upsd config !! ns)) /\
  (forall ns upsd pool, servers !! ns = Some (upsd, pool) ->
     upsd_config upsd = default (upsd_config upsd) (Config.upsd config !! ns) /\ namespace upsd = ns /\
     conn_status (daemon_state upsd) = NotReady /\ devices (daemon_state upsd) = ∅ /\
     PoolClient.permits pool = Z.to_nat (max_conn (upsd_config upsd)) /\ PoolClient.is_closed pool = false /\
     (PoolClient.tls_config (PoolClient.pool_allocator pool) = None <-> tls_mode (upsd_config upsd) = Disable)) /\
  (forall order, order ≡ₚ (map_to_list servers).*1 ->
     length (bg_services order) = (2 + 2 * size (upsd config))%nat /\ NoDup (bg_services order) /\
     forall ns, is_Some (upsd config !! ns) <-> DeviceSync ns ∈ bg_services order /\ StatusSync ns ∈ bg_services order).
Proof.
  pose proof (create_servers_dom _ _ _ _ _ Hit Hc) as Hl.
  assert (Hdom : forall ns, is_Some (servers !! ns) <-> is_Some (upsd config !! ns)).
  { intros ns. specialize (Hl ns). destruct (upsd config !! ns) as [cfg|]; [|by rewrite Hl].
    destruct Hl as (pool & _ & ->). split; eauto. }
  split; [done|split].
  - intros ns u pool Hu. specialize (Hl ns). destruct (upsd config !! ns) as [cfg|] eqn:Ec; [|by rewrite Hl in Hu].
    destruct Hl as (pool' & Hp & Hs). rewrite Hs in Hu. injection Hu as <- <-.
    destruct (create_pool_spec _ _ _ _ Hp) as (H1 & _ & H3 & _ & _ & H6). by split_and!.
  - intros order Ho. assert (Hsize : size servers = size (upsd config)).
    { rewrite <- !size_dom. f_equal. apply set_eq. intros ns. by rewrite !elem_of_dom. }
    assert (Hlen : length order = size (upsd config)).
    { rewrite Ho, length_fmap, length_map_to_list. done. }
    assert (Hin : forall ns, ns ∈ order <-> is_Some (servers !! ns)).
    { intros ns. rewrite Ho, list_elem_of_fmap. split.
      - intros ([k v] & -> & Hk). apply elem_of_map_to_list in Hk. by exists v.
      - intros [v Hv]. exists (ns, v). split; [done|]. by apply elem_of_map_to_list. }
    assert (Hon : NoDup order) by (rewrite Ho; apply NoDup_fst_map_to_list).
    unfold bg_services. clear Ho.
    split_and!.
    + rewrite <- Hlen. clear. induction order as [|ns order IH]; [done|]. cbn in IH |- *. lia.
    + apply bg_services_nodup, Hon.
    + intros ns. destruct (bg_services_in order) as [Hd Hst]. rewrite Hd, Hst, <- Hdom, <- Hin. tauto.
Qed.

(** Stopping the services always ends, at the latest at the time-out, and
    succeeds exactly when every service has ended by then. When it fails, only
    the first service that has not ended is aborted; every later one that has
    not ended is left running. *)
Lemma service_stop_spec {S : Type} (ends : S -> option Duration) (h : RunnerHandle S) (early : list Duration)
  (He : Forall (fun now => now < wait_timeout h) early) (more : list Duration) :
  exists ok now fates, stop ends h (early ++ wait_timeout h :: more) = Some (ok, now, fates) /\ now <= wait_timeout h /\
    (ok = true <-> Forall (fun s => ended ends (wait_timeout h) s = true) (handles h)) /\
    (ok = true -> fates = (fun _ => Finished) <$> handles h) /\
    (ok = false -> exists before s after, handles h = before ++ s :: after /\
       Forall (fun s => ended ends (wait_timeout h) s = true) before /\ ended ends (wait_timeout h) s = false /\
       fates = ((fun _ => Finished) <$> before) ++ Aborted ::
         ((fun s => if ended ends (wait_timeout h) s then Finished else LeftRunning) <$> after)).
Proof.
  destruct h as [wait l]. cbn [wait_timeout handles] in *.
  destruct (stop_cases ends wait l early more He) as (now & Hnow & [[Hf Hstop]|(l1 & s & l2 & -> & Hf & Hs & Hstop)]).
  - exists true, now, ((fun _ => Finished) <$> l). by split_and!.
  - eexists false, now, _. split_and!; [exact Hstop|lia| |done|].
    + split; [done|]. intros [_ [Hx _]%list.Forall_cons]%list.Forall_app. congruence.
    + intros _. by exists l1, s, l2.
Qed.

(** ** Witnesses *)

Definition demo_users_file : UsersConfigFile :=
  mkUsersFile {[ lit "ann" := mkUserConfig (mkPassword (lit "pw")) None ]}.

Lemma startup_users_spec_witness :
  exists store, create_user_store (E := str) demo_scrypt (fun _ => Ok demo_users_file) map_to_list (fun _ => [])
      (mkServerConfig None None INFO [] HttpServerConfig_default ∅ (Some (lit "users.toml"))) = Ok (Some store) /\
    (login_user demo_scrypt store ann (mkPassword (lit "no")) 100 3) = Err InvalidLogin.
Proof.
  destruct (startup_users_spec (E := str) demo_scrypt demo_scrypt_documented ltac:(intros; eexists; reflexivity)
    (fun _ => Ok demo_users_file) map_to_list (fun _ => reflexivity _) (fun _ => [])
    (mkServerConfig None None INFO [] HttpServerConfig_default ∅ (Some (lit "users.toml")))) as (store & Hc & Hl).
  exists store. split; [exact Hc|]. rewrite Hl. vm_compute. reflexivity.
Defined.

Definition demo_startup_config : ServerConfig :=
  mkServerConfig None None INFO [] HttpServerConfig_default {[ lit "nut" := UpsdConfig_default ]} None.

Lemma startup_servers_spec_witness :
  exists servers, create_servers (E := str) (Ok SkipTlsVerifier) Ok [(lit "nut", UpsdConfig_default)] ∅ = Ok servers /\
    is_Some (servers !! lit "nut") /\ length (bg_services [lit "nut"]) = 4%nat.
Proof.
  eexists. split; [reflexivity|].
  destruct (startup_servers_spec (E := str) (Ok SkipTlsVerifier) Ok demo_startup_config [(lit "nut", UpsdConfig_default)]
    ltac:(unfold demo_startup_config; cbn [upsd]; rewrite map_to_list_singleton; reflexivity) _ eq_refl) as (Hd & _ & Ho).
  split; [apply Hd; eexists; apply lookup_singleton_eq|].
  rewrite (proj1 (Ho [lit "nut"] ltac:(rewrite insert_empty, map_to_list_singleton; reflexivity))).
  reflexivity.
Defined.

(** The second and the fourth service hang; only the second is aborted. *)
Lemma service_stop_spec_witness :
  exists now, stop (fun d => d) (mkHandle 10 [Some 1; None; Some 3; None]) [1; 5; 10] =
    Some (false, now, [Finished; Aborted; Finished; LeftRunning]) /\ now <= 10.
Proof.
  destruct (service_stop_spec (fun d => d) (mkHandle 10 [Some 1; None; Some 3; None]) [1; 5]
    ltac:(repeat constructor) []) as (ok & now & fates & Hs & Hn & _).
  exists now. split; [|exact Hn]. vm_compute in Hs. injection Hs as <- <- <-. vm_compute. reflexivity.
Defined.
