(* ===== verification/Trust.v ===== *)
(** * Whom the program talks to

    The TLS mode of a daemon's configuration ([tls_mode.rs]), the pool that
    [create_pool] of [main.rs] makes of it, and the connections that the pool
    opens, keeps and lends: from the setting to the peer that an answer comes
    from. *)

From S2P Require Import Prelude RustStr Numbers Errors ParserUtils Response Command Client Tls Auth Config State Startup PoolClient.

(** ** What a request writes *)

Lemma read_line_sent s buf : sent (read_line s buf).2 = sent s.
Proof. unfold read_line. by repeat case_match. Qed.

Lemma list_loop_sent f s buf pos : sent (list_loop f s buf pos).2 = sent s.
Proof.
  revert s buf pos. induction f as [|f IH]; intros s buf pos; [done|]. cbn [list_loop].
  pose proof (read_line_sent s buf) as Hr. destruct (read_line s buf) as [[[[n b]| | |]|] s']; cbn in Hr |- *; try done.
  destruct (str_from b pos); [|done]. case_match; [done|]. by rewrite IH.
Qed.

(** A request that is answered has been written, once. *)
Lemma send_ok_sent {R} (p : parser R) c s r s' : send p (Some c) s = (Ok r, s') -> sent s' = sent s ++ c.
Proof.
  unfold send, mbind, io_bind, send_raw, inner_send_raw. intros H.
  destruct (write_all s c) as [w s1] eqn:Ew. assert (Hs1 : w = Ok tt -> sent s1 = sent s ++ c).
  { intros ->. unfold write_all in Ew. destruct (write_error s); [discriminate Ew|]. by injection Ew as <-. }
  destruct w as [[]|e| |]; [specialize (Hs1 eq_refl)|done| |]; try (unfold write_all in Ew; by destruct (write_error s)).
  rewrite <- Hs1. pose proof (read_line_sent s1 []) as Hr.
  destruct (read_line s1 []) as [[[[n b]| | |]|] s2]; cbn in Hr; cbv beta iota in H; try done. rewrite <- Hr.
  destruct (starts_with LIST_START b).
  - pose proof (list_loop_sent (S (length (incoming s2))) s2 b n) as Hl.
    destruct (list_loop _ s2 b n) as [[[t| | |]|] s3]; cbn in Hl; cbv beta iota in H; try done.
    case_bool_decide; [done|]. injection H as _ <-. done.
  - destruct (strip_prefix PROT_ERR b); [done|]. case_bool_decide; [done|]. by injection H as _ <-.
Qed.

(** ** What a request makes of a connection *)

(** More has been written to it, and less is left to read: nothing comes from anywhere else. *)
Definition used (s s' : Stream) : Prop := sent s `prefix_of` sent s' /\ incoming s' `suffix_of` incoming s.

#[export] Instance used_preorder : PreOrder used.
Proof. split; [done|]. intros a b c [H1 H2] [H3 H4]. split; by etrans. Qed.

(** The calls that do no more than that to the connection they run on. *)
Class Request {A} (call : io A) : Prop := request_used s : used s (call s).2.
#[global] Hint Mode Request ! ! : typeclass_instances.

Lemma write_all_used s bytes : used s (write_all s bytes).2.
Proof. unfold write_all. case_match; [done|]. split; [by apply prefix_app_r|done]. Qed.

Lemma read_line_used s buf : used s (read_line s buf).2.
Proof.
  split; [by rewrite read_line_sent|]. unfold read_line.
  pose proof (take_drop_while (fun c => negb (bool_decide (c = LF))) (incoming s)) as Hi.
  destruct (drop_while _ (incoming s)) as [|c rest]; [case_match|]; cbn; [apply suffix_nil..|].
  exists (take_while (fun c => negb (bool_decide (c = LF))) (incoming s) ++ [c]). by rewrite <- app_assoc.
Qed.

Lemma list_loop_used f s buf pos : used s (list_loop f s buf pos).2.
Proof.
  revert s buf pos. induction f as [|f IH]; intros s buf pos; [done|]. cbn [list_loop].
  pose proof (read_line_used s buf) as Hr. destruct (read_line s buf) as [[[[n b]| | |]|] s']; cbn in Hr |- *; try done.
  destruct (str_from b pos); [|done]. case_match; [done|]. by etrans.
Qed.

#[export] Instance send_raw_request c : Request (send_raw c).
Proof.
  intros s. unfold send_raw, inner_send_raw. pose proof (write_all_used s c) as Hw.
  destruct (write_all s c) as [[[]|e| |] s1]; cbn [snd] in Hw; [|done|..];
  (etrans; [exact Hw|]; pose proof (read_line_used s1 []) as Hr;
   destruct (read_line s1 []) as [[[[n b]| | |]|] s2]; cbn [snd] in Hr |- *; try done;
   destruct (starts_with LIST_START b);
   [|by destruct (strip_prefix PROT_ERR b)];
   pose proof (list_loop_used (S (length (incoming s2))) s2 b n) as Hl;
   destruct (list_loop _ s2 b n) as [[[t| | |]|] s3]; by etrans).
Qed.

#[export] Instance io_err_request {A} e : Request (io_err (A := A) e).
Proof. by intros s. Qed.
#[export] Instance io_ret_request {A} (a : A) : Request (mret a : io A).
Proof. by intros s. Qed.
#[export] Instance io_bind_request {A B} (m : io A) (f : A -> io B) :
  Request m -> (forall a, Request (f a)) -> Request (m ≫= f).
Proof.
  intros Hm Hf s. unfold mbind, io_bind. pose proof (Hm s) as H1.
  destruct (m s) as [[a|e| |] s1]; [|done..]. etrans; [exact H1|apply (Hf a)].
Qed.
#[export] Instance send_request {R} (p : parser R) command : Request (send p command).
Proof.
  unfold send. destruct command as [c|]; [|by intros s]. apply io_bind_request; [apply _|]. intros response.
  case_bool_decide; [apply _|by intros s].
Qed.
#[export] Instance send_trimmed_request c : Request (send_trimmed c).
Proof. apply io_bind_request; [apply _|]. intros response. case_bool_decide; apply _. Qed.

(** Every call of [AsyncNutClient]. *)
#[export] Instance get_protver_request : Request get_protver := _.
#[export] Instance get_ver_request : Request get_ver := _.
#[export] Instance get_cmd_desc_request ups cmd : Request (get_cmd_desc ups cmd) := _.
#[export] Instance get_ups_desc_request ups : Request (get_ups_desc ups) := _.
#[export] Instance get_var_request ups var : Request (get_var ups var) := _.
#[export] Instance get_var_type_request ups var : Request (get_var_type ups var) := _.
#[export] Instance get_var_desc_request ups var : Request (get_var_desc ups var) := _.
#[export] Instance list_client_request ups : Request (list_client ups) := _.
#[export] Instance list_cmd_request ups : Request (list_cmd ups) := _.
#[export] Instance list_enum_request ups var : Request (list_enum ups var) := _.
#[export] Instance list_range_request ups var : Request (list_range ups var) := _.
#[export] Instance list_rw_request ups : Request (list_rw ups) := _.
#[export] Instance list_ups_request : Request list_ups := _.
#[export] Instance list_var_request ups : Request (list_var ups) := _.

Lemma is_open_used s : used s (is_open s).2.
Proof.
  unfold is_open. pose proof (send_raw_request GetProtVer_serialize s) as H.
  destruct (send_raw _ s) as [[r|e| |] s']; cbn [snd] in H; try done.
  all: by repeat case_match.
Qed.

(** ** The connections of a pool *)

(** What rustls documents of a handshake that succeeds: the peer has presented a certificate, and the verifier of
    the configuration has accepted it for the name that was asked for. *)
Definition rustls_documented (tls_handshake : TlsConfig -> Stream -> outcome ErrorKind Stream)
  (presented : Stream -> Presented -> Prop) : Prop :=
  forall tls s s', tls_handshake tls s = Ok s' ->
    exists cert, presented s cert /\ accepts (certificate_verifier (config tls)) (srv_name tls) cert.

Section trust.

Context {E : Type} (platform : outcome E ServerCertVerifier) (server_name : str -> outcome E str).
Context (resolve : str -> outcome ErrorKind (list SockAddr)).
Context (tcp_connect : nat -> list SockAddr -> outcome ErrorKind TcpStream).
Context (tls_handshake : TlsConfig -> Stream -> outcome ErrorKind Stream).
Context (presented : Stream -> Presented -> Prop).

(** A connection as the mode of the configuration asks for. Without TLS it is the TCP connection to the
    configured address. With TLS nothing but STARTTLS has been written to it in clear, the daemon has
    agreed, and the connection is what the handshake made of it; in the strict mode the platform's
    verifier has accepted the daemon's certificate for the configured name. *)
Inductive opened_as (cfg : UpsdConfig) : Stream -> Prop :=
  | opened_plain attempt addrs s :
      tls_mode cfg = Disable -> resolve (get_socket_addr cfg) = Ok addrs -> connect tcp_connect attempt addrs = Ok s ->
      opened_as cfg s
  | opened_tls attempt addrs plain agreed tls s :
      tls_mode cfg <> Disable -> resolve (get_socket_addr cfg) = Ok addrs -> connect tcp_connect attempt addrs = Ok plain ->
      starttls plain = (Ok tt, agreed) -> sent agreed = sent plain ++ StartTls_serialize ->
      tls_handshake tls agreed = Ok s -> server_name (Config.addr cfg) = Ok (srv_name tls) ->
      (tls_mode cfg = Strict -> exists verifier cert, platform = Ok verifier /\ presented agreed cert /\
         accepts verifier (srv_name tls) cert) ->
      opened_as cfg s.

(** Such a connection after requests: what is read from it has come over it. *)
Definition descends (cfg : UpsdConfig) (s : Stream) : Prop := exists opened, opened_as cfg opened /\ used opened s.

Lemma descends_opened cfg s : opened_as cfg s -> descends cfg s.
Proof. intros H. by exists s. Qed.
Lemma descends_used cfg s s' : used s s' -> descends cfg s -> descends cfg s'.
Proof. intros Hu (o & Ho & H). exists o. split; [done|by etrans]. Qed.

(** The pools of a server: the one that [create_pool] makes, after calls on it, after a connection has been taken
    from it, and after one of its connections has come back. *)
Inductive pool_of (cfg : UpsdConfig) : NutPoolClient -> Prop :=
  | pool_created p : create_pool platform server_name cfg = Ok p -> pool_of cfg p
  | pool_called {A} (call : io A) p : Request call -> pool_of cfg p ->
      pool_of cfg (impl_pooled_call resolve tcp_connect tls_handshake call p).2
  | pool_taken p : pool_of cfg p -> pool_of cfg (get_client resolve tcp_connect tls_handshake p).2
  | pool_returned s p : pool_of cfg p -> descends cfg s -> pool_of cfg (pool_release s p)
  | pool_closed p : pool_of cfg p -> pool_of cfg (pool_close p).

Abbreviation get := (pool_get resolve tcp_connect tls_handshake) (only parsing).
Abbreviation get_checked := (pool_get_checked resolve tcp_connect tls_handshake) (only parsing).

(** What holds of a pool between calls. *)
Record trusted (cfg : UpsdConfig) (p : NutPoolClient) : Prop := {
  tr_idle : Forall (descends cfg) (idle p);
  tr_addr : addr (pool_allocator p) = Host (get_socket_addr cfg);
  tr_tls : match tls_mode cfg with
           | Disable => tls_config (pool_allocator p) = None
           | mode => exists v name, platform = Ok v /\ server_name (Config.addr cfg) = Ok name /\
               tls_config (pool_allocator p) = Some (mkTlsConfig name
                 (mkClientConfig (if decide (mode = Strict) then v else SkipTlsVerifier)))
           end }.

Lemma trusted_allocator cfg p p' : trusted cfg p -> pool_allocator p' = pool_allocator p ->
  Forall (descends cfg) (idle p') -> trusted cfg p'.
Proof. intros [_ Ha Ht] E' Hi. split; [done|by rewrite E'|by rewrite E']. Qed.

Lemma dealloc_trusted cfg s p : trusted cfg p -> trusted cfg (dealloc s p).
Proof. intros Ht. by apply (trusted_allocator cfg p); [..|apply (tr_idle cfg p)]. Qed.

(** Taking a permit and giving it back touches no connection. *)
Lemma permits_trusted cfg n p : trusted cfg p -> trusted cfg (set_permits n p).
Proof. intros Ht. by apply (trusted_allocator cfg p); [..|apply (tr_idle cfg p)]. Qed.
Lemma acquire_trusted cfg p : trusted cfg p -> trusted cfg (acquire_owned p).2.
Proof.
  intros Ht. unfold acquire_owned. destruct (is_closed p); [done|]. destruct (permits p); [done|]. by apply permits_trusted.
Qed.

Context (Hdoc : rustls_documented tls_handshake presented).

Lemma init_trusted cfg p : trusted cfg p ->
  trusted cfg (init resolve tcp_connect tls_handshake p).2 /\
  forall s, (init resolve tcp_connect tls_handshake p).1 = Ok s -> opened_as cfg s.
Proof using Hdoc.
  intros Ht. split.
  { apply (trusted_allocator cfg p); [done|..]; unfold init; destruct (to_socket_addrs _ _); try done; apply Ht. }
  intros s. destruct Ht as [_ Ha Ht]. unfold init. rewrite Ha. cbn [to_socket_addrs].
  destruct (resolve _) as [addrs| | |] eqn:Er; try done. cbn [fst].
  destruct (tls_mode cfg) eqn:Em.
  - rewrite Ht. intros Hs. by eapply opened_plain.
  - destruct Ht as (v & name & Hv & Hn & ->). unfold connect_with_tls.
    destruct (connect _ _ addrs) as [plain| | |] eqn:Ec; try done. cbn [obind].
    destruct (starttls plain) as [[[]| | |] agreed] eqn:Es; try done. cbn [obind]. intros Hs.
    eapply opened_tls; try done; [by rewrite Em|by apply send_ok_sent in Es|]. intros _.
    destruct (Hdoc _ _ _ Hs) as (cert & Hp & Hacc). exists v, cert. by split_and!.
  - destruct Ht as (v & name & Hv & Hn & ->). unfold connect_with_tls.
    destruct (connect _ _ addrs) as [plain| | |] eqn:Ec; try done. cbn [obind].
    destruct (starttls plain) as [[[]| | |] agreed] eqn:Es; try done. cbn [obind]. intros Hs.
    eapply opened_tls; try done; [by rewrite Em|by apply send_ok_sent in Es|]. by rewrite Em.
Qed.

Lemma init_guard_trusted cfg p : trusted cfg p ->
  trusted cfg (init_guard resolve tcp_connect tls_handshake p).2 /\
  forall s, (init_guard resolve tcp_connect tls_handshake p).1 = Ok s -> descends cfg s.
Proof using Hdoc.
  intros Ht. destruct (init_trusted cfg p Ht) as [H1 H2]. unfold init_guard.
  destruct (init _ _ _ p) as [[s| | |] p']; split; try done; try by apply permits_trusted.
  intros s' [= <-]. by apply descends_opened, H2.
Qed.

Lemma get_trusted cfg p : trusted cfg p -> trusted cfg (get p).2 /\ forall s, (get p).1 = Ok s -> descends cfg s.
Proof using Hdoc.
  intros Ht%acquire_trusted. unfold pool_get. destruct (acquire_owned p) as [[[]| | |] q]; [|done..]. cbn [snd] in Ht.
  destruct (idle q) as [|item rest] eqn:Ei; [by apply init_guard_trusted|].
  pose proof (tr_idle cfg q Ht) as Hi. rewrite Ei in Hi. apply list.Forall_cons in Hi as [Hitem Hi].
  split; [by apply (trusted_allocator cfg q)|]. by intros s [= <-].
Qed.

Lemma checked_loop_trusted cfg items p : trusted cfg p -> Forall (descends cfg) items ->
  trusted cfg (checked_loop resolve tcp_connect tls_handshake items p).2 /\
  forall s, (checked_loop resolve tcp_connect tls_handshake items p).1 = Ok s -> descends cfg s.
Proof using Hdoc.
  intros Ht Hi. revert p Ht. induction Hi as [|item rest Hitem Hrest IH]; intros p Ht; cbn [checked_loop].
  - apply init_guard_trusted. by apply (trusted_allocator cfg p).
  - destruct (is_open item) as [[] item'] eqn:Eo; cbn [fst snd].
    + split; [by apply (trusted_allocator cfg p)|]. intros s [= <-].
      eapply descends_used; [|exact Hitem]. pose proof (is_open_used item) as Hu. by rewrite Eo in Hu.
    + apply IH. by apply dealloc_trusted.
Qed.

Lemma get_checked_trusted cfg p : trusted cfg p ->
  trusted cfg (get_checked p).2 /\ forall s, (get_checked p).1 = Ok s -> descends cfg s.
Proof using Hdoc.
  intros Ht%acquire_trusted. unfold pool_get_checked. destruct (acquire_owned p) as [[[]| | |] q]; [|done..].
  by apply checked_loop_trusted; [|apply tr_idle].
Qed.

Lemma release_trusted cfg s p : trusted cfg p -> descends cfg s -> trusted cfg (pool_release s p).
Proof.
  intros Ht Hs. unfold pool_release. apply permits_trusted. destruct (is_closed p); [by apply dealloc_trusted|].
  apply (trusted_allocator cfg p); [done..|]. apply Forall_app_2; [by apply tr_idle|by apply Forall_singleton].
Qed.

Lemma get_client_trusted cfg p : trusted cfg p ->
  trusted cfg (get_client resolve tcp_connect tls_handshake p).2 /\
  forall s, (get_client resolve tcp_connect tls_handshake p).1 = Ok s -> descends cfg s.
Proof using Hdoc.
  intros Ht%get_checked_trusted. unfold get_client. destruct (get_checked p) as [[s| | |] q]; [|done..].
  destruct Ht as [Ht Hs]. split; [by apply permits_trusted|done].
Qed.

Lemma call_action_trusted {A} cfg (call : io A) `{!Request call} s p : trusted cfg p -> descends cfg s ->
  trusted cfg (call_action call s p).2.
Proof.
  intros Ht Hs. unfold call_action. pose proof (descends_used cfg s _ (request_used (call := call) s) Hs) as Hc.
  destruct (call s) as [[a|e| |] s']; cbn [snd] in Hc |- *.
  - by apply release_trusted.
  - destruct (drops_client e); [|by apply release_trusted]. by apply (trusted_allocator cfg p); [..|apply (tr_idle cfg p)].
  - by apply (trusted_allocator cfg p); [..|apply (tr_idle cfg p)].
  - by apply (trusted_allocator cfg p); [..|apply (tr_idle cfg p)].
Qed.

(** A pooled call leaves the pool as it has to be, and its answer comes from one of the pool's connections. *)
Lemma pooled_call_trusted {A} cfg (call : io A) `{!Request call} p : trusted cfg p ->
  trusted cfg (impl_pooled_call resolve tcp_connect tls_handshake call p).2 /\
  forall a, (impl_pooled_call resolve tcp_connect tls_handshake call p).1 = Ok a ->
    exists s, descends cfg s /\ (call s).1 = Ok a.
Proof using Hdoc.
  intros Ht. unfold impl_pooled_call. destruct (get_trusted cfg p Ht) as [H1 H2].
  destruct (get p) as [[s|e| |] p1]; cbn [fst snd] in *; try done. specialize (H2 s eq_refl).
  pose proof (call_action_trusted cfg call s p1 H1 H2) as H3. pose proof (call_action_result call s p1) as H4.
  destruct (call_action call s p1) as [[a|err| |] p2]; cbn [fst snd] in *; try done.
  { split; [done|]. intros a' [= <-]. eauto. }
  destruct (retries err); [|done]. destruct (get_checked_trusted cfg p2 H3) as [H5 H6].
  destruct (get_checked p2) as [[s'|e| |] p3]; cbn [fst snd] in *; try done. specialize (H6 s' eq_refl).
  split; [by apply call_action_trusted|]. intros a Ha. rewrite call_action_result in Ha. eauto.
Qed.

Lemma pool_of_trusted cfg p : pool_of cfg p -> trusted cfg p.
Proof using Hdoc.
  induction 1 as [p Hp|A call p Hc _ IH|p _ IH|s p _ IH Hs|p _ IH].
  - pose proof (create_pool_spec _ _ _ _ Hp) as (_ & Hi & _ & Ha & _). pose proof (create_pool_tls _ _ _ _ Hp) as Ht.
    split; [by rewrite Hi|done|done].
  - by apply pooled_call_trusted.
  - by apply get_client_trusted.
  - by apply release_trusted.
  - unfold pool_close, pool_clear. generalize (idle (close_permits p)). intros l. induction l as [|c l IHl]; cbn [foldr].
    + by apply (trusted_allocator cfg p).
    + by apply dealloc_trusted.
Qed.

End trust.

(** C5: An answer is trusted as far as the configuration says. Whatever calls have been made on the pool of a
    daemon, whatever has been taken from it, given back or closed, every connection that it keeps or
    lends, and the one that a request's answer comes from, is one that was opened as the TLS mode asks,
    with more written to it and less left to read: without TLS to the configured address; with it only after nothing but STARTTLS had been
    written in clear and the daemon had agreed to it; and in the strict mode only after the platform's
    verifier had accepted the daemon's certificate for the configured name. Only the mode that skips the
    verification installs the verifier that accepts everything. *)
Theorem tls_trust {E : Type} (platform : outcome E ServerCertVerifier) (server_name : str -> outcome E str)
  (resolve : str -> outcome ErrorKind (list SockAddr)) (tcp_connect : nat -> list SockAddr -> outcome ErrorKind TcpStream)
  (tls_handshake : TlsConfig -> Stream -> outcome ErrorKind Stream) (presented : Stream -> Presented -> Prop)
  (Hdoc : rustls_documented tls_handshake presented) (cfg : UpsdConfig) (p : NutPoolClient)
  (Hp : pool_of platform server_name resolve tcp_connect tls_handshake presented cfg p) :
  let ok := descends platform server_name resolve tcp_connect tls_handshake presented cfg in
  Forall ok (idle p) /\
  (forall A (call : io A) a, Request call -> (impl_pooled_call resolve tcp_connect tls_handshake call p).1 = Ok a ->
     exists s, ok s /\ (call s).1 = Ok a) /\
  (forall s, (get_client resolve tcp_connect tls_handshake p).1 = Ok s -> ok s) /\
  (forall tls, tls_config (pool_allocator p) = Some tls ->
     tls_mode cfg <> Disable /\ server_name (Config.addr cfg) = Ok (srv_name tls) /\
     (tls_mode cfg = Strict -> platform = Ok (certificate_verifier (config tls))) /\
     (tls_mode cfg = SkipVerify -> certificate_verifier (config tls) = SkipTlsVerifier)).
Proof.
  intros ok. pose proof (pool_of_trusted _ _ _ _ _ _ Hdoc cfg p Hp) as Ht. split_and!.
  - apply Ht.
  - intros A call a Hc. by apply pooled_call_trusted.
  - by apply get_client_trusted.
  - intros tls Htls. destruct Ht as [_ _ Ht]. rewrite Htls in Ht. destruct (tls_mode cfg); [done|..];
      destruct Ht as (v & name & -> & -> & [= ->]); by split_and!.
Qed.

(** ** Witness: a daemon whose certificate the platform knows *)

Definition demo_verifier : ServerCertVerifier :=
  mkVerifier (fun cert _ name _ _ => if decide (cert = name) then Ok tt else Err (mkTlsError (lit "unknown issuer")))
    (fun _ _ _ => Ok tt) (fun _ _ _ => Ok tt) [ED25519].
Definition demo_strict : UpsdConfig := mkUpsdConfig 30 2 (lit "ups.lan") 3493 None None 4 Strict.
Definition demo_tcp (attempt : nat) (addrs : list SockAddr) : outcome ErrorKind TcpStream :=
  Ok (mkTcpStream (mkStream [] (lit "OK STARTTLS" ++ [LF]) false None) (Ok tt) (Ok tt)).
(** The peer's certificate is its name; the handshake leaves what the daemon says next. *)
Definition demo_presented (s : Stream) (p : Presented) : Prop := pr_end_entity p = lit "ups.lan".
Definition demo_handshake (tls : TlsConfig) (s : Stream) : outcome ErrorKind Stream :=
  match verify_server_cert (certificate_verifier (config tls)) (lit "ups.lan") [] (srv_name tls) [] 0%Z with
  | Ok _ => Ok (mkStream [] (lit "1.3" ++ [LF]) false None)
  | _ => Err (IOError (lit "invalid peer certificate"))
  end.

Lemma demo_rustls : rustls_documented demo_handshake demo_presented.
Proof.
  intros tls s s' H. exists (mkPresented (lit "ups.lan") [] [] 0%Z). split; [done|]. unfold demo_handshake in H. unfold accepts. cbn.
  by destruct (verify_server_cert _ _ _ _ _ _) as [[]| | |].
Qed.

Lemma tls_trust_witness :
  exists p s, create_pool (E := unit) (Ok demo_verifier) Ok demo_strict = Ok p /\
    (get_protver s).1 = Ok (lit "1.3") /\
    descends (E := unit) (Ok demo_verifier) Ok (fun _ => Ok []) demo_tcp demo_handshake demo_presented demo_strict s.
Proof.
  destruct (create_pool (E := unit) (Ok demo_verifier) Ok demo_strict) as [p| | |] eqn:Hp;
    [|exfalso; discriminate Hp..].
  exists p.
  assert (Ha : (impl_pooled_call (fun _ => Ok []) demo_tcp demo_handshake get_protver p).1 = Ok (lit "1.3")).
  { injection Hp as <-. vm_compute. reflexivity. }
  destruct (tls_trust (E := unit) (Ok demo_verifier) Ok (fun _ => Ok []) demo_tcp demo_handshake demo_presented
    demo_rustls demo_strict p (pool_created _ _ _ _ _ _ _ p Hp)) as (_ & Hcall & _).
  destruct (Hcall str get_protver (lit "1.3") get_protver_request Ha) as (s & Hs & Hr). exists s. split; [reflexivity|]. split; [exact Hr|exact Hs].
Defined.
