(* ===== verification/DescSync.v ===== *)
(** * Description synchronisation

    [sync/sync_desc.rs]: when devices arrive, the task asks their daemon for
    the descriptions of variables and commands that the shared table does not
    have yet. The daemon's answers and the orders of hash maps and of finished
    tasks are parameters. *)

From S2P Require Import Prelude RustStr Numbers Errors Names VarName Value Ip UpsVariables ParserUtils VarType.
From S2P Require Import Status Response Config State Api Events.

(** The shared table, by the text of the key. *)
Abbreviation SharedDesc := (gmap (list Byte.byte) (list Byte.byte)) (only parsing).

Record TaskContext := mkTaskContext { ctx_name : UpsName; ctx_cmds : list CmdName; ctx_vars : list VarName }.

(** What [events.recv()] or the cancellation of the service brings. *)
Inductive DescInput := DescEvent (event : SystemEvent) | DescLagged (lagged : nat) | DescClosed | DescCancelled.

Section desc.

(** [entry.variables.iter()], and the order in which [join_all] gives results. *)
Context (iter : UpsVariables -> list VarName) (join_all : list (list (str * str)) -> list (list (str * str))).
(** The daemon's answer to a request through the pool. *)
Context (get_cmd_desc : str -> UpsName -> CmdName -> outcome ErrorKind CmdDesc).
Context (get_var_desc : str -> UpsName -> VarName -> outcome ErrorKind UpsVarDesc).

(** The loop over names: those that are neither in the table nor asked for already. *)
Fixpoint pick {A} (as_str : A -> str) (shared : SharedDesc) (names : list A) (tmp_lookup : gset str) (out : list A)
  : gset str * list A :=
  match names with
  | [] => (tmp_lookup, out)
  | n :: names =>
      let name := as_str n in
      if bool_decide (shared !! name = None) && bool_decide (name ∉ tmp_lookup)
      then pick as_str shared names ({[ name ]} ∪ tmp_lookup) (out ++ [n])
      else pick as_str shared names tmp_lookup out
  end.

Fixpoint task_contexts (daemon : DaemonState) (shared : SharedDesc) (names : list UpsName) (tmp_lookup : gset str)
  (ctxs : list TaskContext) : list TaskContext :=
  match names with
  | [] => ctxs
  | name :: names =>
      match devices daemon !! name with
      | Some entry =>
          let '(tmp_lookup, vars) := pick VarName_as_str shared (iter (variables entry)) tmp_lookup [] in
          let '(tmp_lookup, cmds) := pick cmd_name shared (commands entry) tmp_lookup [] in
          task_contexts daemon shared names tmp_lookup
            (match cmds, vars with
             | [], [] => ctxs
             | _, _ => ctxs ++ [mkTaskContext name cmds vars]
             end)
      | None => task_contexts daemon shared names tmp_lookup ctxs
      end
  end.

(** [load_descs]: the answers, without the errors. *)
Definition load_descs (namespace : str) (ctx : TaskContext) : list (str * str) :=
  omap (fun c => match get_cmd_desc namespace (ctx_name ctx) c with
                 | Ok d => Some (cmd_name (cd_cmd d), cd_desc d)
                 | _ => None
                 end) (ctx_cmds ctx) ++
  omap (fun v => match get_var_desc namespace (ctx_name ctx) v with
                 | Ok d => Some (VarName_as_str (vd_name d), vd_desc d)
                 | _ => None
                 end) (ctx_vars ctx).

(** [DescriptionTask::next]: the shared table after it. *)
Definition desc_next (servers : Servers) (names : list UpsName) (namespace : str) (shared : SharedDesc) : SharedDesc :=
  match servers !! namespace with
  | None => shared
  | Some upsd =>
      let task_ctx := task_contexts (daemon_state upsd) shared names ∅ [] in
      match task_ctx with
      | [] => shared
      | _ =>
          let results := join_all (load_descs namespace <$> task_ctx) in
          foldl (fun shared kv => <[kv.1 := kv.2]> shared) shared (concat results)
      end
  end.

(** [DescriptionSyncService::run]: the table after the inputs, and whether the
    service has left its loop. *)
Fixpoint desc_run (servers : Servers) (inputs : list DescInput) (shared : SharedDesc) : SharedDesc * bool :=
  match inputs with
  | [] => (shared, false)
  | DescEvent (DeviceAddition names namespace) :: inputs =>
      desc_run servers inputs (desc_next servers names namespace shared)
  | DescEvent _ :: inputs => desc_run servers inputs shared
  | DescLagged _ :: inputs => desc_run servers inputs shared
  | DescClosed :: _ | DescCancelled :: _ => (shared, true)
  end.

(** ** Reference definitions *)

(** Something to describe: a variable or a command of a device. *)
Inductive Described := DescVar (n : UpsName) (v : VarName) | DescCmd (n : UpsName) (c : CmdName).

Definition desc_key (d : Described) : str :=
  match d with DescVar _ v => VarName_as_str v | DescCmd _ c => cmd_name c end.

(** What the daemon says of it. *)
Definition answer (namespace : str) (d : Described) : option str :=
  match d with
  | DescVar n v => match get_var_desc namespace n v with Ok r => Some (vd_desc r) | _ => None end
  | DescCmd n c => match get_cmd_desc namespace n c with Ok r => Some (cd_desc r) | _ => None end
  end.

(** The variables and commands of the devices, in the order of the loops. *)
Definition described (daemon : DaemonState) (names : list UpsName) : list Described :=
  name ← names;
  match devices daemon !! name with
  | Some entry => (DescVar name <$> iter (variables entry)) ++ (DescCmd name <$> commands entry)
  | None => []
  end.

(** The first of each key that is not known. *)
Fixpoint fresh_keys (known : gset str) (ds : list Described) : list Described :=
  match ds with
  | [] => []
  | d :: ds => if bool_decide (desc_key d ∈ known) then fresh_keys known ds
               else d :: fresh_keys ({[ desc_key d ]} ∪ known) ds
  end.

(** The requests of a task, and what comes back of one. *)
Definition requests (ctx : TaskContext) : list Described :=
  (DescVar (ctx_name ctx) <$> ctx_vars ctx) ++ (DescCmd (ctx_name ctx) <$> ctx_cmds ctx).
Definition result (namespace : str) (d : Described) : option (str * str) :=
  match d with
  | DescVar n v => match get_var_desc namespace n v with Ok r => Some (VarName_as_str (vd_name r), vd_desc r) | _ => None end
  | DescCmd n c => match get_cmd_desc namespace n c with Ok r => Some (cmd_name (cd_cmd r), cd_desc r) | _ => None end
  end.

(** ** Lemmas *)

Lemma fresh_keys_app known l1 l2 :
  fresh_keys known (l1 ++ l2) = fresh_keys known l1 ++ fresh_keys (list_to_set (desc_key <$> l1) ∪ known) l2.
Proof using.
  clear get_cmd_desc get_var_desc join_all.
  revert known. induction l1 as [|d l1 IH]; intros known; cbn.
  { by rewrite (left_id_L ∅ (∪)). }
  case_bool_decide as Hd; rewrite IH; cbn.
  - do 2 f_equal. set_solver.
  - do 3 f_equal. set_solver.
Qed.

Lemma fresh_keys_ext known known' l : (forall k, k ∈ known <-> k ∈ known') -> fresh_keys known l = fresh_keys known' l.
Proof using.
  clear get_cmd_desc get_var_desc join_all. intros H. f_equal. by apply set_eq. Qed.

Lemma fresh_keys_spec known l : NoDup (desc_key <$> fresh_keys known l) /\
  (forall d, d ∈ fresh_keys known l -> desc_key d ∉ known) /\
  (forall k, k ∉ known -> find (fun d => bool_decide (desc_key d = k)) (fresh_keys known l) =
                           find (fun d => bool_decide (desc_key d = k)) l).
Proof using.
  clear get_cmd_desc get_var_desc join_all.
  revert known. induction l as [|d l IH]; intros known; [split_and!; [constructor|set_solver|done]|].
  cbn [fresh_keys]. case_bool_decide as Hd.
  - destruct (IH known) as (H1 & H2 & H3). split_and!; [done..|]. intros k Hk. rewrite H3 by done. cbn.
    rewrite bool_decide_eq_false_2; [done|]. by intros <-.
  - destruct (IH ({[ desc_key d ]} ∪ known)) as (H1 & H2 & H3). split_and!.
    + cbn. apply list.NoDup_cons. split; [|done]. rewrite list_elem_of_fmap. intros (x & Hx & Hin). apply H2 in Hin. set_solver.
    + intros x [->|Hx]%elem_of_cons; [done|]. apply H2 in Hx. set_solver.
    + intros k Hk. cbn. case_bool_decide as Hkd; [done|]. apply H3. set_solver.
Qed.

(** A loop over names keeps the fresh ones. *)
Lemma pick_spec {A} (as_str : A -> str) (f : A -> Described) shared names tmp out :
  (forall n, desc_key (f n) = as_str n) ->
  let r := pick as_str shared names tmp out in
  (f <$> r.2) = (f <$> out) ++ fresh_keys (dom shared ∪ tmp) (f <$> names) /\
  (forall k, k ∈ dom shared ∪ r.1 <-> k ∈ list_to_set (C := gset str) (as_str <$> names) ∪ (dom shared ∪ tmp)).
Proof using.
  clear get_cmd_desc get_var_desc join_all.
  intros Hf. cbn zeta. revert tmp out. induction names as [|n names IH]; intros tmp out.
  { cbn. rewrite app_nil_r. split; [done|set_solver]. }
  cbn [pick fmap list_fmap fresh_keys]. rewrite Hf.
  assert (Hdom : shared !! as_str n = None <-> as_str n ∉ dom shared) by (by rewrite not_elem_of_dom).
  destruct (decide (as_str n ∈ dom shared ∪ tmp)) as [Hin|Hin].
  - rewrite (bool_decide_eq_true_2 (as_str n ∈ _)) by done.
    assert (Hc : bool_decide (shared !! as_str n = None) && bool_decide (as_str n ∉ tmp) = false).
    { apply andb_false_iff. rewrite !bool_decide_eq_false. rewrite Hdom. set_unfold. tauto. }
    rewrite Hc. destruct (IH tmp out) as [H1 H2]. split; [done|]. intros k. rewrite H2. cbn. set_solver.
  - rewrite (bool_decide_eq_false_2 (as_str n ∈ _)) by done.
    rewrite bool_decide_eq_true_2 by (apply Hdom; set_solver).
    rewrite bool_decide_eq_true_2 by set_solver. cbn [andb].
    destruct (IH ({[ as_str n ]} ∪ tmp) (out ++ [n])) as [H1 H2]. split.
    + rewrite H1, fmap_app, <- app_assoc. cbn. do 2 f_equal. apply fresh_keys_ext. set_solver.
    + intros k. rewrite H2. cbn. set_solver.
Qed.

Lemma task_contexts_spec daemon shared names tmp ctxs :
  (ctx ← task_contexts daemon shared names tmp ctxs; requests ctx) =
  (ctx ← ctxs; requests ctx) ++ fresh_keys (dom shared ∪ tmp) (described daemon names).
Proof using.
  clear get_cmd_desc get_var_desc join_all.
  revert tmp ctxs. induction names as [|name names IH]; intros tmp ctxs; [cbn; by rewrite app_nil_r|].
  unfold described. cbn [task_contexts mbind list_bind]. fold (described daemon names).
  destruct (devices daemon !! name) as [entry|]; [|apply IH].
  destruct (pick_spec VarName_as_str (DescVar name) shared (iter (variables entry)) tmp [] ltac:(done)) as [Hv Hk].
  destruct (pick VarName_as_str _ _ tmp []) as [tmp1 vars]. cbn [fst snd fmap list_fmap app] in Hv, Hk.
  destruct (pick_spec cmd_name (DescCmd name) shared (commands entry) tmp1 [] ltac:(done)) as [Hc Hk'].
  destruct (pick cmd_name _ _ tmp1 []) as [tmp2 cmds]. cbn [fst snd fmap list_fmap app] in Hc, Hk'.
  assert (Hreq : forall c : TaskContext, mbind requests [c] = requests c) by (intros; cbn; apply app_nil_r).
  assert (Hctx : (ctx ← (match cmds, vars with [], [] => ctxs | _, _ => ctxs ++ [mkTaskContext name cmds vars] end);
      requests ctx) = (ctx ← ctxs; requests ctx) ++ requests (mkTaskContext name cmds vars)).
  { destruct cmds, vars; rewrite ?bind_app, ?Hreq; try done. cbn. by rewrite app_nil_r. }
  rewrite IH, Hctx, !fresh_keys_app, <- !app_assoc. f_equal. unfold requests. cbn [ctx_name ctx_vars ctx_cmds].
  rewrite Hv, Hc, <- !app_assoc. f_equal. f_equal.
  - apply fresh_keys_ext. intros k. rewrite Hk, <- list_fmap_compose. done.
  - apply fresh_keys_ext. intros k. rewrite Hk'. specialize (Hk k). rewrite fmap_app, list_to_set_app_L, <- !list_fmap_compose.
    change (desc_key ∘ DescVar name) with VarName_as_str. change (desc_key ∘ DescCmd name) with cmd_name.
    rewrite !elem_of_union in Hk. repeat rewrite elem_of_union. tauto.
Qed.

Lemma load_descs_requests namespace ctx : load_descs namespace ctx ≡ₚ omap (result namespace) (requests ctx).
Proof.
  unfold load_descs, requests. rewrite omap_app, Permutation_app_comm.
  apply Permutation_app; apply reflexive_eq.
  - induction (ctx_vars ctx) as [|v l IH]; [done|]. cbn. destruct (get_var_desc _ _ _); cbn; by rewrite IH.
  - induction (ctx_cmds ctx) as [|c l IH]; [done|]. cbn. destruct (get_cmd_desc _ _ _); cbn; by rewrite IH.
Qed.

Lemma foldl_insert_lookup (l : list (str * str)) (m : SharedDesc) k : NoDup l.*1 ->
  foldl (fun shared kv => <[kv.1 := kv.2]> shared) m l !! k =
  match list_to_map (M := SharedDesc) l !! k with Some v => Some v | None => m !! k end.
Proof using.
  revert m. induction l as [|[a v] l IH]; intros m Hnd; [by rewrite list_to_map_nil, lookup_empty|].
  cbn in Hnd. apply list.NoDup_cons in Hnd as [Ha Hnd]. cbn [foldl fst snd]. rewrite IH, list_to_map_cons by done.
  destruct (decide (a = k)) as [<-|Hne].
  - assert (Hn : list_to_map (M := SharedDesc) l !! a = None) by by apply not_elem_of_list_to_map_1.
    by rewrite Hn, !lookup_insert_eq.
  - by rewrite !lookup_insert_ne.
Qed.

(** The daemon answers about what it was asked. *)
Definition echoes (namespace : str) : Prop :=
  (forall n v r, get_var_desc namespace n v = Ok r -> VarName_as_str (vd_name r) = VarName_as_str v) /\
  (forall n c r, get_cmd_desc namespace n c = Ok r -> cmd_name (cd_cmd r) = cmd_name c).

Lemma result_answer namespace d : echoes namespace ->
  result namespace d = (fun s => (desc_key d, s)) <$> answer namespace d.
Proof.
  intros [Hv Hc]. destruct d as [n v|n c]; cbn.
  - destruct (get_var_desc _ _ _) eqn:E; [|done..]. cbn. by rewrite (Hv _ _ _ E).
  - destruct (get_cmd_desc _ _ _) eqn:E; [|done..]. cbn. by rewrite (Hc _ _ _ E).
Qed.

Lemma results_lookup namespace R k : echoes namespace -> NoDup (desc_key <$> R) ->
  NoDup (omap (result namespace) R).*1 /\ (forall x, x ∈ (omap (result namespace) R).*1 -> x ∈ desc_key <$> R) /\
  list_to_map (M := SharedDesc) (omap (result namespace) R) !! k =
  (find (fun d => bool_decide (desc_key d = k)) R ≫= answer namespace).
Proof.
  intros He. induction R as [|d R IH]; intros Hnd; [split_and!; [apply base.NoDup_nil_2|done|exact (lookup_empty k)]|].
  cbn in Hnd. apply list.NoDup_cons in Hnd as [Hd Hnd]. destruct (IH Hnd) as (H1 & H2 & H3). cbn.
  rewrite (result_answer _ d He). case_bool_decide as Hk; cbn [mbind option_bind].
  - destruct (answer namespace d) as [s|] eqn:Ea; cbn.
    + split_and!; [|set_solver|by rewrite Hk, lookup_insert_eq]. apply list.NoDup_cons. split; [|done]. intros Hin. by apply Hd, H2.
    + split_and!; [done|set_solver|]. rewrite H3. rewrite Hk in Hd.
      destruct (find _ R) as [x|] eqn:Ef; [|done]. apply find_some in Ef as [Hx Hxk]. apply bool_decide_eq_true in Hxk.
      exfalso. apply Hd. rewrite <- Hxk. apply list_elem_of_fmap. exists x. split; [done|]. by apply list_elem_of_In.
  - destruct (answer namespace d) as [s|] eqn:Ea; cbn.
    + split_and!; [|set_solver|by rewrite lookup_insert_ne]. apply list.NoDup_cons. split; [|done]. intros Hin. by apply Hd, H2.
    + split_and!; [done|set_solver|done].
Qed.

(** The table after the task. *)
Lemma desc_next_lookup servers names namespace shared upsd k : (forall l, join_all l ≡ₚ l) -> echoes namespace ->
  servers !! namespace = Some upsd ->
  desc_next servers names namespace shared !! k =
  match shared !! k with
  | Some d => Some d
  | None => find (fun d => bool_decide (desc_key d = k)) (described (daemon_state upsd) names) ≫= answer namespace
  end.
Proof.
  intros Hj He Hu. unfold desc_next. rewrite Hu.
  set (R := fresh_keys (dom shared) (described (daemon_state upsd) names)).
  set (L := concat (join_all (load_descs namespace <$> task_contexts (daemon_state upsd) shared names ∅ []))).
  assert (HL : L ≡ₚ omap (result namespace) R).
  { unfold L. rewrite (Hj _).
    pose proof (task_contexts_spec (daemon_state upsd) shared names ∅ []) as Hr.
    rewrite (right_id_L ∅ (∪)) in Hr. cbn [mbind list_bind app] in Hr. fold R in Hr. rewrite <- Hr. clear.
    induction (task_contexts _ _ _ _ _) as [|ctx l IH]; [done|]. cbn [fmap list_fmap concat mbind list_bind].
    by rewrite omap_app, IH, load_descs_requests. }
  destruct (fresh_keys_spec (dom shared) (described (daemon_state upsd) names)) as (Hnd & Hfresh & Hfind). fold R in Hnd, Hfresh, Hfind.
  destruct (results_lookup namespace R k He Hnd) as (H1 & H2 & H3).
  assert (Hres : foldl (fun shared kv => <[kv.1 := kv.2]> shared) shared L !! k =
    match shared !! k with Some d => Some d | None => find (fun d => bool_decide (desc_key d = k)) R ≫= answer namespace end).
  { rewrite foldl_insert_lookup by (by rewrite HL). rewrite (list_to_map_proper L _ ltac:(by rewrite HL) HL), H3.
    destruct (shared !! k) as [x|] eqn:Ex; [|by destruct (_ ≫= _)].
    destruct (find _ R) as [d|] eqn:Ef; [|done]. apply find_some in Ef as [Hd Hdk]. apply bool_decide_eq_true in Hdk.
    exfalso. apply list_elem_of_In in Hd. apply (Hfresh _ Hd). rewrite Hdk. by apply elem_of_dom. }
  assert (Hf : shared !! k = None -> find (fun d => bool_decide (desc_key d = k)) R =
    find (fun d => bool_decide (desc_key d = k)) (described (daemon_state upsd) names)).
  { intros Hn. apply Hfind. by apply not_elem_of_dom. }
  transitivity (foldl (fun shared kv => <[kv.1 := kv.2]> shared) shared L !! k).
  - unfold L. destruct (task_contexts _ _ _ _ _) eqn:Et; [|done]. cbn [fmap list_fmap].
    assert (Hnil : join_all [] = []) by (apply Permutation_nil_r, Hj). by rewrite Hnil.
  - rewrite Hres. destruct (shared !! k); [done|]. by rewrite Hf.
Qed.

End desc.

(** ** Properties *)

(** C32: When devices arrive, every variable and command of theirs that the shared
    table does not know is asked for once, of the first of the devices that has
    it, and the table then has the daemon's answers and keeps everything it had,
    whatever the order in which the answers come; a request that fails leaves its
    key out. Other events, lag and unknown daemons change nothing, and what is
    known is never replaced as long as the service runs. *)
Theorem desc_sync_spec (iter : UpsVariables -> list VarName) (join_all : list (list (str * str)) -> list (list (str * str)))
  (Hj : forall l, join_all l ≡ₚ l) (get_cmd_desc : str -> UpsName -> CmdName -> outcome ErrorKind CmdDesc)
  (get_var_desc : str -> UpsName -> VarName -> outcome ErrorKind UpsVarDesc)
  (He : forall ns, echoes get_cmd_desc get_var_desc ns) (servers : Servers) (shared : SharedDesc) :
  let next := desc_next iter join_all get_cmd_desc get_var_desc servers in
  (forall names ns upsd, servers !! ns = Some upsd ->
     (ctx ← task_contexts iter (daemon_state upsd) shared names ∅ []; requests ctx) =
       fresh_keys (dom shared) (described iter (daemon_state upsd) names) /\
     NoDup (desc_key <$> fresh_keys (dom shared) (described iter (daemon_state upsd) names)) /\
     forall k, next names ns shared !! k =
       match shared !! k with
       | Some d => Some d
       | None => find (fun d => bool_decide (desc_key d = k)) (described iter (daemon_state upsd) names)
                   ≫= answer get_cmd_desc get_var_desc ns
       end) /\
  (forall names ns, servers !! ns = None -> next names ns shared = shared) /\
  (forall inputs k d, shared !! k = Some d ->
     (desc_run iter join_all get_cmd_desc get_var_desc servers inputs shared).1 !! k = Some d).
Proof.
  intros next. split_and!.
  - intros names ns upsd Hu. split_and!.
    + pose proof (task_contexts_spec iter (daemon_state upsd) shared names ∅ []) as Hr.
      by rewrite (right_id_L ∅ (∪)) in Hr.
    + apply fresh_keys_spec.
    + intros k. by apply desc_next_lookup.
  - intros names ns Hu. unfold next, desc_next. by rewrite Hu.
  - intros inputs. induction inputs as [|[[]| | |] inputs IH] in shared |- *; cbn; intros k d Hk; try (by apply IH); try done.
    apply IH. destruct (servers !! namespace) as [upsd|] eqn:Hu; [|unfold desc_next; by rewrite Hu].
    rewrite (desc_next_lookup _ _ _ _ _ _ _ _ upsd) by done. by rewrite Hk.
Qed.

(** ** Witnesses *)

Definition demo_cmd_desc (ns : str) (n : UpsName) (c : CmdName) : outcome ErrorKind CmdDesc :=
  Ok (mkCmdDesc c n (lit "turns the beeper off")).
Definition demo_var_desc (ns : str) (n : UpsName) (v : VarName) : outcome ErrorKind UpsVarDesc := Err EmptyResponse.

Lemma desc_sync_spec_witness :
  desc_next (fun m => (map_to_list m).*1) (fun l => l) demo_cmd_desc demo_var_desc demo_servers [demo_ups] (lit "main")
    (∅ : SharedDesc) !! lit "beeper.off" = Some (lit "turns the beeper off").
Proof.
  destruct (desc_sync_spec (fun m => (map_to_list m).*1) (fun l => l) (fun _ => reflexivity _) demo_cmd_desc demo_var_desc
    ltac:(intros ns; split; [discriminate|intros n c r Hr; injection Hr as <-; reflexivity]) demo_servers ∅)
    as (Hnext & _).
  destruct (Hnext [demo_ups] (lit "main") demo_upsd ltac:(by apply lookup_singleton_Some)) as (_ & _ & Hk).
  rewrite Hk. vm_compute. reflexivity.
Defined.
