(* ===== verification/ConfigLoad.v ===== *)
(** * Sources of the configuration

    [config/cfg_env.rs] and [config/cfg_toml.rs] as they read their sources,
    [config/error.rs], the visitors of [config/tls_mode.rs] and
    [config/uri_path.rs], and [load_configs] of [main.rs] on them. Parameters
    are the environment and the files, the clap and toml crates (the derived
    deserialization of a table included), the parser of tracing's log levels,
    and the texts of foreign errors. *)

From S2P Require Import Prelude RustStr Numbers Ip Auth Config State Web Startup.

Open Scope Z_scope.

(** ** [config/error.rs] *)

(** [core::net::AddrParseError] for an [IpAddr]. *)
Inductive AddrParseError := mkAddrParseError.
Definition AddrParseError_fmt (_ : AddrParseError) : str := lit "invalid IP address syntax".

Section errors.

(** [std::io::Error], [toml::de::Error] and [clap::Error]. *)
Context {IoError DeError ClapError : Type}.

Inductive TomlConfigError :=
  | TomlIOError (inner : IoError)
  | TomlParseError (inner : DeError)
  | InvalidVersion.

Inductive UserTomlError :=
  | UserIOError (inner : IoError)
  | UserParseError (inner : DeError).

Inductive EnvConfigError :=
  | EnvIOError (inner : IoError)
  | InvalidAddrFormat (inner : AddrParseError)
  | InvalidLogLevelFormat
  | InvalidNumericFormat
  | InvalidTlsMode
  | InvalidUriPath
  | NonUnicodeVar (variable : str).

Inductive ConfigError :=
  | File (e : TomlConfigError)
  | Environment (e : EnvConfigError)
  | Arguments (e : ClapError).

(** [From<InvalidTlsModeError>], [From<InvalidPathError>] and [From<AddrParseError>] for [EnvConfigError]. *)
Definition EnvConfigError_of_tls (_ : InvalidTlsModeError) : EnvConfigError := InvalidTlsMode.
Definition EnvConfigError_of_path (_ : InvalidPathError) : EnvConfigError := InvalidUriPath.
Definition EnvConfigError_of_addr (e : AddrParseError) : EnvConfigError := InvalidAddrFormat e.

(** [From] for the other errors; [?] calls them. *)
Definition TomlConfigError_of_io (value : IoError) : TomlConfigError := TomlIOError value.
Definition TomlConfigError_of_toml (value : DeError) : TomlConfigError := TomlParseError value.
Definition UserTomlError_of_io (value : IoError) : UserTomlError := UserIOError value.
Definition UserTomlError_of_toml (value : DeError) : UserTomlError := UserParseError value.
Definition ConfigError_of_env (value : EnvConfigError) : ConfigError := Environment value.
Definition ConfigError_of_toml (value : TomlConfigError) : ConfigError := File value.
Definition ConfigError_of_clap (value : ClapError) : ConfigError := Arguments value.

(** The texts of the foreign errors, and the debug text of an [OsString]. *)
Context (io_fmt : IoError -> str) (de_fmt : DeError -> str) (clap_fmt : ClapError -> str) (os_debug : str -> str).

Definition EnvConfigError_fmt (e : EnvConfigError) : str :=
  match e with
  | EnvIOError inner => lit "env config: " ++ io_fmt inner
  | NonUnicodeVar variable => lit "env config: non-unicode variable received, " ++ os_debug variable
  | InvalidNumericFormat => lit "env config: invalid numeric value"
  | InvalidLogLevelFormat => lit "env config: invalid log level"
  | InvalidAddrFormat inner => lit "env config: " ++ AddrParseError_fmt inner
  | InvalidUriPath => lit "env config: invalid uri path format"
  | InvalidTlsMode => lit "env config: invalid tls mode option"
  end.

Definition TomlConfigError_fmt (e : TomlConfigError) : str :=
  match e with
  | TomlIOError inner => lit "toml config file: " ++ io_fmt inner
  | TomlParseError inner => lit "toml config file: " ++ de_fmt inner
  | InvalidVersion => lit "toml config file: unknown version"
  end.

Definition UserTomlError_fmt (e : UserTomlError) : str :=
  match e with
  | UserIOError inner => lit "user toml file: " ++ io_fmt inner
  | UserParseError inner => lit "user toml file: " ++ de_fmt inner
  end.

Definition ConfigError_fmt (e : ConfigError) : str :=
  match e with
  | File e => TomlConfigError_fmt e
  | Environment e => EnvConfigError_fmt e
  | Arguments e => clap_fmt e
  end.

End errors.

#[global] Arguments TomlConfigError : clear implicits.
#[global] Arguments UserTomlError : clear implicits.
#[global] Arguments EnvConfigError : clear implicits.
#[global] Arguments ConfigError : clear implicits.

Definition InvalidPathError_fmt (_ : InvalidPathError) : str := lit "incorrect base path format".
Definition InvalidTlsModeError_fmt (_ : InvalidTlsModeError) : str := lit "not a valid tls mode option".

(** ** Values in a toml file *)

(** [TlsModeVisitor::visit_str], [UriPathVisitor::visit_str]; [custom] is [E::custom]. *)
Definition TlsMode_visit_str {E} (custom : str -> E) (v : str) : outcome E TlsMode :=
  map_err (fun err => custom (InvalidTlsModeError_fmt err)) (TlsMode_from_str v).
Definition UriPath_visit_str {E} (custom : str -> E) (v : str) : outcome E UriPath :=
  map_err (fun err => custom (InvalidPathError_fmt err)) (UriPath_new v).




(** ** [cfg_env.rs] *)

(** What [std::env::var] gives. *)
Inductive EnvVar :=
  | NotPresent
  | NotUnicode (variable : str)
  | Present (value : str).

Section sources.

Context {IoError DeError ClapError : Type}.

(** The environment; [Path::is_file]; [File::open] and [read_to_string]. *)
Context (env_var : str -> EnvVar) (is_file : str -> bool) (read_file : str -> outcome IoError str).
(** [LevelFilter::from_str] of tracing. *)
Context (parse_level : str -> option LevelFilter).

Local Abbreviation EnvError := (EnvConfigError IoError).

Definition load_from_env (key : str) : outcome EnvError (option str) :=
  match env_var key with
  | Present value =>
      if decide (value = []) then Ok None
      else if is_file value then
        let? buffer := map_err EnvIOError (read_file value) in
        Ok (Some buffer)
      else Ok (Some value)
  | NotUnicode variable => Err (NonUnicodeVar variable)
  | NotPresent => Ok None
  end.

(** The last rule of [load_var!]: [parse] reads the trimmed value. *)
Definition load_var {A} (parse : str -> outcome EnvError A) (key : str) : outcome EnvError (option A) :=
  let? value := load_from_env key in
  match value with
  | Some value => let? x := parse (trim value) in Ok (Some x)
  | None => Ok None
  end.

(** The rules [boxed_str] and [boxed_u8]: the field is [None] before. *)
Definition load_str (key : str) : outcome EnvError (option str) := load_var Ok key.

(** The rule [path_buf]. *)
Definition load_path (key : str) : option str :=
  match env_var key with
  | Present value => let path_str := trim value in if decide (path_str = []) then None else Some path_str
  | _ => None
  end.

(** [str::parse] at the types of the fields, with the [From] of their errors. *)
Definition parse_log_level (s : str) : outcome EnvError LevelFilter := ok_or InvalidLogLevelFormat (parse_level s).
Definition parse_uri_path (s : str) : outcome EnvError UriPath := map_err EnvConfigError_of_path (UriPath_new s).
Definition parse_ip_addr (s : str) : outcome EnvError IpAddr :=
  map_err EnvConfigError_of_addr (ok_or mkAddrParseError (IpAddr_parse s)).
Definition parse_u16 (s : str) : outcome EnvError Z := ok_or InvalidNumericFormat (parse_unsigned u16_max s).
Definition parse_u64 (s : str) : outcome EnvError Z := ok_or InvalidNumericFormat (parse_unsigned u64_max s).
(** [NonZeroUsize] on a 64-bit target. *)
Definition parse_nonzero (s : str) : outcome EnvError Z :=
  let? n := parse_u64 s in if n =? 0 then Err InvalidNumericFormat else Ok n.
Definition parse_tls_mode (s : str) : outcome EnvError TlsMode := map_err EnvConfigError_of_tls (TlsMode_from_str s).

(** [ServerEnvArgs::load]: the table of [load_var!], in its order. *)
Definition ServerEnvArgs_load : outcome EnvError ServerEnvArgs :=
  let config_file := load_path (lit "NUTWG__CONFIG_FILE") in
  let? default_theme := load_str (lit "NUTWG__DEFAULT_THEME") in
  let? log_level := load_var parse_log_level (lit "NUTWG__LOG_LEVEL") in
  let? server_key := load_str (lit "NUTWG__SERVER_KEY") in
  let? http_base_path := load_var parse_uri_path (lit "NUTWG__HTTP_SERVER__BASE_PATH") in
  let? http_listen := load_var parse_ip_addr (lit "NUTWG__HTTP_SERVER__LISTEN") in
  let? http_port := load_var parse_u16 (lit "NUTWG__HTTP_SERVER__PORT") in
  let? http_worker_count := load_var parse_nonzero (lit "NUTWG__HTTP_SERVER__WORKER_COUNT") in
  let auth_users_file := load_path (lit "NUTWG__AUTH__USERS_FILE") in
  let? upsd_name := load_str (lit "NUTWG__UPSD__NAME") in
  let? upsd_addr := load_str (lit "NUTWG__UPSD__ADDRESS") in
  let? upsd_max_conn := load_var parse_nonzero (lit "NUTWG__UPSD__MAX_CONNECTION") in
  let? upsd_pass := load_str (lit "NUTWG__UPSD__PASSWORD") in
  let? upsd_poll_freq := load_var parse_u64 (lit "NUTWG__UPSD__POLL_FREQ") in
  let? upsd_poll_interval := load_var parse_u64 (lit "NUTWG__UPSD__POLL_INTERVAL") in
  let? upsd_port := load_var parse_u16 (lit "NUTWG__UPSD__PORT") in
  let? upsd_tls := load_var parse_tls_mode (lit "NUTWG__UPSD__TLS_MODE") in
  let? upsd_user := load_str (lit "NUTWG__UPSD__USERNAME") in
  Ok (mkEnvArgs config_file default_theme log_level server_key
        (mkHttpSection http_listen http_port http_base_path http_worker_count)
        auth_users_file upsd_name
        (mkUpsdSection upsd_addr upsd_pass upsd_poll_freq upsd_poll_interval upsd_port upsd_user upsd_max_conn
           upsd_tls)).

(** ** [cfg_toml.rs] and [cfg_user.rs]: files *)

(** What [Table::get] finds: a string, or a value of another type. *)
Inductive TomlValue := TomlString (s : str) | TomlOther.

(** The parsed table: [toml::Deserializer::parse] and [Table::deserialize], [Table::get], [Table::try_into]. *)
Context {Table : Type} (toml_table : str -> outcome DeError Table) (get : Table -> str -> option TomlValue)
  (try_into : Table -> outcome DeError ServerTomlArgs).

Definition ServerTomlArgs_load (path : str) : outcome (TomlConfigError IoError DeError) ServerTomlArgs :=
  let? buffer := map_err TomlConfigError_of_io (read_file path) in
  let? root := map_err TomlConfigError_of_toml (toml_table buffer) in
  match get root (lit "version") with
  | None => map_err TomlConfigError_of_toml (try_into root)
  | Some (TomlString ver) =>
      if decide (ver = lit "1") then map_err TomlConfigError_of_toml (try_into root) else Err InvalidVersion
  | Some TomlOther => Err InvalidVersion
  end.

(** [UsersConfigFile::load]: [toml_users] gives the entries in the order of the file, or the error of
    a text that is not toml or has no map at its root. *)
Definition UsersConfigFile_load
  (toml_users : str -> outcome DeError (list (outcome DeError (Username * UserConfig)))) (path : str)
  : outcome (UserTomlError IoError DeError) UsersConfigFile :=
  let? buffer := map_err UserTomlError_of_io (read_file path) in
  let? entries := map_err UserTomlError_of_toml (toml_users buffer) in
  map_err UserTomlError_of_toml (users_visit_map entries ∅).

(** ** [main.rs] *)

(** [load_configs] with the sources above; [cli] is [ServerCliArgs::load]. *)
Definition load_configs_from (random_key : str) (cli : outcome ClapError (bool * ServerCliArgs))
  : outcome (ConfigError IoError DeError ClapError) ServerConfig :=
  load_configs random_key (map_err ConfigError_of_clap cli) (map_err ConfigError_of_env ServerEnvArgs_load)
    (fun path => map_err ConfigError_of_toml (ServerTomlArgs_load path)).

(** ** Specification *)

(** The text that the environment gives to a setting: that of the file which the variable names,
    else that of the variable, without the space around it. *)
Inductive env_text (key : str) : option str -> Prop :=
  | env_text_absent : env_var key = NotPresent \/ env_var key = Present [] -> env_text key None
  | env_text_value v : env_var key = Present v -> v <> [] -> is_file v = false -> env_text key (Some (trim v))
  | env_text_file v s : env_var key = Present v -> v <> [] -> is_file v = true -> read_file v = Ok s ->
      env_text key (Some (trim s)).

(** A setting is read from its text. *)
Definition env_field {A} (parse : str -> outcome EnvError A) (key : str) (x : option A) : Prop :=
  exists t, env_text key t /\
    match t with None => x = None | Some s => exists v, parse s = Ok v /\ x = Some v end.

Record env_fields (args : ServerEnvArgs) : Prop := {
  ef_config_file : e_config_file args = load_path (lit "NUTWG__CONFIG_FILE");
  ef_theme : env_field Ok (lit "NUTWG__DEFAULT_THEME") (e_default_theme args);
  ef_level : env_field parse_log_level (lit "NUTWG__LOG_LEVEL") (e_log_level args);
  ef_key : env_field Ok (lit "NUTWG__SERVER_KEY") (e_server_key args);
  ef_base : env_field parse_uri_path (lit "NUTWG__HTTP_SERVER__BASE_PATH") (h_base_path (e_http args));
  ef_listen : env_field parse_ip_addr (lit "NUTWG__HTTP_SERVER__LISTEN") (h_listen (e_http args));
  ef_hport : env_field parse_u16 (lit "NUTWG__HTTP_SERVER__PORT") (h_port (e_http args));
  ef_workers : env_field parse_nonzero (lit "NUTWG__HTTP_SERVER__WORKER_COUNT") (h_worker_count (e_http args));
  ef_users : e_users_file args = load_path (lit "NUTWG__AUTH__USERS_FILE");
  ef_name : env_field Ok (lit "NUTWG__UPSD__NAME") (e_upsd_name args);
  ef_addr : env_field Ok (lit "NUTWG__UPSD__ADDRESS") (u_address (e_upsd args));
  ef_max : env_field parse_nonzero (lit "NUTWG__UPSD__MAX_CONNECTION") (u_max_connection (e_upsd args));
  ef_pass : env_field Ok (lit "NUTWG__UPSD__PASSWORD") (u_password (e_upsd args));
  ef_freq : env_field parse_u64 (lit "NUTWG__UPSD__POLL_FREQ") (u_poll_freq (e_upsd args));
  ef_interval : env_field parse_u64 (lit "NUTWG__UPSD__POLL_INTERVAL") (u_poll_interval (e_upsd args));
  ef_port : env_field parse_u16 (lit "NUTWG__UPSD__PORT") (u_port (e_upsd args));
  ef_tls : env_field parse_tls_mode (lit "NUTWG__UPSD__TLS_MODE") (u_tls_mode (e_upsd args));
  ef_user : env_field Ok (lit "NUTWG__UPSD__USERNAME") (u_username (e_upsd args));
}.

(** What is wrong with each variable, in the order in which they are read. *)
Definition error_of {E A} (m : outcome E A) : option E := match m with Err e => Some e | _ => None end.
Definition env_errors : list (option EnvError) :=
  [ error_of (load_str (lit "NUTWG__DEFAULT_THEME"));
    error_of (load_var parse_log_level (lit "NUTWG__LOG_LEVEL"));
    error_of (load_str (lit "NUTWG__SERVER_KEY"));
    error_of (load_var parse_uri_path (lit "NUTWG__HTTP_SERVER__BASE_PATH"));
    error_of (load_var parse_ip_addr (lit "NUTWG__HTTP_SERVER__LISTEN"));
    error_of (load_var parse_u16 (lit "NUTWG__HTTP_SERVER__PORT"));
    error_of (load_var parse_nonzero (lit "NUTWG__HTTP_SERVER__WORKER_COUNT"));
    error_of (load_str (lit "NUTWG__UPSD__NAME"));
    error_of (load_str (lit "NUTWG__UPSD__ADDRESS"));
    error_of (load_var parse_nonzero (lit "NUTWG__UPSD__MAX_CONNECTION"));
    error_of (load_str (lit "NUTWG__UPSD__PASSWORD"));
    error_of (load_var parse_u64 (lit "NUTWG__UPSD__POLL_FREQ"));
    error_of (load_var parse_u64 (lit "NUTWG__UPSD__POLL_INTERVAL"));
    error_of (load_var parse_u16 (lit "NUTWG__UPSD__PORT"));
    error_of (load_var parse_tls_mode (lit "NUTWG__UPSD__TLS_MODE"));
    error_of (load_str (lit "NUTWG__UPSD__USERNAME")) ].

(** The settings that a configuration file gives: a file without a version or of version 1. *)
Definition toml_source (path : option str) (toml : ServerTomlArgs) : Prop :=
  match path with
  | None => toml = TomlArgs_default
  | Some p => exists text root, read_file p = Ok text /\ toml_table text = Ok root /\
      (get root (lit "version") = None \/ get root (lit "version") = Some (TomlString (lit "1"))) /\
      try_into root = Ok toml
  end.

(** ** Lemmas *)

Lemma load_var_field {A} (parse : str -> outcome EnvError A) key x :
  load_var parse key = Ok x <-> env_field parse key x.
Proof.
  unfold load_var, load_from_env, env_field. split.
  - destruct (env_var key) as [|v|v] eqn:Ev; [|done|]; cbn; [intros [= <-]; exists None; split; [constructor; by left|done]|].
    case_decide as Hn; cbn; [intros [= <-]; subst v; exists None; split; [constructor; by right|done]|].
    destruct (is_file v) eqn:Ef; cbn.
    + destruct (read_file v) as [s| | |] eqn:Er; cbn; try done.
      destruct (parse (trim s)) as [y| | |] eqn:Ep; cbn; try done. intros [= <-].
      exists (Some (trim s)). split; [by apply (env_text_file key v)|by exists y].
    + destruct (parse (trim v)) as [y| | |] eqn:Ep; cbn; try done. intros [= <-].
      exists (Some (trim v)). split; [by apply env_text_value|by exists y].
  - intros (t & Ht & Hx). destruct Ht as [[->| ->]|v -> Hn Hf|v s -> Hn Hf Hr].
    + by subst x.
    + by subst x.
    + destruct Hx as (y & Hp & ->). cbn. rewrite decide_False, Hf by done. cbn. by rewrite Hp.
    + destruct Hx as (y & Hp & ->). cbn. rewrite decide_False, Hf, Hr by done. cbn. by rewrite Hp.
Qed.

Lemma env_load_fields args : ServerEnvArgs_load = Ok args <-> env_fields args.
Proof.
  unfold ServerEnvArgs_load. split.
  - intros H. repeat inv_obind. injection H as <-.
    constructor; cbn; try done; by apply load_var_field.
  - intros [Hc H1 H2 H3 H4 H5 H6 H7 Hu H8 H9 H10 H11 H12 H13 H14 H15 H16].
    apply load_var_field in H1, H2, H3, H4, H5, H6, H7, H8, H9, H10, H11, H12, H13, H14, H15, H16.
    unfold load_str. rewrite <- Hc, <- Hu, H1, H2, H3, H4, H5, H6, H7, H8, H9, H10, H11, H12, H13, H14, H15, H16. by destruct args as [? ? ? ? [] ? ? []].
Qed.

(** A fallible computation that gives a value or an error. *)
Definition settled {E A} (m : outcome E A) : Prop := m <> Panicked /\ m <> OutOfFuel.

Context (Hread : forall p, settled (read_file p)).

Lemma load_var_settled {A} (parse : str -> outcome EnvError A) key : (forall s, settled (parse s)) ->
  settled (load_var parse key).
Proof.
  intros Hp. unfold load_var, load_from_env, settled in *. destruct (env_var key) as [|v|v]; [done..|].
  destruct (decide (v = [])); [done|]. destruct (is_file v).
  - destruct (read_file v) as [s| | |] eqn:E; cbn; try done; [|by destruct (Hread v) as [? ?]..].
    destruct (Hp (trim s)). by destruct (parse (trim s)).
  - cbn. destruct (Hp (trim v)). by destruct (parse (trim v)).
Qed.

Local Create HintDb settled.
Lemma settled_or {E A} (e : E) (o : option A) : settled (ok_or e o).
Proof. by destruct o; split. Qed.
Lemma settled_map {E E' A} (f : E -> E') (m : outcome E A) : settled m -> settled (map_err f m).
Proof. intros [? ?]. by destruct m; split. Qed.
Lemma settled_tls s : settled (TlsMode_from_str s).
Proof. unfold TlsMode_from_str. by repeat case_decide; split. Qed.
Lemma settled_uri s : settled (UriPath_new s).
Proof. unfold UriPath_new. repeat case_match; by split. Qed.
Lemma settled_nonzero s : settled (parse_nonzero s).
Proof. unfold parse_nonzero, parse_u64. destruct (parse_unsigned _ _) as [n|]; [|by split]. cbn. by destruct (n =? 0); split. Qed.

Lemma settled_Ok {E A} (a : A) : settled (Ok (E := E) a).
Proof. by split. Qed.

Local Hint Resolve settled_Ok settled_or settled_map settled_tls settled_uri settled_nonzero : settled.
Ltac settle :=
  try apply settled_nonzero;
  unfold parse_log_level, parse_uri_path, parse_ip_addr, parse_u16, parse_u64, parse_tls_mode; auto with settled.

(** The first step of a sequence that may fail. *)
Lemma settled_step {E A B} (m : outcome E A) (f : A -> outcome E B) e (l : list (option E)) : settled m ->
  (forall x, m = Ok x -> f x = Err e <-> head (omap id l) = Some e) ->
  obind m f = Err e <-> head (omap id (error_of m :: l)) = Some e.
Proof.
  intros [Hp Hf] Hk. destruct m as [x|e'| |]; try done; cbn.
  - by apply Hk.
  - split; by intros [= ->].
Qed.

Lemma env_load_error e : ServerEnvArgs_load = Err e <-> head (omap id env_errors) = Some e.
Proof.
  unfold ServerEnvArgs_load, env_errors. cbv zeta.
  repeat (apply settled_step; [|intros ? _]); [..|done];
    apply load_var_settled; intros s; by settle.
Qed.

Lemma settled_bind {E A B} (m : outcome E A) (f : A -> outcome E B) : settled m -> (forall x, settled (f x)) ->
  settled (obind m f).
Proof. intros [? ?] Hf. destruct m; cbn; [apply Hf|by split|done..]. Qed.

Lemma env_load_settled : settled ServerEnvArgs_load.
Proof.
  unfold ServerEnvArgs_load. cbv zeta.
  repeat (apply settled_bind; [apply load_var_settled; intros s; by settle|intros ?]). by split.
Qed.

Lemma toml_load_Ok path toml : ServerTomlArgs_load path = Ok toml <-> toml_source (Some path) toml.
Proof.
  unfold ServerTomlArgs_load, toml_source. split.
  - destruct (read_file path) as [text| | |] eqn:Er; cbn [map_err obind]; try done.
    destruct (toml_table text) as [root| | |] eqn:Et; cbn [map_err obind]; try done.
    destruct (get root (lit "version")) as [[ver|]|] eqn:Ev; [destruct (decide (ver = lit "1")) as [->|]; [|done]|done|];
      (destruct (try_into root) eqn:Ei; try done; intros [= ->]; exists text, root; by auto).
  - intros (text & root & -> & Ht & Hv & Hi). cbn [map_err obind]. rewrite Ht. cbn [map_err obind].
    destruct Hv as [-> | ->]; [|rewrite decide_True by done]; by rewrite Hi.
Qed.

Context (Htable : forall text, settled (toml_table text)) (Hinto : forall root, settled (try_into root)).

Lemma toml_load_settled path : settled (ServerTomlArgs_load path).
Proof.
  unfold ServerTomlArgs_load. apply settled_bind; [auto with settled|intros text].
  apply settled_bind; [auto with settled|intros root].
  destruct (get root _) as [[ver|]|]; [destruct (decide _)| |]; try (by split); auto with settled.
Qed.

Lemma toml_load_version path : ServerTomlArgs_load path = Err InvalidVersion ->
  exists text root v, read_file path = Ok text /\ toml_table text = Ok root /\
    get root (lit "version") = Some v /\ v <> TomlString (lit "1").
Proof.
  unfold ServerTomlArgs_load. intros H.
  destruct (read_file path) as [text| | |] eqn:Er; cbn [map_err obind] in H; try done.
  destruct (toml_table text) as [root| | |] eqn:Et; cbn [map_err obind] in H; try done.
  exists text, root. destruct (get root (lit "version")) as [[ver|]|].
  - destruct (decide (ver = lit "1")) as [|Hn]; [by destruct (try_into root)|].
    exists (TomlString ver). split_and!; try done. by intros [= ?].
  - by exists TomlOther.
  - by destruct (try_into root).
Qed.

(** The file of the configuration and the environment that the command line [cli] selects. *)
Definition config_path (cli : ServerCliArgs) (env : ServerEnvArgs) : option str :=
  match c_config_file cli with Some path => Some path | None => e_config_file env end.
Definition selected_env (allow_env : bool) (env : ServerEnvArgs) : Prop :=
  if allow_env then env_fields env else env = EnvArgs_default.

Lemma load_configs_env random_key allow cli :
  load_configs_from random_key (Ok (allow, cli)) =
  let? env := if allow : bool then map_err Environment ServerEnvArgs_load else Ok EnvArgs_default in
  let? toml := match config_path cli env with
               | Some path => map_err File (ServerTomlArgs_load path)
               | None => Ok TomlArgs_default
               end in
  Ok (load_layers random_key toml env cli).
Proof. done. Qed.

Lemma load_configs_Ok random_key allow cli c : load_configs_from random_key (Ok (allow, cli)) = Ok c <->
  exists env toml, selected_env allow env /\ toml_source (config_path cli env) toml /\
    c = load_layers random_key toml env cli.
Proof.
  rewrite load_configs_env.
  assert (Ht : forall env toml, match config_path cli env with
      | Some path => map_err File (ServerTomlArgs_load path)
      | None => Ok TomlArgs_default end = Ok (E := ConfigError IoError DeError ClapError) toml <->
    toml_source (config_path cli env) toml).
  { intros env toml. destruct (config_path cli env) as [path|]; [|split; [by intros [= <-]|by intros ->]].
    rewrite <- toml_load_Ok. destruct (ServerTomlArgs_load path); cbn; split; by intros [= <-]. }
  assert (He : forall env, (if allow then map_err Environment ServerEnvArgs_load else Ok EnvArgs_default) =
      Ok (E := ConfigError IoError DeError ClapError) env <-> selected_env allow env).
  { intros env. unfold selected_env. destruct allow; [|split; [by intros [= <-]|by intros ->]].
    rewrite <- env_load_fields. destruct ServerEnvArgs_load; cbn; split; by intros [= <-]. }
  split.
  - intros H. inv_obind. inv_obind. injection H as <-. exists a, a0. by rewrite <- Ht, <- He.
  - intros (env & toml & Henv & Htoml & ->). apply He in Henv as ->. cbn [obind]. by apply Ht in Htoml as ->.
Qed.


(** ** Theorems *)

(** C36: Start-up reads the configuration or says why it cannot: it succeeds exactly when the selected
    sources can be read - the environment only with [--allow-env], a setting from the file that its
    variable names, a file without a version or of version 1 - and then layers them. The server key
    and the users file come from the first source that has one. The first variable that cannot be
    read stops the start, and only when the environment is allowed. *)
Theorem config_sources_spec (random_key : str) (cli : ServerCliArgs) :
  let run allow := load_configs_from random_key (Ok (allow, cli)) in
  (forall allow c, run allow = Ok c <-> exists env toml,
    selected_env allow env /\ toml_source (config_path cli env) toml /\ c = load_layers random_key toml env cli) /\
  (forall allow, (exists c, run allow = Ok c) \/ exists e, run allow = Err e) /\
  (forall e, run true = Err (Environment e) <-> head (omap id env_errors) = Some e) /\
  (forall e, run false <> Err (Environment e)) /\
  (forall allow, run allow = Err (File InvalidVersion) -> exists path text root v, read_file path = Ok text /\
    toml_table text = Ok root /\ get root (lit "version") = Some v /\ v <> TomlString (lit "1")) /\
  (forall allow c, run allow = Ok c -> exists t,
    (if allow then env_text (lit "NUTWG__SERVER_KEY") t else t = None) /\
    server_key c = default random_key (match c_server_key cli with Some k => Some k | None => t end)) /\
  (forall allow c f, run allow = Ok c -> c_with_auth cli = Some f \/
      c_with_auth cli = None /\ allow = true /\ load_path (lit "NUTWG__AUTH__USERS_FILE") = Some f ->
    auth_users_file c = Some f).
Proof.
  intros run.
  assert (Hset : forall allow, settled (run allow)).
  { intros allow. unfold run. rewrite load_configs_env. apply settled_bind; [destruct allow; [|by split]|intros env].
    - apply settled_map, env_load_settled.
    - apply settled_bind; [|intros; by split]. destruct (config_path cli env); [|by split].
      apply settled_map, toml_load_settled. }
  split_and!.
  - intros allow c. apply load_configs_Ok.
  - intros allow. destruct (Hset allow) as [Hp Hf]. destruct (run allow); try done; eauto.
  - intros e. rewrite <- env_load_error. unfold run. rewrite load_configs_env.
    destruct ServerEnvArgs_load as [env|e'| |]; cbn [map_err obind]; try (split; congruence).
    destruct (config_path cli env) as [path|]; [destruct (ServerTomlArgs_load path)|]; cbn; split; congruence.
  - intros e. unfold run. rewrite load_configs_env. cbn [obind].
    destruct (config_path cli _) as [path|]; [destruct (ServerTomlArgs_load path)|]; cbn; congruence.
  - intros allow H. unfold run in H. rewrite load_configs_env in H.
    destruct (if allow then map_err Environment ServerEnvArgs_load else Ok EnvArgs_default) as [env|e'| |] eqn:E;
      cbn [obind] in H; [|destruct allow; [|done]; destruct ServerEnvArgs_load; cbn in E; congruence|done..].
    destruct (config_path cli env) as [path|]; [|done]. exists path. apply toml_load_version.
    destruct (ServerTomlArgs_load path); cbn in H; congruence.
  - intros allow c H. apply load_configs_Ok in H as (env & toml & Henv & _ & ->).
    exists (e_server_key env).
    pose proof (config_precedence random_key toml env cli) as (_ & _ & _ & Hk & _). split.
    + unfold selected_env in Henv. destruct allow; [|by subst env]. destruct Henv as [_ _ _ (t & Ht & Hx)]. clear -Ht Hx.
      destruct t as [t|]; [destruct Hx as (v & [= ->] & ->)|rewrite Hx]; done.
    + rewrite Hk. by destruct (c_server_key cli), (e_server_key env).
  - intros allow c f H Hf. apply load_configs_Ok in H as (env & toml & Henv & _ & ->).
    pose proof (config_precedence random_key toml env cli) as (_ & _ & _ & _ & _ & _ & _ & _ & ->).
    destruct Hf as [->|(-> & -> & Hl)]; [done|]. destruct Henv as [_ _ _ _ _ _ _ _ ->]. by rewrite Hl.
Qed.

End sources.

(** ** What the log shows of a configuration

    [Debug for UpsdConfig] and [Debug for ServerConfig], which [start_server]
    logs. The debug texts of the standard library and of tracing are
    parameters. *)

Section debug.

Context (debug_str : str -> str) (debug_ip : IpAddr -> str) (debug_level : LevelFilter -> str).
(** The order in which the hash map is walked. *)
Context (upsd_iter : gmap str UpsdConfig -> list (str * UpsdConfig)).

Definition debug_option {A} (f : A -> str) (o : option A) : str :=
  match o with Some a => lit "Some(" ++ f a ++ lit ")" | None => lit "None" end.

(** [debug_struct(name).field(..).finish()]. *)
Definition debug_struct (name : str) (fields : list (str * str)) : str :=
  name ++ lit " { " ++ comma_separated ((fun '(f, v) => f ++ lit ": " ++ v) <$> fields) ++ lit " }".

(** [derive(Debug)] for [TlsMode] and [HttpServerConfig], [AuthConfig]; [Debug for UriPath]. *)
Definition TlsMode_debug (m : TlsMode) : str :=
  match m with Disable => lit "Disable" | Strict => lit "Strict" | SkipVerify => lit "SkipVerify" end.
Definition UriPath_debug (p : UriPath) : str := debug_str (uri p).
Definition HttpServerConfig_debug (c : HttpServerConfig) : str :=
  debug_struct (lit "HttpServerConfig")
    [(lit "listen", debug_ip (listen c)); (lit "port", show_Z (http_port c));
     (lit "base_path", UriPath_debug (base_path c)); (lit "worker_count", debug_option show_Z (worker_count c))].
Definition AuthConfig_debug (users_file : str) : str :=
  debug_struct (lit "AuthConfig") [(lit "users_file", debug_str users_file)].

Definition UpsdConfig_debug (c : UpsdConfig) : str :=
  debug_struct (lit "UpsdConfig")
    [(lit "pass", debug_option (fun _ => debug_str (lit "******")) (pass c));
     (lit "user", debug_option (fun _ => debug_str (lit "******")) (user c));
     (lit "addr", debug_str (addr c)); (lit "port", show_Z (upsd_port c));
     (lit "poll_freq", show_Z (poll_freq c)); (lit "poll_interval", show_Z (poll_interval c));
     (lit "max_conn", show_Z (max_conn c)); (lit "tls_mode", TlsMode_debug (tls_mode c))].

(** [Debug for HashMap]. *)
Definition upsd_debug (upsd : gmap str UpsdConfig) : str :=
  lit "{" ++ comma_separated ((fun '(k, c) => debug_str k ++ lit ": " ++ UpsdConfig_debug c) <$> upsd_iter upsd) ++ lit "}".

Definition ServerConfig_debug (c : ServerConfig) : str :=
  debug_struct (lit "ServerConfig")
    [(lit "config_file", debug_option debug_str (config_file c));
     (lit "default_theme", debug_option debug_str (default_theme c)); (lit "log_level", debug_level (log_level c));
     (lit "server_key", debug_str (lit "******")); (lit "http_server", HttpServerConfig_debug (http_server c));
     (lit "upsd", upsd_debug (upsd c)); (lit "auth", debug_option AuthConfig_debug (auth_users_file c))].

(** The configuration without its secrets. *)
Definition hide_upsd (c : UpsdConfig) : UpsdConfig :=
  mkUpsdConfig (poll_freq c) (poll_interval c) (addr c) (upsd_port c)
    ((fun _ => []) <$> user c) ((fun _ => []) <$> pass c) (max_conn c) (tls_mode c).
Definition hide_config (c : ServerConfig) : ServerConfig :=
  mkServerConfig (config_file c) (default_theme c) (log_level c) [] (http_server c) (hide_upsd <$> upsd c)
    (auth_users_file c).

(** The text does not depend on the server key, the passwords and the user names, for an order of the
    hash map that depends on its keys. *)
Lemma debug_hides_secrets (Hiter : forall m, upsd_iter (hide_upsd <$> m) = prod_map id hide_upsd <$> upsd_iter m) c :
  ServerConfig_debug c = ServerConfig_debug (hide_config c).
Proof.
  assert (Hu : forall u, UpsdConfig_debug (hide_upsd u) = UpsdConfig_debug u).
  { intros u. unfold UpsdConfig_debug, hide_upsd. by destruct u as [? ? ? ? [] [] ? ?]. }
  assert (Hd : upsd_debug (hide_upsd <$> upsd c) = upsd_debug (upsd c)).
  { unfold upsd_debug. rewrite Hiter, <- list_fmap_compose. do 3 f_equal. apply list_fmap_ext.
    intros i [k u] _. cbn [compose prod_map id fst snd]. by rewrite Hu. }
  unfold ServerConfig_debug. cbn [hide_config config_file default_theme log_level http_server upsd auth_users_file].
  by rewrite Hd.
Qed.

End debug.

(** ** Witnesses and tests *)

(** A container: a key file, a port, a blank theme, a broken log level. *)
Definition demo_env (level key : str) : EnvVar :=
  if decide (key = lit "NUTWG__SERVER_KEY") then Present (lit "/run/server.key")
  else if decide (key = lit "NUTWG__HTTP_SERVER__PORT") then Present (lit " 8080 ")
  else if decide (key = lit "NUTWG__LOG_LEVEL") then Present level
  else if decide (key = lit "NUTWG__UPSD__ADDRESS") then Present (lit "10.0.0.7")
  else if decide (key = lit "NUTWG__AUTH__USERS_FILE") then NotUnicode [Byte.xff]
  else if decide (key = lit "NUTWG__CONFIG_FILE") then Present (lit "/etc/config.toml")
  else NotPresent.

Definition demo_is_file (path : str) : bool := bool_decide (path = lit "/run/server.key").
Definition demo_read (path : str) : outcome unit str :=
  if decide (path = lit "/run/server.key") then Ok (lit "secret" ++ [LF])
  else if decide (path = lit "/etc/config.toml") then Ok (lit "version") else Err tt.
Definition demo_level (s : str) : option LevelFilter := if decide (s = lit "warn") then Some WARN else None.
Definition demo_table (text : str) : outcome unit str := Ok text.
Definition demo_get (version : TomlValue) (root key : str) : option TomlValue :=
  if decide (root = key) then Some version else None.
Definition demo_into (_ : str) : outcome unit ServerTomlArgs := Ok TomlArgs_default.
Definition demo_cli : ServerCliArgs := mkCliArgs None None None None HttpSection_none None.

Definition demo_run (level : str) (version : TomlValue) (allow : bool) :=
  load_configs_from (ClapError := unit) (demo_env level) demo_is_file demo_read demo_level demo_table
    (demo_get version) demo_into (lit "random") (Ok (allow, demo_cli)).

Example load_ex1 : omap_ok (fun c => (server_key c, http_port (http_server c), log_level c, auth_users_file c,
    get_socket_addr <$> upsd c !! lit "default")) (demo_run (lit "warn") (TomlString (lit "1")) true) =
  Ok (lit "secret", 8080, WARN, None, Some (lit "10.0.0.7:3493")).
Proof. vm_compute. reflexivity. Qed.
Example load_ex2 : demo_run (lit "loud") (TomlString (lit "1")) true = Err (Environment InvalidLogLevelFormat).
Proof. vm_compute. reflexivity. Qed.
Example load_ex3 : demo_run (lit "warn") (TomlString (lit "2")) true = Err (File InvalidVersion).
Proof. vm_compute. reflexivity. Qed.
Example load_ex4 : omap_ok server_key (demo_run (lit "loud") TomlOther false) = Ok (lit "random").
Proof. vm_compute. reflexivity. Qed.
(** A key that is blank is a key: only an empty variable counts as absent. *)
Example blank_key_ex : load_str (IoError := unit) (fun _ => Present (lit "  ")) demo_is_file demo_read
    (lit "NUTWG__SERVER_KEY") = Ok (Some []).
Proof. vm_compute. reflexivity. Qed.

Lemma config_sources_spec_witness :
  exists c, demo_run (lit "warn") (TomlString (lit "1")) true = Ok c /\ server_key c = lit "secret" /\
    auth_users_file c = None /\
    demo_run (lit "loud") (TomlString (lit "1")) true = Err (Environment InvalidLogLevelFormat).
Proof.
  assert (Hr : forall p, settled (demo_read p)) by (intros p; unfold demo_read; repeat case_match; by split).
  assert (Ht : forall p, settled (demo_table p)) by (by split).
  assert (Hi : forall p, settled (demo_into p)) by (by split).
  pose proof (fun level => config_sources_spec (ClapError := unit) (demo_env level) demo_is_file demo_read demo_level
    demo_table (demo_get (TomlString (lit "1"))) demo_into Hr Ht Hi (lit "random") demo_cli) as H.
  destruct (H (lit "warn")) as (_ & _ & _ & _ & _ & Hk & _).
  assert (Hok : is_ok (demo_run (lit "warn") (TomlString (lit "1")) true) = true) by (vm_compute; reflexivity).
  destruct (demo_run (lit "warn") (TomlString (lit "1")) true) as [c| | |] eqn:E; [clear Hok|discriminate Hok..].
  exists c. split; [done|]. destruct (Hk true c E) as (t & Ht1 & Hc). split_and!.
  - rewrite Hc. inversion Ht1 as [[He|He]|v He Hv Hf|v s He Hv Hf Hs]; subst; try (vm_compute in He; discriminate He).
    + vm_compute in He. injection He as <-. by vm_compute in Hf.
    + vm_compute in He. injection He as <-. vm_compute in Hs. injection Hs as <-. vm_compute. reflexivity.
  - assert (Ha : omap_ok auth_users_file (demo_run (lit "warn") (TomlString (lit "1")) true) = Ok None)
      by (vm_compute; reflexivity). rewrite E in Ha. by injection Ha.
  - destruct (H (lit "loud")) as (_ & _ & He & _). apply He. vm_compute. reflexivity.
Defined.
