(* ===== verification/Middleware.v ===== *)
(** * The layers of the program

    [http/hypermedia/middleware/] and [http/json_api/middleware/]: the layers
    that [http.rs] puts around its handlers. A layer holds what was known when
    the routes were built, [layer] wraps a service in it, and the calls of the
    wrapped services are those of Web and Api. *)

From S2P Require Import Prelude RustStr Auth Config State Semantic Api Web.

(** [tower::Layer]: what wraps a service, and [tower::Service]: what calls one. *)
Class TowerLayer (L Inner Service : Type) := layer : L -> Inner -> Service.
Class TowerService (Service Call : Type) := call : Service -> Call.

(** ** The pages *)

Record UserAuthLayer := mkUserAuthLayer { ual_config : ServerConfig; ual_user_store : UserStore; ual_login_redirect : str }.
Definition UserAuthLayer_new (config : ServerConfig) (user_store : UserStore) (login_redirect : str) : UserAuthLayer :=
  mkUserAuthLayer config user_store login_redirect.
Record UserAuthService := mkUserAuthService {
  uas_inner : WebService; uas_config : ServerConfig; uas_user_store : UserStore; uas_login_redirect : str }.
#[global] Instance UserAuthLayer_layer : TowerLayer UserAuthLayer WebService UserAuthService := fun l inner =>
  mkUserAuthService inner (ual_config l) (ual_user_store l) (ual_login_redirect l).

Record RenewSessionLayer := mkRenewSessionLayer {
  rsl_config : ServerConfig; rsl_user_store : UserStore; rsl_renew_duration : Duration }.
Definition RenewSessionLayer_new (config : ServerConfig) (user_store : UserStore) (renew_duration : Duration) : RenewSessionLayer :=
  mkRenewSessionLayer config user_store renew_duration.
Record RenewSessionService := mkRenewSessionService {
  rss_inner : WebService; rss_config : ServerConfig; rss_user_store : UserStore; rss_renew_duration : Duration }.
#[global] Instance RenewSessionLayer_layer : TowerLayer RenewSessionLayer WebService RenewSessionService := fun l inner =>
  mkRenewSessionService inner (rsl_config l) (rsl_user_store l) (rsl_renew_duration l).

Record AuthorizeUserLayer := mkAuthorizeUserLayer { aul_permissions : Permissions; aul_server_config : ServerConfig }.
Definition AuthorizeUserLayer_new (server_config : ServerConfig) (permissions : Permissions) : AuthorizeUserLayer :=
  mkAuthorizeUserLayer permissions server_config.
Record AuthorizeUserService := mkAuthorizeUserService {
  aus_inner : WebService; aus_permissions : Permissions; aus_server_config : ServerConfig }.
#[global] Instance AuthorizeUserLayer_layer : TowerLayer AuthorizeUserLayer WebService AuthorizeUserService := fun l inner =>
  mkAuthorizeUserService inner (aul_permissions l) (aul_server_config l).

Record HtmxRedirectLayer := HtmxRedirectLayer_new {}.
Record HtmxRedirectService := mkHtmxRedirectService { hrs_inner : WebService }.
#[global] Instance HtmxRedirectLayer_layer : TowerLayer HtmxRedirectLayer WebService HtmxRedirectService := fun _ inner =>
  mkHtmxRedirectService inner.

(** ** The data API *)

Record ApiAuthLayer := ApiAuthLayer_new { aal_config : ServerConfig }.
Record ApiAuthService (B : Type) := mkApiAuthService { aas_inner : service B; aas_config : ServerConfig }.
Arguments mkApiAuthService {B} _ _.
Arguments aas_inner {B} _.
Arguments aas_config {B} _.
#[global] Instance ApiAuthLayer_layer {B} : TowerLayer ApiAuthLayer (service B) (ApiAuthService B) := fun l inner =>
  mkApiAuthService inner (aal_config l).

Record AuthorizeApiLayer := AuthorizeApiLayer_new { apl_permissions : Permissions }.
Record AuthorizeApiService (B : Type) := mkAuthorizeApiService { aps_inner : service B; aps_permissions : Permissions }.
Arguments mkAuthorizeApiService {B} _ _.
Arguments aps_inner {B} _.
Arguments aps_permissions {B} _.
#[global] Instance AuthorizeApiLayer_layer {B} : TowerLayer AuthorizeApiLayer (service B) (AuthorizeApiService B) := fun l inner =>
  mkAuthorizeApiService inner (apl_permissions l).

Record DaemonStateLayer := DaemonStateLayer_new { dsl_state : Servers }.
Record DaemonStateService (B : Type) := mkDaemonStateService { dss_inner : service B; dss_state : Servers }.
Arguments mkDaemonStateService {B} _ _.
Arguments dss_inner {B} _.
Arguments dss_state {B} _.
#[global] Instance DaemonStateLayer_layer {B} : TowerLayer DaemonStateLayer (service B) (DaemonStateService B) := fun l inner =>
  mkDaemonStateService inner (dsl_state l).

(** ** The calls *)

Section calls.

Context (base64_encode : str -> str) (base64_decode : str -> option str).
Context (hmac : str -> str -> str) (verify_slice : str -> str -> str -> bool).
Context (cookie_header_ok : Cookie -> bool).
Context `{Template ErrorPage, Template NotificationTemplate}.
(** The clock of a request, and what the token of a renewed session is numbered with. *)
Context (clock : Clock) (fresh now : Z).

#[global] Instance UserAuthService_call : TowerService UserAuthService WebService := fun s =>
  user_auth_call base64_decode verify_slice (uas_config s) (at_auth clock) (uas_user_store s) (uas_login_redirect s) (uas_inner s).
#[global] Instance RenewSessionService_call : TowerService RenewSessionService WebService := fun s =>
  renew_session_call base64_encode hmac cookie_header_ok (rss_config s) clock (rss_user_store s) fresh (rss_renew_duration s)
    (rss_inner s).
#[global] Instance AuthorizeUserService_call : TowerService AuthorizeUserService WebService := fun s =>
  authorize_user_call (aus_server_config s) (aus_permissions s) (aus_inner s).
#[global] Instance HtmxRedirectService_call : TowerService HtmxRedirectService WebService := fun s =>
  htmx_redirect_call (hrs_inner s).
#[global] Instance ApiAuthService_call {B} : TowerService (ApiAuthService B) (service B) := fun s =>
  api_auth_call base64_decode verify_slice (server_key (aas_config s)) now (aas_inner s).
#[global] Instance AuthorizeApiService_call {B} : TowerService (AuthorizeApiService B) (service B) := fun s =>
  authorize_api_call (aps_permissions s) (aps_inner s).
#[global] Instance DaemonStateService_call `{FromStatus B} : TowerService (DaemonStateService B) (service B) := fun s =>
  daemon_state_call (dss_state s) (dss_inner s).

End calls.
