(* ===== verification/Router.v ===== *)
(** * The routes of the server

    [HttpServer::serve], [create_event_routes], [create_data_routes] and
    [create_hypermedia_routes] of [http.rs] as the expressions they build with
    axum's [Router]: paths, methods, handlers, layers, nesting and fall-backs.
    [entries] and [fallbacks] give such an expression the meaning that axum
    documents: a layer wraps what was added before it, the one added last is
    outermost, the layers of a [ServiceBuilder] are listed from the outside, and
    a nested router gets the prefix. The theorem connects the table of routes
    with the compositions of Api, JsonRead and WebRoutes. *)

From S2P Require Import Prelude RustStr Numbers Errors Names VarName Value UpsVariables Client Auth Config State.
From S2P Require Import Collections Semantic Api Web WebWrite Topology Pages JsonRead WebRoutes.
From S2P Require Middleware.

#[local] Open Scope Z_scope.

(** ** Router expressions *)

Inductive HttpMethod := GET | POST | PATCH | ANY.

(** The layers of [tower], [tower_http] and of the program. *)
Inductive Layer :=
  | TraceLayer
  | RequestBodyLimitLayer (limit : Z)
  | SetResponseHeaderLayer (name value : str)
  | TimeoutLayer (status : Z) (after : Duration)
  | CompressionLayer
  | CorsLayer
  | AcceptLayer (mime : str)
  | ApiAuthLayer
  | DaemonStateLayer
  | AuthorizeApiLayer (p : Permissions)
  | ValidateEmptyContentLength
  | RenewSessionLayer (renew_duration : Duration)
  | UserAuthLayer (login_redirect : str)
  | AuthorizeUserLayer (p : Permissions)
  | HtmxRedirectLayer.

(** The handlers: of [json_api::route], [hypermedia::route], [probe] and [event_api]. *)
Inductive Handler :=
  | NamespaceGetList | NamespaceGet | UpsListGet | UpsJsonGet | RwPatch | InstcmdPost | FsdPost | JsonNotFound
  | HomeGet | TopologyGet | ConnectionGet | SystemGet | UpsGet | UpsInstcmdPost | UpsFsdPost | UpsRwPatch
  | NotFoundGet | LogoutPost | ApiKeyGet | ApiKeyPost | LoginPageGet | LoginFormPost | GetThemes
  | GetCss | GetJavascript | GetIcon | GetSpriteSheet | StatusNotFound
  | GetHealth | GetReadiness | GetNamespaceHealth | GetNamespaceReadiness
  | WssHandler | WssWithAuthHandler.

#[global] Instance HttpMethod_eq_dec : EqDecision HttpMethod.
Proof. solve_decision. Defined.
#[global] Instance Handler_eq_dec : EqDecision Handler.
Proof. solve_decision. Defined.

(** A method of a [MethodRouter] with its [route_layer]s. *)
Record MethodRoute := mkMethodRoute { m_method : HttpMethod; m_handler : Handler; m_layers : list Layer }.

Definition get (h : Handler) : MethodRoute := mkMethodRoute GET h [].
Definition post (h : Handler) : MethodRoute := mkMethodRoute POST h [].
Definition patch (h : Handler) : MethodRoute := mkMethodRoute PATCH h [].
Definition any (h : Handler) : MethodRoute := mkMethodRoute ANY h [].
Definition route_layer (ls : list Layer) (m : MethodRoute) : MethodRoute :=
  mkMethodRoute (m_method m) (m_handler m) (ls ++ m_layers m).

Inductive Router :=
  | RouterNew
  | RouteAt (r : Router) (path : str) (methods : list MethodRoute)
  | Fallback (r : Router) (h : Handler)
  | LayerOn (r : Router) (ls : list Layer)
  | Nest (r : Router) (prefix : str) (inner : Router)
  | Merge (r : Router) (other : Router).

Record Entry := mkEntry { e_path : str; e_method : HttpMethod; e_handler : Handler; e_layers : list Layer }.

Definition add_layers (ls : list Layer) (e : Entry) : Entry :=
  mkEntry (e_path e) (e_method e) (e_handler e) (ls ++ e_layers e).
(** A route [/] of a nested router is the prefix itself. *)
Definition nest_path (prefix path : str) : str := if decide (path = lit "/") then prefix else prefix ++ path.
Definition add_prefix (prefix : str) (e : Entry) : Entry :=
  mkEntry (nest_path prefix (e_path e)) (e_method e) (e_handler e) (e_layers e).

Fixpoint entries (r : Router) : list Entry :=
  match r with
  | RouterNew => []
  | RouteAt r path methods =>
      entries r ++ ((fun m => mkEntry path (m_method m) (m_handler m) (m_layers m)) <$> methods)
  | Fallback r _ => entries r
  | LayerOn r ls => add_layers ls <$> entries r
  | Nest r prefix inner => entries r ++ (add_prefix prefix <$> entries inner)
  | Merge r other => entries r ++ entries other
  end.

(** What answers the paths below a prefix that are no route; [e_path] is the prefix. *)
Fixpoint fallbacks (r : Router) : list Entry :=
  match r with
  | RouterNew => []
  | RouteAt r _ _ => fallbacks r
  | Fallback r h => fallbacks r ++ [mkEntry [] ANY h []]
  | LayerOn r ls => add_layers ls <$> fallbacks r
  | Nest r prefix inner => fallbacks r ++
      ((fun e => mkEntry (prefix ++ e_path e) (e_method e) (e_handler e) (e_layers e)) <$> fallbacks inner)
  | Merge r other => fallbacks r ++ fallbacks other
  end.

(** ** [http.rs] *)

Section routes.

(** [server_state.config] and whether [server_state.auth_user_store] is set. *)
Context (config : ServerConfig) (has_store : bool).

(** [option_layer(auth_user_store.map(..))]. *)
Definition option_layers (l : Layer) : list Layer := if has_store then [l] else [].

Definition create_event_routes : Router :=
  let router := RouterNew in
  if has_store then RouteAt router (lit "/") [any WssWithAuthHandler] else RouteAt router (lit "/") [any WssHandler].

Definition create_data_routes : Router :=
  let r := RouteAt RouterNew (lit "/") [get NamespaceGetList] in
  let r := RouteAt r (lit "/{namespace}") [get NamespaceGet] in
  let r := RouteAt r (lit "/{namespace}/devices") [get UpsListGet] in
  let r := RouteAt r (lit "/{namespace}/devices/{ups_name}") [get UpsJsonGet] in
  let r := RouteAt r (lit "/{namespace}/devices/{ups_name}")
             [route_layer (option_layers (AuthorizeApiLayer SETVAR)) (patch RwPatch)] in
  let r := RouteAt r (lit "/{namespace}/devices/{ups_name}/instcmd")
             [route_layer (option_layers (AuthorizeApiLayer INSTCMD)) (post InstcmdPost)] in
  let r := RouteAt r (lit "/{namespace}/devices/{ups_name}/fsd")
             [route_layer (option_layers (AuthorizeApiLayer Auth.FSD) ++ [ValidateEmptyContentLength]) (post FsdPost)] in
  let r := Fallback r JsonNotFound in
  LayerOn r ([CorsLayer; AcceptLayer (lit "application/json")] ++ option_layers ApiAuthLayer ++ [DaemonStateLayer]).

Definition static_files : Router :=
  let r := RouteAt RouterNew (lit "/style.css") [get GetCss] in
  let r := RouteAt r (lit "/index.js") [get GetJavascript] in
  let r := RouteAt r (lit "/icon.svg") [get GetIcon] in
  let r := RouteAt r (lit "/feather-sprite.svg") [get GetSpriteSheet] in
  Fallback r StatusNotFound.

Definition create_hypermedia_routes : Router :=
  let r := RouteAt RouterNew (lit "/") [get HomeGet] in
  let r := RouteAt r (lit "/topology") [get TopologyGet] in
  let r := RouteAt r (lit "/connection") [get ConnectionGet] in
  let r := RouteAt r (lit "/system") [get SystemGet] in
  let r := RouteAt r (lit "/ups/{namespace}/{ups_name}") [get UpsGet] in
  let r := RouteAt r (lit "/ups/{namespace}/{ups_name}/instcmd")
             [route_layer (option_layers (AuthorizeUserLayer INSTCMD)) (post UpsInstcmdPost)] in
  let r := RouteAt r (lit "/ups/{namespace}/{ups_name}/fsd")
             [route_layer (option_layers (AuthorizeUserLayer Auth.FSD)) (post UpsFsdPost)] in
  let r := RouteAt r (lit "/ups/{namespace}/{ups_name}/rw")
             [route_layer (option_layers (AuthorizeUserLayer SETVAR)) (patch UpsRwPatch)] in
  let r := RouteAt r (lit "/not-found") [get NotFoundGet] in
  let r := Fallback r NotFoundGet in
  let r := if has_store then
             let r := LayerOn r [RenewSessionLayer AUTH_COOKIE_RENEW] in
             let r := RouteAt r (lit "/logout") [post LogoutPost] in
             let r := RouteAt r (lit "/api-keys") [get ApiKeyGet; post ApiKeyPost] in
             let r := LayerOn r [UserAuthLayer (login_path config)] in
             RouteAt r (lit "/login") [get LoginPageGet; post LoginFormPost]
           else r in
  let r := RouteAt r (lit "/_layout/themes") [get GetThemes] in
  let r := LayerOn r [HtmxRedirectLayer] in
  Nest r (lit "/static") static_files.

(** The layers, the probes and the router of [HttpServer::serve]. *)
Definition serve_middleware : list Layer :=
  [TraceLayer; RequestBodyLimitLayer 65556;
   SetResponseHeaderLayer (lit "cache-control") (lit "no-cache, max-age=0");
   TimeoutLayer INTERNAL_SERVER_ERROR (from_secs 30); CompressionLayer].

Definition probe_routes : Router :=
  let r := RouteAt RouterNew (lit "/health") [get GetHealth] in
  let r := RouteAt r (lit "/readiness") [get GetReadiness] in
  let r := RouteAt r (lit "/health/{namespace}") [get GetNamespaceHealth] in
  let r := RouteAt r (lit "/readiness/{namespace}") [get GetNamespaceReadiness] in
  let r := Fallback r StatusNotFound in
  LayerOn r [CorsLayer].

Definition serve_router : Router :=
  let r := Nest RouterNew (lit "/api") create_data_routes in
  let r := Nest r (lit "/probes") probe_routes in
  let r := Nest r (lit "/events") create_event_routes in
  let r := Merge r create_hypermedia_routes in
  let r := LayerOn r serve_middleware in
  if UriPath_is_empty (base_path (http_server config)) then r
  else Nest RouterNew (uri (base_path (http_server config))) r.

End routes.

(** ** Specification *)

(** The layers of a handler, within those of [serve]. *)
Definition layers_of (config : ServerConfig) (has_store : bool) (h : Handler) : list Layer :=
  let user l := if has_store then [l] else [] in
  let data inner := [CorsLayer; AcceptLayer (lit "application/json")] ++ user ApiAuthLayer ++ [DaemonStateLayer] ++ inner in
  let session inner := HtmxRedirectLayer :: user (UserAuthLayer (login_path config)) ++ inner in
  let page inner := session (user (RenewSessionLayer AUTH_COOKIE_RENEW) ++ inner) in
  match h with
  | NamespaceGetList | NamespaceGet | UpsListGet | UpsJsonGet | JsonNotFound => data []
  | RwPatch => data (user (AuthorizeApiLayer SETVAR))
  | InstcmdPost => data (user (AuthorizeApiLayer INSTCMD))
  | FsdPost => data (user (AuthorizeApiLayer Auth.FSD) ++ [ValidateEmptyContentLength])
  | HomeGet | TopologyGet | ConnectionGet | SystemGet | UpsGet | NotFoundGet => page []
  | UpsInstcmdPost => page (user (AuthorizeUserLayer INSTCMD))
  | UpsFsdPost => page (user (AuthorizeUserLayer Auth.FSD))
  | UpsRwPatch => page (user (AuthorizeUserLayer SETVAR))
  | LogoutPost | ApiKeyGet | ApiKeyPost => session []
  | LoginPageGet | LoginFormPost | GetThemes => [HtmxRedirectLayer]
  | GetHealth | GetReadiness | GetNamespaceHealth | GetNamespaceReadiness => [CorsLayer]
  | GetCss | GetJavascript | GetIcon | GetSpriteSheet | StatusNotFound | WssHandler | WssWithAuthHandler => []
  end.

(** The handlers that a request reaches without having logged in. *)
Definition is_public (h : Handler) : bool :=
  match h with
  | LoginPageGet | LoginFormPost | GetThemes | GetCss | GetJavascript | GetIcon | GetSpriteSheet | StatusNotFound
  | GetHealth | GetReadiness | GetNamespaceHealth | GetNamespaceReadiness | WssWithAuthHandler => true
  | _ => false
  end.

(** [l1] is somewhere outside [l2]. *)
Definition outside (l1 l2 : Layer) (ls : list Layer) : Prop := exists a b c, ls = a ++ l1 :: b ++ l2 :: c.

(** The permission layer of a handler, with the layer that puts the token or session into the request. *)
Definition guard_of (config : ServerConfig) (h : Handler) : option (Layer * Layer) :=
  match h with
  | RwPatch => Some (ApiAuthLayer, AuthorizeApiLayer SETVAR)
  | InstcmdPost => Some (ApiAuthLayer, AuthorizeApiLayer INSTCMD)
  | FsdPost => Some (ApiAuthLayer, AuthorizeApiLayer Auth.FSD)
  | UpsRwPatch => Some (UserAuthLayer (login_path config), AuthorizeUserLayer SETVAR)
  | UpsInstcmdPost => Some (UserAuthLayer (login_path config), AuthorizeUserLayer INSTCMD)
  | UpsFsdPost => Some (UserAuthLayer (login_path config), AuthorizeUserLayer Auth.FSD)
  | _ => None
  end.

(** A path without the names of its parameters: two routes with the same are refused by the router. *)
Fixpoint erase_params (inside : bool) (s : str) : str :=
  match s with
  | [] => []
  | "{"%byte :: s => "{"%byte :: erase_params true s
  | "}"%byte :: s => "}"%byte :: erase_params false s
  | c :: s => if inside then erase_params inside s else c :: erase_params inside s
  end.
Definition route_key (e : Entry) : str * HttpMethod := (erase_params false (e_path e), e_method e).

(** ** Lemmas *)

Lemma serve_table config has_store : serve_router config has_store =
  (if UriPath_is_empty (base_path (http_server config)) then id
   else Nest RouterNew (uri (base_path (http_server config))))
  (LayerOn (Merge (Nest (Nest (Nest RouterNew (lit "/api") (create_data_routes has_store)) (lit "/probes") probe_routes)
     (lit "/events") (create_event_routes has_store)) (create_hypermedia_routes config has_store)) serve_middleware).
Proof. unfold serve_router. by destruct (UriPath_is_empty _). Qed.

(** Every route and every fall-back has the layers of its handler. *)
Definition layered_as (config : ServerConfig) (has_store : bool) (e : Entry) : Prop :=
  e_layers e = serve_middleware ++ layers_of config has_store (e_handler e) \/
  e_handler e = StatusNotFound.

Lemma serve_entries config has_store :
  Forall (layered_as config has_store) (entries (serve_router config has_store)) /\
  Forall (layered_as config has_store) (fallbacks (serve_router config has_store)).
Proof.
  unfold serve_router. set (b := UriPath_is_empty _). set (u := uri _). unfold layered_as.
  destruct b, has_store; (split; cbn; repeat (constructor; [by (left + right)|]); constructor).
Qed.

(** The handlers of the routes, whatever the configuration. *)
Lemma serve_handlers config has_store e : e ∈ entries (serve_router config has_store) ->
  (has_store = true -> e_handler e <> WssHandler) /\ e_handler e <> StatusNotFound.
Proof.
  revert e. apply list.Forall_forall. unfold serve_router. set (b := UriPath_is_empty _). set (u := uri _).
  destruct b, has_store; cbn; repeat (constructor; [by split|]); constructor.
Qed.

Definition table_of (has_store : bool) : list (str * HttpMethod) :=
  route_key <$> entries (LayerOn (Merge (Nest (Nest (Nest RouterNew (lit "/api") (create_data_routes has_store))
    (lit "/probes") probe_routes) (lit "/events") (create_event_routes has_store))
    (create_hypermedia_routes (ServerConfig_default []) has_store)) serve_middleware).

Lemma table_nodup has_store : NoDup (table_of has_store).
Proof. apply (bool_decide_unpack _). destruct has_store; vm_compute; exact I. Qed.

(** ** The table and the compositions of the other files *)

Section compositions.

Context (base64_encode : str -> str) (base64_decode : str -> option str).
Context (hmac : str -> str -> str) (verify_slice : str -> str -> str -> bool).
Context (scrypt : str -> str -> option str).
Context (cookie_header_ok : Cookie -> bool) (header_ok : str -> bool) (invalid_header : str).
Context `{Template ErrorPage, Template NotificationTemplate, Template LoginTemplate, Template LoginFormBlock}.
Context `{Template ApiKeyFormTemplate, Template ApiKeyFormBlock, Template ApiKeySuccessTemplate}.
Context `{Template NotFoundTemplate, Template ThemesTemplate, Template RwFormTemplate}.
Context `{Template TableRowsTemplate, Template HomeTemplate, Template DeviceTableBlock}.
Context `{Template DeviceContainerBlock, Template UpsdInfoTemplate, Template ConnectionPageTemplate}.
Context `{Template InfoCardsBlock, Template SystemPageTemplate, Template UpsPageTemplate}.
Context `{Template UpsStatusBlock, Template TabContentBlock, Template TopologyTemplate, Template GraphNodesBlock}.
Context (values : gmap UpsName DeviceEntry -> list DeviceEntry) (iter : Servers -> list (str * UpsdState)).
Context (vars_iter : UpsVariables -> list (VarName * Value)).
Context (rw_iter : gmap VarName VarDetail -> list (VarName * VarDetail)).
Context (config : ServerConfig) (store : option UserStore) (servers : Servers) (app : AppDetails).
Context (descriptions : Descriptions) (client : outcome ErrorKind Stream) (clock : Clock) (fresh : Z).
Context {dbg : StrDebug} (now : Z).

Abbreviation has_store := (bool_decide (is_Some store)).
Abbreviation handle store r := (respond base64_encode hmac scrypt cookie_header_ok header_ok invalid_header values iter
  vars_iter rw_iter config store servers app descriptions client clock fresh r) (only parsing).
Abbreviation web r := (hypermedia base64_encode base64_decode hmac verify_slice scrypt cookie_header_ok header_ok
  invalid_header values iter vars_iter rw_iter config store servers app descriptions client clock fresh r) (only parsing).

(** The handler of a page; the one of a write route is [handle None r], which has no permission layer. *)
Definition page_handler (r : WebRoute) : Handler :=
  match r with
  | HomeRoute _ _ => HomeGet | TopologyRoute _ => TopologyGet | ConnectionRoute _ => ConnectionGet
  | SystemRoute => SystemGet | UpsRoute _ _ _ _ => UpsGet | InstcmdRoute _ => UpsInstcmdPost | FsdRoute _ => UpsFsdPost
  | RwRoute _ => UpsRwPatch | NotFoundRoute => NotFoundGet | LogoutRoute => LogoutPost | ApiKeysGet => ApiKeyGet
  | ApiKeysPost _ => ApiKeyPost | LoginGet => LoginPageGet | LoginPost _ => LoginFormPost | ThemesRoute => GetThemes
  end.
Definition page_service (r : WebRoute) : WebService :=
  match web_permission r with Some _ => handle None r | None => handle store r end.

(** A layer of the pages; those of [tower_http] leave the modelled part of a reply as it is. *)
Definition web_layer (l : Layer) (next : WebService) : WebService :=
  match l, store with
  | RenewSessionLayer d, Some st =>
      Middleware.RenewSessionService_call base64_encode hmac cookie_header_ok clock fresh
        (Middleware.layer (Middleware.RenewSessionLayer_new config st d) next)
  | UserAuthLayer redirect, Some st =>
      Middleware.UserAuthService_call base64_decode verify_slice clock
        (Middleware.layer (Middleware.UserAuthLayer_new config st redirect) next)
  | AuthorizeUserLayer p, _ =>
      Middleware.AuthorizeUserService_call (Middleware.layer (Middleware.AuthorizeUserLayer_new config p) next)
  | HtmxRedirectLayer, _ => Middleware.HtmxRedirectService_call (Middleware.layer Middleware.HtmxRedirectLayer_new next)
  | _, _ => next
  end.

(** The handlers and layers of the data API. *)
Definition write_handler (body : WriteBody) : Handler :=
  match body with RwBody _ => RwPatch | InstcmdBody _ => InstcmdPost | FsdBody => FsdPost end.
Definition write_service (body : WriteBody) : service Z :=
  match body with
  | RwBody body => fun req _ => reply_of (rw_patch servers (paths req) body client)
  | InstcmdBody body => fun req _ => reply_of (instcmd_post servers (paths req) body client)
  | FsdBody => fun req _ => reply_of (fsd_post servers (paths req) client)
  end.
Definition api_read_handler (route : ReadRoute) : Handler :=
  match route with
  | GetList => NamespaceGetList | GetNamespace _ => NamespaceGet | GetDevices _ => UpsListGet | GetDevice => UpsJsonGet
  | OtherRoute => JsonNotFound
  end.
Definition api_layer `{FromStatus B} (l : Layer) (next : service B) : service B :=
  match l with
  | AcceptLayer _ => accept_layer next
  | ApiAuthLayer =>
      Middleware.ApiAuthService_call base64_decode verify_slice now (Middleware.layer (Middleware.ApiAuthLayer_new config) next)
  | DaemonStateLayer => Middleware.DaemonStateService_call (Middleware.layer (Middleware.DaemonStateLayer_new servers) next)
  | AuthorizeApiLayer p => Middleware.AuthorizeApiService_call (Middleware.layer (Middleware.AuthorizeApiLayer_new p) next)
  | ValidateEmptyContentLength => validate_empty_content_length next
  | _ => next
  end.

(** What the wrapped services do when they are called. *)
Lemma web_layer_calls l next : web_layer l next =
  match l, store with
  | RenewSessionLayer d, Some st => renew_session_call base64_encode hmac cookie_header_ok config clock st fresh d next
  | UserAuthLayer redirect, Some st => user_auth_call base64_decode verify_slice config (at_auth clock) st redirect next
  | AuthorizeUserLayer p, _ => authorize_user_call config p next
  | HtmxRedirectLayer, _ => htmx_redirect_call next
  | _, _ => next
  end.
Proof. by destruct l. Qed.

Lemma web_layer_ext l f g : (forall req s, f req s = g req s) -> forall req s, web_layer l f req s = web_layer l g req s.
Proof.
  intros Hfg req s. rewrite !web_layer_calls. destruct l, store; try apply Hfg;
    unfold renew_session_call, user_auth_call, authorize_user_call, htmx_redirect_call;
    repeat first [done | rewrite Hfg | case_match].
Qed.

Lemma web_layers_ext ls f g : (forall req s, f req s = g req s) ->
  forall req s, foldr web_layer f ls req s = foldr web_layer g ls req s.
Proof. intros Hfg. induction ls as [|l ls IH]; [done|]. by apply web_layer_ext. Qed.

(** The permission layer sees the response that the handler's error becomes. *)
Lemma respond_authorize r req s :
  handle store r req s = foldr web_layer (page_service r)
    (match web_permission r with Some p => if has_store then [AuthorizeUserLayer p] else [] | None => [] end) req s.
Proof.
  unfold page_service. destruct r; cbn [web_permission foldr]; try done;
    (destruct store as [st|]; [rewrite bool_decide_eq_true_2 by done|by rewrite bool_decide_eq_false_2 by (by intros [])]);
    unfold respond; cbn [foldr handler]; rewrite ?web_layer_calls; unfold authorize_layer, authorize_user_call;
    (destruct s as [ses|]; [destruct (has_permission _ _)|]); done.
Qed.

Lemma web_layers_of r req : (needs_store r = true -> has_store = true) ->
  web r req = foldr web_layer (page_service r) (layers_of config has_store (page_handler r)) req None.
Proof.
  intros Hn. unfold hypermedia.
  assert (Hl : forall req s, layered base64_encode base64_decode hmac verify_slice scrypt cookie_header_ok header_ok
      invalid_header values iter vars_iter rw_iter config store servers app descriptions client clock fresh r req s =
    foldr web_layer (page_service r) (tail (layers_of config has_store (page_handler r))) req s).
  { intros q s. unfold layered. destruct store as [st|] eqn:Es.
    - rewrite bool_decide_eq_true_2 by done.
      transitivity (foldr web_layer (handle (Some st) r) (match route_class r with
        | Renewed => [UserAuthLayer (login_path config); RenewSessionLayer AUTH_COOKIE_RENEW]
        | Authenticated => [UserAuthLayer (login_path config)] | Open => [] end) q s).
      + unfold web_layer. rewrite Es. by destruct (route_class r).
      + erewrite web_layers_ext by (intros; rewrite <- Es; apply respond_authorize).
        rewrite <- foldr_app, Es, bool_decide_eq_true_2 by done. by destruct r.
    - rewrite bool_decide_eq_false_2 in * by (by intros []). destruct (needs_store r) eqn:En; [by specialize (Hn eq_refl)|].
      pose proof (respond_authorize r q s) as Hr. rewrite Es, bool_decide_eq_false_2 in Hr by (by intros []).
      rewrite Hr. by destruct r. }
  unfold htmx_redirect_call at 1. rewrite !Hl. by destruct r.
Qed.

Lemma api_write_layers body req :
  data_api base64_decode verify_slice has_store (server_key config) servers now client req body =
  foldr api_layer (write_service body) (layers_of config has_store (write_handler body)) req None.
Proof. unfold data_api, write_route, layers_of. by destruct body, has_store. Qed.

Lemma api_read_layers route req :
  data_api_read values iter base64_decode verify_slice has_store (server_key config) servers now route req =
  foldr api_layer (read_route values iter servers route) (layers_of config has_store (api_read_handler route)) req None.
Proof. unfold data_api_read, layers_of. by destruct route, has_store. Qed.

(** The layers of [serve] leave a modelled reply as it is. *)
Lemma web_serve_layers f ls : foldr web_layer f (serve_middleware ++ ls) = foldr web_layer f ls.
Proof. rewrite foldr_app. unfold serve_middleware, web_layer. by destruct store. Qed.
Lemma api_serve_layers `{FromStatus B} (f : service B) ls : foldr api_layer f (serve_middleware ++ ls) = foldr api_layer f ls.
Proof. by rewrite foldr_app. Qed.

Definition served : list Entry := entries (serve_router config has_store).
Definition unserved : list Entry := fallbacks (serve_router config has_store).

Lemma served_layers e : e ∈ served ++ unserved -> e_handler e <> StatusNotFound ->
  e_layers e = serve_middleware ++ layers_of config has_store (e_handler e).
Proof.
  intros He Hn. destruct (serve_entries config has_store) as [Hs Hf]. rewrite list.Forall_forall in Hs, Hf.
  apply elem_of_app in He as [He|He]; [destruct (Hs e He)|destruct (Hf e He)]; done.
Qed.

(** Every handler of the pages and of the data API has its route, those of the session only with users. *)
Lemma served_handler h : match h with
  | WssHandler => has_store = false
  | WssWithAuthHandler | LogoutPost | ApiKeyGet | ApiKeyPost | LoginPageGet | LoginFormPost => has_store = true
  | JsonNotFound | StatusNotFound => False
  | _ => True end <-> exists e, e ∈ served /\ e_handler e = h.
Proof.
  assert (Hb : forall b, match h with
    | WssHandler => b = false
    | WssWithAuthHandler | LogoutPost | ApiKeyGet | ApiKeyPost | LoginPageGet | LoginFormPost => b = true
    | JsonNotFound | StatusNotFound => False
    | _ => True end <-> h ∈ e_handler <$> entries (serve_router config b)).
  { intros b. assert (Hm : e_handler <$> entries (serve_router config b) =
      e_handler <$> entries (serve_router (ServerConfig_default []) b)).
    { unfold serve_router. set (e := UriPath_is_empty (base_path (http_server config))). set (u := uri _).
      clear. destruct e, b; vm_compute; reflexivity. }
    rewrite Hm. assert (Hd : forall P : Prop, (P <-> bool_decide (h ∈ e_handler <$> entries (serve_router (ServerConfig_default []) b)) = true) ->
      P <-> h ∈ e_handler <$> entries (serve_router (ServerConfig_default []) b)) by (intros P ->; apply bool_decide_eq_true).
    apply Hd. clear. destruct b; destruct h; vm_compute; split; by intros. }
  rewrite (Hb has_store), list_elem_of_fmap. unfold served.
  split; intros (e & ? & ?); exists e; by split.
Qed.

(** The session or token layer is outside the permission layer, and a handler that is not public has one. *)
Lemma guarded_layers h st : store = Some st ->
  (forall auth perm, guard_of config h = Some (auth, perm) ->
     outside auth perm (serve_middleware ++ layers_of config has_store h)) /\
  (is_public h = false -> h <> WssHandler ->
     UserAuthLayer (login_path config) ∈ layers_of config has_store h \/ ApiAuthLayer ∈ layers_of config has_store h).
Proof.
  intros ->. rewrite bool_decide_eq_true_2 by done. split.
  - intros auth perm Hg. destruct h; try done; injection Hg as <- <-; cbn; unfold outside.
    1-3: exists (serve_middleware ++ [CorsLayer; AcceptLayer (lit "application/json")]), [DaemonStateLayer]; by eexists.
    all: exists (serve_middleware ++ [HtmxRedirectLayer]), [RenewSessionLayer AUTH_COOKIE_RENEW]; by eexists.
  - destruct h; try done; intros _ _; cbn; rewrite !elem_of_cons; tauto.
Qed.

(** C19: The router of the server is the program that the guards are proved of. A request of a page or of
    the data API that reaches its route, or the fall-back, is answered by the handler under exactly
    the layers of the table, and that is the composition of the other files; every handler has its
    route, those of the session only when there are users. With users a write is inside its
    permission layer and that inside the layer that authenticates, nothing else but the public
    handlers is reached without it, and the socket is the one with the handshake. No two routes
    overlap, so the router can be built. *)
Theorem router_spec :
  (forall r req e, e ∈ served ++ unserved -> e_handler e = page_handler r -> needs_store r = false \/ is_Some store ->
    web r req = foldr web_layer (page_service r) (e_layers e) req None) /\
  (forall body req e, e ∈ served -> e_handler e = write_handler body ->
    data_api base64_decode verify_slice has_store (server_key config) servers now client req body =
    foldr api_layer (write_service body) (e_layers e) req None) /\
  (forall route req e, e ∈ served ++ unserved -> e_handler e = api_read_handler route ->
    data_api_read values iter base64_decode verify_slice has_store (server_key config) servers now route req =
    foldr api_layer (read_route values iter servers route) (e_layers e) req None) /\
  (forall r, needs_store r = false \/ is_Some store -> exists e, e ∈ served /\ e_handler e = page_handler r) /\
  (forall e st, e ∈ served -> store = Some st ->
    e_handler e <> WssHandler /\
    (forall auth perm, guard_of config (e_handler e) = Some (auth, perm) -> outside auth perm (e_layers e)) /\
    (is_public (e_handler e) = false ->
     UserAuthLayer (login_path config) ∈ e_layers e \/ ApiAuthLayer ∈ e_layers e)) /\
  (UriPath_is_empty (base_path (http_server config)) = true -> NoDup (route_key <$> served)).
Proof.
  split_and!.
  - intros r req e He Hh Hn. rewrite (served_layers e He), web_serve_layers by (rewrite Hh; by destruct r).
    rewrite Hh. apply web_layers_of. intros Hs. apply bool_decide_eq_true. destruct Hn; congruence.
  - intros body req e He Hh. rewrite (served_layers e), api_serve_layers by
      (first [apply elem_of_app; by left | rewrite Hh; by destruct body]). rewrite Hh. apply api_write_layers.
  - intros route req e He Hh. rewrite (served_layers e He), api_serve_layers by (rewrite Hh; by destruct route).
    rewrite Hh. apply api_read_layers.
  - intros r Hn. apply served_handler. destruct r; cbn; try done; apply bool_decide_eq_true; by destruct Hn.
  - intros e st He Hst. destruct (serve_handlers config has_store e He) as [Hw Hf].
    rewrite (served_layers e) by (first [apply elem_of_app; by left | done]).
    destruct (guarded_layers (e_handler e) st Hst) as [Hg Hp].
    assert (Hws : e_handler e <> WssHandler) by (apply Hw; subst; by apply bool_decide_eq_true_2).
    split; [done|]. split; [done|]. intros Hpub. rewrite !elem_of_app. destruct (Hp Hpub Hws); tauto.
  - intros Hb. unfold served, serve_router. rewrite Hb. generalize has_store. intros b. pose proof (table_nodup b) as Hn. by destruct b.
Qed.

End compositions.
