(* ===== verification/Assets.v ===== *)
(** * The assets of the pages, from the build to the browser

    [build.rs] and [lib.rs] of [nut_webgui_client], and [static_content.rs]. The
    build script bundles the style sheet, the script and the icons, and tells
    cargo where they are and what their SHA-256 is; the crate embeds them; the
    static routes serve them, and the pages link to them with the beginning of
    their hash. Commands, files, cargo, SHA-256 and base16 are parameters. *)

From S2P Require Import Prelude RustStr Numbers Ip Auth Config State Api Web Router.

(** ** [build.rs] *)

Inductive PackageManager := Pnpm | Npm.

(** [IntoCliArg::into_cli_arg]: an argument that is there, or [None]. *)
Definition into_cli_arg (arg : option str) : list str := match arg with Some a => [a] | None => [] end.

(** [Path::is_relative] and [Path::join] on the systems that the program is built for. *)
Definition is_relative (path : str) : bool := negb (starts_with (lit "/") path).
Definition path_join (dir name : str) : str :=
  if negb (is_relative name) then name
  else match list.last dir with
       | Some c => if decide (c = "/"%byte) then dir ++ name else dir ++ lit "/" ++ name
       | None => name
       end.

Section build.

Context {E FS : Type} (io_text : E -> str).
(** [std::env::var], [Command::status] with [success], [copy], [File::open] with [read_to_end], [canonicalize]. *)
Context (var : str -> option str) (status : str -> list str -> FS -> outcome E bool * FS).
Context (copy : str -> str -> FS -> outcome E unit * FS) (read_file : str -> FS -> outcome E str).
Context (canonicalize : str -> FS -> outcome E str).
Context (sha256 : str -> str) (encode_string : str -> str).

(** The files, and what the script has printed. *)
Record Build := mkBuild { files : FS; printed : list str }.

Definition build (A : Type) : Type := Build -> outcome E A * Build.

#[global] Instance build_ret : MRet build := fun A a w => (Ok a, w).
#[global] Instance build_bind : MBind build := fun A B f m w =>
  match m w with
  | (Ok a, w) => f a w
  | (Err e, w) => (Err e, w)
  | (Panicked, w) => (Panicked, w)
  | (OutOfFuel, w) => (OutOfFuel, w)
  end.

Definition println (line : str) : build unit := fun w => (Ok tt, mkBuild (files w) (printed w ++ [line])).
Definition give {A} (r : outcome E A) : build A := fun w => (r, w).
Definition on_files {A} (f : FS -> outcome E A * FS) : build A := fun w =>
  let '(r, fs) := f (files w) in (r, mkBuild fs (printed w)).
Definition reading {A} (f : FS -> outcome E A) : build A := fun w => (f (files w), w).
(** A [Result] that is not propagated. *)
Definition caught {A} (m : build A) : build (option A) := fun w =>
  match m w with
  | (Ok a, w) => (Ok (Some a), w)
  | (Err _, w) => (Ok None, w)
  | (Panicked, w) => (Panicked, w)
  | (OutOfFuel, w) => (OutOfFuel, w)
  end.

Definition cargo_error (message : str) : str := lit "cargo::error=" ++ message.
Definition rustc_env (name value : str) : str := lit "cargo::rustc-env=" ++ name ++ lit "=" ++ value.

(** [exec!]: the success of the command; the error of a command that cannot be run. *)
Definition exec (cmd : str) (args : list (option str)) : build bool := fun w =>
  match on_files (status cmd (args ≫= into_cli_arg)) w with
  | (Ok success, w) =>
      (Ok success, if success then w else (println (cargo_error (cmd ++ lit ": execution failed.")) w).2)
  | (Err err, w) => (Err err, (println (cargo_error (io_text err)) w).2)
  | r => r
  end.

(** [let Ok(status) = exec!(..) && status.success()]. *)
Definition succeeds (cmd : str) (args : list (option str)) : build bool :=
  r ← caught (exec cmd args); mret (default false r).

Definition detect_package_manager : build (option PackageManager) :=
  pnpm ← succeeds (lit "pnpm") [Some (lit "--version")];
  if (pnpm : bool) then mret (Some Pnpm)
  else
    npm ← succeeds (lit "npm") [Some (lit "--version")];
    mret (if (npm : bool) then Some Npm else None).

Definition calc_sha256 (bytes : str) : str := encode_string (sha256 bytes).

Definition create_asset (src_dir env_prefix file_name : str) : build unit :=
  src_dir ← (if is_relative src_dir then reading (canonicalize src_dir) else mret src_dir);
  let file_path := path_join src_dir file_name in
  content ← reading (read_file file_path);
  let sha256 := calc_sha256 content in
  path ← give (or_panic (if utf8_valid file_path then Some file_path else None));
  println (rustc_env (env_prefix ++ lit "_PATH") path);;
  println (rustc_env (env_prefix ++ lit "_NAME") file_name);;
  println (rustc_env (env_prefix ++ lit "_SHA256") sha256).

Definition main : build unit :=
  outdir ← give (or_panic (var (lit "OUT_DIR")));
  profile ← give (or_panic (var (lit "PROFILE")));
  node ← succeeds (lit "node") [Some (lit "--version")];
  if negb (node : bool) then
    println (cargo_error (lit "node is required for building the client assets. Make sure the system has nodejs installed."))
  else
    manager ← detect_package_manager;
    match (manager : option PackageManager) with
    | None =>
        println (cargo_error (lit "npm or pnpm is required for initializing node_modules directory."))
    | Some manager =>
        exec (match manager with Npm => lit "npm" | Pnpm => lit "pnpm" end) [Some (lit "install")];;
        let minify := if eq_ignore_ascii_case profile (lit "release") then Some (lit "--minify") else None in
        exec (lit "node") [Some (lit "node_modules/@tailwindcss/cli/dist/index.mjs"); Some (lit "-i");
          Some (lit "src/style.css"); Some (lit "-o"); Some (path_join outdir (lit "style.css")); minify];;
        exec (lit "node") [Some (lit "node_modules/esbuild/bin/esbuild"); Some (lit "src/index.js"); Some (lit "--bundle");
          Some (lit "--format=iife"); Some (lit "--target=es2020"); Some (lit "--outdir=" ++ outdir); minify];;
        on_files (copy (lit "static/icon.svg") (path_join outdir (lit "icon.svg")));;
        on_files (copy (lit "static/feather-sprite.svg") (path_join outdir (lit "feather-sprite.svg")));;
        create_asset outdir (lit "NUTWG_CLIENT_CSS") (lit "style.css");;
        create_asset outdir (lit "NUTWG_CLIENT_JS") (lit "index.js");;
        create_asset outdir (lit "NUTWG_CLIENT_ICON") (lit "icon.svg");;
        create_asset outdir (lit "NUTWG_CLIENT_SPRITE_SHEET") (lit "feather-sprite.svg");;
        println (lit "cargo::rerun-if-changed=src");;
        println (lit "cargo::rerun-if-changed=static");;
        println (lit "cargo::rerun-if-changed=../nut_webgui/src/http/hypermedia");;
        println (lit "cargo::rerun-if-changed=package.json")
    end.

(** ** [lib.rs] *)

Record ContentFile := mkContentFile { bytes : str; cf_name : str; cf_sha256 : str; mime : str }.

(** What [env!] finds when the crate is compiled, and the files there are then; [None] does not compile. *)
Context (env : str -> option str) (compile_files : FS).

Definition include_bytes (path : str) : option str := match read_file path compile_files with Ok b => Some b | _ => None end.
Definition content_file (env_prefix mime : str) : option ContentFile :=
  path ← env (env_prefix ++ lit "_PATH");
  bytes ← include_bytes path;
  name ← env (env_prefix ++ lit "_NAME");
  sha256 ← env (env_prefix ++ lit "_SHA256");
  Some (mkContentFile bytes name sha256 mime).

Definition CSS : option ContentFile := content_file (lit "NUTWG_CLIENT_CSS") (lit "text/css").
Definition JS : option ContentFile := content_file (lit "NUTWG_CLIENT_JS") (lit "text/javascript").
Definition ICON : option ContentFile := content_file (lit "NUTWG_CLIENT_ICON") (lit "image/svg+xml").
Definition SPRITE_SHEET : option ContentFile := content_file (lit "NUTWG_CLIENT_SPRITE_SHEET") (lit "image/svg+xml").

(** [None] is the panic of the slice. *)
Definition short_hash (f : ContentFile) : option str := str_slice (cf_sha256 f) 0 8.

(** ** [static_content.rs] *)

Record StaticResponse := mkStaticResponse { st_status : Z; st_headers : list (str * str); st_body : str }.

Definition CACHE_CONTROL_VALUE : str := lit "private, max-age=604800, immutable".

Definition static_content (f : ContentFile) : StaticResponse :=
  mkStaticResponse OK [(lit "content-type", mime f); (lit "cache-control", CACHE_CONTROL_VALUE)] (bytes f).
Definition get_javascript : option StaticResponse := static_content <$> JS.
Definition get_css : option StaticResponse := static_content <$> CSS.
Definition get_icon : option StaticResponse := static_content <$> ICON.
Definition get_sprite_sheet : option StaticResponse := static_content <$> SPRITE_SHEET.

End build.

(** The links of [+layout.html] and [icons.html]: [{{base_path}}/static/<file>?h={{short_hash}}]. *)
Definition asset_path (base_path : UriPath) (file : str) : str := uri base_path ++ lit "/static/" ++ file.
Definition asset_url (base_path : UriPath) (file hash : str) : str := asset_path base_path file ++ lit "?h=" ++ hash.

(** ** Lemmas: what the script prints *)

(** Cargo fails a build whose script has printed an error. *)
Definition is_error (line : str) : bool := starts_with (lit "cargo::error=") line.
Definition clean (lines : list str) : Prop := Forall (fun l => is_error l = false) lines.

(** The files of the assets: variable, file name, media type, and the handler that serves it. *)
Definition assets : list (str * str * str * Handler) :=
  [(lit "NUTWG_CLIENT_CSS", lit "style.css", lit "text/css", GetCss);
   (lit "NUTWG_CLIENT_JS", lit "index.js", lit "text/javascript", GetJavascript);
   (lit "NUTWG_CLIENT_ICON", lit "icon.svg", lit "image/svg+xml", GetIcon);
   (lit "NUTWG_CLIENT_SPRITE_SHEET", lit "feather-sprite.svg", lit "image/svg+xml", GetSpriteSheet)].

Section build_lemmas.

Context {E FS : Type} (io_text : E -> str).
Context (var : str -> option str) (status : str -> list str -> FS -> outcome E bool * FS).
Context (copy : str -> str -> FS -> outcome E unit * FS) (read_file : str -> FS -> outcome E str).
Context (canonicalize : str -> FS -> outcome E str).
Context (sha256 : str -> str) (encode_string : str -> str).

Abbreviation exec := (exec io_text status).
Abbreviation create_asset := (create_asset read_file canonicalize sha256 encode_string).

(** A step that only adds to what has been printed. *)
Class Prints {A} (m : @build E FS A) : Prop := prints w : printed w `prefix_of` printed (m w).2.

#[global] Instance prints_ret {A} (a : A) : Prints (mret a).
Proof. by intros w. Qed.
#[global] Instance prints_println l : Prints (println l).
Proof. intros w. by apply prefix_app_r. Qed.
#[global] Instance prints_give {A} (r : outcome E A) : Prints (give r).
Proof. by intros w. Qed.
#[global] Instance prints_reading {A} (f : FS -> outcome E A) : Prints (reading f).
Proof. by intros w. Qed.
#[global] Instance prints_on_files {A} (f : FS -> outcome E A * FS) : Prints (on_files f).
Proof. intros w. unfold on_files. by destruct (f (files w)). Qed.
#[global] Instance prints_bind {A B} (m : @build E FS A) (f : A -> @build E FS B) :
  Prints m -> (forall a, Prints (f a)) -> Prints (m ≫= f).
Proof.
  intros Hm Hf w. unfold mbind, build_bind. pose proof (Hm w) as H1.
  destruct (m w) as [[a|e| |] w1]; [|done..]. etrans; [exact H1|apply Hf].
Qed.
#[global] Instance prints_exec cmd args : Prints (exec cmd args).
Proof.
  intros w. unfold Assets.exec. pose proof (prints_on_files (status cmd (args ≫= into_cli_arg)) w) as H.
  destruct (on_files _ w) as [[[]|e| |] w1]; try done; (etrans; [exact H|by apply prefix_app_r]).
Qed.
#[global] Instance prints_succeeds cmd args : Prints (succeeds io_text status cmd args).
Proof.
  apply prints_bind; [|apply _]. intros w. unfold caught. pose proof (prints_exec cmd args w) as H.
  by destruct (exec cmd args w) as [[|e| |] w1].
Qed.

Lemma clean_prefix l l' : l `prefix_of` l' -> clean l' -> clean l.
Proof. intros [k ->] H. by apply list.Forall_app in H as [? _]. Qed.

(** A sequence that has ended without an error line: both parts have. *)
Lemma bind_clean {A B} (m : @build E FS A) (f : A -> @build E FS B) w b w2 : (forall a, Prints (f a)) ->
  (m ≫= f) w = (Ok b, w2) -> clean (printed w2) ->
  exists a w1, m w = (Ok a, w1) /\ clean (printed w1) /\ f a w1 = (Ok b, w2).
Proof.
  intros Hf H Hc. unfold mbind, build_bind in H. destruct (m w) as [[a|e| |] w1]; [|done..]. exists a, w1. split_and!; [done| |done].
  pose proof (Hf a w1) as Hp. rewrite H in Hp. by eapply clean_prefix.
Qed.

Lemma cargo_error_unclean l m : clean (l ++ [cargo_error m]) -> False.
Proof. intros [_ [H _]%list.Forall_cons]%list.Forall_app. discriminate H. Qed.

(** Without an error line a command has been run, has succeeded, and nothing has been printed. *)
Lemma exec_clean cmd args w b w1 : exec cmd args w = (Ok b, w1) -> clean (printed w1) -> b = true /\ printed w1 = printed w.
Proof.
  unfold Assets.exec, on_files. destruct (status _ _ _) as [[[]|e| |] fs]; intros [= <- <-] Hc; [done|].
  by apply cargo_error_unclean in Hc.
Qed.

Lemma succeeds_clean cmd args w b w1 : succeeds io_text status cmd args w = (Ok b, w1) -> clean (printed w1) ->
  b = true /\ printed w1 = printed w /\ (status cmd (args ≫= into_cli_arg) (files w)).1 = Ok true.
Proof.
  unfold succeeds, mbind, build_bind, caught. destruct (exec cmd args w) as [[r|e| |] w'] eqn:Ex; intros [= <- <-] Hc.
  - destruct (exec_clean _ _ _ _ _ Ex Hc) as [-> Hp]. split_and!; [done..|]. revert Ex. unfold Assets.exec, on_files.
    by destruct (status _ _ _) as [[[]|err| |] fs].
  - revert Ex. unfold Assets.exec. destruct (on_files _ w) as [[|err| |] w0]; intros [= <- <-]. by apply cargo_error_unclean in Hc.
Qed.

(** The directory that an asset is looked up in. *)
Definition absolute (dir : str) (fs : FS) : outcome E str := if is_relative dir then canonicalize dir fs else Ok dir.

Definition asset_lines (prefix path name content : str) : list str :=
  [rustc_env (prefix ++ lit "_PATH") path; rustc_env (prefix ++ lit "_NAME") name;
   rustc_env (prefix ++ lit "_SHA256") (encode_string (sha256 content))].

Lemma create_asset_ok dir prefix name w w' : create_asset dir prefix name w = (Ok tt, w') ->
  exists abs content, absolute dir (files w) = Ok abs /\ read_file (path_join abs name) (files w) = Ok content /\
    w' = mkBuild (files w) (printed w ++ asset_lines prefix (path_join abs name) name content).
Proof.
  unfold Assets.create_asset, absolute, mbind, build_bind, reading, give, println, mret, build_ret. intros H.
  assert (Hd : exists abs, (if is_relative dir then canonicalize dir (files w) else Ok dir) = Ok abs /\
    (match read_file (path_join abs name) (files w) with
     | Ok content => utf8_valid (path_join abs name) = true /\
         w' = mkBuild (files w) (((printed w ++ [rustc_env (prefix ++ lit "_PATH") (path_join abs name)]) ++
           [rustc_env (prefix ++ lit "_NAME") name]) ++ [rustc_env (prefix ++ lit "_SHA256") (encode_string (sha256 content))])
     | _ => False end)).
  { destruct (is_relative dir); cbn in H; [destruct (canonicalize dir (files w)) as [abs| | |]; [|done..]|];
      eexists; (split; [done|]); destruct (read_file _ _); try done;
      destruct (utf8_valid _); cbn in H; try done; by injection H as <-. }
  destruct Hd as (abs & Ha & Hr). exists abs. destruct (read_file _ _) as [content| | |]; [|done..]. destruct Hr as [_ ->].
  exists content. split_and!; [done..|]. unfold asset_lines. by rewrite <- !app_assoc.
Qed.

#[global] Instance prints_create_asset dir prefix name : Prints (create_asset dir prefix name).
Proof. unfold Assets.create_asset. apply prints_bind; [case_match|]; apply _. Qed.

(** One step of a sequence that has ended without an error line. *)
Ltac prints_solve := repeat lazymatch goal with
  | |- Prints _ => first [exact _ | apply prints_bind | case_match]
  | |- forall _, _ => intros ?
  end.
Tactic Notation "clean_step" hyp(H) ident(a) ident(w) ident(E) :=
  apply bind_clean in H as (a & w & E & ? & H); [|prints_solve|assumption].

Lemma give_ok {A} (r : outcome E A) (w : @Build FS) a w' : give r w = (Ok a, w') -> r = Ok a /\ w' = w.
Proof. by intros [= <- <-]. Qed.
Lemma on_files_ok {A} (f : FS -> outcome E A * FS) w a w' : on_files f w = (Ok a, w') -> printed w' = printed w.
Proof. unfold on_files. destruct (f (files w)). by intros [= _ <-]. Qed.

Definition rerun_lines : list str :=
  [lit "cargo::rerun-if-changed=src"; lit "cargo::rerun-if-changed=static";
   lit "cargo::rerun-if-changed=../nut_webgui/src/http/hypermedia"; lit "cargo::rerun-if-changed=package.json"].

(** What the script has found and printed about the asset [a] with the content [c]. *)
Definition found (dir : str) (fs : FS) (a : str * str * str * Handler) (c : str) : Prop :=
  read_file (path_join dir a.1.1.2) fs = Ok c.
Definition lines_of (dir : str) (a : str * str * str * Handler) (c : str) : list str :=
  asset_lines a.1.1.1 (path_join dir a.1.1.2) a.1.1.2 c.

(** A build that cargo accepts: the script has found its directory and the assets there, and has printed where they
    are, and nothing else. *)
Lemma main_ok w w' : main io_text var status copy read_file canonicalize sha256 encode_string w = (Ok tt, w') ->
  clean (printed w') -> exists outdir dir contents, var (lit "OUT_DIR") = Some outdir /\
    absolute outdir (files w') = Ok dir /\ Forall2 (found dir (files w')) assets contents /\
    printed w' = printed w ++ concat (zip_with (lines_of dir) assets contents) ++ rerun_lines /\
    exists fs, (status (lit "pnpm") [lit "--version"] fs).1 = Ok true.
Proof.
  intros H Hc. unfold main in H.
  clean_step H outdir w1 E1. clean_step H profile w2 E2. clean_step H node w3 E3.
  apply give_ok in E1 as [Hv ->], E2 as [_ ->]. destruct (var (lit "OUT_DIR")) as [o|]; [|done]. injection Hv as ->.
  apply succeeds_clean in E3 as (-> & P3 & _); [|done]. cbn [negb] in H.
  clean_step H manager w4 E4.
  assert (P4 : printed w4 = printed w3 /\ (status (lit "pnpm") [lit "--version"] (files w3)).1 = Ok true).
  { clean_step E4 pnpm w5 E5. apply succeeds_clean in E5 as (-> & P5 & Hs); [|done]. by injection E4 as _ <-. }
  destruct P4 as [P4 Hpnpm].
  destruct manager as [manager|]; [|exfalso; injection H as <-; by apply cargo_error_unclean in Hc].
  clean_step H b5 w5 E5. apply exec_clean in E5 as [_ P5]; [|done].
  clean_step H b6 w6 E6. apply exec_clean in E6 as [_ P6]; [|done].
  clean_step H b7 w7 E7. apply exec_clean in E7 as [_ P7]; [|done].
  clean_step H b8 w8 E8. apply on_files_ok in E8 as P8.
  clean_step H b9 w9 E9. apply on_files_ok in E9 as P9.
  clean_step H u1 a1 F1. clean_step H u2 a2 F2. clean_step H u3 a3 F3. clean_step H u4 a4 F4.
  destruct u1, u2, u3, u4.
  apply create_asset_ok in F1 as (dir & c1 & D1 & R1 & ->), F2 as (d2 & c2 & D2 & R2 & ->).
  apply create_asset_ok in F3 as (d3 & c3 & D3 & R3 & ->), F4 as (d4 & c4 & D4 & R4 & ->). cbn [files printed] in *.
  assert (d2 = dir) as -> by congruence. assert (d3 = dir) as -> by congruence. assert (d4 = dir) as -> by congruence.
  injection H as <-. exists outdir, dir, [c1; c2; c3; c4]. cbn [files printed]. split_and!; [done..| | |by eauto].
  - by repeat constructor.
  - rewrite P9, P8, P7, P6, P5, P4, P3, <- !app_assoc. done.
Qed.

End build_lemmas.

(** ** The crate and the routes *)

(** What cargo documents: the variables of a build are those that the lines of its script set, if no line is broken
    and all lines of a variable agree. *)
Definition cargo_documented (env_of : list str -> str -> option str) : Prop := forall lines name value,
  Forall (fun l => LF ∉ l) lines -> "="%byte ∉ name -> rustc_env name value ∈ lines ->
  (forall v, rustc_env name v ∈ lines -> v = value) -> env_of lines name = Some value.

(** What base16ct and sha2 document: two lower-case digits for every byte, and 32 bytes. *)
Definition hex_pair (c : byte) : str :=
  [IpText.hex_byte (Z.of_N (Byte.to_N c) / 16); IpText.hex_byte (Z.of_N (Byte.to_N c) mod 16)].
Definition hash_documented (sha256 encode_string : str -> str) : Prop :=
  (forall b, length (sha256 b) = 32) /\ (forall b, encode_string b = b ≫= hex_pair).

(** The handlers of the static routes. *)
Definition static_handler {E FS} (read_file : str -> FS -> outcome E str) (env : str -> option str) (fs : FS) (h : Handler)
  : option StaticResponse :=
  match h with
  | GetCss => get_css read_file env fs
  | GetJavascript => get_javascript read_file env fs
  | GetIcon => get_icon read_file env fs
  | GetSpriteSheet => get_sprite_sheet read_file env fs
  | _ => None
  end.

(** A pair is read back as its byte, is ASCII, and has no line feed; by evaluation. *)
Definition read_pair (digits : str) : option Z :=
  match digits with [h; l] => x ← to_digit 16 h; y ← to_digit 16 l; Some (16 * x + y)%Z | _ => None end.
Definition pairs_checked : bool :=
  forallb (fun a => forallb is_ascii (hex_pair a) && bool_decide (LF ∉ hex_pair a) &&
    bool_decide (read_pair (hex_pair a) = Some (Z.of_N (Byte.to_N a)))) all_bytes.
Lemma pairs_ok : pairs_checked = true.
Proof. vm_compute. reflexivity. Qed.

Lemma hex_pair_spec a :
  forallb is_ascii (hex_pair a) = true /\ LF ∉ hex_pair a /\ read_pair (hex_pair a) = Some (Z.of_N (Byte.to_N a)).
Proof. pose proof (forall_byte _ pairs_ok a) as H. cbv beta in H. bool_to_prop. done. Qed.

Lemma hex_pair_inj a b : hex_pair a = hex_pair b -> a = b.
Proof.
  intros E. destruct (hex_pair_spec a) as (_ & _ & Ha), (hex_pair_spec b) as (_ & _ & Hb).
  rewrite E, Hb in Ha. injection Ha as Ha%N2Z.inj. apply (f_equal Byte.of_N) in Ha.
  rewrite !Byte.of_to_N in Ha. by injection Ha.
Qed.

Lemma hex_length (b : str) : length (b ≫= hex_pair) = 2 * length b.
Proof. induction b as [|c b IH]; [done|]. cbn in *. lia. Qed.
Lemma hex_plain (b : str) : forallb is_ascii (b ≫= hex_pair) = true /\ LF ∉ b ≫= hex_pair.
Proof.
  induction b as [|c b [IH1 IH2]]; [split; [done|by intros ?%elem_of_nil]|].
  destruct (hex_pair_spec c) as (H1 & H2 & _). change ((c :: b) ≫= hex_pair) with (hex_pair c ++ (b ≫= hex_pair)). split.
  - rewrite forallb_app. by apply andb_true_iff.
  - rewrite elem_of_app. by intros [].
Qed.

Lemma hex_take n (b : str) : take (2 * n) (b ≫= hex_pair) = take n b ≫= hex_pair.
Proof.
  revert b. induction n as [|n IH]; intros b; [done|]. destruct b as [|c b]; [done|].
  replace (2 * S n) with (S (S (2 * n))) by lia. cbn. f_equal. f_equal. apply IH.
Qed.
Lemma hex_inj (a b : str) : a ≫= hex_pair = b ≫= hex_pair -> a = b.
Proof.
  revert b. induction a as [|x a IH]; intros [|y b]; try done. intros H.
  assert (Hp : hex_pair x = hex_pair y) by (by injection H as H1 H2 _; unfold hex_pair; rewrite H1, H2).
  apply hex_pair_inj in Hp as ->. f_equal. apply IH. by injection H.
Qed.

(** The hash of a link: eight digits, which tell the first four bytes of the hash. *)
Lemma short_hash_digits sha256 encode_string c name content m : hash_documented sha256 encode_string ->
  short_hash (mkContentFile content name (calc_sha256 sha256 encode_string c) m) = Some (take 4 (sha256 c) ≫= hex_pair).
Proof.
  intros [Hl He]. unfold short_hash, calc_sha256. cbn [cf_sha256]. rewrite He.
  pose proof (hex_length (sha256 c)) as Hn. rewrite Hl in Hn. destruct (hex_plain (sha256 c)) as [Ha _].
  rewrite <- (hex_take 4), (str_slice_valid _ 0 8); [done|lia|lia|by apply utf8_valid_ascii|].
  apply utf8_valid_ascii. rewrite <- (take_drop 8 (sha256 c ≫= hex_pair)), forallb_app in Ha. by apply andb_true_iff in Ha as [_ ?].
Qed.

Lemma split_at_eq (a b v x : str) : "="%byte ∉ a -> "="%byte ∉ b -> a ++ lit "=" ++ v = b ++ lit "=" ++ x -> a = b /\ v = x.
Proof.
  revert b. induction a as [|c a IH]; intros [|d b] Ha Hb H; cbn in H.
  - by injection H.
  - injection H as <- _. destruct Hb. left.
  - injection H as -> _. destruct Ha. left.
  - injection H as -> H. apply not_elem_of_cons in Ha as [_ Ha], Hb as [_ Hb]. by destruct (IH b Ha Hb H) as [-> ->].
Qed.

(** Variables with different names, each set by one line, beside lines that set none. *)
Lemma cargo_reads env_of (vars : list (str * str)) others n v : cargo_documented env_of ->
  NoDup vars.*1 -> Forall (fun e => "="%byte ∉ e.1 /\ LF ∉ e.1 /\ LF ∉ e.2) vars ->
  Forall (fun l => LF ∉ l /\ starts_with (lit "cargo::rustc-env=") l = false) others -> (n, v) ∈ vars ->
  env_of ((uncurry rustc_env <$> vars) ++ others) n = Some v.
Proof.
  intros Hc Hnd Hv Ho Hin. rewrite list.Forall_forall in Hv. rewrite list.Forall_forall in Ho. pose proof (Hv _ Hin) as (Hn & _ & _). cbn in Hn.
  apply Hc; [|done| |].
  - apply list.Forall_forall. intros l [Hl|Hl]%elem_of_app; [|by apply Ho].
    apply list_elem_of_fmap in Hl as ([n' v'] & -> & H). destruct (Hv _ H) as (_ & H1 & H2). cbn [fst snd uncurry] in *.
    unfold rustc_env. rewrite !elem_of_app. intros [Hx|[Hx|[Hx|Hx]]]; [|done| |done];
      apply list_elem_of_In in Hx; cbn in Hx; repeat (destruct Hx as [Hx|Hx]; [discriminate Hx|]); done.
  - apply elem_of_app. left. by apply (list_elem_of_fmap_2 (uncurry rustc_env) _ (n, v)).
  - intros x [Hx|Hx]%elem_of_app.
    + apply list_elem_of_fmap in Hx as ([n' v'] & E & H). cbn [uncurry] in E. unfold rustc_env in E. apply app_inv_head in E.
      destruct (Hv _ H) as (H1 & _ & _). apply split_at_eq in E as [<- ->]; [|done..].
      apply list_elem_of_lookup_1 in H as [i Hi], Hin as [j Hj].
      assert (i = j) as ->; [|congruence]. eapply NoDup_lookup; [done|..]; rewrite list_lookup_fmap; by rewrite ?Hi, ?Hj.
    + apply Ho in Hx as [_ Hx]. discriminate Hx.
Qed.

(** What the crate finds about an asset that the script has found. *)
Lemma content_found {E FS} (read_file : str -> FS -> outcome E str) sha256 encode_string env_of fs dir contents a c :
  hash_documented sha256 encode_string -> cargo_documented env_of -> LF ∉ dir ->
  Forall2 (found read_file dir fs) assets contents -> (a, c) ∈ zip assets contents ->
  content_file read_file (env_of (concat (zip_with (lines_of sha256 encode_string dir) assets contents) ++ rerun_lines))
    fs a.1.1.1 a.1.2 = Some (mkContentFile c a.1.1.2 (calc_sha256 sha256 encode_string c) a.1.2).
Proof.
  intros Hh Hc Hd Hf Ha.
  set (vars := concat (zip_with (fun a c => [(a.1.1.1 ++ lit "_PATH", path_join dir a.1.1.2); (a.1.1.1 ++ lit "_NAME", a.1.1.2);
    (a.1.1.1 ++ lit "_SHA256", calc_sha256 sha256 encode_string c)]) assets contents)).
  assert (Hlen : length contents = 4) by (by apply Forall2_length in Hf).
  assert (Hr : read_file (path_join dir a.1.1.2) fs = Ok c).
  { apply list_elem_of_lookup_1 in Ha as [i Hi]. apply lookup_zip_with_Some in Hi as (x & y & [= -> ->] & Hx & Hy).
    by apply (Forall2_lookup_lr _ _ _ _ _ _ Hf Hx Hy). }
  assert (Hp : forall file, LF ∉ file -> LF ∉ path_join dir file).
  { intros file Hfile. unfold path_join. repeat case_match; rewrite ?elem_of_app; try tauto.
    intros [?|[?%list_elem_of_singleton|?]]; done. }
  assert (Hx : forall b, LF ∉ calc_sha256 sha256 encode_string b).
  { intros b. destruct Hh as [_ He]. unfold calc_sha256. rewrite He. apply hex_plain. }
  assert (Henv : forall n v, (n, v) ∈ vars ->
    env_of (concat (zip_with (lines_of sha256 encode_string dir) assets contents) ++ rerun_lines) n = Some v).
  { intros n v Hin. replace (concat (zip_with (lines_of sha256 encode_string dir) assets contents)) with (uncurry rustc_env <$> vars)
      by (unfold vars; do 4 (destruct contents as [|? contents]; [done|]); by destruct contents).
    apply cargo_reads; [done|..|done].
    - unfold vars. do 4 (destruct contents as [|? contents]; [done|]). cbn. apply (bool_decide_unpack _). vm_compute. exact I.
    - unfold vars. do 4 (destruct contents as [|? contents]; [done|]). cbn [zip_with concat assets app].
      repeat (constructor; [split_and!; cbn [fst snd]; [by apply (bool_decide_unpack _)|by apply (bool_decide_unpack _)|
        first [apply Hp; by apply (bool_decide_unpack _) | apply Hx | by apply (bool_decide_unpack _)]]|]). constructor.
    - repeat (constructor; [split; [by apply (bool_decide_unpack _)|done]|]). constructor. }
  unfold content_file, include_bytes.
  assert (Hvars : forall n v, (n, v) ∈ [(a.1.1.1 ++ lit "_PATH", path_join dir a.1.1.2); (a.1.1.1 ++ lit "_NAME", a.1.1.2);
    (a.1.1.1 ++ lit "_SHA256", calc_sha256 sha256 encode_string c)] -> (n, v) ∈ vars).
  { intros n v Hin. unfold vars. apply list_elem_of_In, in_concat. eexists. split; [|by apply list_elem_of_In].
    apply list_elem_of_In in Ha. apply list_elem_of_In.
    apply list_elem_of_In in Ha. apply list_elem_of_lookup_1 in Ha as [i Hi].
    apply lookup_zip_with_Some in Hi as (x & y & [= -> ->] & Hx' & Hy).
    apply (list_elem_of_lookup_2 _ i), lookup_zip_with_Some. eauto. }
  assert (Hthree : forall n v, (n, v) = (a.1.1.1 ++ lit "_PATH", path_join dir a.1.1.2) \/
    (n, v) = (a.1.1.1 ++ lit "_NAME", a.1.1.2) \/ (n, v) = (a.1.1.1 ++ lit "_SHA256", calc_sha256 sha256 encode_string c) ->
    env_of (concat (zip_with (lines_of sha256 encode_string dir) assets contents) ++ rerun_lines) n = Some v).
  { intros n v H. apply Henv, Hvars. rewrite !elem_of_cons. tauto. }
  rewrite (Hthree (a.1.1.1 ++ lit "_PATH") (path_join dir a.1.1.2) ltac:(by left)). cbn [mbind option_bind].
  rewrite Hr. cbn [mbind option_bind].
  rewrite (Hthree (a.1.1.1 ++ lit "_NAME") a.1.1.2 ltac:(by right; left)). cbn [mbind option_bind].
  by rewrite (Hthree (a.1.1.1 ++ lit "_SHA256") (calc_sha256 sha256 encode_string c) ltac:(by right; right)).
Qed.

Lemma assets_cases (P : str * str * str * Handler -> Prop) :
  P (lit "NUTWG_CLIENT_CSS", lit "style.css", lit "text/css", GetCss) ->
  P (lit "NUTWG_CLIENT_JS", lit "index.js", lit "text/javascript", GetJavascript) ->
  P (lit "NUTWG_CLIENT_ICON", lit "icon.svg", lit "image/svg+xml", GetIcon) ->
  P (lit "NUTWG_CLIENT_SPRITE_SHEET", lit "feather-sprite.svg", lit "image/svg+xml", GetSpriteSheet) ->
  forall a, a ∈ assets -> P a.
Proof.
  intros H1 H2 H3 H4 a. unfold assets. rewrite !elem_of_cons, elem_of_nil.
  by intros [->|[->|[->|[->|[]]]]].
Qed.

Lemma static_route config has_store a : a ∈ assets -> exists e, e ∈ entries (serve_router config has_store) /\
  e_path e = asset_path (base_path (http_server config)) a.1.1.2 /\ e_method e = GET /\ e_handler e = a.2.
Proof.
  intros Ha. unfold serve_router, asset_path.
  assert (Hin : exists e, e ∈ entries (create_hypermedia_routes config has_store) /\ e_path e = lit "/static/" ++ a.1.1.2 /\
    e_method e = GET /\ e_handler e = a.2).
  { unfold create_hypermedia_routes. cbn [entries].
    assert (Hs : exists e, e ∈ entries static_files /\ e_path e = lit "/" ++ a.1.1.2 /\ e_method e = GET /\ e_handler e = a.2).
    { exists (mkEntry (lit "/" ++ a.1.1.2) GET a.2 []). split; [|done]. revert a Ha.
      apply (assets_cases (fun a => mkEntry (lit "/" ++ a.1.1.2) GET a.2 [] ∈ entries static_files));
        repeat first [apply list_elem_of_here | apply list_elem_of_further]. }
    destruct Hs as (e & He & Hp & Hm & Hh). exists (add_prefix (lit "/static") e). split.
    { apply elem_of_app. right. by apply list_elem_of_fmap_2. }
    split; [|by split]. cbn [add_prefix e_path]. rewrite Hp. unfold nest_path. rewrite decide_False; [done|]. revert a Ha Hp Hh.
    by refine (assets_cases _ _ _ _ _). }
  destruct Hin as (e & He & Hp & Hm & Hh).
  assert (Hl : exists e', e' ∈ entries (LayerOn (Merge (Nest (Nest (Nest RouterNew (lit "/api") (create_data_routes has_store))
    (lit "/probes") probe_routes) (lit "/events") (create_event_routes has_store)) (create_hypermedia_routes config has_store)) serve_middleware) /\
    e_path e' = lit "/static/" ++ a.1.1.2 /\ e_method e' = GET /\ e_handler e' = a.2).
  { exists (add_layers serve_middleware e). split; [|by split_and!]. cbn [entries]. apply list_elem_of_fmap_2, elem_of_app. by right. }
  destruct Hl as (e' & He' & Hp' & Hm' & Hh'). unfold UriPath_is_empty. case_bool_decide as Hb.
  - exists e'. rewrite Hb. by split_and!.
  - exists (add_prefix (uri (base_path (http_server config))) e'). split.
    { cbn [entries app]. by apply list_elem_of_fmap_2. }
    split; [|by split]. cbn [add_prefix e_path]. rewrite Hp'. unfold nest_path. by rewrite decide_False by done.
Qed.

Lemma asset_url_eq base file h h' : asset_url base file h = asset_url base file h' <-> h = h'.
Proof. unfold asset_url. split; [|by intros ->]. by intros H%app_inv_head%app_inv_head. Qed.

(** C28: A build that cargo accepts serves what it was built from, under links that change with it. If the build
    script ends without an error line, then pnpm was there, the four assets were in its output
    directory, and it has printed where they are and nothing else that cargo acts on but when to run it
    again. The crate then compiles with the content of these files; each one's static route is in the
    router at the path that the pages link to and answers with the file, its media type and a header that
    lets browsers keep it; taking the first eight digits of a hash never panics; and the links to two
    versions of an asset are the same exactly when the first four bytes of their SHA-256 are. *)
Theorem assets_served {E FS} (io_text : E -> str) (var : str -> option str) (status : str -> list str -> FS -> outcome E bool * FS)
  (copy : str -> str -> FS -> outcome E unit * FS) (read_file canonicalize : str -> FS -> outcome E str)
  (sha256 encode_string : str -> str) (Hhash : hash_documented sha256 encode_string)
  (env_of : list str -> str -> option str) (Hcargo : cargo_documented env_of) (config : ServerConfig) (has_store : bool)
  (start : FS) (w : Build) (Hdir : forall outdir dir, var (lit "OUT_DIR") = Some outdir ->
     absolute canonicalize outdir (files w) = Ok dir -> LF ∉ dir)
  (Hmain : main io_text var status copy read_file canonicalize sha256 encode_string (mkBuild start []) = (Ok tt, w))
  (Hclean : clean (printed w)) :
  let env := env_of (printed w) in
  let link file content := asset_url (base_path (http_server config)) file (take 4 (sha256 content) ≫= hex_pair) in
  (exists fs, (status (lit "pnpm") [lit "--version"] fs).1 = Ok true) /\
  Forall (fun l => starts_with (lit "cargo::rustc-env=NUTWG_CLIENT_") l || starts_with (lit "cargo::rerun-if-changed=") l = true)
    (printed w) /\
  (exists outdir dir, var (lit "OUT_DIR") = Some outdir /\ absolute canonicalize outdir (files w) = Ok dir /\
   forall prefix file media h, (prefix, file, media, h) ∈ assets ->
   exists content f e, read_file (path_join dir file) (files w) = Ok content /\
     content_file read_file env (files w) prefix media = Some f /\ bytes f = content /\
     short_hash f = Some (take 4 (sha256 content) ≫= hex_pair) /\
     static_handler read_file env (files w) h =
       Some (mkStaticResponse OK [(lit "content-type", media); (lit "cache-control", CACHE_CONTROL_VALUE)] content) /\
     e ∈ entries (serve_router config has_store) /\ e_method e = GET /\ e_handler e = h /\
     forall hash, asset_url (base_path (http_server config)) file hash = e_path e ++ lit "?h=" ++ hash) /\
  (forall file a b, link file a = link file b <-> take 4 (sha256 a) = take 4 (sha256 b)).
Proof.
  intros env link. destruct (main_ok _ _ _ _ _ _ _ _ _ _ Hmain Hclean) as (outdir & dir & contents & Hv & Ha & Hf & Hp & Hpnpm).
  cbn [printed] in Hp. change ([] ++ ?l) with l in Hp.
  split; [done|]. split_and!.
  - rewrite Hp. pose proof (Forall2_length Hf) as Hl. do 4 (destruct contents as [|? contents]; [done|]).
    destruct contents; [|done]. cbn [zip_with assets lines_of asset_lines concat app rerun_lines fst snd]. by repeat constructor.
  - exists outdir, dir. split_and!; [done..|]. intros prefix file media h Hin.
    assert (Hz : exists c, ((prefix, file, media, h), c) ∈ zip assets contents).
    { apply list_elem_of_lookup_1 in Hin as [i Hi]. destruct (Forall2_lookup_l _ _ _ _ _ Hf Hi) as (c & Hc & _).
      exists c. apply (list_elem_of_lookup_2 _ i), lookup_zip_with_Some. eauto. }
    destruct Hz as [c Hz]. pose proof (content_found read_file sha256 encode_string env_of (files w) dir contents _ c Hhash Hcargo
      (Hdir outdir dir Hv Ha) Hf Hz) as Hcf. cbn [fst snd] in Hcf. unfold env. rewrite Hp.
    destruct (static_route config has_store _ Hin) as (e & He & Hpath & Hm & Hh). cbn [fst snd] in *.
    eexists c, _, e. split_and!; [|exact Hcf|done|by apply short_hash_digits| |done..|by intros hash; rewrite Hpath].
    + apply list_elem_of_lookup_1 in Hz as [i Hi]. apply lookup_zip_with_Some in Hi as (x & y & [= <- <-] & Hx & Hy).
      apply (Forall2_lookup_lr _ _ _ _ _ _ Hf Hx Hy).
    + assert (Hs : static_handler read_file (env_of (concat (zip_with (lines_of sha256 encode_string dir) assets contents) ++ rerun_lines))
        (files w) h = static_content <$> content_file read_file
          (env_of (concat (zip_with (lines_of sha256 encode_string dir) assets contents) ++ rerun_lines)) (files w) prefix media).
      { generalize (env_of (concat (zip_with (lines_of sha256 encode_string dir) assets contents) ++ rerun_lines)) as en. intros en.
        by apply (assets_cases (fun a => static_handler read_file en (files w) a.2 =
          static_content <$> content_file read_file en (files w) a.1.1.1 a.1.2)) in Hin. }
      by rewrite Hs, Hcf.
  - intros file a b. unfold link. rewrite asset_url_eq. split; [apply hex_inj|by intros ->].
Qed.

(** ** Witness: a build on a machine with pnpm *)

#[local] Definition demo_env_of (lines : list str) (name : str) : option str :=
  head (omap (strip_prefix (lit "cargo::rustc-env=" ++ name ++ lit "=")) lines).
#[local] Definition demo_sha256 (b : str) : str := take 32 (b ++ replicate 32 "0"%byte).
#[local] Definition demo_hex (b : str) : str := b ≫= hex_pair.
#[local] Definition demo_var (name : str) : option str :=
  if decide (name = lit "OUT_DIR") then Some (lit "/out") else if decide (name = lit "PROFILE") then Some (lit "release") else None.
(** The files by their paths; a command finds what it makes already there. *)
#[local] Definition demo_read (path : str) (fs : list (str * str)) : outcome unit str :=
  match list_find (fun e => e.1 = path) fs with Some (_, e) => Ok e.2 | None => Err tt end.
#[local] Definition demo_copy (src dst : str) (fs : list (str * str)) : outcome unit unit * list (str * str) :=
  match demo_read src fs with Ok c => (Ok tt, (dst, c) :: fs) | _ => (Err tt, fs) end.
#[local] Definition demo_files : list (str * str) :=
  [(lit "/out/style.css", lit "body{}"); (lit "/out/index.js", lit "(()=>{})()"); (lit "static/icon.svg", lit "<svg/>");
   (lit "static/feather-sprite.svg", lit "<svg></svg>")].
#[local] Definition demo_status (cmd : str) (args : list str) (fs : list (str * str)) : outcome unit bool * list (str * str) :=
  (Ok true, fs).
#[local] Definition demo_build : outcome unit unit * Build :=
  main (fun _ => []) demo_var demo_status demo_copy demo_read (fun p _ => Ok p) demo_sha256 demo_hex (mkBuild demo_files []).

Lemma demo_cargo : cargo_documented demo_env_of.
Proof.
  intros lines name value _ _ Hin Hall. unfold demo_env_of.
  destruct (omap _ lines) as [|x l] eqn:E.
  - exfalso. apply (not_elem_of_nil (A := str) value). rewrite <- E. apply list_elem_of_omap. exists (rustc_env name value).
    split; [done|].
    replace (rustc_env name value) with ((lit "cargo::rustc-env=" ++ name ++ lit "=") ++ value) by (unfold rustc_env; by rewrite <- !app_assoc).
    apply strip_prefix_app.
  - cbn. f_equal. apply Hall. assert (Hx : x ∈ x :: l) by left. rewrite <- E in Hx.
    apply list_elem_of_omap in Hx as (line & Hl & Hs). apply strip_prefix_Some in Hs as ->.
    unfold rustc_env. by rewrite <- !app_assoc in Hl.
Qed.

Lemma demo_hash : hash_documented demo_sha256 demo_hex.
Proof. split; [|done]. intros b. unfold demo_sha256. rewrite length_take, length_app, length_replicate. lia. Qed.

Lemma assets_served_witness : exists content f, demo_read (lit "/out/style.css") (files demo_build.2) = Ok content /\
  CSS demo_read (demo_env_of (printed demo_build.2)) (files demo_build.2) = Some f /\ bytes f = content /\
  short_hash f = Some (lit "626f6479").
Proof.
  destruct (assets_served (fun _ => []) demo_var demo_status demo_copy demo_read (fun p _ => Ok p) demo_sha256 demo_hex demo_hash
    demo_env_of demo_cargo (ServerConfig_default []) true demo_files demo_build.2) as (_ & _ & (outdir & dir & Hv & Hd & Ha) & _).
  - intros outdir dir Ho Hd. vm_compute in Ho. injection Ho as <-. vm_compute in Hd. injection Hd as <-.
    apply (bool_decide_unpack _). vm_compute. exact I.
  - vm_compute. reflexivity.
  - unfold clean. apply (bool_decide_unpack _). vm_compute. exact I.
  - vm_compute in Hv. injection Hv as <-. vm_compute in Hd. injection Hd as <-.
    destruct (Ha (lit "NUTWG_CLIENT_CSS") (lit "style.css") (lit "text/css") GetCss ltac:(left)) as (content & f & e & Hc & Hf & Hb & Hs & _).
    exists content, f. split; [exact Hc|]. split; [exact Hf|]. split; [exact Hb|].
    rewrite Hs. vm_compute in Hc. injection Hc as <-. vm_compute. reflexivity.
Defined.
