(* ===== verification/NutClients.v ===== *)
(** * The interface of the clients

    [client.rs]: the trait [AsyncNutClient] and its three implementations: a
    connection ([client_base.rs]), a logged-in connection ([client_auth.rs])
    and the pool ([client_pool.rs]). Each of them is lawful: a call of the trait
    runs the same request on one of its connections, or it fails. Code that
    talks to a daemon can be proved against the interface. *)

From S2P Require Import Prelude RustStr Numbers Errors Names VarName Value UpsVariables Response Client Tls.
From S2P Require PoolClient.

(** ** [client.rs] *)

Class AsyncNutClient (C : Type) := {
  nc_get_cmd_desc : UpsName -> CmdName -> C -> outcome ErrorKind CmdDesc * C;
  nc_get_protver : C -> outcome ErrorKind str * C;
  nc_get_ups_desc : UpsName -> C -> outcome ErrorKind UpsDesc * C;
  nc_get_var : UpsName -> VarName -> C -> outcome ErrorKind UpsVar * C;
  nc_get_var_type : UpsName -> VarName -> C -> outcome ErrorKind UpsVarType * C;
  nc_get_var_desc : UpsName -> VarName -> C -> outcome ErrorKind UpsVarDesc * C;
  nc_get_ver : C -> outcome ErrorKind str * C;
  nc_list_client : UpsName -> C -> outcome ErrorKind ClientList * C;
  nc_list_cmd : UpsName -> C -> outcome ErrorKind CmdList * C;
  nc_list_enum : UpsName -> VarName -> C -> outcome ErrorKind EnumList * C;
  nc_list_range : UpsName -> VarName -> C -> outcome ErrorKind RangeList * C;
  nc_list_rw : UpsName -> C -> outcome ErrorKind RwList * C;
  nc_list_ups : C -> outcome ErrorKind UpsList * C;
  nc_list_var : UpsName -> C -> outcome ErrorKind UpsVarList * C;
}.

(** What the three have in common: a way to run a request, on connections that the state of the client
    determines. *)
Class NutClientLaws (C : Type) `{!AsyncNutClient C} := {
  nc_run : forall {A}, io A -> C -> outcome ErrorKind A * C;
  (** the connections on which the request may run, as they are when it does *)
  nc_conn : forall {A}, io A -> C -> Stream -> Prop;
  nc_run_conn : forall A (call : io A) c,
    (exists s, nc_conn call c s /\ (nc_run call c).1 = (call s).1) \/
    (exists e, (nc_run call c).1 = Err e) \/ (nc_run call c).1 = Panicked \/ (nc_run call c).1 = OutOfFuel;
  nc_get_cmd_desc_run u x : nc_get_cmd_desc u x = nc_run (get_cmd_desc u x);
  nc_get_protver_run : nc_get_protver = nc_run get_protver;
  nc_get_ups_desc_run u : nc_get_ups_desc u = nc_run (get_ups_desc u);
  nc_get_var_run u v : nc_get_var u v = nc_run (get_var u v);
  nc_get_var_type_run u v : nc_get_var_type u v = nc_run (get_var_type u v);
  nc_get_var_desc_run u v : nc_get_var_desc u v = nc_run (get_var_desc u v);
  nc_get_ver_run : nc_get_ver = nc_run get_ver;
  nc_list_client_run u : nc_list_client u = nc_run (list_client u);
  nc_list_cmd_run u : nc_list_cmd u = nc_run (list_cmd u);
  nc_list_enum_run u v : nc_list_enum u v = nc_run (list_enum u v);
  nc_list_range_run u v : nc_list_range u v = nc_run (list_range u v);
  nc_list_rw_run u : nc_list_rw u = nc_run (list_rw u);
  nc_list_ups_run : nc_list_ups = nc_run list_ups;
  nc_list_var_run u : nc_list_var u = nc_run (list_var u);
}.

(** ** [client_base.rs] *)

Definition NutClient_async : AsyncNutClient Stream := {|
  nc_get_cmd_desc := get_cmd_desc; nc_get_protver := get_protver; nc_get_ups_desc := get_ups_desc;
  nc_get_var := get_var; nc_get_var_type := get_var_type; nc_get_var_desc := get_var_desc; nc_get_ver := get_ver;
  nc_list_client := list_client; nc_list_cmd := list_cmd; nc_list_enum := list_enum; nc_list_range := list_range;
  nc_list_rw := list_rw; nc_list_ups := list_ups; nc_list_var := list_var |}.
#[global] Existing Instance NutClient_async.

#[global] Program Instance NutClient_laws : NutClientLaws Stream := {|
  nc_run A call := call; nc_conn A _ c s := s = c |}.
Next Obligation. left. by exists c. Qed.
Solve All Obligations with done.

(** ** [client_auth.rs] *)

Record NutAuthClient := mkAuthClient { auth_inner : Stream }.

(** [self.inner.<call>]. *)
Definition on_inner {A} (call : io A) (c : NutAuthClient) : outcome ErrorKind A * NutAuthClient :=
  let '(r, s) := call (auth_inner c) in (r, mkAuthClient s).

Definition NutAuthClient_async : AsyncNutClient NutAuthClient := {|
  nc_get_cmd_desc ups cmd := on_inner (nc_get_cmd_desc ups cmd);
  nc_get_protver := on_inner nc_get_protver;
  nc_get_ups_desc ups := on_inner (nc_get_ups_desc ups);
  nc_get_var ups var := on_inner (nc_get_var ups var);
  nc_get_var_type ups var := on_inner (nc_get_var_type ups var);
  nc_get_var_desc ups var := on_inner (nc_get_var_desc ups var);
  nc_get_ver := on_inner nc_get_ver;
  nc_list_client ups := on_inner (nc_list_client ups);
  nc_list_cmd ups := on_inner (nc_list_cmd ups);
  nc_list_enum ups var := on_inner (nc_list_enum ups var);
  nc_list_range ups var := on_inner (nc_list_range ups var);
  nc_list_rw ups := on_inner (nc_list_rw ups);
  nc_list_ups := on_inner nc_list_ups;
  nc_list_var ups := on_inner (nc_list_var ups) |}.
#[global] Existing Instance NutAuthClient_async.

#[global] Program Instance NutAuthClient_laws : NutClientLaws NutAuthClient := {|
  nc_run A call := on_inner call; nc_conn A _ c s := s = auth_inner c |}.
Next Obligation. left. exists (auth_inner c). split; [done|]. unfold on_inner. by destruct (call (auth_inner c)). Qed.
Solve All Obligations with done.

(** [NutClient::authenticate]: the client becomes a logged-in one, or is dropped. *)
Definition auth_connect (username password : str) (s : Stream) : outcome ErrorKind NutAuthClient * Stream :=
  let '(r, s) := authenticate username password s in (omap_ok (fun _ => mkAuthClient s) r, s).

(** [into_inner] and [detach]. *)
Definition auth_into_inner (c : NutAuthClient) : Stream := auth_inner c.
Definition detach_client (c : NutAuthClient) : outcome ErrorKind unit * NutAuthClient := on_inner auth_close c.

(** ** [client_pool.rs] *)

Section pool.

Import PoolClient.

Context (resolve : str -> outcome ErrorKind (list SockAddr)).
Context (tcp_connect : nat -> list SockAddr -> outcome ErrorKind TcpStream).
Context (tls_handshake : TlsConfig -> Stream -> outcome ErrorKind Stream).

Local Abbreviation call_in := (impl_pooled_call resolve tcp_connect tls_handshake).

Definition NutPoolClient_async : AsyncNutClient NutPoolClient := {|
  nc_get_cmd_desc := pool_get_cmd_desc resolve tcp_connect tls_handshake;
  nc_get_protver := pool_get_protver resolve tcp_connect tls_handshake;
  nc_get_ups_desc := pool_get_ups_desc resolve tcp_connect tls_handshake;
  nc_get_var := pool_get_var resolve tcp_connect tls_handshake;
  nc_get_var_type := pool_get_var_type resolve tcp_connect tls_handshake;
  nc_get_var_desc := pool_get_var_desc resolve tcp_connect tls_handshake;
  nc_get_ver := pool_get_ver resolve tcp_connect tls_handshake;
  nc_list_client := pool_list_client resolve tcp_connect tls_handshake;
  nc_list_cmd := pool_list_cmd resolve tcp_connect tls_handshake;
  nc_list_enum := pool_list_enum resolve tcp_connect tls_handshake;
  nc_list_range := pool_list_range resolve tcp_connect tls_handshake;
  nc_list_rw := pool_list_rw resolve tcp_connect tls_handshake;
  nc_list_ups := pool_list_ups resolve tcp_connect tls_handshake;
  nc_list_var := pool_list_var resolve tcp_connect tls_handshake |}.

(** The connection of the first attempt, and the checked one of the second if the first failed. *)
Definition pool_conn {A} (call : io A) (p : NutPoolClient) (s : Stream) : Prop :=
  (pool_get resolve tcp_connect tls_handshake p).1 = Ok s \/
  exists first p1 e, pool_get resolve tcp_connect tls_handshake p = (Ok first, p1) /\
    (call first).1 = Err e /\ retries e = true /\
    (pool_get_checked resolve tcp_connect tls_handshake (call_action call first p1).2).1 = Ok s.

Lemma call_action_gives {A} (call : io A) s p : (call_action call s p).1 = (call s).1.
Proof. unfold call_action. by destruct (call s) as [[] s']. Qed.

#[global] Program Instance NutPoolClient_laws : @NutClientLaws NutPoolClient NutPoolClient_async := {|
  nc_run A call := call_in call; nc_conn A := pool_conn |}.
Next Obligation.
  intros A call c. unfold impl_pooled_call.
  destruct (pool_get resolve tcp_connect tls_handshake c) as [[first|e| |] p1] eqn:Eg; eauto.
  pose proof (call_action_gives call first p1) as Hr.
  assert (Hfirst : pool_conn call c first) by (left; by rewrite Eg).
  destruct (call_action call first p1) as [[a|e| |] p2] eqn:Ec; cbn in Hr; try (left; exists first; by rewrite <- Hr).
  destruct (retries e) eqn:Ee; [|left; exists first; by rewrite <- Hr].
  destruct (pool_get_checked resolve tcp_connect tls_handshake p2) as [[second|e'| |] p3] eqn:Es; eauto.
  left. exists second. split; [|apply call_action_gives].
  right. exists first, p1, e. split_and!; [done|done|done|]. rewrite Ec. cbn. by rewrite Es.
Qed.
Solve All Obligations with done.

End pool.
