(* ===== verification/DeviceDaemon.v ===== *)
(** * From the daemon's texts to the server's state

    The components composed: a daemon that tells the truth about its devices,
    any lawful client of [NutClients] that asks it, the parsers of the answers,
    and the pass of [sync_device.rs] that writes the state. A [DaemonDevice] is
    what the daemon knows of a device; its texts are those of the protocol. *)

From S2P Require Import Prelude RustStr Numbers Errors Escape Lexer Names VarName Value VarType UpsVariables.
From S2P Require Import ParserUtils Response Command Client.
From S2P Require Import Ip Status Auth Config State Events Sync NutClients.

(** ** Requests on one connection *)

(** On a connection that has the reply next, the call gives [a]. *)
Definition gives {A} (call : io A) (reply : str) (a : A) : Prop :=
  forall s rest, write_error s = None -> incoming s = reply ++ rest -> (call s).1 = Ok a.

Lemma list_gives {R I} (p : parser R) command head kw (ws qs : I -> list str) (items : list I) a :
  is_Some command -> kw <> lit "END" -> is_word kw = true ->
  (forall w, w ∈ head -> is_word w = true) ->
  (forall i w, i ∈ items -> w ∈ ws i -> is_word w = true) ->
  (forall i q, i ∈ items -> q ∈ qs i -> utf8_valid q = true /\ LF ∉ q) ->
  (forall i, i ∈ items -> starts_with LIST_END (line (kw :: ws i) (qs i)) = false) ->
  let text := list_text head ((fun i => line (kw :: ws i) (qs i)) <$> items) in
  parse_response p text = Ok a -> gives (send p command) text a.
Proof.
  intros [c ->] Hk Hkw Hh Hw Hq Hn text Hp s rest Hs Hi.
  by rewrite (send_list p c head kw ws qs items s rest Hs Hk Hkw Hh Hw Hq Hn Hi).
Qed.

Lemma line_gives {R} (p : parser R) command i a : is_Some command -> is_line i ->
  starts_with LIST_START i = false -> strip_prefix PROT_ERR i = None ->
  parse_response p i = Ok a -> gives (send p command) i a.
Proof.
  intros [c ->] Hl Hs He Hp s rest Hw Hi. unfold send, mbind, io_bind.
  rewrite (send_raw_line s c i rest Hw Hl Hs He Hi). rewrite bool_decide_eq_false_2; [exact Hp|].
  apply is_line_length in Hl. intros ->. cbn in Hl. lia.
Qed.

(** The version texts: a line that is neither a list nor an error. *)
Definition is_version (v : str) : Prop :=
  utf8_valid v = true /\ (LF ∉ v) /\ trim (v ++ [LF]) = v /\
  starts_with LIST_START (v ++ [LF]) = false /\ starts_with PROT_ERR (v ++ [LF]) = false.

Lemma not_prefix p s : starts_with p s = false -> strip_prefix p s = None.
Proof.
  intros H. destruct (strip_prefix p s) as [r|] eqn:E; [|done]. apply strip_prefix_Some in E.
  apply not_true_iff_false in H. destruct H. apply starts_with_iff. by exists r.
Qed.

Lemma version_gives command v : is_version v -> gives (send_trimmed command) (v ++ [LF]) v.
Proof.
  intros (Hv & Hlf & Ht & Hl & He) s rest Hw Hi. unfold send_trimmed, mbind, io_bind.
  rewrite (send_raw_line s command (v ++ [LF]) rest Hw); [|by exists v|done|by apply not_prefix|done].
  rewrite bool_decide_eq_false_2 by (by destruct v). cbn. by rewrite Ht.
Qed.

Lemma format_ups_some prefix u : UpsName_wf u -> is_Some (format_ups prefix u).
Proof.
  intros Hu. unfold format_ups, UpsName_as_escaped_str. pose proof (escape_nut_str_str _ (is_word_valid _ Hu)) as He.
  destruct (escape_nut_str (ups_name u)); [eauto|done].
Qed.
Lemma format_ups_arg_some prefix u arg : UpsName_wf u -> is_Some (format_ups_arg prefix u arg).
Proof.
  intros Hu. unfold format_ups_arg, UpsName_as_escaped_str. pose proof (escape_nut_str_str _ (is_word_valid _ Hu)) as He.
  destruct (escape_nut_str (ups_name u)); [eauto|done].
Qed.

(** ** The daemon *)

(** What the daemon knows of a writable variable beside its value. *)
Inductive RwDetail :=
  | RwPlain
  | RwText (max_len : Z)
  | RwNumber
  | RwEnum
  | RwRange.

Record RwVariable := mkRwVariable {
  rwv_name : VarName;
  rwv_text : str;
  rwv_detail : RwDetail;
  rwv_options : list str;                (** for [LIST ENUM] *)
  rwv_ranges : list (str * str);         (** for [LIST RANGE] *)
}.

Record DaemonDevice := mkDaemonDevice {
  dd_name : UpsName;
  dd_desc : str;
  dd_clients : list (str * IpAddr);      (** as written, and what that denotes *)
  dd_commands : list CmdName;
  dd_vars : list (VarName * str);
  dd_rw : list RwVariable;
}.

Definition detail_types (d : RwDetail) : list VarType :=
  ReadWrite :: match d with
               | RwPlain => [] | RwText n => [TString n] | RwNumber => [TNumber] | RwEnum => [TEnum] | RwRange => [TRange]
               end.

(** The number that a text of a range denotes. *)
Definition range_number (s : str) : Value := match infer_number_from s with Ok v => v | _ => VInt 0 end.

Definition detail_value (v : RwVariable) : VarDetail :=
  match rwv_detail v with
  | RwPlain => DString 64
  | RwText n => DString n
  | RwNumber => DNumber
  | RwEnum => DEnum (infer_from <$> rwv_options v)
  | RwRange =>
      match list.last (rwv_ranges v) with
      | Some (lo, hi) => DRange (range_number lo) (range_number hi)
      | None => DRange (VInt i64_min) (VInt i64_max)
      end
  end.

Definition plain_text (s : str) : Prop := utf8_valid s = true /\ (LF ∉ s).

Record rw_wf (v : RwVariable) : Prop := {
  rw_name_wf : VarName_wf (rwv_name v);
  rw_text_wf : plain_text (rwv_text v);
  rw_detail_wf : match rwv_detail v with RwText n => VarType_wf (TString n) | _ => True end;
  rw_options_wf : forall o, o ∈ rwv_options v -> plain_text o;
  rw_ranges_wf : forall r, r ∈ rwv_ranges v -> plain_text r.1 /\ plain_text r.2 /\
    is_ok (infer_number_from r.1) = true /\ is_ok (infer_number_from r.2) = true;
}.

Record device_wf (d : DaemonDevice) : Prop := {
  dw_name : UpsName_wf (dd_name d);
  dw_desc : plain_text (dd_desc d);
  dw_clients : forall ip, ip ∈ dd_clients d -> is_word ip.1 = true /\ IpAddr_parse ip.1 = Some ip.2;
  dw_commands : forall c, c ∈ dd_commands d -> CmdName_wf c;
  dw_vars : forall v, v ∈ dd_vars d -> VarName_wf v.1 /\ plain_text v.2;
  dw_rw : forall v, v ∈ dd_rw d -> rw_wf v;
  dw_rw_names : NoDup (rwv_name <$> dd_rw d);
}.

(** ** What the daemon's replies give *)

Definition ups_device (d : DaemonDevice) : UpsDevice := mkUpsDevice (dd_name d) (dd_desc d).
Definition values_of (vars : list (VarName * str)) : UpsVariables := UpsVariables_from ((fun v => (v.1, infer_from v.2)) <$> vars).
Definition rw_texts (d : DaemonDevice) : list (VarName * str) := (fun v => (rwv_name v, rwv_text v)) <$> dd_rw d.

Lemma list_ups_gives (world : list DaemonDevice) : (forall d, d ∈ world -> device_wf d) ->
  gives list_ups (ups_list_text (ups_device <$> world)) (mkUpsList (ups_device <$> world)).
Proof.
  intros Hw. assert (Hd : forall d, d ∈ ups_device <$> world -> UpsName_wf (dev_ups_name d) /\ plain_text (dev_desc d)).
  { intros d (x & -> & Hx)%list_elem_of_fmap. apply Hw in Hx. split; apply Hx. }
  apply (list_gives _ _ [lit "UPS"] (lit "UPS") (fun d => [ups_name (dev_ups_name d)]) (fun d => [dev_desc d])); try done.
  - by intros w ->%list_elem_of_singleton.
  - intros d w Hin ->%list_elem_of_singleton. by apply Hd.
  - intros d q Hin ->%list_elem_of_singleton. by apply Hd.
  - apply ups_list_roundtrip. intros d Hin. destruct (Hd d Hin) as [? [? _]]. done.
Qed.

Lemma variables_gives {R} (p : parser R) command kw u vars a : is_Some command -> kw <> lit "END" -> is_word kw = true ->
  (forall x y, starts_with LIST_END (line (kw :: x) y) = false) ->
  UpsName_wf u -> (forall v, v ∈ vars -> VarName_wf v.1 /\ plain_text v.2) ->
  parse_response p (variables_text kw u vars) = Ok a -> gives (send p command) (variables_text kw u vars) a.
Proof.
  intros Hc Hk Hkw Hn Hu Hv Hp.
  apply (list_gives _ _ [kw; ups_name u] kw (fun v => [ups_name u; VarName_as_str v.1]) (fun v => [v.2])); try done.
  - by apply head2_words.
  - intros v w Hin. apply head2_words; [done|]. apply VarName_wf_word. by apply Hv.
  - intros v q Hin ->%list_elem_of_singleton. by apply Hv.
Qed.

Lemma list_var_gives u vars : UpsName_wf u -> (forall v, v ∈ vars -> VarName_wf v.1 /\ plain_text v.2) ->
  gives (list_var u) (variables_text (lit "VAR") u vars) (mkUpsVarList (values_of vars) u) /\
  gives (list_rw u) (variables_text (lit "RW") u vars) (mkRwList (values_of vars) u).
Proof.
  intros Hu Hv. destruct (var_list_roundtrip u vars Hu) as (m & Hp & Hr & Hm).
  { intros v Hin. destruct (Hv v Hin) as [? [? _]]. done. }
  assert (m = values_of vars) as ->.
  { apply map_eq. intros n. change (UpsVariables_get m n = UpsVariables_get (values_of vars) n).
    rewrite Hm. unfold values_of. rewrite UpsVariables_from_lookup. symmetry. apply last_entry_fmap. }
  split; apply variables_gives; try done; by apply format_ups_some.
Qed.

Lemma list_client_gives d : device_wf d ->
  gives (list_client (dd_name d)) (client_list_text (dd_name d) (fst <$> dd_clients d))
    (mkClientList (dd_name d) (snd <$> dd_clients d)).
Proof.
  intros Hd. apply (list_gives _ _ [lit "CLIENT"; ups_name (dd_name d)] (lit "CLIENT")
    (fun ip => [ups_name (dd_name d); ip]) (fun _ => []));
    try done; [by apply format_ups_some, Hd|..].
  - apply head2_words; [done|apply Hd].
  - intros ip w (x & -> & Hx)%list_elem_of_fmap. apply head2_words; [apply Hd|by eapply dw_clients].
  - by intros ip q _ ?%elem_of_nil.
  - apply (cmd_client_list_roundtrip (dd_name d) (dd_commands d)); apply Hd.
Qed.

Lemma list_cmd_gives d : device_wf d ->
  gives (list_cmd (dd_name d)) (cmd_list_text (dd_name d) (dd_commands d)) (mkCmdList (dd_name d) (dd_commands d)).
Proof.
  intros Hd. apply (list_gives _ _ [lit "CMD"; ups_name (dd_name d)] (lit "CMD")
    (fun c => [ups_name (dd_name d); cmd_name c]) (fun _ => []));
    try done; [by apply format_ups_some, Hd|..].
  - apply head2_words; [done|apply Hd].
  - intros c w Hc. apply head2_words; [apply Hd|]. apply is_cmd_name_word. by eapply dw_commands.
  - by intros ip q _ ?%elem_of_nil.
  - apply (cmd_client_list_roundtrip (dd_name d) (dd_commands d) (dd_clients d)); apply Hd.
Qed.

Lemma details_give u v : UpsName_wf u -> rw_wf v ->
  gives (get_var_type u (rwv_name v)) (type_text u (rwv_name v) (detail_types (rwv_detail v)))
    (mkUpsVarType (detail_types (rwv_detail v)) (rwv_name v) u) /\
  gives (list_enum u (rwv_name v)) (enum_list_text u (rwv_name v) (rwv_options v))
    (mkEnumList (rwv_name v) u (infer_from <$> rwv_options v)) /\
  gives (list_range u (rwv_name v)) (range_list_text u (rwv_name v) (rwv_ranges v))
    (mkRangeList u ((fun r => (range_number r.1, range_number r.2)) <$> rwv_ranges v) (rwv_name v)).
Proof.
  intros Hu Hv. pose proof (rw_name_wf v Hv) as Hn. pose proof (VarName_wf_word _ Hn) as Hnw.
  assert (Hts : forall t, t ∈ detail_types (rwv_detail v) -> VarType_wf t).
  { intros t. pose proof (rw_detail_wf v Hv) as Hd. unfold detail_types.
    destruct (rwv_detail v); rewrite ?elem_of_cons, elem_of_nil; intros Ht; destruct_or?; subst; done. }
  assert (Ht : parse_response UpsVarType_deserialize (type_text u (rwv_name v) (detail_types (rwv_detail v))) =
    Ok (mkUpsVarType (detail_types (rwv_detail v)) (rwv_name v) u)).
  { apply parse_response_of; [|by apply UpsVarType_parses]. apply line_valid; [|by intros q ?%elem_of_nil].
    intros w [Hin|Hin]%elem_of_app; [by eapply head3_words in Hin|].
    apply list_elem_of_fmap in Hin as (t & -> & _). apply VarType_wire_word. }
  destruct (enum_range_roundtrip u (rwv_name v) (rwv_options v) (rwv_ranges v) range_number Hu Hn) as [He Hr].
  { intros o Ho. by apply (rw_options_wf v Hv). }
  { intros r Hin. destruct (rw_ranges_wf v Hv r Hin) as ([? _] & [? _] & H1 & H2). unfold range_number.
    by destruct (infer_number_from r.1), (infer_number_from r.2). }
  split_and!.
  - apply line_gives; [by apply format_ups_arg_some| |done|done|done].
    apply line_is_line; [|by intros q ?%elem_of_nil].
    intros w [Hin|Hin]%elem_of_app; [by eapply head3_words in Hin|].
    apply list_elem_of_fmap in Hin as (t & -> & _). apply VarType_wire_word.
  - apply (list_gives _ _ [lit "ENUM"; ups_name u; VarName_as_str (rwv_name v)] (lit "ENUM")
      (fun _ => [ups_name u; VarName_as_str (rwv_name v)]) (fun o => [o])); try done.
    + by apply format_ups_arg_some.
    + by apply head3_words.
    + intros o w _. by apply head2_words.
    + intros o q Ho ->%list_elem_of_singleton. by apply (rw_options_wf v Hv).
  - apply (list_gives _ _ [lit "RANGE"; ups_name u; VarName_as_str (rwv_name v)] (lit "RANGE")
      (fun _ => [ups_name u; VarName_as_str (rwv_name v)]) (fun r => [r.1; r.2])); try done.
    + by apply format_ups_arg_some.
    + by apply head3_words.
    + intros r w _. by apply head2_words.
    + intros r q Hin Hq. destruct (rw_ranges_wf v Hv r Hin) as (? & ? & _).
      by apply elem_of_cons in Hq as [->| ->%list_elem_of_singleton].
Qed.

(** ** Asking through a client *)

Section client.

Context {C : Type} `{!AsyncNutClient C, HC : !NutClientLaws C}.

(** Every connection on which the call may run has the reply next. *)
Definition honest {A} (call : io A) (c : C) (reply : str) : Prop :=
  forall s, nc_conn call c s -> write_error s = None /\ exists rest, incoming s = reply ++ rest.

(** [r] is what some client gives for the call of the interface. *)
Definition asked {A} (op : C -> outcome ErrorKind A * C) (call : io A) (reply : str) (r : outcome ErrorKind A) : Prop :=
  exists c, honest call c reply /\ (op c).1 = r.

Lemma asked_gives {A} (op : C -> outcome ErrorKind A * C) (call : io A) reply a r :
  op = nc_run call -> gives call reply a -> asked op call reply r -> forall b, r = Ok b -> b = a.
Proof.
  intros -> Hg (c & Hh & Hr) b ->. destruct (nc_run_conn A call c) as [(s & Hs & He)|Hf].
  - destruct (Hh s Hs) as [Hw [rest Hi]]. rewrite He, (Hg s rest Hw Hi) in Hr. by injection Hr.
  - rewrite Hr in Hf. by destruct Hf as [[? ?]|[?|?]].
Qed.

(** The answers to [load_var_detail] of one variable. *)
Definition detail_asked (u : UpsName) (v : RwVariable) (r : outcome ErrorKind (VarName * VarDetail)) : Prop :=
  exists types enum range,
    asked (nc_get_var_type u (rwv_name v)) (get_var_type u (rwv_name v))
      (type_text u (rwv_name v) (detail_types (rwv_detail v))) types /\
    asked (nc_list_enum u (rwv_name v)) (list_enum u (rwv_name v)) (enum_list_text u (rwv_name v) (rwv_options v)) enum /\
    asked (nc_list_range u (rwv_name v)) (list_range u (rwv_name v)) (range_list_text u (rwv_name v) (rwv_ranges v)) range /\
    r = load_var_detail (rwv_name v) types enum range.

(** The answers to [load_device_entry]; the variables are asked for in any order. *)
Definition device_asked (d : DaemonDevice) (a : device_answers) : Prop :=
  asked (nc_list_client (dd_name d)) (list_client (dd_name d)) (client_list_text (dd_name d) (fst <$> dd_clients d)) (an_clients a) /\
  asked (nc_list_cmd (dd_name d)) (list_cmd (dd_name d)) (cmd_list_text (dd_name d) (dd_commands d)) (an_commands a) /\
  asked (nc_list_rw (dd_name d)) (list_rw (dd_name d)) (variables_text (lit "RW") (dd_name d) (rw_texts d)) (an_rw_list a) /\
  asked (nc_list_var (dd_name d)) (list_var (dd_name d)) (variables_text (lit "VAR") (dd_name d) (dd_vars d)) (an_vars a) /\
  exists order, order ≡ₚ dd_rw d /\ Forall2 (detail_asked (dd_name d)) order (an_rw_vars a).

Lemma detail_asked_Ok u v n x : UpsName_wf u -> rw_wf v -> detail_asked u v (Ok (n, x)) ->
  n = rwv_name v /\ x = detail_value v.
Proof.
  intros Hu Hv (types & enum & range & Ht & He & Hr & Hl). destruct (details_give u v Hu Hv) as (Gt & Ge & Gr).
  pose proof (asked_gives _ _ _ _ _ (nc_get_var_type_run u _) Gt Ht) as Kt.
  pose proof (asked_gives _ _ _ _ _ (nc_list_enum_run u _) Ge He) as Ke.
  pose proof (asked_gives _ _ _ _ _ (nc_list_range_run u _) Gr Hr) as Kr.
  unfold load_var_detail in Hl. destruct types as [t| | |]; try done. rewrite (Kt t eq_refl) in Hl.
  cbn [obind vt_var_types detail_types] in Hl. unfold detail_value.
  destruct (rwv_detail v); cbn [var_detail_loop] in Hl; try (by injection Hl as -> ->).
  - destruct enum as [e| | |]; try done. rewrite (Ke e eq_refl) in Hl. by injection Hl as -> ->.
  - destruct range as [rg| | |]; try done. rewrite (Kr rg eq_refl) in Hl. cbn [obind rl_ranges rl_name] in Hl.
    cbn [var_detail_loop detail_types obind rl_ranges rl_name] in Hl. rewrite fmap_last in Hl. destruct (list.last (rwv_ranges v)) as [[lo hi]|]; cbn in Hl; by injection Hl as -> ->.
Qed.

(** ** The entry of a device *)

Context (lookup_ip : IpAddr -> option str) (now : Z).

Definition rw_details (d : DaemonDevice) : gmap VarName VarDetail :=
  list_to_map ((fun v => (rwv_name v, detail_value v)) <$> dd_rw d).

Lemma rw_details_lookup d v : device_wf d -> v ∈ dd_rw d -> rw_details d !! rwv_name v = Some (detail_value v).
Proof.
  intros Hd Hv. apply elem_of_list_to_map_1; [|apply list_elem_of_fmap; by exists v].
  rewrite <- list_fmap_compose. exact (dw_rw_names d Hd).
Qed.

(** What the daemon says of a device, with the writable variables [rw]. *)
Definition daemon_entry (d : DaemonDevice) (rw : gmap VarName VarDetail) : DeviceEntry :=
  mkDeviceEntry (client_info lookup_ip <$> (snd <$> dd_clients d)) (dd_commands d) (dd_desc d) now (dd_name d) rw
    match UpsVariables_get (values_of (dd_vars d)) UPS_STATUS with
    | Some v => UpsStatus_from_value v
    | None => status_default
    end (values_of (dd_vars d)).

Definition insert_detail (m : gmap VarName VarDetail) (r : outcome ErrorKind (VarName * VarDetail)) :=
  match r with Ok (var_name, detail) => <[var_name := detail]> m | _ => m end.

(** Writable variables whose details were lost are missing, and no others. *)
Lemma insert_details_spec d order results m0 : device_wf d -> order ⊆+ dd_rw d ->
  Forall2 (detail_asked (dd_name d)) order results -> m0 ⊆ rw_details d ->
  foldl insert_detail m0 results ⊆ rw_details d /\
  (Forall (fun r => is_ok r = true) results -> forall v, v ∈ order \/ is_Some (m0 !! rwv_name v) ->
     is_Some (foldl insert_detail m0 results !! rwv_name v)).
Proof.
  intros Hd Hsub Hf. revert m0 Hsub. induction Hf as [|v r order results Hvr Hf IH]; intros m0 Hsub Hm0.
  { split; [done|]. intros _ v [Hv|Hv]; [by apply elem_of_nil in Hv|done]. }
  assert (Hin : v ∈ dd_rw d) by (apply (elem_of_submseteq (v :: order)); [left|done]).
  assert (Hsub' : order ⊆+ dd_rw d) by (transitivity (v :: order); [by apply submseteq_cons|done]).
  cbn [foldl].
  assert (Hm1 : insert_detail m0 r ⊆ rw_details d).
  { unfold insert_detail. destruct r as [[n x]| | |]; try done.
    destruct (detail_asked_Ok (dd_name d) v n x (dw_name d Hd) (dw_rw d Hd v Hin) Hvr) as [-> ->].
    apply insert_subseteq_l; [by apply rw_details_lookup|done]. }
  destruct (IH _ Hsub' Hm1) as [Hs Hall]. split; [done|]. intros Hok w Hw. inversion Hok as [|? ? Hr Hok']; subst.
  apply (Hall Hok'). destruct r as [[n x]| | |]; try done. cbn [insert_detail].
  destruct (detail_asked_Ok (dd_name d) v n x (dw_name d Hd) (dw_rw d Hd v Hin) Hvr) as [-> ->].
  destruct Hw as [[-> | Hw]%elem_of_cons|Hw]; [right; rewrite lookup_insert_eq; eauto|by left|right].
  destruct (decide (rwv_name v = rwv_name w)) as [->|]; [rewrite lookup_insert_eq; eauto|by rewrite lookup_insert_ne].
Qed.


(** Every answer of a load came through. *)
Definition complete (a : device_answers) : Prop :=
  is_ok (an_clients a) = true /\ is_ok (an_commands a) = true /\ is_ok (an_rw_list a) = true /\
  is_ok (an_vars a) = true /\ Forall (fun r => is_ok r = true) (an_rw_vars a).

Lemma is_ok_Ok {E A} (m : outcome E A) : is_ok m = true -> exists a, m = Ok a.
Proof. destruct m; try done. eauto. Qed.

Lemma load_device_entry_Ok lookup t d clients commands rw_list vars rw_vars e :
  load_device_entry lookup t d clients commands rw_list vars rw_vars = Ok e ->
  exists cl cm rw vs, clients = Ok cl /\ commands = Ok cm /\ rw_list = Ok rw /\ vars = Ok vs.
Proof. unfold load_device_entry. destruct clients, commands, rw_list, vars; try done. intros _. by eexists _, _, _, _. Qed.

Lemma load_daemon d a : device_wf d -> device_asked d a ->
  let r := load_device_entry lookup_ip now (ups_device d) (an_clients a) (an_commands a) (an_rw_list a) (an_vars a)
    (an_rw_vars a) in
  (forall e, r = Ok e -> exists rw, rw ⊆ rw_details d /\ e = daemon_entry d rw) /\
  (complete a -> r = Ok (daemon_entry d (rw_details d))).
Proof.
  intros Hd (Hc & Hm & _ & Hv & order & Hord & Hrw) r.
  pose proof (asked_gives _ _ _ _ _ (nc_list_client_run _) (list_client_gives d Hd) Hc) as Kc.
  pose proof (asked_gives _ _ _ _ _ (nc_list_cmd_run _) (list_cmd_gives d Hd) Hm) as Km.
  pose proof (asked_gives _ _ _ _ _ (nc_list_var_run _)
    (proj1 (list_var_gives (dd_name d) (dd_vars d) (dw_name d Hd) (dw_vars d Hd))) Hv) as Kv.
  destruct (insert_details_spec d order (an_rw_vars a) ∅ Hd) as [Hsub Hall];
    [by rewrite Hord|done|apply map_empty_subseteq|].
  assert (Hr : forall cl cm rw vs, an_clients a = Ok cl -> an_commands a = Ok cm -> an_rw_list a = Ok rw -> an_vars a = Ok vs ->
    r = Ok (daemon_entry d (foldl insert_detail ∅ (an_rw_vars a)))).
  { intros cl cm rw vs Ec Em Er Ev. unfold r, load_device_entry. rewrite Ec, Em, Er, Ev. cbn [obind map_err].
    by rewrite (Kc cl Ec), (Km cm Em), (Kv vs Ev). }
  split.
  - intros e He. exists (foldl insert_detail ∅ (an_rw_vars a)). split; [done|].
    destruct (load_device_entry_Ok _ _ _ _ _ _ _ _ _ He) as (cl & cm & rw & vs & Ec & Em & Er & Ev).
    rewrite (Hr cl cm rw vs Ec Em Er Ev) in He. by injection He.
  - intros ([cl Ec]%is_ok_Ok & [cm Em]%is_ok_Ok & [rw Er]%is_ok_Ok & [vs Ev]%is_ok_Ok & H5).
    rewrite (Hr cl cm rw vs Ec Em Er Ev). do 2 f_equal. apply map_eq. intros n.
    destruct (rw_details d !! n) as [x|] eqn:Ex.
    + apply elem_of_list_to_map_2, list_elem_of_fmap in Ex as (v & [= -> ->] & Hin).
      destruct (Hall H5 v ltac:(left; by rewrite Hord)) as [y Hy]. rewrite Hy.
      eapply lookup_weaken in Hy; [|exact Hsub]. rewrite <- Hy. by apply rw_details_lookup.
    + destruct (foldl insert_detail ∅ (an_rw_vars a) !! n) as [y|] eqn:Ey; [|done].
      eapply lookup_weaken in Ey; [|exact Hsub]. congruence.
Qed.

(** ** The pass *)

Context (world : list DaemonDevice) (Hworld : forall d, d ∈ world -> device_wf d) (Hnames : NoDup (dd_name <$> world)).
Context (local : gmap UpsName DeviceEntry) (answers : UpsDevice -> device_answers).
Context (Hasked : forall d, d ∈ world -> device_asked d (answers (ups_device d))).

Definition find_device (n : UpsName) : option DaemonDevice := snd <$> list_find (fun d => dd_name d = n) world.

(** What a complete pass makes of the entry [old] that the server has. *)
Definition entry_after (old : option DeviceEntry) (d : DaemonDevice) : option DeviceEntry :=
  match local !! dd_name d with
  | None => Some (daemon_entry d (rw_details d))
  | Some e =>
      if has (status e) NOCOMM then Some (daemon_entry d (rw_details d))
      else if bool_decide (desc e <> dd_desc d) then set_desc (dd_desc d) <$> old else old
  end.

(** What an entry can be after a pass that lost some answers. *)
Inductive entry_from (old : option DeviceEntry) (d : DaemonDevice) : DeviceEntry -> Prop :=
  | from_daemon rw : rw ⊆ rw_details d -> entry_from old d (daemon_entry d rw)
  | from_nothing : local !! dd_name d = None -> entry_from old d (nocomm_entry now (dd_name d))
  | from_old e : old = Some e -> entry_from old d e
  | from_desc e : old = Some e -> entry_from old d (set_desc (dd_desc d) e).

Lemma find_device_remote n :
  list_find (fun d => dev_ups_name d = n) (ups_device <$> world) = prod_map id ups_device <$> list_find (fun d => dd_name d = n) world.
Proof. rewrite list_find_fmap. done. Qed.

Lemma find_device_in n d : find_device n = Some d -> d ∈ world /\ dd_name d = n.
Proof.
  unfold find_device. destruct (list_find _ world) as [[i x]|] eqn:E; [|done]. intros [= ->].
  apply list_find_Some in E as (Hi & Hn & _). split; [by eapply list_elem_of_lookup_2|done].
Qed.

Lemma load_result_from d : d ∈ world ->
  (forall e, loaded_entry (load lookup_ip now answers (ups_device d)) = Some e ->
     exists rw, rw ⊆ rw_details d /\ e = daemon_entry d rw) /\
  (complete (answers (ups_device d)) -> load lookup_ip now answers (ups_device d) = Loaded (daemon_entry d (rw_details d))).
Proof.
  intros Hd. destruct (load_daemon d (answers (ups_device d)) (Hworld d Hd) (Hasked d Hd)) as [Hl Hc]. unfold load.
  split.
  - intros e He. apply Hl. cbv zeta in He.
    match type of He with context [load_task ?m] => destruct m eqn:E end; try done. by injection He as <-.
  - intros Hco. by rewrite (Hc Hco).
Qed.

Lemma expected_from old n e :
  device_expected lookup_ip now answers local (ups_device <$> world) old n = Some e ->
  exists d, find_device n = Some d /\ entry_from old d e.
Proof.
  unfold device_expected, find_device. rewrite find_device_remote.
  destruct (list_find (fun d => dd_name d = n) world) as [[i d]|] eqn:E; [|done]. cbn.
  apply list_find_Some in E as (Hi & Hn & _). apply list_elem_of_lookup_2 in Hi.
  destruct (load_result_from d Hi) as [Hl _]. intros He. exists d. split; [done|].
  unfold diff_class in He. cbn [ups_device dev_ups_name dev_desc] in He.
  destruct (local !! dd_name d) as [l|] eqn:El.
  - destruct (has (status l) NOCOMM).
    + destruct (loaded_entry (load lookup_ip now answers (ups_device d))) as [x|] eqn:Ex; [|by apply from_old].
      injection He as <-. destruct (Hl x eq_refl) as (rw & Hrw & ->). by apply from_daemon.
    + destruct (bool_decide _); [|by apply from_old]. destruct old as [o|]; [|done]. injection He as <-. by apply from_desc.
  - destruct (load lookup_ip now answers (ups_device d)) as [x|x|] eqn:Ex; cbn in He.
    + injection He as <-. destruct (Hl x eq_refl) as (rw & Hrw & ->). by apply from_daemon.
    + injection He as <-. pose proof (load_name lookup_ip now answers (ups_device d) (nocomm_entry now x)) as Hx.
      rewrite Ex in Hx. specialize (Hx eq_refl). cbn in Hx. subst x. by apply from_nothing.
    + by apply from_old.
Qed.

Lemma expected_after old n : (forall d, d ∈ world -> complete (answers (ups_device d))) ->
  device_expected lookup_ip now answers local (ups_device <$> world) old n = find_device n ≫= entry_after old.
Proof.
  intros Hco. unfold device_expected, find_device. rewrite find_device_remote.
  destruct (list_find (fun d => dd_name d = n) world) as [[i d]|] eqn:E; [|done]. cbn.
  apply list_find_Some in E as (Hi & Hn & _). apply list_elem_of_lookup_2 in Hi.
  destruct (load_result_from d Hi) as [_ Hl]. rewrite (Hl (Hco d Hi)). unfold diff_class, entry_after.
  cbn [ups_device dev_ups_name dev_desc]. destruct (local !! dd_name d) as [l|]; [|done].
  destruct (has (status l) NOCOMM); [done|]. by destruct (bool_decide _).
Qed.

Lemma no_failures : (forall d, d ∈ world -> complete (answers (ups_device d))) -> world <> [] ->
  (load_failures lookup_ip now answers local (ups_device <$> world) <? length (ups_device <$> world)) = true.
Proof.
  intros Hco Hne. unfold load_failures. set (failed := filter _ _).
  assert (failed = []) as ->; [|rewrite length_fmap; by destruct world].
  apply elem_of_nil_inv. intros x [[_ Hf] Hx]%list_elem_of_filter.
  apply list_elem_of_fmap in Hx as (d & -> & Hd). destruct (load_result_from d Hd) as [_ Hl].
  by rewrite (Hl (Hco d Hd)) in Hf.
Qed.

(** The state after a pass whose answers all came through, unless every load failed. *)
Lemma pass_result ns s pv uv new_results recheck_results :
  new_results ≡ₚ load lookup_ip now answers <$> (diff_remote local (ups_device <$> world)).2 ->
  recheck_results ≡ₚ load lookup_ip now answers <$> (diff_remote local (ups_device <$> world)).1.2 ->
  (forall n, is_Some (local !! n) <-> is_Some (devices s !! n)) ->
  (load_failures lookup_ip now answers local (ups_device <$> world) <? length (ups_device <$> world)) = true ->
  let r := device_sync_next now ns s
    (diff_upsd now local (Ok (ups_device <$> world)) (Ok pv) (Ok uv) new_results recheck_results) in
  r.1.1 = Ok tt /\ conn_status r.1.2 = OnlineConn /\ State.prot_ver r.1.2 = Some pv /\ ver r.1.2 = Some uv /\
  forall n, devices r.1.2 !! n = device_expected lookup_ip now answers local (ups_device <$> world) (devices s !! n) n.
Proof using Hnames.
  intros Hnew Hre Hdom Hlf r. unfold r.
  rewrite (diff_upsd_eq lookup_ip now answers local _ _ _ Hnew Hre pv uv), Hlf.
  match goal with |- context [device_sync_next _ _ _ (Ok ?p)] =>
    destruct (device_sync_next_ok now ns s p) as (-> & Hd & -> & -> & -> & _) end.
  split_and!; try done. intros n. rewrite Hd. cbn [added deleted p_updated].
  apply (patched_lookup lookup_ip now answers local _ _ _); try done.
  by rewrite <- list_fmap_compose.
Qed.

(** And when every load came through. *)
Lemma complete_pass ns s pv uv new_results recheck_results :
  new_results ≡ₚ load lookup_ip now answers <$> (diff_remote local (ups_device <$> world)).2 ->
  recheck_results ≡ₚ load lookup_ip now answers <$> (diff_remote local (ups_device <$> world)).1.2 ->
  (forall n, is_Some (local !! n) <-> is_Some (devices s !! n)) ->
  (forall d, d ∈ world -> complete (answers (ups_device d))) -> world <> [] ->
  let r := device_sync_next now ns s
    (diff_upsd now local (Ok (ups_device <$> world)) (Ok pv) (Ok uv) new_results recheck_results) in
  r.1.1 = Ok tt /\ conn_status r.1.2 = OnlineConn /\
  forall n, devices r.1.2 !! n = find_device n ≫= entry_after (devices s !! n).
Proof using Hnames Hworld Hasked.
  intros Hnew Hre Hdom Hco Hne r.
  destruct (pass_result ns s pv uv _ _ Hnew Hre Hdom (no_failures Hco Hne)) as (Hr & Hc & _ & _ & Hall).
  split_and!; [done..|]. intros n. unfold r. rewrite Hall. by apply expected_after.
Qed.

(** C14: From the bytes of the daemon to the state of the server, through any lawful client. The pass of
    the device synchronisation that gets its answers from a truthful daemon puts into the state nothing
    but what the daemon says: every device is one of the daemon, with its versions, clients, commands,
    variables and a part of the details of its writable variables, or as it was before, or a stub of a
    device whose load failed. When every answer comes through, the devices are exactly those of the
    daemon and a new one is exactly what the daemon says of it. A pass that fails leaves no device and
    a dead daemon. *)
Theorem device_pass_end_to_end (ns : str) (s : DaemonState) (pv uv : str) rups rpv ruv new_results recheck_results
  (Hpv : is_version pv) (Huv : is_version uv)
  (Hups : asked nc_list_ups list_ups (ups_list_text (ups_device <$> world)) rups)
  (Hrpv : asked nc_get_protver get_protver (pv ++ [LF]) rpv) (Hruv : asked nc_get_ver get_ver (uv ++ [LF]) ruv)
  (Hnew : new_results ≡ₚ load lookup_ip now answers <$> (diff_remote local (ups_device <$> world)).2)
  (Hre : recheck_results ≡ₚ load lookup_ip now answers <$> (diff_remote local (ups_device <$> world)).1.2)
  (Hdom : forall n, is_Some (local !! n) <-> is_Some (devices s !! n)) :
  let r := device_sync_next now ns s
    (diff_upsd now local (omap_ok ul_devices rups) rpv ruv new_results recheck_results) in
  (r.1.1 = Ok tt -> conn_status r.1.2 = OnlineConn /\ State.prot_ver r.1.2 = Some pv /\ ver r.1.2 = Some uv /\
     forall n e, devices r.1.2 !! n = Some e -> exists d, find_device n = Some d /\ entry_from (devices s !! n) d e) /\
  (forall e, r.1.1 = Err e -> devices r.1.2 = ∅ /\ conn_status r.1.2 = Dead) /\
  (is_ok rups = true -> is_ok rpv = true -> is_ok ruv = true -> world <> [] ->
   (forall d, d ∈ world -> complete (answers (ups_device d))) ->
   r.1.1 = Ok tt /\ forall n, devices r.1.2 !! n = find_device n ≫= entry_after (devices s !! n)).
Proof.
  intros r.
  pose proof (asked_gives _ _ _ _ _ nc_list_ups_run (list_ups_gives world Hworld) Hups) as Kups.
  pose proof (asked_gives _ _ _ _ _ nc_get_protver_run (version_gives _ pv Hpv) Hrpv) as Kpv.
  pose proof (asked_gives _ _ _ _ _ nc_get_ver_run (version_gives _ uv Huv) Hruv) as Kuv.
  assert (Herr : forall e, r.1.1 = Err e -> devices r.1.2 = ∅ /\ conn_status r.1.2 = Dead).
  { intros e. unfold r. set (diff := diff_upsd _ _ _ _ _ _ _). destruct diff as [patch|err| |]; [..|done|done].
    - destruct (device_sync_next_ok now ns s patch) as (-> & _). done.
    - destruct (device_sync_next_err now ns s err) as (-> & -> & -> & _). done. }
  assert (Hok : is_ok rups = true -> is_ok rpv = true -> is_ok ruv = true ->
    (load_failures lookup_ip now answers local (ups_device <$> world) <? length (ups_device <$> world)) = true ->
    r.1.1 = Ok tt /\ conn_status r.1.2 = OnlineConn /\ State.prot_ver r.1.2 = Some pv /\ ver r.1.2 = Some uv /\
    forall n, devices r.1.2 !! n = device_expected lookup_ip now answers local (ups_device <$> world) (devices s !! n) n).
  { intros [l ->]%is_ok_Ok [p ->]%is_ok_Ok [v ->]%is_ok_Ok Hlf. unfold r.
    rewrite (Kups l eq_refl), (Kpv p eq_refl), (Kuv v eq_refl). by apply pass_result. }
  split_and!; [|done|].
  - intros Hr. assert (Hoks : exists l p v, rups = Ok l /\ rpv = Ok p /\ ruv = Ok v).
    { unfold r in Hr. destruct rups, rpv, ruv; cbn in Hr; try done; try (by eexists _, _, _);
        by destruct (conn_status s). }
    destruct Hoks as (l & p & v & -> & -> & ->).
    destruct (load_failures lookup_ip now answers local (ups_device <$> world) <? length (ups_device <$> world)) eqn:Elf.
    + destruct (Hok eq_refl eq_refl eq_refl eq_refl) as (_ & H1 & H2 & H3 & Hall). split_and!; try done.
      intros n e He. rewrite Hall in He. by apply expected_from.
    + exfalso. unfold r in Hr. rewrite (Kups l eq_refl) in Hr. cbn [omap_ok ul_devices] in Hr.
      rewrite (diff_upsd_eq lookup_ip now answers local _ _ _ Hnew Hre p v), Elf in Hr.
      by destruct (device_sync_next_err now ns s DeviceLoadFailed) as (He & _); rewrite He in Hr.
  - intros H1 H2 H3 Hne Hco. destruct (Hok H1 H2 H3 (no_failures Hco Hne)) as (Hr & _ & _ & _ & Hall).
    split; [done|]. intros n. rewrite Hall. by apply expected_after.
Qed.
End client.

(** ** The pool as the client *)

(** A pool whose next connection has the reply is honest: the call does not fail, so there is no second
    attempt. *)
Lemma pool_honest resolve connect tls {A} (call : io A) reply a (p : PoolClient.NutPoolClient) first p1 rest :
  gives call reply a -> PoolClient.pool_get resolve connect tls p = (Ok first, p1) ->
  write_error first = None -> incoming first = reply ++ rest ->
  @honest _ _ (NutPoolClient_laws resolve connect tls) _ call p reply.
Proof.
  intros Hg Hp Hw Hi s [Hs|(f & q & e & Hf & He & _)].
  - rewrite Hp in Hs. injection Hs as <-. eauto.
  - rewrite Hp in Hf. injection Hf as <- <-. by rewrite (Hg first rest Hw Hi) in He.
Qed.

(** ** Witnesses *)

Section demo.

Import PoolClient.

Local Instance demo_async : AsyncNutClient NutPoolClient := NutPoolClient_async demo_resolve demo_connect (fun _ => Ok).
Local Instance demo_laws : NutClientLaws NutPoolClient := NutPoolClient_laws demo_resolve demo_connect (fun _ => Ok).

(** A pool with one idle connection on which the daemon's reply is waiting. *)
Definition replying_pool (reply : str) : NutPoolClient :=
  mkPoolClient (mkAllocator (Host (lit "ups")) None None) 2 [demo_stream reply false] false 2 [].

Lemma replying_asked {A} (op : NutPoolClient -> outcome ErrorKind A * NutPoolClient) (call : io A) reply a :
  gives call reply a -> asked op call reply (op (replying_pool reply)).1.
Proof.
  intros Hg. exists (replying_pool reply). split; [|done].
  apply (pool_honest _ _ _ call reply a _ (demo_stream reply false)
    (set_idle [] (set_permits 1 (replying_pool reply))) []); try done. cbn. by rewrite app_nil_r.
Qed.

Definition demo_low : RwVariable :=
  mkRwVariable (mkVarName (Standard StandardName.BatteryChargeLow)) (lit "20") RwNumber [] [].
Definition demo_device : DaemonDevice :=
  mkDaemonDevice (mkUpsName (lit "ups1")) (lit "rack") [(lit "127.0.0.1", V4 [127; 0; 0; 1]%Z)] []
    [(UPS_STATUS, lit "OL"); (rwv_name demo_low, lit "20")] [demo_low].

Lemma demo_device_wf d : d ∈ [demo_device] -> device_wf d.
Proof.
  intros ->%list_elem_of_singleton.
  assert (Hno : forall s : str, bool_decide (LF ∉ s) = true -> LF ∉ s) by (intros s; apply bool_decide_eq_true).
  constructor; try done.
  - split; [done|by apply Hno].
  - intros ip ->%list_elem_of_singleton. by split; vm_compute.
  - by intros c ?%elem_of_nil.
  - intros v [-> | ->%list_elem_of_singleton]%elem_of_cons; (split; [by split|split; [done|by apply Hno]]).
  - intros v ->%list_elem_of_singleton. constructor; try done; [split; [done|by apply Hno]|..].
    + by intros o ?%elem_of_nil.
    + by intros r ?%elem_of_nil.
  - apply (bool_decide_unpack _). vm_compute. exact I.
Qed.

(** What the pool answers to the load of the device. *)
Definition demo_detail : outcome ErrorKind (VarName * VarDetail) :=
  let n := dd_name demo_device in let v := rwv_name demo_low in
  load_var_detail v
    (nc_get_var_type n v (replying_pool (type_text n v (detail_types RwNumber)))).1
    (nc_list_enum n v (replying_pool (enum_list_text n v []))).1
    (nc_list_range n v (replying_pool (range_list_text n v []))).1.
Definition demo_answers (_ : UpsDevice) : device_answers :=
  let d := demo_device in let n := dd_name d in
  mkAnswers (nc_list_client n (replying_pool (client_list_text n (fst <$> dd_clients d)))).1
    (nc_list_cmd n (replying_pool (cmd_list_text n (dd_commands d)))).1
    (nc_list_rw n (replying_pool (variables_text (lit "RW") n (rw_texts d)))).1
    (nc_list_var n (replying_pool (variables_text (lit "VAR") n (dd_vars d)))).1
    [demo_detail].

Lemma demo_device_asked d : d ∈ [demo_device] -> device_asked d (demo_answers (ups_device d)).
Proof.
  intros Hd. pose proof (demo_device_wf d Hd) as Hw. apply list_elem_of_singleton in Hd as ->.
  destruct (list_var_gives (dd_name demo_device) (dd_vars demo_device) (dw_name _ Hw) (dw_vars _ Hw)) as [Hv _].
  assert (Hrw : gives (list_rw (dd_name demo_device)) (variables_text (lit "RW") (dd_name demo_device) (rw_texts demo_device))
    (mkRwList (values_of (rw_texts demo_device)) (dd_name demo_device))).
  { apply list_var_gives; [apply Hw|]. intros v ->%list_elem_of_singleton.
    destruct (dw_rw _ Hw demo_low ltac:(by left)). done. }
  destruct (details_give (dd_name demo_device) demo_low (dw_name _ Hw) (dw_rw _ Hw demo_low ltac:(by left))) as (Ht & He & Hr).
  unfold device_asked, demo_answers. cbv zeta. cbn [an_clients an_commands an_rw_list an_vars an_rw_vars].
  split; [|split; [|split; [|split]]].
  - eapply replying_asked, (list_client_gives demo_device Hw).
  - eapply replying_asked, (list_cmd_gives demo_device Hw).
  - eapply replying_asked, Hrw.
  - eapply replying_asked, Hv.
  - exists [demo_low]. split; [done|]. constructor; [|constructor]. unfold detail_asked, demo_detail. eexists _, _, _.
    split; [|split; [|split]]; [eapply replying_asked, Ht|eapply replying_asked, He|eapply replying_asked, Hr|done].
Qed.

Lemma demo_version : is_version (lit "1.3").
Proof. repeat split; try done. apply (bool_decide_unpack _). vm_compute. exact I. Qed.

Lemma demo_names : NoDup (dd_name <$> [demo_device]).
Proof. apply NoDup_singleton. Qed.

Definition demo_load : list load_result := load (fun _ => None) 7%Z demo_answers <$> [ups_device demo_device].

Lemma device_pass_end_to_end_witness :
  let r := device_sync_next 7 (lit "default") DaemonState_new
    (diff_upsd 7 ∅ (omap_ok ul_devices (nc_list_ups (replying_pool (ups_list_text (ups_device <$> [demo_device])))).1)
       (nc_get_protver (replying_pool (lit "1.3" ++ [LF]))).1 (nc_get_ver (replying_pool (lit "1.3" ++ [LF]))).1
       demo_load []) in
  r.1.1 = Ok tt /\ exists e, devices r.1.2 !! mkUpsName (lit "ups1") = Some e /\
    status e = ONLINE /\ commands e = [] /\ rw_variables e !! rwv_name demo_low = Some DNumber.
Proof.
  intros r.
  destruct (device_pass_end_to_end (fun _ => None) 7 [demo_device] demo_device_wf
    demo_names ∅ demo_answers demo_device_asked
    (lit "default") DaemonState_new (lit "1.3") (lit "1.3") _ _ _ demo_load [] demo_version demo_version
    (replying_asked nc_list_ups list_ups _ _ (list_ups_gives [demo_device] demo_device_wf))
    (replying_asked nc_get_protver get_protver _ _ (version_gives _ (lit "1.3") demo_version))
    (replying_asked nc_get_ver get_ver _ _ (version_gives _ (lit "1.3") demo_version))) as (_ & _ & H).
  - reflexivity.
  - reflexivity.
  - intros n. unfold DaemonState_new. cbn. reflexivity.
  - destruct H as [Hr Hd]; [vm_compute; reflexivity|vm_compute; reflexivity|vm_compute; reflexivity|done| |].
    + intros d Hin. apply list_elem_of_singleton in Hin. rewrite Hin.
      split; [|split; [|split; [|split; [|constructor; [|constructor]]]]]; vm_compute; reflexivity.
    + split; [exact Hr|]. specialize (Hd (mkUpsName (lit "ups1"))).
      exists (daemon_entry (fun _ => None) 7 demo_device (rw_details demo_device)).
      split; [exact Hd|]. split; [vm_compute; reflexivity|]. split; vm_compute; reflexivity.
Defined.

End demo.
