(* ===== verification/StatusWidth.v ===== *)
(** * Statuses are words

    The statuses that the synchronisation of [Sync] writes into the state, and
    those of the changes that it publishes, are 32-bit words: the parser makes
    no others. The event messages of [Broadcast] need it, since their events
    are read off the bits. *)

From S2P Require Import Prelude RustStr Numbers Errors Names VarName Value Ip UpsVariables Response Status.
From S2P Require Import Auth Config State Events Sync Broadcast.

Definition statuses_wf (devs : gmap UpsName DeviceEntry) : Prop := all_devices (fun _ e => status_wf (status e)) devs.

Lemma default_wf : status_wf status_default.
Proof. by vm_compute. Qed.
Lemma NOCOMM_wf : status_wf NOCOMM.
Proof. by vm_compute. Qed.
Lemma from_value_wf v : status_wf (UpsStatus_from_value v).
Proof.
  destruct v; cbn [UpsStatus_from_value]; first [exact default_wf|apply known_wf, new_known].
Qed.

Lemma status_step_words now devs changes r : statuses_wf devs /\ Forall change_wf changes ->
  statuses_wf (status_step now (devs, changes) r).1 /\ Forall change_wf (status_step now (devs, changes) r).2.
Proof.
  intros [Hd Hc]. unfold status_step. destruct r as [v| | |]; try done.
  destruct (devs !! uv_ups_name v) as [e|] eqn:E; [|done]. cbn [fst snd]. split.
  - apply all_devices_insert; [done|]. apply from_value_wf.
  - case_decide; [|done]. apply list.Forall_app. split; [done|]. constructor; [|done].
    split; [by eapply Hd|apply from_value_wf].
Qed.

Lemma state_step_words lookup_ip now devs events r : statuses_wf devs /\ batch_wf events ->
  statuses_wf (state_step lookup_ip now (devs, events) r).1 /\ batch_wf (state_step lookup_ip now (devs, events) r).2.
Proof.
  intros [Hd Hb]. destruct r as [n answers]. unfold state_step. destruct (devs !! n) as [e|] eqn:E; [|done].
  pose proof (Hd _ _ E) as He. cbv beta in He.
  assert (Hchange : forall st, status_wf st -> batch_wf (status_change n (status e) st events)).
  { intros st Hst. apply list.Forall_app. split; [done|]. apply list.Forall_singleton. by split. }
  destruct answers as [[[vars clients] cmds]| | |];
    try (split; [apply all_devices_insert; [done|]|apply Hchange]; apply NOCOMM_wf).
  set (st := match UpsVariables_get (vl_variables vars) UPS_STATUS with Some _ => _ | None => _ end).
  assert (Hst : status_wf st.1 /\ batch_wf st.2).
  { unfold st. destruct (UpsVariables_get _ _) as [v|]; [case_decide|]; split; try done;
      [apply from_value_wf|apply Hchange, from_value_wf]. }
  destruct st as [new_status ev]. cbn [fst snd] in *. destruct Hst as [Hnew Hev]. split.
  - by apply all_devices_insert.
  - by destruct (connected _), (disconnected _).
Qed.

Lemma load_wf lookup_ip now now' answers d e : new_entry now (load lookup_ip now' answers d) = Some e ->
  status_wf (status e).
Proof.
  unfold load, load_device_entry. destruct (answers d) as [cl cm rw vs rv]. cbn.
  destruct cl, cm, rw, vs as [vs| | |]; cbn; intros [= <-]; try apply NOCOMM_wf. cbn.
  case_match; [apply from_value_wf|exact default_wf].
Qed.

(** The pass of the device task keeps what holds of its devices, if it holds of those that are added. *)
Lemma device_sync_all (P : DeviceEntry -> Prop) now ns s diff : (forall d e, P e -> P (set_desc d e)) ->
  all_devices (fun _ => P) (devices s) -> (forall patch, diff = Ok patch -> forall e, e ∈ added patch -> P e) ->
  all_devices (fun _ => P) (devices (device_sync_next now ns s diff).1.2).
Proof.
  intros Hdesc H Hp. destruct diff as [patch|err| |]; [| |done..].
  - destruct (device_sync_next_ok now ns s patch) as (_ & -> & _).
    apply (fold_devices (P := fun _ => P)).
    + intros devs d n _ Hd m e He. cbn [apply_deleted fst] in He. apply lookup_delete_Some in He as [_ He]. by eapply Hd.
    + apply (fold_devices (P := fun _ => P)).
      * intros devs d u _ Hd. unfold apply_updated. cbn [fst].
        destruct (devs !! dev_ups_name u) as [e|] eqn:E; [|done]. cbn [fst].
        apply all_devices_insert; [done|]. apply Hdesc, (Hd _ _ E).
      * apply (fold_devices (P := fun _ => P)); [|done]. intros devs d e He Hd.
        apply all_devices_insert; [done|by eapply Hp].
  - destruct (device_sync_next_err now ns s err) as (_ & -> & _). intros n e. by rewrite lookup_empty.
Qed.

Lemma device_sync_words now ns s diff : statuses_wf (devices s) ->
  (forall patch, diff = Ok patch -> forall e, e ∈ added patch -> status_wf (status e)) ->
  statuses_wf (devices (device_sync_next now ns s diff).1.2).
Proof. by apply (device_sync_all (fun e => status_wf (status e))). Qed.
