(* ===== verification/Services.v ===== *)
(** * The synchronisation services of a daemon, side by side

    [DeviceSyncService::run] of [sync/sync_device.rs] and
    [StatusSyncService::run] of [sync/sync_status.rs] as two tasks that share
    the state of one daemon and the event channel. A step is the code between
    two awaits of one task; the scheduler, the clock and the daemon's answers
    are the actions. A pass of [Sync] that is one function there is here the
    snapshot that it takes under the read lock, and, later, what it writes under
    the write lock. The device task publishes its events before it lets the lock
    go; the status task does so after, in a step of its own. *)

From S2P Require Import Prelude RustStr Numbers Errors Names VarName Value Ip UpsVariables Response Status.
From S2P Require Import Auth Config State Events Sync Broadcast StatusWidth.

(** ** The two tasks *)

(** Where [DeviceSyncService::run] waits. *)
Inductive DevicePhase :=
  | DTicking                                (** for the interval *)
  | DAsking                                 (** [diff_upsd]: for the list of devices and the versions *)
  | DLoading (local : gmap UpsName DeviceEntry) (remote : outcome ErrorKind (list UpsDevice))
      (prot_ver upsd_ver : outcome ErrorKind str)   (** for the loads and the write lock *)
  | DEnded.

(** Where [StatusSyncService::run] waits; [STicking] has the state of the interval. *)
Inductive StatusPhase :=
  | STicking (interval : UpsPollInterval)
  | SSnapshot (interval : UpsPollInterval) (poll_type : UpsPollType)      (** for the read lock *)
  | SPolling (interval : UpsPollInterval) (poll_type : UpsPollType) (names : list UpsName)
                                            (** for the answers and the write lock *)
  | SPublishing (interval : UpsPollInterval) (events : EventBatch)        (** the lock has been released *)
  | SEnded.

Record Services := mkServices {
  sv_namespace : str;
  sv_state : DaemonState;
  sv_channel : EventChannel;
  sv_device : DevicePhase;
  sv_status : StatusPhase;
  sv_cancelled : bool;
}.

Definition set_device_task (d : DevicePhase) (sv : Services) : Services :=
  mkServices (sv_namespace sv) (sv_state sv) (sv_channel sv) d (sv_status sv) (sv_cancelled sv).
Definition set_status_task (p : StatusPhase) (sv : Services) : Services :=
  mkServices (sv_namespace sv) (sv_state sv) (sv_channel sv) (sv_device sv) p (sv_cancelled sv).
Definition set_daemon_state (s : DaemonState) (sv : Services) : Services :=
  mkServices (sv_namespace sv) s (sv_channel sv) (sv_device sv) (sv_status sv) (sv_cancelled sv).
(** [send_batch]; an error is only logged. *)
Definition send_events (b : EventBatch) (sv : Services) : Services :=
  mkServices (sv_namespace sv) (sv_state sv) (EventBatch_send b (sv_channel sv)).2 (sv_device sv) (sv_status sv)
    (sv_cancelled sv).

(** What [status_sync] and [state_sync] write once the answers are there. *)
Definition status_write (now : Z) (ns : str) (s : DaemonState) (responses : list (outcome ErrorKind UpsVar))
  : DaemonState * EventBatch :=
  let '(devs, changes) := foldl (status_step now) (devices s, []) responses in
  (set_devices devs s, mkBatch ns None [] [] changes [] [] []).
Definition state_write (lookup_ip : IpAddr -> option str) (now : Z) (ns : str) (s : DaemonState)
  (responses : list state_response) : DaemonState * EventBatch :=
  let '(devs, events) := foldl (state_step lookup_ip now) (devices s, EventBatch_new ns) responses in
  (set_devices devs s, events).

Inductive ServiceAction :=
  | DeviceTick
  | DeviceAnswered (remote : outcome ErrorKind (list UpsDevice)) (prot_ver upsd_ver : outcome ErrorKind str)
  | DeviceWrite (now : Z) (new_results recheck_results : list load_result)
  | DeviceCancelled
  | StatusTick (instant : Z)
  | StatusSnapshot
  | StatusWrite (now : Z) (responses : list (outcome ErrorKind UpsVar))
  | StateWrite (now : Z) (lookup_ip : IpAddr -> option str) (responses : list state_response)
  | StatusPublish
  | StatusCancelled
  | Foreign (event : SystemEvent)           (** a service of another daemon publishes *)
  | Cancel.                                 (** [token.cancel()] *)

Definition event_namespace (e : SystemEvent) : str :=
  match e with
  | DeviceAddition _ ns | DeviceRemoval _ ns | DeviceUpdate _ ns | DeviceStatusChanges _ ns
  | DaemonStatusUpdate _ ns | ClientConnection _ ns | ClientDisconnection _ ns => ns
  end.

(** One step; [None]: the task is not there, or nobody has cancelled. A device
    that answers is one that was asked: [join_all] keeps the order. *)
Definition service_step (sv : Services) (a : ServiceAction) : option Services :=
  let ns := sv_namespace sv in
  match a with
  | DeviceTick =>
      match sv_device sv with DTicking => Some (set_device_task DAsking sv) | _ => None end
  | DeviceAnswered remote prot_ver upsd_ver =>
      match sv_device sv with
      | DAsking => Some (set_device_task (DLoading (devices (sv_state sv)) remote prot_ver upsd_ver) sv)
      | _ => None
      end
  | DeviceWrite now new_results recheck_results =>
      match sv_device sv with
      | DLoading local remote prot_ver upsd_ver =>
          let '(_, s, events) := device_sync_next now ns (sv_state sv)
            (diff_upsd now local remote prot_ver upsd_ver new_results recheck_results) in
          Some (set_device_task DTicking (send_events events (set_daemon_state s sv)))
      | _ => None
      end
  | DeviceCancelled =>
      match sv_device sv with DEnded => None | _ => if sv_cancelled sv then Some (set_device_task DEnded sv) else None end
  | StatusTick instant =>
      match sv_status sv with
      | STicking interval =>
          let '(poll_type, interval) := poll_tick interval instant in
          Some (set_status_task (SSnapshot interval poll_type) sv)
      | _ => None
      end
  | StatusSnapshot =>
      match sv_status sv with
      | SSnapshot interval poll_type =>
          match snapshot_active_device_names (sv_state sv) with
          | [] => Some (set_status_task (STicking interval) sv)
          | names => Some (set_status_task (SPolling interval poll_type names) sv)
          end
      | _ => None
      end
  | StatusWrite now responses =>
      match sv_status sv with
      | SPolling interval Partial names =>
          if decide (length responses = length names) then
            let '(s, events) := status_write now ns (sv_state sv) responses in
            Some (set_status_task (SPublishing interval events) (set_daemon_state s sv))
          else None
      | _ => None
      end
  | StateWrite now lookup_ip responses =>
      match sv_status sv with
      | SPolling interval Full names =>
          if decide (responses.*1 = names) then
            let '(s, events) := state_write lookup_ip now ns (sv_state sv) responses in
            Some (set_status_task (SPublishing interval events) (set_daemon_state s sv))
          else None
      | _ => None
      end
  | StatusPublish =>
      match sv_status sv with
      | SPublishing interval events => Some (set_status_task (STicking interval) (send_events events sv))
      | _ => None
      end
  | StatusCancelled =>
      match sv_status sv with
      | SEnded | SPublishing _ _ => None
      | _ => if sv_cancelled sv then Some (set_status_task SEnded sv) else None
      end
  | Foreign event =>
      if decide (event_namespace event = ns) then None
      else Some (mkServices ns (sv_state sv) (channel_send (sv_channel sv) event).2 (sv_device sv) (sv_status sv)
        (sv_cancelled sv))
  | Cancel => Some (mkServices ns (sv_state sv) (sv_channel sv) (sv_device sv) (sv_status sv) true)
  end.

Fixpoint services_run (sv : Services) (actions : list ServiceAction) : option Services :=
  match actions with
  | [] => Some sv
  | a :: actions => match service_step sv a with Some sv => services_run sv actions | None => None end
  end.

(** [run] of both services: [interval] panics at a period of zero. *)
Definition services_start (ns : str) (c : UpsdConfig) (subscribed : bool) : outcome unit Services :=
  let? interval := status_service_interval c in
  if decide (poll_freq c = 0%Z) then Panicked
  else Ok (mkServices ns DaemonState_new (mkChannel [] subscribed) DTicking (STicking interval) false).

(** ** What is promised *)

(** What the daemon may answer: a device task brings what its loads return, and
    a request for [ups.status] gets that variable. *)
Definition action_ok (a : ServiceAction) : Prop :=
  match a with
  | DeviceWrite _ new_results recheck_results =>
      forall r, r ∈ new_results ++ recheck_results ->
        exists lookup_ip answers now' d, r = load lookup_ip now' answers d
  | StatusWrite _ responses => forall v, Ok v ∈ responses -> uv_name v = UPS_STATUS
  | Foreign event => event_wf event
  | _ => True
  end.

(** What a subscriber knows of the daemon [ns]: its devices and its status. *)
Definition observe (ns : str) (known : gset UpsName * ConnectionStatus) (e : SystemEvent)
  : gset UpsName * ConnectionStatus :=
  if decide (event_namespace e = ns) then
    match e with
    | DeviceAddition l _ => (known.1 ∪ list_to_set l, known.2)
    | DeviceRemoval l _ => (known.1 ∖ list_to_set l, known.2)
    | DaemonStatusUpdate st _ => (known.1, st)
    | _ => known
    end
  else known.
Definition observed (ns : str) (events : list SystemEvent) : gset UpsName * ConnectionStatus :=
  foldl (observe ns) (∅, conn_status DaemonState_new) events.

Definition state_view (s : DaemonState) : gset UpsName * ConnectionStatus := (dom (devices s), conn_status s).

(** The invariant of the two tasks. *)
Record services_wf (sv : Services) : Prop := {
  wf_state : daemon_wf (sv_state sv);
  wf_local : forall local remote pv uv, sv_device sv = DLoading local remote pv uv ->
    dom local = dom (devices (sv_state sv));
  wf_pending : forall interval events, sv_status sv = SPublishing interval events ->
    quiet events /\ b_namespace events = sv_namespace sv /\ batch_wf events;
  wf_statuses : statuses_wf (devices (sv_state sv));
  wf_events : Forall event_wf (published (sv_channel sv));
  wf_view : subscribed (sv_channel sv) = true ->
    observed (sv_namespace sv) (published (sv_channel sv)) = state_view (sv_state sv);
}.

(** ** Lemmas: the writes *)

Lemma accounted_dom devs0 devs changes : accounted devs0 devs changes -> dom devs = dom devs0.
Proof.
  intros H. apply set_eq. intros n. rewrite !elem_of_dom. specialize (H n).
  destruct (devs0 !! n), (devs !! n); try done; split; intros []; done || by eexists.
Qed.

Lemma status_write_spec now ns s responses : (forall v, Ok v ∈ responses -> uv_name v = UPS_STATUS) ->
  daemon_wf s -> statuses_wf (devices s) ->
  let r := status_write now ns s responses in
  daemon_wf r.1 /\ state_view r.1 = state_view s /\ quiet r.2 /\ b_namespace r.2 = ns /\
  statuses_wf (devices r.1) /\ batch_wf r.2.
Proof.
  intros Hr Hwf Hst. cbn zeta. unfold status_write.
  pose proof (fold_pair_ind (accounted (devices s)) (status_step now) (devices s) [] responses
    (fun a b c => status_step_accounted now (devices s) a b c) (accounted_refl _)) as Ha.
  assert (Hg : all_devices good (foldl (status_step now) (devices s, []) responses).1).
  { apply fold_devices; [|exact (proj1 Hwf)]. intros devs d c Hc. apply status_step_good.
    intros v ->. by apply Hr. }
  pose proof (fold_pair_ind (fun a b => statuses_wf a /\ Forall change_wf b) (status_step now) (devices s) [] responses
    (fun a b c => status_step_words now a b c) (conj Hst (list.Forall_nil_2 _))) as [Hw1 Hw2].
  destruct (foldl _ _ _) as [devs changes]. cbn [fst snd] in *. apply accounted_dom in Ha. split_and!; [| | |done..].
  - apply set_devices_wf; [done..|]. intros He. apply dom_empty_inv. by rewrite Ha, He, dom_empty.
  - unfold state_view. cbn. by rewrite Ha.
  - by split_and!.
Qed.

Lemma state_step_namespace lookup_ip now acc r :
  b_namespace (state_step lookup_ip now acc r).2 = b_namespace acc.2.
Proof.
  destruct acc as [devs events], r as [n answers]. unfold state_step.
  destruct (devs !! n) as [e|]; [|done]. destruct answers as [[[vars clients] cmds]| | |]; try done.
  destruct (UpsVariables_get _ _); [case_decide|]; by destruct (connected _), (disconnected _).
Qed.

Lemma state_write_spec lookup_ip now ns s responses : daemon_wf s -> statuses_wf (devices s) ->
  let r := state_write lookup_ip now ns s responses in
  daemon_wf r.1 /\ state_view r.1 = state_view s /\ quiet r.2 /\ b_namespace r.2 = ns /\
  statuses_wf (devices r.1) /\ batch_wf r.2.
Proof.
  intros Hwf Hst. cbn zeta. unfold state_write.
  pose proof (fold_pair_ind (fun d ev => accounted (devices s) d (status_changes ev) /\ quiet ev /\
      b_namespace ev = ns) (state_step lookup_ip now) (devices s) (EventBatch_new ns) responses) as Ha.
  assert (Hg : all_devices good (foldl (state_step lookup_ip now) (devices s, EventBatch_new ns) responses).1).
  { apply fold_devices; [|exact (proj1 Hwf)]. intros devs d c _. apply state_step_good. }
  destruct Ha as (Ha & Hq & Hns).
  { intros d ev c (H1 & H2 & H3). split_and!;
      [by apply state_step_accounted|by apply state_step_quiet|by rewrite state_step_namespace]. }
  { split_and!; [apply accounted_refl|done..]. }
  pose proof (fold_pair_ind (fun a b => statuses_wf a /\ batch_wf b) (state_step lookup_ip now) (devices s)
    (EventBatch_new ns) responses (fun a b c => state_step_words lookup_ip now a b c)
    (conj Hst (list.Forall_nil_2 _))) as [Hw1 Hw2].
  destruct (foldl _ _ _) as [devs ev]. cbn [fst snd] in *. apply accounted_dom in Ha. split_and!; [| |done..].
  - apply set_devices_wf; [done..|]. intros He. apply dom_empty_inv. by rewrite Ha, He, dom_empty.
  - unfold state_view. cbn. by rewrite Ha.
Qed.

(** ** Lemmas: the view of a subscriber *)

Lemma observe_batch ns k b : b_namespace b = ns ->
  foldl (observe ns) k (batch_events b) =
  ((k.1 ∪ list_to_set (new_devices b)) ∖ list_to_set (removed b), default k.2 (upsd_status b)).
Proof.
  intros <-. destruct k as [k st], b as [ns up nw rm ch ud ds cs]. unfold batch_events. cbn.
  rewrite !foldl_app.
  assert (Hskip : forall k' e, event_namespace e = ns ->
    match e with DeviceUpdate _ _ | DeviceStatusChanges _ _ | ClientConnection _ _ | ClientDisconnection _ _ => True
    | _ => False end -> observe ns k' e = k').
  { intros k' e He Hk. unfold observe. by destruct e; rewrite ?decide_True. }
  assert (Hn : foldl (observe ns) (k, st) (match nw with [] => [] | _ => [DeviceAddition nw ns] end) =
    (k ∪ list_to_set nw, st)).
  { destruct nw as [|n l]; cbn; [by rewrite (right_id_L ∅ (∪))|]. unfold observe. by rewrite decide_True. }
  rewrite Hn.
  assert (Hr : foldl (observe ns) (k ∪ list_to_set nw, st) (match rm with [] => [] | _ => [DeviceRemoval rm ns] end) =
    ((k ∪ list_to_set nw) ∖ list_to_set rm, st)).
  { destruct rm as [|n l]; cbn; [by rewrite difference_empty_L|]. unfold observe. by rewrite decide_True. }
  rewrite Hr. destruct ud as [|u1 ud'], ch, ds, cs; cbn -[observe];
    rewrite ?Hskip by done; (destruct up; cbn -[observe]; [unfold observe; by rewrite decide_True|done]).
Qed.

Lemma observe_quiet ns k b : b_namespace b = ns -> quiet b -> foldl (observe ns) k (batch_events b) = k.
Proof.
  intros Hns (Hn & Hr & Hu). rewrite observe_batch, Hn, Hr, Hu by done. destruct k as [k st]. cbn.
  by rewrite union_empty_r_L, difference_empty_L.
Qed.

Lemma apply_added_dom l m ev :
  dom (foldl apply_added (m, ev) l).1 = dom m ∪ list_to_set (name <$> l).
Proof.
  revert m ev. induction l as [|e l IH]; intros m ev; cbn; [by rewrite (right_id_L ∅ (∪))|].
  unfold apply_added at 2. cbn [fst snd]. rewrite IH, dom_insert_L.
  by rewrite (union_comm_L _ (dom m)), union_assoc_L.
Qed.
Lemma apply_updated_dom l acc : dom (foldl apply_updated acc l).1 = dom acc.1.
Proof.
  revert acc. induction l as [|d l IH]; intros acc; cbn; [done|]. rewrite IH. unfold apply_updated.
  destruct (acc.1 !! dev_ups_name d) as [e|] eqn:E; [|done]. cbn [fst].
  apply dom_insert_lookup_L. by eexists.
Qed.
Lemma apply_deleted_dom l acc : dom (foldl apply_deleted acc l).1 = dom acc.1 ∖ list_to_set l.
Proof.
  apply set_eq. intros n. rewrite elem_of_dom, apply_deleted_lookup, elem_of_difference, elem_of_dom,
    elem_of_list_to_set. destruct (decide (n ∈ l)); [|by intuition]. split; [by intros []|by intros []].
Qed.

(** Apart from the two that only differ in [updated], what the loops do not touch. *)
Lemma apply_loops_rest {T} (f : EventBatch -> T) (l : list DeviceEntry) (u : list UpsDevice) (d : list UpsName) acc :
  (forall n b, f (new_device n b) = f b) -> (forall n b, f (updated_device n b) = f b) ->
  (forall n b, f (removed_device n b) = f b) ->
  f (foldl apply_deleted (foldl apply_updated (foldl apply_added acc l) u) d).2 = f acc.2.
Proof.
  intros Hn Hu Hd. transitivity (f (foldl apply_updated (foldl apply_added acc l) u).2);
    [|transitivity (f (foldl apply_added acc l).2)].
  - generalize (foldl apply_updated (foldl apply_added acc l) u) as a. induction d as [|x d IH]; intros a; [done|].
    cbn [foldl]. rewrite IH. apply Hd.
  - generalize (foldl apply_added acc l) as a. induction u as [|x u IH]; intros a; [done|].
    cbn [foldl]. rewrite IH. unfold apply_updated. destruct (_ !! _); [apply Hu|done].
  - revert acc. induction l as [|x l IH]; intros a; [done|]. cbn [foldl]. rewrite IH. apply Hn.
Qed.

(** What a pass of the device task writes is what its events tell. *)
Lemma device_sync_view now ns s diff :
  let r := device_sync_next now ns s diff in
  b_namespace r.2 = ns /\ foldl (observe ns) (state_view s) (batch_events r.2) = state_view r.1.2.
Proof.
  cbn zeta.
  assert (Hstub : forall r : outcome SyncTaskError unit, b_namespace (r, s, EventBatch_new ns).2 = ns /\
    foldl (observe ns) (state_view s) (batch_events (r, s, EventBatch_new ns).2) = state_view (r, s, EventBatch_new ns).1.2).
  { intros r. split; [done|]. by apply observe_quiet. }
  destruct diff as [patch|err| |]; try apply Hstub; clear Hstub.
  - pose proof (device_sync_next_ok now ns s patch) as Hok. cbn zeta in Hok.
    pose proof (apply_loops_rest (fun b => (b_namespace b, upsd_status b)) (added patch) (p_updated patch)
      (deleted patch) (devices s, EventBatch_new ns)
      ltac:(done) ltac:(done) ltac:(done)) as Hrest.
    unfold device_sync_next in *.
    pose proof (apply_deleted_dom (deleted patch)
      (foldl apply_updated (foldl apply_added (devices s, EventBatch_new ns) (added patch)) (p_updated patch))) as Hdom.
    rewrite apply_updated_dom, apply_added_dom in Hdom.
    destruct (foldl apply_deleted _ _) as [devs ev]. cbn [fst snd] in *. cbn in Hrest. injection Hrest as Hns Hup.
    destruct (decide (conn_status s <> OnlineConn)) as [Hc|Hc]; cbn [fst snd] in *;
      destruct Hok as (_ & _ & Hst & _ & _ & _ & Hrm & Hnw); (split; [done|]);
      rewrite observe_batch by done; rewrite Hrm, Hnw; unfold state_view; cbn; rewrite Hdom; [done|].
    rewrite Hup. cbn. done.
  - pose proof (device_sync_next_err now ns s err) as Herr. cbn zeta in Herr.
    destruct Herr as (_ & Hdev & Hst & _ & Hnw & Hrm).
    assert (Hfold : forall l b, b_namespace (foldl (fun b n => removed_device n b) b l) = b_namespace b /\
      upsd_status (foldl (fun b n => removed_device n b) b l) = upsd_status b).
    { induction l as [|x l IH]; intros b; [done|]. cbn [foldl]. destruct (IH (removed_device x b)) as [-> ->]. done. }
    destruct (Hfold (map_to_list (devices s)).*1 (EventBatch_new ns)) as [Hns Hup].
    assert (Hb : b_namespace (device_sync_next now ns s (Err err)).2 = ns /\
      default (conn_status s) (upsd_status (device_sync_next now ns s (Err err)).2) = Dead).
    { cbn. case_decide as Hd; cbn; [done|]. rewrite Hup. cbn. split; [done|]. by destruct (conn_status s). }
    destruct Hb as [Hb1 Hb2]. split; [done|]. rewrite observe_batch by done.
    unfold state_view. rewrite Hnw, Hdev, Hst. cbn [fst snd]. rewrite Hb2. f_equal. rewrite dom_empty_L.
    apply set_eq. intros n. rewrite elem_of_difference, elem_of_list_to_set, Hrm, elem_of_union, elem_of_dom, elem_of_list_to_set.
    split; [|by intros ?%elem_of_empty]. by intros [[?|?%elem_of_nil] ?].
Qed.

(** The device task publishes no change of a status. *)
Lemma device_sync_quiet now ns s diff : batch_wf (device_sync_next now ns s diff).2.
Proof.
  unfold batch_wf. assert (H : status_changes (device_sync_next now ns s diff).2 = []).
  { destruct diff as [patch|err| |]; [| |done..]; unfold device_sync_next.
    - pose proof (apply_loops_rest status_changes (added patch) (p_updated patch) (deleted patch)
        (devices s, EventBatch_new ns) ltac:(done) ltac:(done) ltac:(done)) as Hrest.
      destruct (foldl apply_deleted _ _) as [devs ev]. by case_decide.
    - assert (Hfold : forall l b, status_changes (foldl (fun b n => removed_device n b) b l) = status_changes b).
      { induction l as [|x l IH]; intros b; [done|]. cbn [foldl]. by rewrite IH. }
      case_decide; cbn; apply Hfold. }
  rewrite H. apply list.Forall_nil_2.
Qed.

(** ** Lemmas: a step *)

(** The channel after a batch. *)
Lemma sent_channel b c :
  (EventBatch_send b c).2 =
  if subscribed c then mkChannel (published c ++ batch_events b) true else c.
Proof. rewrite batch_send_spec. by destruct (subscribed c). Qed.

Lemma sent_view ns b c view view' :
  (subscribed c = true -> observed ns (published c) = view) ->
  foldl (observe ns) view (batch_events b) = view' ->
  subscribed (EventBatch_send b c).2 = true -> observed ns (published (EventBatch_send b c).2) = view'.
Proof.
  intros Hv Hb. rewrite sent_channel. destruct (subscribed c) eqn:E; [|congruence].
  intros _. cbn [published]. unfold observed. rewrite foldl_app. fold (observed ns (published c)).
  by rewrite Hv.
Qed.

(** What a step leaves alone: the events already published, and, unless the
    device task writes, the set of devices and the status of the daemon. *)
Definition step_extends (a : ServiceAction) (sv sv' : Services) : Prop :=
  sv_namespace sv' = sv_namespace sv /\
  subscribed (sv_channel sv') = subscribed (sv_channel sv) /\
  published (sv_channel sv) `prefix_of` published (sv_channel sv') /\
  (state_view (sv_state sv') = state_view (sv_state sv) \/ exists now n r, a = DeviceWrite now n r).

Lemma device_write_wf now nr rr local remote pv uv ns s :
  action_ok (DeviceWrite now nr rr) -> daemon_wf s -> statuses_wf (devices s) ->
  daemon_wf (device_sync_next now ns s (diff_upsd now local remote pv uv nr rr)).1.2 /\
  statuses_wf (devices (device_sync_next now ns s (diff_upsd now local remote pv uv nr rr)).1.2).
Proof.
  intros Hl Hwf Hst.
  assert (Hadded : forall patch, diff_upsd now local remote pv uv nr rr = Ok patch -> forall e, e ∈ added patch ->
    exists lookup_ip answers now' d, new_entry now (load lookup_ip now' answers d) = Some e).
  { intros patch Hp e. rewrite (diff_upsd_added _ _ _ _ _ _ _ _ Hp).
    unfold patch_added. rewrite elem_of_app, !list_elem_of_omap. cbn [action_ok] in Hl. setoid_rewrite elem_of_app in Hl.
    intros [(r & Hin & He)|(r & Hin & He)].
    - destruct (Hl r) as (lookup_ip & answers & now' & d & ->); [by left|]. by eexists _, _, _, _.
    - destruct (Hl r) as (lookup_ip & answers & now' & d & ->); [by right|]. eexists _, _, _, _. by apply loaded_new. }
  split.
  - apply device_step_wf; [done|]. intros patch Hp e He.
    destruct (Hadded patch Hp e He) as (lookup_ip & answers & now' & d & H). by apply load_consistent in H.
  - apply device_sync_words; [done|]. intros patch Hp e He.
    destruct (Hadded patch Hp e He) as (lookup_ip & answers & now' & d & H). by apply load_wf in H.
Qed.

(** What is published stays well formed. *)
Lemma sent_events b c : batch_wf b -> Forall event_wf (published c) -> Forall event_wf (published (EventBatch_send b c).2).
Proof.
  intros Hb Hc. rewrite sent_channel. destruct (subscribed c); [|done].
  apply list.Forall_app. split; [done|by apply batch_events_wf].
Qed.

(** A step that only moves a task along. *)
Lemma move_wf sv d p c : services_wf sv ->
  (forall local remote pv uv, d = DLoading local remote pv uv -> d = sv_device sv \/ local = devices (sv_state sv)) ->
  (forall interval events, p = SPublishing interval events -> p = sv_status sv) ->
  services_wf (mkServices (sv_namespace sv) (sv_state sv) (sv_channel sv) d p c).
Proof.
  intros [Hs Hl Hp Hst He Hv] Hd Hq. split; cbn; [done| | |done..].
  - intros local remote pv uv E. destruct (Hd _ _ _ _ E) as [H| ->]; [|done]. subst d. by eapply Hl.
  - intros interval events E. apply (Hp interval). by rewrite <- (Hq _ _ E).
Qed.

Lemma move_extends a sv d p c :
  step_extends a sv (mkServices (sv_namespace sv) (sv_state sv) (sv_channel sv) d p c).
Proof. split_and!; [done..|]. by left. Qed.

(** The status task writes. *)
Lemma status_written_wf sv s interval events : services_wf sv ->
  daemon_wf s /\ state_view s = state_view (sv_state sv) /\ quiet events /\ b_namespace events = sv_namespace sv /\
    statuses_wf (devices s) /\ batch_wf events ->
  services_wf (set_status_task (SPublishing interval events) (set_daemon_state s sv)) /\
  forall a, step_extends a sv (set_status_task (SPublishing interval events) (set_daemon_state s sv)).
Proof.
  intros [Hs Hl Hp Hst He Hv] (Hwf & Hview & Hq & Hns & Hw & Hb). split; [split; cbn|].
  - done.
  - intros local remote pv uv E. rewrite (Hl _ _ _ _ E). by injection Hview as <- _.
  - by intros ? ? [= -> ->].
  - done.
  - done.
  - intros Hsub. rewrite Hview. by apply Hv.
  - intros a. split_and!; [done..|]. by left.
Qed.

(** A task publishes [events] of the writes that lead to [s]. *)
Lemma sent_wf a sv s d p events : services_wf sv -> daemon_wf s -> statuses_wf (devices s) -> batch_wf events ->
  foldl (observe (sv_namespace sv)) (state_view (sv_state sv)) (batch_events events) = state_view s ->
  (forall local remote pv uv, d = DLoading local remote pv uv -> dom local = dom (devices s)) ->
  (forall interval pending, p = SPublishing interval pending ->
     quiet pending /\ b_namespace pending = sv_namespace sv /\ batch_wf pending) ->
  (state_view s = state_view (sv_state sv) \/ exists now n r, a = DeviceWrite now n r) ->
  let sv' := mkServices (sv_namespace sv) s (EventBatch_send events (sv_channel sv)).2 d p (sv_cancelled sv) in
  services_wf sv' /\ step_extends a sv sv'.
Proof.
  intros [Hs Hl Hp Hst He Hv] Hwf Hw Hb Hev Hd Hpub Hor. split; [split; cbn|split_and!; cbn].
  - done.
  - done.
  - done.
  - done.
  - by apply sent_events.
  - by apply sent_view with (view := state_view (sv_state sv)).
  - done.
  - rewrite sent_channel. by destruct (subscribed _) eqn:Hsub.
  - rewrite sent_channel. destruct (subscribed _); [by apply prefix_app_r|done].
  - done.
Qed.

Lemma foreign_wf sv event : services_wf sv -> event_wf event -> event_namespace event <> sv_namespace sv ->
  let sv' := mkServices (sv_namespace sv) (sv_state sv) (channel_send (sv_channel sv) event).2 (sv_device sv)
    (sv_status sv) (sv_cancelled sv) in
  services_wf sv' /\ step_extends (Foreign event) sv sv'.
Proof.
  intros [Hs Hl Hp Hst He Hv] Hw Hns. cbn zeta. unfold channel_send.
  destruct (sv_channel sv) as [l []] eqn:E; cbn [fst snd].
  - split; [split; cbn; [done..| |]|split_and!; cbn; rewrite ?E; [done..| |by left]].
    + apply list.Forall_app. split; [done|by apply list.Forall_singleton].
    + intros _. unfold observed. rewrite foldl_app. cbn. unfold observe at 1. rewrite decide_False by done. by apply Hv.
    + by apply prefix_app_r.
  - split; [split; cbn; [done..|]|split_and!; cbn; rewrite ?E; [done..|]]; [done|by left].
Qed.

Lemma device_written_ok sv now nr rr sv' : action_ok (DeviceWrite now nr rr) -> services_wf sv ->
  service_step sv (DeviceWrite now nr rr) = Some sv' ->
  services_wf sv' /\ step_extends (DeviceWrite now nr rr) sv sv'.
Proof.
  intros Ha Hwf. cbn [service_step]. destruct (sv_device sv) as [| |local remote pv uv|]; [done..| |done].
  pose proof (device_write_wf now nr rr local remote pv uv (sv_namespace sv) (sv_state sv) Ha (wf_state _ Hwf) (wf_statuses _ Hwf)) as [Hw Hst].
  pose proof (device_sync_quiet now (sv_namespace sv) (sv_state sv) (diff_upsd now local remote pv uv nr rr)) as Hb.
  pose proof (device_sync_view now (sv_namespace sv) (sv_state sv) (diff_upsd now local remote pv uv nr rr)) as [Hns Hview].
  destruct (device_sync_next _ _ _ _) as [[r s] events]. cbn [fst snd] in *. intros [= <-].
  apply (sent_wf _ sv s DTicking (sv_status sv) events); [done..|by apply wf_pending|]. right. by eexists _, _, _.
Qed.

Lemma device_moves_ok sv a sv' : services_wf sv ->
  match a with DeviceTick | DeviceAnswered _ _ _ | DeviceCancelled => True | _ => False end ->
  service_step sv a = Some sv' -> services_wf sv' /\ step_extends a sv sv'.
Proof.
  intros Hwf Ha. destruct a as [ |remote pv uv| | | | | | | | | | ]; try done; cbn [service_step].
  - destruct (sv_device sv); [|done..]. intros [= <-]. split; [by apply move_wf|apply move_extends].
  - destruct (sv_device sv); [done| |done..]. intros [= <-]. split; [|apply move_extends].
    apply move_wf; [done| |done]. intros ? ? ? ? [= <- _ _ _]. by right.
  - intros H. assert (Heq : sv' = set_device_task DEnded sv) by (destruct (sv_device sv), (sv_cancelled sv); congruence).
    rewrite Heq. split; [by apply move_wf|apply move_extends].
Qed.

Lemma status_moves_ok sv a sv' : services_wf sv ->
  match a with StatusTick _ | StatusSnapshot | StatusPublish | StatusCancelled => True | _ => False end ->
  service_step sv a = Some sv' -> services_wf sv' /\ step_extends a sv sv'.
Proof.
  intros Hwf Ha. destruct a as [ | | | |instant| | | | | | | ]; try done; cbn [service_step].
  - destruct (sv_status sv) as [interval| | | |]; [|done..]. destruct (poll_tick _ _) as [t i]. intros [= <-].
    split; [|apply move_extends]. by apply move_wf; [|by left|].
  - destruct (sv_status sv) as [|interval t| | |]; [done| |done..].
    destruct (snapshot_active_device_names _) as [|n l]; intros [= <-];
      (split; [|apply move_extends]; by apply move_wf; [|by left|]).
  - destruct (sv_status sv) as [| | |interval events|] eqn:E; [done..| |done]. intros [= <-].
    destruct (wf_pending _ Hwf _ _ E) as (Hq & Hns & Hb).
    apply (sent_wf _ sv (sv_state sv) (sv_device sv) (STicking interval) events); [done|apply Hwf|apply Hwf|done|by apply observe_quiet|by apply wf_local|done|by left].
  - intros H. assert (Heq : sv' = set_status_task SEnded sv) by (destruct (sv_status sv), (sv_cancelled sv); congruence).
    rewrite Heq. split; [by apply move_wf; [|by left|]|apply move_extends].
Qed.

Lemma service_step_ok sv a sv' : action_ok a -> services_wf sv -> service_step sv a = Some sv' ->
  services_wf sv' /\ step_extends a sv sv'.
Proof.
  intros Ha Hwf.
  destruct a as [ |remote pv uv|now nr rr| |instant| |now rs|now lk rs| | |event| ];
    try (by apply device_moves_ok); try (by apply status_moves_ok); try (by apply device_written_ok);
    cbn [service_step].
  - destruct (sv_status sv) as [| |interval [] names| |]; [done..| |done|done]. case_decide; [|done].
    pose proof (status_write_spec now (sv_namespace sv) (sv_state sv) rs Ha (wf_state _ Hwf) (wf_statuses _ Hwf)) as Hw.
    destruct (status_write _ _ _ _) as [s events]. cbn [fst snd] in Hw. intros [= <-].
    by destruct (status_written_wf sv s interval events Hwf Hw).
  - destruct (sv_status sv) as [| |interval [] names| |]; [done..| |done|done|done]. case_decide; [|done].
    pose proof (state_write_spec lk now (sv_namespace sv) (sv_state sv) rs (wf_state _ Hwf) (wf_statuses _ Hwf)) as Hw.
    destruct (state_write _ _ _ _ _) as [s events]. cbn [fst snd] in Hw. intros [= <-].
    by destruct (status_written_wf sv s interval events Hwf Hw).
  - case_decide as Hns; [done|]. intros [= <-]. by apply foreign_wf.
  - intros [= <-]. split; [by apply move_wf; [|by left|]|apply move_extends].
Qed.

Lemma services_run_app sv l1 l2 : services_run sv (l1 ++ l2) = services_run sv l1 ≫= fun sv => services_run sv l2.
Proof. revert sv. induction l1 as [|a l1 IH]; intros sv; cbn; [done|]. destruct (service_step sv a); [apply IH|done]. Qed.

Lemma services_run_ok sv actions sv' : Forall action_ok actions -> services_wf sv ->
  services_run sv actions = Some sv' ->
  services_wf sv' /\ sv_namespace sv' = sv_namespace sv /\
  subscribed (sv_channel sv') = subscribed (sv_channel sv) /\
  published (sv_channel sv) `prefix_of` published (sv_channel sv').
Proof.
  intros Ha. revert sv. induction Ha as [|a actions Ha _ IH]; intros sv Hwf; cbn [services_run].
  { by intros [= <-]. }
  destruct (service_step sv a) as [sv1|] eqn:E; [|done]. intros Hrun.
  destruct (service_step_ok _ _ _ Ha Hwf E) as (Hwf1 & Hns & Hsub & Hpre & _).
  destruct (IH _ Hwf1 Hrun) as (Hwf' & Hns' & Hsub' & Hpre'). split_and!; [done|congruence..|by etrans].
Qed.

Lemma services_start_wf ns c sub sv : services_start ns c sub = Ok sv ->
  services_wf sv /\ sv_namespace sv = ns /\ subscribed (sv_channel sv) = sub.
Proof.
  unfold services_start. destruct (status_service_interval c); [|done..]. cbn [obind]. case_decide; [done|].
  intros [= <-]. split; [|done]. split; cbn; [|done|done|by intros n e; rewrite lookup_empty|done..]. split_and!.
  - intros n e. cbn. by rewrite lookup_empty.
  - by split; [|intros [[] _]].
  - done.
Qed.

(** ** Lemmas: the end *)

(** How both tasks can be stopped from where they are. *)
Definition stop_schedule (sv : Services) : list ServiceAction :=
  Cancel ::
  match sv_status sv with
  | SPublishing _ _ => [StatusPublish; StatusCancelled]
  | SEnded => []
  | _ => [StatusCancelled]
  end ++
  match sv_device sv with DEnded => [] | _ => [DeviceCancelled] end.

Definition stopped (sv : Services) : Prop := sv_device sv = DEnded /\ sv_status sv = SEnded.

(** What the status task still had to tell. *)
Definition pending (sv : Services) : list SystemEvent :=
  match sv_status sv with
  | SPublishing _ events => if subscribed (sv_channel sv) then batch_events events else []
  | _ => []
  end.

Lemma stop_schedule_stops sv :
  exists sv', services_run sv (stop_schedule sv) = Some sv' /\ stopped sv' /\ sv_state sv' = sv_state sv /\
    published (sv_channel sv') = published (sv_channel sv) ++ pending sv.
Proof.
  destruct sv as [ns s ch d p c]. unfold stop_schedule, pending, stopped. cbn.
  destruct p as [i|i t|i t l|i events|], d as [| |local remote pv uv|]; cbn;
    (eexists; split; [reflexivity|cbn]; split_and!; [done..|];
     rewrite ?sent_channel; destruct ch as [pub []]; cbn; by rewrite ?app_nil_r).
Qed.

Lemma stopped_run sv actions sv' : stopped sv -> services_run sv actions = Some sv' ->
  sv_state sv' = sv_state sv.
Proof.
  revert sv. induction actions as [|a actions IH]; intros sv [Hd Hp]; cbn [services_run]; [by intros [= <-]|].
  destruct (service_step sv a) as [sv1|] eqn:E; [|done]. intros Hrun.
  assert (H1 : stopped sv1 /\ sv_state sv1 = sv_state sv).
  { unfold stopped. destruct a; cbn [service_step] in E; rewrite ?Hd, ?Hp in E; try done;
      [case_decide; [done|]|]; by injection E as <-. }
  destruct H1 as [H1 <-]. by apply IH.
Qed.

(** ** The services side by side *)

(** C9: However the scheduler interleaves the two services of a daemon with each
    other and with those of the other daemons, and whatever the daemon answers:
    the state stays well formed; the devices that a pass of the device task was
    computed against are still those of the state when it comes to be written,
    as [device_sync_spec] asks; and who follows the events, from the first one,
    knows after each step exactly which devices the state holds and whether the
    daemon is online. Both tasks can be cancelled wherever they are: four more
    steps end them without a change of the state, with the events of a write
    that was already made published; afterwards nothing touches the state. *)
Theorem services_safe ns c sub start actions sv :
  services_start ns c sub = Ok start -> Forall action_ok actions -> services_run start actions = Some sv ->
  daemon_wf (sv_state sv) /\
  (forall local remote pv uv, sv_device sv = DLoading local remote pv uv ->
     forall n, is_Some (local !! n) <-> is_Some (devices (sv_state sv) !! n)) /\
  (sub = true -> observed ns (published (sv_channel sv)) = (dom (devices (sv_state sv)), conn_status (sv_state sv))) /\
  length (stop_schedule sv) <= 4 /\
  exists final, services_run sv (stop_schedule sv) = Some final /\ stopped final /\
    sv_state final = sv_state sv /\ published (sv_channel final) = published (sv_channel sv) ++ pending sv /\
    forall more later, services_run final more = Some later -> sv_state later = sv_state sv.
Proof.
  intros Hstart Ha Hrun. apply services_start_wf in Hstart as (Hwf & Hns & Hsub).
  destruct (services_run_ok _ _ _ Ha Hwf Hrun) as ([Hs Hl _ _ _ Hv] & Hns' & Hsub' & _). split_and!.
  - done.
  - intros local remote pv uv Hd n. rewrite <- !elem_of_dom. by rewrite (Hl _ _ _ _ Hd).
  - intros ->. rewrite <- Hns, <- Hns'. apply Hv. congruence.
  - unfold stop_schedule. by destruct (sv_status sv), (sv_device sv); cbn; lia.
  - destruct (stop_schedule_stops sv) as (final & Hfinal & Hst & Hstate & Hpub). exists final. split_and!; [done..|].
    intros more later Hlater. rewrite <- Hstate. by apply (stopped_run final more).
Qed.

(** ** Examples *)

#[local] Definition sv_config : UpsdConfig := mkUpsdConfig 30 10 (lit "host") 3493 None None 1 Disable.
#[local] Definition sv_device_of (n : string) : UpsDevice := mkUpsDevice (mkUpsName (lit n)) [].
#[local] Definition sv_answers (d : UpsDevice) : device_answers :=
  mkAnswers (Ok (mkClientList (dev_ups_name d) [])) (Ok (mkCmdList (dev_ups_name d) []))
    (Ok (mkRwList ∅ (dev_ups_name d)))
    (Ok (mkUpsVarList {[UPS_STATUS := VString (lit "OL")]} (dev_ups_name d))) [].
#[local] Definition sv_load (n : string) : load_result := load (fun _ => None) 0 sv_answers (sv_device_of n).
#[local] Definition sv_full (n st : string) : state_response :=
  (mkUpsName (lit n), Ok (mkUpsVarList {[UPS_STATUS := VString (lit st)]} (mkUpsName (lit n)),
    mkClientList (mkUpsName (lit n)) [], mkCmdList (mkUpsName (lit n)) [])).

(** A full poll of the device [a] is under way, with its write made, when the
    device task finds that [a] has given way to [b]. *)
#[local] Definition sv_actions : list ServiceAction :=
  [DeviceTick; DeviceAnswered (Ok [sv_device_of "a"]) (Ok (lit "1.3")) (Ok (lit "2.8"));
   DeviceWrite 1 [sv_load "a"] []; StatusTick 0; StatusSnapshot;
   DeviceTick; DeviceAnswered (Ok [sv_device_of "b"]) (Ok (lit "1.3")) (Ok (lit "2.8"));
   StateWrite 2 (fun _ => None) [sv_full "a" "OB"]; DeviceWrite 3 [sv_load "b"] []].
#[local] Definition sv_start : option Services :=
  match services_start (lit "ns") sv_config true with Ok sv => Some sv | _ => None end.
#[local] Definition sv_run (l : list ServiceAction) : option Services := sv ← sv_start; services_run sv l.

Lemma sv_actions_ok : Forall action_ok sv_actions.
Proof.
  unfold sv_actions. repeat first [apply Forall_nil_2 | apply Forall_cons_2]; try exact I;
    intros r [->|[]%elem_of_nil]%elem_of_cons; by eexists _, _, _, _.
Qed.

(** The status task publishes after it has let the lock go: a change of a device
    can follow the removal of that device. *)
Lemma status_event_after_removal :
  published ∘ sv_channel <$> sv_run (sv_actions ++ [StatusPublish]) =
  Some [DeviceAddition [mkUpsName (lit "a")] (lit "ns"); DaemonStatusUpdate OnlineConn (lit "ns");
    DeviceAddition [mkUpsName (lit "b")] (lit "ns"); DeviceRemoval [mkUpsName (lit "a")] (lit "ns");
    DeviceUpdate [mkUpsName (lit "a")] (lit "ns");
    DeviceStatusChanges [mkStatusChange (mkUpsName (lit "a")) ONLINE ON_BATTERY] (lit "ns")].
Proof. vm_compute. reflexivity. Qed.

(** In the middle of that run: the status task still has to publish, and a
    subscriber knows the device [b] alone. *)
Lemma services_safe_witness :
  exists sv, sv_run sv_actions = Some sv /\ daemon_wf (sv_state sv) /\
    observed (lit "ns") (published (sv_channel sv)) = (dom (devices (sv_state sv)), conn_status (sv_state sv)).
Proof.
  unfold sv_run, sv_start.
  assert (H1 : exists start, services_start (lit "ns") sv_config true = Ok start) by (eexists; reflexivity).
  destruct H1 as [start Hstart].
  assert (H2 : match services_start (lit "ns") sv_config true with
    | Ok s => bool_decide (is_Some (services_run s sv_actions)) | _ => false end = true)
    by (vm_compute; reflexivity).
  rewrite Hstart in H2 |- *. apply bool_decide_eq_true in H2 as [sv Hrun]. exists sv. split; [exact Hrun|].
  destruct (services_safe (lit "ns") sv_config true start sv_actions sv Hstart sv_actions_ok Hrun)
    as (Hwf & _ & Hview & _).
  split; [exact Hwf|apply Hview; reflexivity].
Defined.
