(* ===== verification/Converge.v ===== *)
(** * The state converges to the daemon

    The two services of [Services] while a daemon does not change: whatever
    they have been through before, in whatever order their steps come and
    whatever polls lie between, one device pass and one full poll after it make
    the state mirror the daemon, from the texts that it sends; and nothing that
    follows undoes it. [DeviceDaemon] has the daemon and its texts. *)

From S2P Require Import Prelude RustStr Numbers Errors Escape Lexer Names VarName Value VarType UpsVariables.
From S2P Require Import ParserUtils Response Command Client.
From S2P Require Import Ip Status Auth Config State Events Sync NutClients DeviceDaemon Broadcast StatusWidth Services.

(** ** What the daemon says of a device *)

Definition true_status (d : DaemonDevice) : UpsStatus :=
  match UpsVariables_get (values_of (dd_vars d)) UPS_STATUS with
  | Some v => UpsStatus_from_value v
  | None => status_default
  end.

(** The entry of the state is what the daemon says. *)
Record mirrors (d : DaemonDevice) (e : DeviceEntry) : Prop := {
  mir_name : name e = dd_name d;
  mir_desc : desc e = dd_desc d;
  mir_commands : commands e = dd_commands d;
  mir_clients : forall ip, ip ∈ ci_addr <$> attached e <-> ip ∈ snd <$> dd_clients d;
  mir_status : status e = true_status d;
  mir_variables : variables e = values_of (dd_vars d) }.

(** As much of it as a device pass brings: the device is there, is described, and is asked for its status. *)
Definition listed (d : DaemonDevice) (e : DeviceEntry) : Prop := desc e = dd_desc d /\ has (status e) NOCOMM = false.

Section converge.

Context {C : Type} `{!AsyncNutClient C, HC : !NutClientLaws C}.
Context (world : list DaemonDevice) (pv uv : str).
Context (Hworld : forall d, d ∈ world -> device_wf d) (Hnames : NoDup (dd_name <$> world)) (Hne : world <> []).
(** The daemon reaches its devices and states it. *)
Context (Hlive : forall d, d ∈ world -> UpsVariables_get (values_of (dd_vars d)) UPS_STATUS <> None /\
  has (true_status d) NOCOMM = false).

(** An answer that came through, from a connection with the reply. *)
Definition heard {A} (op : C -> outcome ErrorKind A * C) (call : io A) (reply : str) (r : outcome ErrorKind A) : Prop :=
  asked op call reply r /\ is_ok r = true.

(** A step that takes what the daemon says, if it takes anything: every answer comes through, and the writes are of
    answers about this daemon. *)
Definition faithful (sv : Services) (a : ServiceAction) : Prop :=
  match a with
  | DeviceAnswered remote rpv ruv => remote = Ok (ups_device <$> world) /\ rpv = Ok pv /\ ruv = Ok uv
  | DeviceWrite now new_results recheck_results =>
      forall local remote rpv ruv, sv_device sv = DLoading local remote rpv ruv ->
      remote = Ok (ups_device <$> world) /\ rpv = Ok pv /\ ruv = Ok uv /\
      exists lookup_ip answers, (forall d, d ∈ world -> device_asked d (answers (ups_device d)) /\ complete (answers (ups_device d))) /\
        new_results ≡ₚ load lookup_ip now answers <$> (diff_remote local (ups_device <$> world)).2 /\
        recheck_results ≡ₚ load lookup_ip now answers <$> (diff_remote local (ups_device <$> world)).1.2
  | StatusWrite _ responses => forall v, Ok v ∈ responses -> exists d text, d ∈ world /\
      UpsVariables_get (values_of (dd_vars d)) UPS_STATUS = Some (infer_from text) /\ plain_text text /\
      heard (nc_get_var (dd_name d) UPS_STATUS) (get_var (dd_name d) UPS_STATUS)
        (line [lit "VAR"; ups_name (dd_name d); VarName_as_str UPS_STATUS] [text]) (Ok v)
  | StateWrite _ _ responses => forall d r, d ∈ world -> (dd_name d, r) ∈ responses -> exists vars clients cmds,
      heard (nc_list_var (dd_name d)) (list_var (dd_name d)) (variables_text (lit "VAR") (dd_name d) (dd_vars d)) vars /\
      heard (nc_list_client (dd_name d)) (list_client (dd_name d)) (client_list_text (dd_name d) (fst <$> dd_clients d)) clients /\
      heard (nc_list_cmd (dd_name d)) (list_cmd (dd_name d)) (cmd_list_text (dd_name d) (dd_commands d)) cmds /\
      r = (let? v := vars in let? c := clients in let? m := cmds in Ok (v, c, m))
  | _ => True
  end.

Fixpoint faithful_run (sv : Services) (actions : list ServiceAction) : Prop :=
  match actions with
  | [] => True
  | a :: actions => faithful sv a /\ forall sv', service_step sv a = Some sv' -> faithful_run sv' actions
  end.

(** ** Lemmas: the answers *)

Lemma heard_gives {A} (op : C -> outcome ErrorKind A * C) (call : io A) reply a r :
  op = nc_run call -> gives call reply a -> heard op call reply r -> r = Ok a.
Proof. intros Ho Hg [Ha [b ->]%is_ok_Ok]. by rewrite (asked_gives _ _ _ _ _ Ho Hg Ha b eq_refl). Qed.

Lemma get_var_gives d text : d ∈ world -> plain_text text ->
  gives (get_var (dd_name d) UPS_STATUS) (line [lit "VAR"; ups_name (dd_name d); VarName_as_str UPS_STATUS] [text])
    (mkUpsVar (infer_from text) UPS_STATUS (dd_name d)).
Proof using Hworld.
  intros Hd [Hv Hlf]. pose proof (dw_name d (Hworld d Hd)) as Hn. assert (Hs : VarName_wf UPS_STATUS) by by split.
  assert (Hws : forall w, w ∈ [lit "VAR"; ups_name (dd_name d); VarName_as_str UPS_STATUS] -> is_word w = true).
  { intros w. rewrite !elem_of_cons, elem_of_nil. intros [->|[->|[->|[]]]]; [done|done|by apply VarName_wf_word]. }
  apply line_gives; [by apply format_ups_arg_some| |done|done|].
  - apply line_is_line; [done|]. by intros q ->%list_elem_of_singleton.
  - rewrite <- (app_nil_r (line _ _)). apply parse_response_of; [|by apply UpsVar_parses]. rewrite app_nil_r. apply line_valid; [done|]. by intros q ->%list_elem_of_singleton.
Qed.

(** A polled status is the one that the daemon states. *)
Lemma status_heard v responses sv now : faithful sv (StatusWrite now responses) -> Ok v ∈ responses ->
  exists d, d ∈ world /\ uv_ups_name v = dd_name d /\ uv_name v = UPS_STATUS /\
    UpsVariables_get (values_of (dd_vars d)) UPS_STATUS = Some (uv_value v).
Proof using Hworld HC.
  intros Hf Hin. destruct (Hf v Hin) as (d & text & Hd & Ht & Hp & Hh).
  pose proof (heard_gives _ _ _ _ _ (nc_get_var_run _ _) (get_var_gives d text Hd Hp) Hh) as [= ->]. exists d. by split_and!.
Qed.

(** A full poll of a device gets its lists. *)
Lemma lists_heard d r responses sv now lk : faithful sv (StateWrite now lk responses) -> d ∈ world ->
  (dd_name d, r) ∈ responses ->
  r = Ok (mkUpsVarList (values_of (dd_vars d)) (dd_name d), mkClientList (dd_name d) (snd <$> dd_clients d),
          mkCmdList (dd_name d) (dd_commands d)).
Proof using Hworld HC.
  intros Hf Hd Hin. destruct (Hf d r Hd Hin) as (vars & clients & cmds & Hv & Hc & Hm & ->).
  pose proof (Hworld d Hd) as Hw.
  pose proof (heard_gives _ _ _ _ _ (nc_list_var_run _) (proj1 (list_var_gives _ _ (dw_name d Hw) (dw_vars d Hw))) Hv) as ->.
  pose proof (heard_gives _ _ _ _ _ (nc_list_client_run _) (list_client_gives d Hw) Hc) as ->.
  by pose proof (heard_gives _ _ _ _ _ (nc_list_cmd_run _) (list_cmd_gives d Hw) Hm) as ->.
Qed.

(** The world by name. *)
Lemma world_name d d' : d ∈ world -> d' ∈ world -> dd_name d = dd_name d' -> d = d'.
Proof using Hnames.
  intros [i Hi]%list_elem_of_lookup_1 [j Hj]%list_elem_of_lookup_1 E.
  assert (i = j) as ->; [|congruence]. eapply NoDup_lookup; [exact Hnames|..]; rewrite list_lookup_fmap.
  - by rewrite Hi.
  - by rewrite Hj, E.
Qed.

Lemma find_device_world d : d ∈ world -> find_device world (dd_name d) = Some d.
Proof using Hnames.
  intros Hd. unfold find_device. destruct (list_find (fun x => dd_name x = dd_name d) world) as [[i x]|] eqn:E.
  - apply list_find_Some in E as (Hi & Hn & _). cbn. f_equal. apply world_name; [by eapply list_elem_of_lookup_2|done..].
  - apply list_find_None in E. rewrite list.Forall_forall in E. by destruct (E d Hd).
Qed.

(** ** Lemmas: one entry *)

Lemma status_of_daemon d v : UpsVariables_get (values_of (dd_vars d)) UPS_STATUS = Some v -> UpsStatus_from_value v = true_status d.
Proof. unfold true_status. by intros ->. Qed.

(** What is known of the devices of the daemon among [D]. *)
Definition covers (D : DaemonDevice -> Prop) (P : DaemonDevice -> DeviceEntry -> Prop) (devs : gmap UpsName DeviceEntry) : Prop :=
  forall d, d ∈ world -> D d -> exists e, devs !! dd_name d = Some e /\ P d e.
Definition everywhere (d : DaemonDevice) : Prop := True.

Lemma covers_insert D P devs n e : covers D P devs -> (forall d, d ∈ world -> D d -> dd_name d = n -> P d e) ->
  covers D P (<[n := e]> devs).
Proof.
  intros Hc Hp d Hd HD. destruct (decide (n = dd_name d)) as [->|Hn].
  - exists e. rewrite lookup_insert_eq. split; [done|by apply Hp].
  - rewrite lookup_insert_ne by done. by apply Hc.
Qed.

(** A property of entries that the polls of this daemon keep, and one that its device passes keep and give. *)
Record kept_polls (P : DaemonDevice -> DeviceEntry -> Prop) : Prop := {
  kept_status : forall now d e v, d ∈ world -> P d e -> UpsVariables_get (values_of (dd_vars d)) UPS_STATUS = Some v ->
    P d (set_status now (UpsStatus_from_value v) (UpsVariables_insert (variables e) UPS_STATUS v).2 e);
  kept_full : forall now d e clients, d ∈ world -> P d e ->
    (forall ip, ip ∈ ci_addr <$> clients <-> ip ∈ snd <$> dd_clients d) ->
    P d (mkDeviceEntry clients (dd_commands d) (desc e) now (name e) (rw_variables e) (true_status d) (values_of (dd_vars d))) }.
Record kept (P : DaemonDevice -> DeviceEntry -> Prop) : Prop := {
  kept_polled : kept_polls P;
  kept_desc : forall d e, d ∈ world -> P d e -> P d (set_desc (dd_desc d) e);
  kept_new : forall lookup_ip now d, d ∈ world -> P d (daemon_entry lookup_ip now d (rw_details d)) }.

Lemma mirrors_kept : kept mirrors.
Proof.
  split; [split|..].
  - intros now d e v Hd [H1 H2 H3 H4 H5 H6] Hv. split; cbn; [done..|by apply status_of_daemon|].
    rewrite H6. by apply insert_id.
  - intros now d e clients Hd [H1 H2 H3 H4 H5 H6] Hc. by split.
  - intros d e Hd [H1 H2 H3 H4 H5 H6]. by split.
  - intros lookup_ip now d Hd. split; try done. cbn. intros ip. by rewrite <- list_fmap_compose, list_fmap_id.
Qed.

Lemma listed_kept : kept listed.
Proof using Hlive.
  split; [split|..].
  - intros now d e v Hd [H1 H2] Hv. split; [done|]. cbn. rewrite (status_of_daemon d v Hv). by apply Hlive.
  - intros now d e clients Hd [H1 H2] Hc. split; [done|]. by apply Hlive.
  - intros d e Hd [H1 H2]. by split.
  - intros lookup_ip now d Hd. split; [done|]. by apply (Hlive d Hd).
Qed.

(** ** Lemmas: the steps that write *)

Lemma status_fold D P now sv responses devs changes : kept_polls P -> faithful sv (StatusWrite now responses) -> covers D P devs ->
  covers D P (foldl (status_step now) (devs, changes) responses).1.
Proof using Hworld HC Hnames.
  intros HP Hf. revert devs changes. induction responses as [|r responses IH]; intros devs changes Hc; [done|]. cbn [foldl].
  assert (Hf' : faithful sv (StatusWrite now responses)) by (intros v Hv; apply Hf; by right).
  pose proof (fun v E => status_heard v _ _ _ Hf (eq_ind_r (fun x => x ∈ r :: responses) (list_elem_of_here r responses) E)) as Hr.
  unfold status_step at 2. destruct r as [v| | |]; try by apply IH.
  destruct (Hr v eq_refl) as (d & Hd & Hu & Hn & Hv). destruct (devs !! uv_ups_name v) as [e|] eqn:E; [|by apply IH].
  apply IH; [done|]. apply covers_insert; [done|]. intros d' Hd' HD Hname. rewrite Hu in Hname. apply world_name in Hname as ->; [|done..].
  destruct (Hc d Hd HD) as (e' & He' & Hp). rewrite Hu in E. assert (e' = e) as -> by congruence.
  rewrite Hn. by apply (kept_status P HP).
Qed.

(** What a full poll writes about a device. *)
Definition polled (lookup_ip : IpAddr -> option str) (now : Z) (d : DaemonDevice) (e : DeviceEntry) : DeviceEntry :=
  mkDeviceEntry (update_clients lookup_ip (attached e) (snd <$> dd_clients d)) (dd_commands d) (desc e) now (name e)
    (rw_variables e) (true_status d) (values_of (dd_vars d)).

Lemma state_step_told lookup_ip now devs events d e : d ∈ world -> devs !! dd_name d = Some e ->
  (state_step lookup_ip now (devs, events) (dd_name d,
    Ok (mkUpsVarList (values_of (dd_vars d)) (dd_name d), mkClientList (dd_name d) (snd <$> dd_clients d),
        mkCmdList (dd_name d) (dd_commands d)))).1 = <[dd_name d := polled lookup_ip now d e]> devs.
Proof using Hlive.
  intros Hd He. unfold state_step. rewrite He. cbn [vl_variables cl_ips cml_cmds]. destruct (Hlive d Hd) as [Hs _].
  destruct (UpsVariables_get (values_of (dd_vars d)) UPS_STATUS) as [v|] eqn:E; [|done].
  pose proof (status_of_daemon d v E) as Ht.
  case_decide as Hneq; cbv beta iota zeta; cbn [fst]; unfold polled; [by rewrite Ht|].
  assert (status e = true_status d) as -> by (rewrite <- Ht; destruct (decide (status e = UpsStatus_from_value v)); [done|by destruct Hneq]). done.
Qed.

Lemma polled_clients lookup_ip d e ip :
  ip ∈ ci_addr <$> update_clients lookup_ip (attached e) (snd <$> dd_clients d) <-> ip ∈ snd <$> dd_clients d.
Proof. apply client_update_spec. Qed.

Lemma state_step_other lookup_ip now devs events u r n : n <> u -> (state_step lookup_ip now (devs, events) (u, r)).1 !! n = devs !! n.
Proof.
  intros Hn. unfold state_step. destruct (devs !! u) as [e|]; [|done].
  destruct r as [[[vl cl] cm]| | |]; [|by cbn; rewrite lookup_insert_ne..].
  destruct (match UpsVariables_get (vl_variables vl) UPS_STATUS with Some _ => _ | None => _ end). cbn.
  by rewrite lookup_insert_ne.
Qed.

(** After a poll that has asked [u]: what every poll keeps, and the devices asked mirror the daemon. *)
Lemma state_fold D P now lk sv responses devs events : kept_polls P -> faithful sv (StateWrite now lk responses) ->
  covers D P devs -> covers D P (foldl (state_step lk now) (devs, events) responses).1.
Proof using Hworld HC Hnames Hlive.
  intros HP Hf. revert devs events. induction responses as [|[u r] responses IH]; intros devs events Hc; [done|]. cbn [foldl].
  assert (Hf' : faithful sv (StateWrite now lk responses)) by (intros d r' Hd Hr; apply (Hf d r' Hd); by right).
  assert (Hstep : covers D P (state_step lk now (devs, events) (u, r)).1).
  { intros d Hd HD. destruct (Hc d Hd HD) as (e & He & Hp). destruct (decide (dd_name d = u)) as [<-|Hn].
    - pose proof (lists_heard d r _ _ _ _ Hf Hd (list_elem_of_here _ _)) as ->. rewrite (state_step_told _ _ _ _ d e Hd He).
      exists (polled lk now d e). rewrite lookup_insert_eq. split; [done|]. apply (kept_full P HP); [done..|].
      intros ip. apply polled_clients.
    - exists e. by rewrite state_step_other. }
  destruct (state_step lk now (devs, events) (u, r)) as [devs' events']. by apply IH.
Qed.

(** The parts of an entry that a poll does not touch. *)
Definition described (d : DaemonDevice) (e : DeviceEntry) : Prop := name e = dd_name d /\ desc e = dd_desc d.

Lemma state_fold_mirrors now lk sv responses devs events : faithful sv (StateWrite now lk responses) -> covers everywhere described devs ->
  forall d, d ∈ world -> dd_name d ∈ responses.*1 ->
  exists e, (foldl (state_step lk now) (devs, events) responses).1 !! dd_name d = Some e /\ mirrors d e.
Proof using Hworld HC Hnames Hlive.
  intros Hf Hc. cut (forall done_names, (forall d, d ∈ world -> dd_name d ∈ done_names -> exists e, devs !! dd_name d = Some e /\ mirrors d e) ->
    forall d, d ∈ world -> dd_name d ∈ done_names ++ responses.*1 ->
    exists e, (foldl (state_step lk now) (devs, events) responses).1 !! dd_name d = Some e /\ mirrors d e).
  { intros H d Hd Hin. apply (H []); [by intros ? ? ?%elem_of_nil|done|done]. }
  revert devs events Hc. induction responses as [|[u r] responses IH]; intros devs events Hc done_names Hdone d Hd Hin.
  { rewrite app_nil_r in Hin. by apply Hdone. }
  cbn [foldl]. assert (Hf' : faithful sv (StateWrite now lk responses)) by (intros d' r' Hd' Hr; apply (Hf d' r' Hd'); by right).
  assert (Hstep : forall d, d ∈ world -> exists e, (state_step lk now (devs, events) (u, r)).1 !! dd_name d = Some e /\ described d e /\
    (dd_name d = u \/ dd_name d ∈ done_names -> mirrors d e)).
  { intros d' Hd'. destruct (Hc d' Hd' I) as (e & He & Hn & Hds). destruct (decide (dd_name d' = u)) as [<-|Hnu].
    - pose proof (lists_heard d' r _ _ _ _ Hf Hd' (list_elem_of_here _ _)) as ->. rewrite (state_step_told _ _ _ _ d' e Hd' He).
      exists (polled lk now d' e). rewrite lookup_insert_eq. split_and!; [done|done|]. intros _. split; try done.
      intros ip. apply polled_clients.
    - exists e. rewrite state_step_other by done. split_and!; [done|done|]. intros [?|Hd0]; [done|].
      destruct (Hdone d' Hd' Hd0) as (e' & He' & Hm). assert (e' = e) as -> by congruence. done. }
  destruct (state_step lk now (devs, events) (u, r)) as [devs' events'] eqn:Es. cbn [fst] in Hstep.
  assert (Hc' : covers everywhere described devs').
  { intros d' Hd' _. destruct (Hstep d' Hd') as (e & He & Hds & _). by exists e. }
  apply (IH Hf' devs' events' Hc' (done_names ++ [u])); [|done|].
  - intros d' Hd' Hin'. destruct (Hstep d' Hd') as (e & He & _ & Hm). exists e. split; [done|]. apply Hm.
    apply elem_of_app in Hin' as [?| ->%list_elem_of_singleton]; [by right|by left].
  - by rewrite <- app_assoc.
Qed.

(** ** Lemmas: the device pass *)

(** What the snapshot of a pass says of the state when the pass writes. *)
Definition tracks (local : gmap UpsName DeviceEntry) (d : DaemonDevice) (e : DeviceEntry) : Prop :=
  exists l, local !! dd_name d = Some l /\ desc e = desc l /\ (has (status l) NOCOMM = false -> has (status e) NOCOMM = false).
Definition known_to (local : gmap UpsName DeviceEntry) (d : DaemonDevice) : Prop := is_Some (local !! dd_name d).

Lemma tracks_kept local : kept_polls (tracks local).
Proof using Hlive.
  split.
  - intros now d e v Hd (l & Hl & H1 & H2) Hv. exists l. split_and!; [done..|]. intros _. cbn.
    rewrite (status_of_daemon d v Hv). by apply Hlive.
  - intros now d e clients Hd (l & Hl & H1 & H2) Hc. exists l. split_and!; [done..|]. intros _. by apply (Hlive d Hd).
Qed.

Lemma entry_after_kept P lookup_ip now local d e : kept P -> d ∈ world -> P d e ->
  exists e', entry_after lookup_ip now local (Some e) d = Some e' /\ P d e'.
Proof.
  intros HP Hd Hp. unfold entry_after. destruct (local !! dd_name d) as [l|]; [|eexists; split; [done|by apply (kept_new P HP)]].
  destruct (has (status l) NOCOMM); [eexists; split; [done|by apply (kept_new P HP)]|].
  case_bool_decide; cbn; eexists; (split; [done|]); [by apply (kept_desc P HP)|done].
Qed.

Lemma entry_after_listed lookup_ip now local old d : d ∈ world ->
  (known_to local d -> exists e, old = Some e /\ tracks local d e) ->
  exists e', entry_after lookup_ip now local old d = Some e' /\ listed d e'.
Proof using Hlive.
  intros Hd Hold. unfold entry_after, known_to in *. destruct (local !! dd_name d) as [l|] eqn:El;
    [|eexists; split; [done|]; by apply (kept_new _ listed_kept)].
  destruct (has (status l) NOCOMM) eqn:Eh; [eexists; split; [done|]; by apply (kept_new _ listed_kept)|].
  destruct (Hold ltac:(eauto)) as (e & -> & l' & Hl & Hds & Hs). assert (l' = l) as -> by congruence.
  specialize (Hs Eh). case_bool_decide as Hne'; cbn; eexists; (split; [done|]); [by split|].
  split; [|done]. by rewrite Hds.
Qed.

(** The state after a faithful write of a pass. *)
Lemma pass_written sv now nr rr local remote rpv ruv : services_wf sv -> faithful sv (DeviceWrite now nr rr) ->
  sv_device sv = DLoading local remote rpv ruv ->
  let s := (device_sync_next now (sv_namespace sv) (sv_state sv) (diff_upsd now local remote rpv ruv nr rr)).1.2 in
  conn_status s = OnlineConn /\ (exists lookup_ip, forall n, devices s !! n =
    find_device world n ≫= entry_after lookup_ip now local (devices (sv_state sv) !! n)).
Proof using Hworld Hnames Hne HC.
  intros Hwf Hf Hdev. destruct (Hf _ _ _ _ Hdev) as (-> & -> & -> & lookup_ip & answers & Ha & Hnew & Hre).
  destruct (complete_pass lookup_ip now world Hworld Hnames local answers (fun d Hd => proj1 (Ha d Hd)) (sv_namespace sv)
    (sv_state sv) pv uv nr rr Hnew Hre) as (_ & Hc & Hall); [|intros d Hd; by apply Ha|done|split; [done|by exists lookup_ip]].
  intros n. rewrite <- !elem_of_dom. by rewrite (wf_local _ Hwf _ _ _ _ Hdev).
Qed.

(** ** Lemmas: the phases of a window *)

(** The state has the devices of the daemon, and [P] of each. *)
Record agrees (P : DaemonDevice -> DeviceEntry -> Prop) (s : DaemonState) : Prop := {
  ag_online : conn_status s = OnlineConn;
  ag_names : forall n, is_Some (devices s !! n) <-> n ∈ dd_name <$> world;
  ag_devices : covers everywhere P (devices s) }.

(** The pass under way was computed against a state that is still known. *)
Definition watching (sv : Services) : Prop := forall local remote rpv ruv, sv_device sv = DLoading local remote rpv ruv ->
  covers (known_to local) (tracks local) (devices (sv_state sv)).
(** The poll under way has asked every device of the daemon. *)
Definition asking_all (sv : Services) : Prop := forall interval poll_type names,
  sv_status sv = SPolling interval poll_type names -> forall d, d ∈ world -> dd_name d ∈ names.

Lemma agrees_view P Q s s' : agrees P s -> state_view s' = state_view s -> covers everywhere Q (devices s') -> agrees Q s'.
Proof.
  intros [Ho Hn Hd] [= Hdom Hc] Hcov. split; [congruence| |done].
  intros n. rewrite <- Hn, <- !elem_of_dom. by rewrite Hdom.
Qed.

(** A step that writes nothing of the state. *)
Definition writes (a : ServiceAction) : bool :=
  match a with DeviceWrite _ _ _ | StatusWrite _ _ | StateWrite _ _ _ => true | _ => false end.
Lemma quiet_state sv a sv' : writes a = false -> service_step sv a = Some sv' -> sv_state sv' = sv_state sv.
Proof.
  intros Hw Hs. destruct a; try done; cbn [service_step] in Hs;
    repeat case_match; simplify_eq; done.
Qed.

(** The steps that write, by what they write. *)
Lemma device_write_step sv now nr rr sv' : service_step sv (DeviceWrite now nr rr) = Some sv' ->
  exists local remote rpv ruv, sv_device sv = DLoading local remote rpv ruv /\ sv_device sv' = DTicking /\
    sv_status sv' = sv_status sv /\
    sv_state sv' = (device_sync_next now (sv_namespace sv) (sv_state sv) (diff_upsd now local remote rpv ruv nr rr)).1.2.
Proof.
  cbn [service_step]. destruct (sv_device sv) as [| |local remote rpv ruv|]; [done..| |done].
  destruct (device_sync_next _ _ _ _) as [[r s] ev] eqn:E. intros [= <-]. exists local, remote, rpv, ruv. cbn. by rewrite E.
Qed.
Lemma status_write_step sv now rs sv' : service_step sv (StatusWrite now rs) = Some sv' ->
  sv_device sv' = sv_device sv /\ (exists interval events, sv_status sv' = SPublishing interval events) /\
  sv_state sv' = (status_write now (sv_namespace sv) (sv_state sv) rs).1.
Proof.
  cbn [service_step]. destruct (sv_status sv) as [| |interval [] names| |]; [done..| |done|done]. case_decide; [|done].
  destruct (status_write _ _ _ _) as [s ev] eqn:E. intros [= <-]. cbn. by split_and!; [|eexists _, _|].
Qed.
Lemma state_write_step sv now lk rs sv' : service_step sv (StateWrite now lk rs) = Some sv' ->
  exists interval, sv_status sv = SPolling interval Full rs.*1 /\ sv_device sv' = sv_device sv /\
  (exists interval events, sv_status sv' = SPublishing interval events) /\
  sv_state sv' = (state_write lk now (sv_namespace sv) (sv_state sv) rs).1.
Proof.
  cbn [service_step]. destruct (sv_status sv) as [| |interval [] names| |]; [done..| |done|done|done]. case_decide as Hn; [|done].
  destruct (state_write _ _ _ _ _) as [s ev] eqn:E. intros [= <-]. exists interval. cbn. subst names. by split_and!; [|..|eexists _, _|].
Qed.

(** What a poll writes, as a fold over the answers. *)
Lemma poll_covers D P sv a sv' : kept_polls P -> faithful sv a -> service_step sv a = Some sv' ->
  match a with StatusWrite _ _ | StateWrite _ _ _ => True | _ => False end ->
  covers D P (devices (sv_state sv)) -> covers D P (devices (sv_state sv')).
Proof using Hworld HC Hnames Hlive.
  intros HP Hf Hs Ha Hc. destruct a as [| | | | | |now rs|now lk rs| | | |]; try done.
  - apply status_write_step in Hs as (_ & _ & ->). pose proof (status_fold D P now sv rs _ [] HP Hf Hc) as H.
    unfold status_write. by destruct (foldl _ _ _).
  - apply state_write_step in Hs as (_ & _ & _ & _ & ->).
    pose proof (state_fold D P now lk sv rs _ (EventBatch_new (sv_namespace sv)) HP Hf Hc) as H.
    unfold state_write. by destruct (foldl _ _ _).
Qed.

Lemma written_agrees P sv now nr rr sv' : services_wf sv -> faithful sv (DeviceWrite now nr rr) ->
  service_step sv (DeviceWrite now nr rr) = Some sv' ->
  (forall local remote rpv ruv lookup_ip d, sv_device sv = DLoading local remote rpv ruv -> d ∈ world ->
     exists e, entry_after lookup_ip now local (devices (sv_state sv) !! dd_name d) d = Some e /\ P d e) ->
  agrees P (sv_state sv').
Proof using Hworld HC Hnames Hne.
  intros Hwf Hf Hs HP. apply device_write_step in Hs as (local & remote & rpv & ruv & Hdev & _ & _ & ->).
  destruct (pass_written sv now nr rr _ _ _ _ Hwf Hf Hdev) as (Ho & lookup_ip & Hall).
  assert (Hd : forall d, d ∈ world -> exists e, devices (device_sync_next now (sv_namespace sv) (sv_state sv)
    (diff_upsd now local remote rpv ruv nr rr)).1.2 !! dd_name d = Some e /\ P d e).
  { intros d Hd. rewrite Hall, find_device_world by done. by apply (HP _ _ _ _ lookup_ip d Hdev). }
  split; [done| |by intros d Hin _; apply Hd].
  intros n. split.
  - rewrite Hall. unfold find_device. destruct (list_find _ world) as [[i d]|] eqn:E; [|by intros []]. intros _.
    apply list_find_Some in E as (Hi & <- & _). apply list_elem_of_fmap. exists d. split; [done|]. by eapply list_elem_of_lookup_2.
  - intros (d & -> & Hin)%list_elem_of_fmap. destruct (Hd d Hin) as (e & -> & _). by eexists.
Qed.

(** Before the state agrees: the pass under way stays one that can be written. *)
Lemma watching_step sv a sv' : faithful sv a -> service_step sv a = Some sv' ->
  (exists remote rpv ruv, a = DeviceAnswered remote rpv ruv) \/ watching sv -> watching sv'.
Proof using Hworld HC Hnames Hne Hlive.
  intros Hf Hs Hw.
  assert (Hanswered : forall remote rpv ruv, a = DeviceAnswered remote rpv ruv -> watching sv').
  { intros remote rpv ruv ->. cbn [service_step] in Hs. destruct (sv_device sv); [done| |done..]. injection Hs as <-.
    intros local r1 r2 r3 [= <- _ _ _] d Hd [e He]. cbn. exists e. split; [done|]. by exists e. }
  destruct Hw as [(remote & rpv & ruv & Ha)|Hw]; [by eapply Hanswered|].
  destruct (writes a) eqn:Ew.
  - destruct a; try done.
    + apply device_write_step in Hs as (? & ? & ? & ? & _ & Hd & _). intros local r1 r2 r3. by rewrite Hd.
    + pose proof Hs as Hs'. apply status_write_step in Hs' as (Hd & _). intros local r1 r2 r3 E. rewrite Hd in E.
      by eapply (poll_covers _ _ sv); [apply tracks_kept|..|by eapply Hw].
    + pose proof Hs as Hs'. apply state_write_step in Hs' as (_ & _ & Hd & _). intros local r1 r2 r3 E. rewrite Hd in E.
      by eapply (poll_covers _ _ sv); [apply tracks_kept|..|by eapply Hw].
  - pose proof (quiet_state _ _ _ Ew Hs) as Heq. destruct a; try done; try (by eapply Hanswered);
      cbn [service_step] in Hs; repeat case_match; simplify_eq; intros local' r1 r2 r3 E; cbn in *; try done; by eapply Hw.
Qed.

(** A device pass makes the state agree on what it brings, and every step keeps it. *)
Lemma listed_written sv now nr rr sv' : services_wf sv -> faithful sv (DeviceWrite now nr rr) -> watching sv ->
  service_step sv (DeviceWrite now nr rr) = Some sv' -> agrees listed (sv_state sv').
Proof using Hworld HC Hnames Hne Hlive.
  intros Hwf Hf Hw Hs. apply (written_agrees listed sv now nr rr sv' Hwf Hf Hs).
  intros local remote rpv ruv lk d Hdev Hd. apply entry_after_listed; [done|]. intros Hk.
  destruct (Hw _ _ _ _ Hdev d Hd Hk) as (e & He & Ht). by exists e.
Qed.

Lemma agrees_step P sv a sv' : kept P -> action_ok a -> faithful sv a -> services_wf sv ->
  service_step sv a = Some sv' -> agrees P (sv_state sv) -> agrees P (sv_state sv').
Proof using Hworld HC Hnames Hne Hlive.
  intros HP Ha Hf Hwf Hs Hag. destruct (writes a) eqn:Ew; [|by rewrite (quiet_state _ _ _ Ew Hs)].
  assert (Hpoll : match a with StatusWrite _ _ | StateWrite _ _ _ => True | _ => False end -> agrees P (sv_state sv')).
  { intros Hm. apply (agrees_view P P (sv_state sv)); [done| |].
    - destruct (service_step_ok _ _ _ Ha Hwf Hs) as (_ & _ & _ & _ & [?|(? & ? & ? & ->)]); done.
    - by eapply poll_covers; [apply (kept_polled P HP)|..|apply Hag]. }
  destruct a as [| |now nr rr| | | | | | | | |]; try done; [|by apply Hpoll..].
  apply (written_agrees P sv now nr rr sv' Hwf Hf Hs). intros local remote rpv ruv lk d Hdev Hd.
  destruct (ag_devices P _ Hag d Hd I) as (e & -> & Hp). by apply entry_after_kept.
Qed.

(** The next poll then asks for every device, *)
Lemma listed_snapshot s d : agrees listed s -> d ∈ world -> dd_name d ∈ snapshot_active_device_names s.
Proof.
  intros Hag Hd. destruct (ag_devices _ _ Hag d Hd I) as (e & He & _ & Hno). unfold snapshot_active_device_names.
  apply list_elem_of_fmap. exists (dd_name d, e). split; [done|]. apply list_elem_of_filter. split; [done|].
  by apply elem_of_map_to_list.
Qed.
Lemma asking_step sv a sv' : agrees listed (sv_state sv) -> service_step sv a = Some sv' ->
  a = StatusSnapshot \/ asking_all sv -> asking_all sv'.
Proof.
  intros Hag Hs Hor. pose proof (fun d => listed_snapshot _ d Hag) as Hsnap.
  intros interval poll_type names E d Hd.
  destruct a; cbn [service_step] in Hs; repeat case_match; simplify_eq; cbn in *; simplify_eq;
    (destruct Hor as [?|Hor]; [done|]) || idtac; try (by eapply Hor); by apply Hsnap.
Qed.

(** and a full one makes the state mirror the daemon. *)
Lemma mirrors_written sv now lk rs sv' : action_ok (StateWrite now lk rs) -> faithful sv (StateWrite now lk rs) -> services_wf sv ->
  agrees listed (sv_state sv) -> asking_all sv -> service_step sv (StateWrite now lk rs) = Some sv' -> agrees mirrors (sv_state sv').
Proof using Hworld HC Hnames Hlive.
  intros Ha Hf Hwf Hag Hask Hs. destruct (service_step_ok _ _ _ Ha Hwf Hs) as (_ & _ & _ & _ & [Hview|(? & ? & ? & ?)]); [|done].
  apply state_write_step in Hs as (interval & Hst & _ & _ & Heq). rewrite Heq in Hview |- *.
  apply (agrees_view listed mirrors (sv_state sv)); [done..|].
  assert (Hc : covers everywhere described (devices (sv_state sv))).
  { intros d Hd _. destruct (ag_devices _ _ Hag d Hd I) as (e & He & Hde & _). exists e. split; [done|]. split; [|done].
    by apply (proj1 (wf_state _ Hwf)). }
  intros d Hd _. pose proof (state_fold_mirrors now lk sv rs _ (EventBatch_new (sv_namespace sv)) Hf Hc d Hd (Hask _ _ _ Hst d Hd)) as H.
  unfold state_write. by destruct (foldl _ _ _).
Qed.

(** ** Lemmas: runs *)

Lemma services_run_cons sv a l sv1 : service_step sv a = Some sv1 -> services_run sv (a :: l) = services_run sv1 l.
Proof. intros H. cbn [services_run]. by rewrite H. Qed.
Lemma faithful_run_app sv l1 l2 sv1 : services_run sv l1 = Some sv1 -> faithful_run sv (l1 ++ l2) -> faithful_run sv l1 /\ faithful_run sv1 l2.
Proof.
  revert sv. induction l1 as [|a l1 IH]; intros sv; cbn; [by intros [= ->]|].
  destruct (service_step sv a) as [sv0|] eqn:E; [|done]. intros Hr [Hf Hn]. destruct (IH sv0 Hr (Hn _ eq_refl)) as [H1 H2].
  split; [|done]. split; [done|]. by intros ? [= <-].
Qed.

(** What every faithful step keeps, a faithful run keeps. *)
Lemma run_keeps (I : Services -> Prop) sv actions sv' :
  (forall sv a sv', action_ok a -> faithful sv a -> services_wf sv -> service_step sv a = Some sv' -> I sv -> I sv') ->
  Forall action_ok actions -> faithful_run sv actions -> services_run sv actions = Some sv' -> services_wf sv -> I sv ->
  services_wf sv' /\ I sv'.
Proof.
  intros HI Ha. revert sv. induction Ha as [|a actions Ha _ IH]; intros sv Hf Hr Hwf Hi; cbn in Hr; [by injection Hr as <-|].
  destruct (service_step sv a) as [sv1|] eqn:E; [|done]. destruct Hf as [Hf Hn].
  apply (IH sv1); [by apply Hn|done|by eapply service_step_ok|by eapply HI].
Qed.

(** A run split at one of its steps. *)
Lemma run_split sv l a k sv' : Forall action_ok (l ++ a :: k) -> faithful_run sv (l ++ a :: k) -> services_run sv (l ++ a :: k) = Some sv' ->
  exists sv1 sv2, services_run sv l = Some sv1 /\ Forall action_ok l /\ faithful_run sv l /\
    action_ok a /\ faithful sv1 a /\ service_step sv1 a = Some sv2 /\
    Forall action_ok k /\ faithful_run sv2 k /\ services_run sv2 k = Some sv'.
Proof.
  intros [Hl [Ha Hk]%list.Forall_cons]%list.Forall_app Hf Hr. rewrite services_run_app in Hr.
  destruct (services_run sv l) as [sv1|] eqn:E1; [|done]. cbn in Hr. destruct (service_step sv1 a) as [sv2|] eqn:E2; [|done].
  destruct (faithful_run_app sv l (a :: k) sv1 E1 Hf) as [Hf1 [Hf2 Hf3]]. exists sv1, sv2. split_and!; try done. by apply Hf3.
Qed.

(** A window: the answers to a device pass arrive, the pass writes, a poll begins and writes. *)
Definition window (remote : outcome ErrorKind (list UpsDevice)) (rpv ruv : outcome ErrorKind str) (now : Z)
  (new_results recheck_results : list load_result) (now' : Z) (lookup_ip : IpAddr -> option str) (responses : list state_response)
  (a2 a3 a4 a5 : list ServiceAction) : list ServiceAction :=
  DeviceAnswered remote rpv ruv :: a2 ++ DeviceWrite now new_results recheck_results :: a3 ++
  StatusSnapshot :: a4 ++ StateWrite now' lookup_ip responses :: a5.

Definition is_window (w : list ServiceAction) : Prop :=
  exists remote rpv ruv now nr rr now' lk rs a2 a3 a4 a5, w = window remote rpv ruv now nr rr now' lk rs a2 a3 a4 a5.

Lemma window_mirrors sv w sv' : services_wf sv -> is_window w ->
  Forall action_ok w -> faithful_run sv w -> services_run sv w = Some sv' -> services_wf sv' /\ agrees mirrors (sv_state sv').
Proof using Hworld HC Hnames Hne Hlive.
  intros Hwf (remote & rpv & ruv & now & nr & rr & now' & lk & rs & a2 & a3 & a4 & a5 & ->) Ha Hf Hr.
  destruct (run_split sv [] _ _ sv' Ha Hf Hr) as (? & sv1 & [= <-] & _ & _ & Ha1 & Hf1 & Hs1 & Ha2 & Hf2 & Hr2).
  destruct (service_step_ok _ _ _ Ha1 Hwf Hs1) as [Hwf1 _].
  assert (Hw1 : watching sv1) by (eapply watching_step; [exact Hf1|exact Hs1|left; by eexists _, _, _]).
  destruct (run_split _ _ _ _ _ Ha2 Hf2 Hr2) as (sv2 & sv3 & Hra & Haa & Hfa & Ha3 & Hf3 & Hs3 & Ha4 & Hf4 & Hr4).
  destruct (run_keeps watching _ _ _ (fun s a s' _ hf _ hs hi => watching_step s a s' hf hs (or_intror hi)) Haa Hfa Hra Hwf1 Hw1) as [Hwf2 Hw2].
  destruct (service_step_ok _ _ _ Ha3 Hwf2 Hs3) as [Hwf3 _].
  pose proof (listed_written _ _ _ _ _ Hwf2 Hf3 Hw2 Hs3) as Hag3.
  pose proof (fun s a s' ha hf hw hs hi => agrees_step listed s a s' listed_kept ha hf hw hs hi) as Hlisted.
  destruct (run_split _ _ _ _ _ Ha4 Hf4 Hr4) as (sv4 & sv5 & Hrb & Hab & Hfb & Ha5 & Hf5 & Hs5 & Ha6 & Hf6 & Hr6).
  destruct (run_keeps (fun s => agrees listed (sv_state s)) _ _ _ Hlisted Hab Hfb Hrb Hwf3 Hag3) as [Hwf4 Hag4].
  destruct (service_step_ok _ _ _ Ha5 Hwf4 Hs5) as [Hwf5 _].
  pose proof (Hlisted _ _ _ Ha5 Hf5 Hwf4 Hs5 Hag4) as Hag5.
  pose proof (asking_step _ _ _ Hag4 Hs5 (or_introl eq_refl)) as Hask5.
  destruct (run_split _ _ _ _ _ Ha6 Hf6 Hr6) as (sv6 & sv7 & Hrc & Hac & Hfc & Ha7 & Hf7 & Hs7 & Ha8 & Hf8 & Hr8).
  destruct (run_keeps (fun s => agrees listed (sv_state s) /\ asking_all s) _ _ _
    (fun s a s' ha hf hw hs hi => conj (Hlisted s a s' ha hf hw hs (proj1 hi)) (asking_step s a s' (proj1 hi) hs (or_intror (proj2 hi))))
    Hac Hfc Hrc Hwf5 (conj Hag5 Hask5)) as [Hwf6 [Hag6 Hask6]].
  destruct (service_step_ok _ _ _ Ha7 Hwf6 Hs7) as [Hwf7 _].
  pose proof (mirrors_written _ _ _ _ _ Ha7 Hf7 Hwf6 Hag6 Hask6 Hs7) as Hag7.
  by eapply (run_keeps (fun s => agrees mirrors (sv_state s))) with (5 := Hwf7);
    [intros s a s' ha hf hw hs hi; eapply agrees_step; [apply mirrors_kept|..]|..].
Qed.

(** ** Lemmas: a window is always at hand *)

(** Each task comes back to its interval, whatever it waits for. *)
Lemma device_rests sv : sv_device sv <> DEnded -> exists l sv', length l <= 2 /\ Forall action_ok l /\
  services_run sv l = Some sv' /\ sv_device sv' = DTicking /\ sv_status sv' = sv_status sv.
Proof.
  intros Hd.
  assert (Hload : forall sv local remote rpv ruv, sv_device sv = DLoading local remote rpv ruv ->
    exists sv', service_step sv (DeviceWrite 0 [] []) = Some sv' /\ sv_device sv' = DTicking /\ sv_status sv' = sv_status sv).
  { intros sv0 local remote rpv ruv E. cbn [service_step]. rewrite E. destruct (device_sync_next _ _ _ _) as [[r s] ev]. by eexists. }
  assert (Hok : action_ok (DeviceWrite 0 [] [])) by (intros r ?%elem_of_nil; done).
  destruct (sv_device sv) as [| |local remote rpv ruv|] eqn:E; [| | |done].
  - exists [], sv. by split_and!; [cbn; lia|..].
  - set (a := DeviceAnswered (Err EmptyResponse) (Err EmptyResponse) (Err EmptyResponse)).
    destruct (Hload (set_device_task (DLoading (devices (sv_state sv)) (Err EmptyResponse) (Err EmptyResponse) (Err EmptyResponse)) sv)
      _ _ _ _ eq_refl) as (sv' & Hs & Ht & Hst).
    exists [a; DeviceWrite 0 [] []], sv'. split_and!; [done|by repeat apply Forall_cons_2; [..|apply Forall_nil_2]| |done..].
    erewrite services_run_cons by (cbn [service_step a]; by rewrite E). by erewrite services_run_cons by exact Hs.
  - destruct (Hload _ _ _ _ _ E) as (sv' & Hs & Ht & Hst). exists [DeviceWrite 0 [] []], sv'.
    split_and!; [cbn; lia|by apply list.Forall_singleton|by erewrite services_run_cons by exact Hs|done..].
Qed.

Lemma status_rests sv : sv_status sv <> SEnded -> exists l sv' interval, length l <= 3 /\ Forall action_ok l /\
  services_run sv l = Some sv' /\ sv_status sv' = STicking interval /\ sv_device sv' = sv_device sv.
Proof.
  intros Hd.
  assert (Hpub : forall sv interval events, sv_status sv = SPublishing interval events -> exists sv',
    service_step sv StatusPublish = Some sv' /\ sv_status sv' = STicking interval /\ sv_device sv' = sv_device sv).
  { intros sv0 interval events E. cbn [service_step]. rewrite E. by eexists. }
  assert (Hpoll : forall sv interval t names, sv_status sv = SPolling interval t names -> exists a sv',
    action_ok a /\ services_run sv [a; StatusPublish] = Some sv' /\ sv_status sv' = STicking interval /\ sv_device sv' = sv_device sv).
  { intros sv0 interval t names E. destruct t.
    - exists (StateWrite 0 (fun _ => None) ((fun n => (n, Err EmptyResponse)) <$> names)). cbn [services_run service_step]. rewrite E.
      rewrite decide_True by (rewrite <- list_fmap_compose; apply list_fmap_id).
      destruct (state_write _ _ _ _ _) as [s ev]. destruct (Hpub (set_status_task (SPublishing interval ev) (set_daemon_state s sv0)) _ _ eq_refl) as (sv' & Hs & H1 & H2).
      cbn [service_step] in Hs. exists sv'. by rewrite Hs.
    - exists (StatusWrite 0 ((fun _ => Err EmptyResponse) <$> names)). cbn [services_run service_step]. rewrite E.
      rewrite decide_True by apply length_fmap.
      destruct (status_write _ _ _ _) as [s ev]. destruct (Hpub (set_status_task (SPublishing interval ev) (set_daemon_state s sv0)) _ _ eq_refl) as (sv' & Hs & H1 & H2).
      cbn [service_step] in Hs. exists sv'. rewrite Hs. split_and!; [|done..]. by intros v (x & ? & _)%list_elem_of_fmap. }
  destruct (sv_status sv) as [interval|interval t|interval t names|interval events|] eqn:E; [..|done].
  - exists [], sv, interval. by split_and!; [cbn; lia|..].
  - destruct (snapshot_active_device_names (sv_state sv)) as [|n names] eqn:En.
    + exists [StatusSnapshot], (set_status_task (STicking interval) sv), interval.
      split_and!; [cbn; lia|by apply list.Forall_singleton|cbn [services_run service_step]; by rewrite E, En|done..].
    + destruct (Hpoll (set_status_task (SPolling interval t (n :: names)) sv) _ _ _ eq_refl) as (a & sv' & Ha & Hr & H1 & H2).
      exists [StatusSnapshot; a; StatusPublish], sv', interval. split_and!; [done|by repeat apply Forall_cons_2; [..|apply Forall_nil_2]| |done..].
      change [StatusSnapshot; a; StatusPublish] with ([StatusSnapshot] ++ [a; StatusPublish]). rewrite services_run_app.
      cbn [services_run service_step]. rewrite E, En. exact Hr.
  - destruct (Hpoll sv _ _ _ E) as (a & sv' & Ha & Hr & H1 & H2). exists [a; StatusPublish], sv', interval.
    split_and!; [cbn; lia|by repeat apply Forall_cons_2; [..|apply Forall_nil_2]|done..].
  - destruct (Hpub sv _ _ E) as (sv' & Hs & H1 & H2). exists [StatusPublish], sv', interval.
    split_and!; [cbn; lia|by apply list.Forall_singleton|cbn [services_run]; by rewrite Hs|done..].
Qed.

(** What a device answers to a full poll, from what it answers to a load. *)
Definition full_answer (answers : UpsDevice -> device_answers) (n : UpsName) : state_response :=
  (n, match find_device world n with
      | Some d => let a := answers (ups_device d) in
          let? v := an_vars a in let? c := an_clients a in let? m := an_commands a in Ok (v, c, m)
      | None => Err EmptyResponse
      end).

Lemma full_answers_faithful sv now lk answers names :
  (forall d, d ∈ world -> device_asked d (answers (ups_device d)) /\ complete (answers (ups_device d))) ->
  faithful sv (StateWrite now lk (full_answer answers <$> names)).
Proof using Hnames.
  intros Ha d r Hd (n & [= <- ->] & _)%list_elem_of_fmap. rewrite find_device_world by done.
  destruct (Ha d Hd) as [(Hc & Hm & _ & Hv & _) (Kc & Km & _ & Kv & _)].
  exists (an_vars (answers (ups_device d))), (an_clients (answers (ups_device d))), (an_commands (answers (ups_device d))).
  by split_and!.
Qed.

(** The next instant at which the interval asks for a full poll. *)
Lemma full_tick interval : exists instant interval', poll_tick interval instant = (Full, interval').
Proof.
  destruct interval as [[last|] period]; [|exists 0%Z; by eexists].
  exists (last + period)%Z. unfold poll_tick. cbn. eexists. by rewrite (proj2 (Z.leb_le _ _)) by lia.
Qed.

Lemma window_ready sv (lookup_ip : IpAddr -> option str) (now : Z) (answers : UpsDevice -> device_answers) interval : services_wf sv ->
  sv_device sv = DAsking -> sv_status sv = STicking interval ->
  (forall d, d ∈ world -> device_asked d (answers (ups_device d)) /\ complete (answers (ups_device d))) ->
  exists w sv', is_window w /\ length w = 5 /\ Forall action_ok w /\ faithful_run sv w /\ services_run sv w = Some sv'.
Proof using Hworld HC Hnames Hne Hlive.
  intros Hwf Hdev Hst Ha. destruct (full_tick interval) as (instant & interval' & Htick).
  set (local := devices (sv_state sv)). set (remote := Ok (ups_device <$> world) : outcome ErrorKind _).
  set (nr := load lookup_ip now answers <$> (diff_remote local (ups_device <$> world)).2).
  set (rr := load lookup_ip now answers <$> (diff_remote local (ups_device <$> world)).1.2).
  set (a1 := DeviceAnswered remote (Ok pv) (Ok uv)). set (a2 := DeviceWrite now nr rr).
  set (sv1 := set_device_task (DLoading local remote (Ok pv) (Ok uv)) sv).
  assert (Hs1 : service_step sv a1 = Some sv1) by (cbn [service_step a1]; by rewrite Hdev).
  assert (Hf1 : faithful sv a1) by done.
  assert (Hf2 : faithful sv1 a2).
  { intros ? ? ? ? [= <- <- <- <-]. split_and!; [done..|]. exists lookup_ip, answers. by split_and!. }
  assert (Ha2 : action_ok a2).
  { intros r [(d & -> & _)%list_elem_of_fmap|(d & -> & _)%list_elem_of_fmap]%elem_of_app; by eexists _, _, _, _. }
  assert (Hs2 : exists sv2, service_step sv1 a2 = Some sv2).
  { cbn [service_step a2]. unfold sv1 at 1. cbn. destruct (device_sync_next _ _ _ _) as [[r s] ev]. by eexists. }
  destruct Hs2 as [sv2 Hs2]. destruct (service_step_ok _ a1 _ I Hwf Hs1) as [Hwf1 _].
  assert (Hag : agrees listed (sv_state sv2)).
  { apply (listed_written sv1 now nr rr); [done..| |done]. eapply watching_step; [exact Hf1|exact Hs1|left; by eexists _, _, _]. }
  destruct (device_write_step _ _ _ _ _ Hs2) as (? & ? & ? & ? & _ & _ & Hst2 & _). cbn in Hst2. rewrite Hst in Hst2.
  set (sv3 := set_status_task (SSnapshot interval' Full) sv2).
  assert (Hs3 : service_step sv2 (StatusTick instant) = Some sv3) by (cbn [service_step]; by rewrite Hst2, Htick).
  destruct (snapshot_active_device_names (sv_state sv2)) as [|n names] eqn:En.
  { exfalso. assert (Hd : exists d, d ∈ world) by (clear -Hne; destruct world as [|d ds]; [done|exists d; by left]).
    destruct Hd as [d Hd]. pose proof (listed_snapshot _ d Hag Hd) as Hin.
    rewrite En in Hin. by apply elem_of_nil in Hin. }
  set (rs := full_answer answers <$> n :: names).
  set (sv4 := set_status_task (SPolling interval' Full (n :: names)) sv3).
  assert (Hs4 : service_step sv3 StatusSnapshot = Some sv4) by (cbn [service_step sv3]; cbn; by rewrite En).
  assert (Hf5 : faithful sv4 (StateWrite now lookup_ip rs)) by by apply full_answers_faithful.
  assert (Hs5 : exists sv5, service_step sv4 (StateWrite now lookup_ip rs) = Some sv5).
  { cbn [service_step]. unfold sv4 at 1. cbn [sv_status set_status_task].
    rewrite decide_True by (unfold rs; rewrite <- list_fmap_compose; apply list_fmap_id).
    destruct (state_write _ _ _ _ _) as [s ev]. by eexists. }
  destruct Hs5 as [sv5 Hs5]. exists (window remote (Ok pv) (Ok uv) now nr rr now lookup_ip rs [] [StatusTick instant] [] []), sv5.
  split_and!; [by repeat eexists|done|by repeat apply Forall_cons_2; [..|apply Forall_nil_2]| |].
  - cbn [window faithful_run app]. split; [done|]. intros ? [= <-]%(eq_trans (eq_sym Hs1)). split; [done|].
    intros ? [= <-]%(eq_trans (eq_sym Hs2)). split; [done|]. intros ? [= <-]%(eq_trans (eq_sym Hs3)). split; [done|].
    intros ? [= <-]%(eq_trans (eq_sym Hs4)). by split.
  - unfold window. cbn [app]. erewrite services_run_cons by exact Hs1. erewrite services_run_cons by exact Hs2.
    erewrite services_run_cons by exact Hs3. erewrite services_run_cons by exact Hs4. by erewrite services_run_cons by exact Hs5.
Qed.

(** C10: The state converges to the daemon. Take a daemon whose devices do not change and whose answers come
    through, and its two synchronisation services in any state they can be in, with whatever they were told
    before. Of a window of steps in which a device pass gets its answers and writes, and after it a poll
    begins that turns out to be a full one and writes, with anything else at any place between and after:
    at its end the daemon is online, the state holds exactly its devices, each with the name, the description,
    the commands, the clients, the status and the variables that the texts of the daemon say, and a
    subscriber knows them. And such a window is never more than six steps away and takes no more than five
    steps, as long as neither task has ended. *)
Theorem state_converges ns c sub start earlier sv :
  services_start ns c sub = Ok start -> Forall action_ok earlier -> services_run start earlier = Some sv ->
  (forall w sv', is_window w -> Forall action_ok w -> faithful_run sv w -> services_run sv w = Some sv' ->
     conn_status (sv_state sv') = OnlineConn /\ dom (devices (sv_state sv')) = list_to_set (dd_name <$> world) /\
     (forall d, d ∈ world -> exists e, devices (sv_state sv') !! dd_name d = Some e /\ mirrors d e) /\
     (sub = true -> observed ns (published (sv_channel sv')) = (list_to_set (dd_name <$> world), OnlineConn))) /\
  (forall answers : UpsDevice -> device_answers,
     (forall d, d ∈ world -> device_asked d (answers (ups_device d)) /\ complete (answers (ups_device d))) ->
     sv_device sv <> DEnded -> sv_status sv <> SEnded ->
     exists l sv1 w sv2, length l <= 6 /\ Forall action_ok l /\ services_run sv l = Some sv1 /\
       is_window w /\ length w = 5 /\ Forall action_ok w /\ faithful_run sv1 w /\ services_run sv1 w = Some sv2).
Proof using Hworld HC Hnames Hne Hlive.
  intros Hstart Hok Hrun. destruct (services_start_wf _ _ _ _ Hstart) as (Hwf0 & Hns0 & Hsub0).
  destruct (services_run_ok _ _ _ Hok Hwf0 Hrun) as (Hwf & Hns & Hsub & _). split.
  - intros w sv' Hw Ha Hf Hr. destruct (window_mirrors sv w sv' Hwf Hw Ha Hf Hr) as [Hwf' [Ho Hn Hd]].
    destruct (services_run_ok _ _ _ Ha Hwf Hr) as (_ & Hns' & Hsub' & _).
    assert (Hdom : dom (devices (sv_state sv')) = list_to_set (dd_name <$> world)).
    { apply set_eq. intros n. by rewrite elem_of_dom, Hn, elem_of_list_to_set. }
    split_and!; [done..|by intros d Hin; apply Hd|]. intros ->.
    assert (Hv : subscribed (sv_channel sv') = true) by congruence. pose proof (wf_view _ Hwf' Hv) as Hview.
    rewrite Hns', Hns, Hns0 in Hview. rewrite Hview. unfold state_view. by rewrite Hdom, Ho.
  - intros answers Ha Hd Hs. destruct (status_rests sv Hs) as (l1 & sv1 & interval & Hl1 & Ha1 & Hr1 & Hst1 & Hd1).
    destruct (device_rests sv1) as (l2 & sv2 & Hl2 & Ha2 & Hr2 & Hd2 & Hst2); [by rewrite Hd1|]. rewrite Hst1 in Hst2.
    set (sv3 := set_device_task DAsking sv2).
    assert (Hl : Forall action_ok (l1 ++ l2 ++ [DeviceTick])) by (by repeat apply Forall_app_2; [..|apply list.Forall_singleton]).
    assert (Hr : services_run sv (l1 ++ l2 ++ [DeviceTick]) = Some sv3).
    { rewrite services_run_app, Hr1. cbn [mbind option_bind]. rewrite services_run_app, Hr2. cbn. by rewrite Hd2. }
    destruct (services_run_ok _ _ _ Hl Hwf Hr) as [Hwf3 _].
    destruct (window_ready sv3 (fun _ => None) 0%Z answers interval Hwf3 eq_refl Hst2 Ha) as (w & sv4 & Hw).
    exists (l1 ++ l2 ++ [DeviceTick]), sv3, w, sv4. split_and!; [rewrite !length_app; cbn; lia|done..|apply Hw|apply Hw|apply Hw|apply Hw|apply Hw].
Qed.

End converge.

(** ** Witness *)

Section demo.

Local Existing Instances demo_async demo_laws.

Lemma demo_live d : d ∈ [demo_device] ->
  UpsVariables_get (values_of (dd_vars d)) UPS_STATUS <> None /\ has (true_status d) NOCOMM = false.
Proof. intros ->%list_elem_of_singleton. split; [by vm_compute|vm_compute; reflexivity]. Qed.

Lemma demo_complete d : d ∈ [demo_device] -> device_asked d (demo_answers (ups_device d)) /\ complete (demo_answers (ups_device d)).
Proof.
  intros Hd. split; [by apply demo_device_asked|]. apply list_elem_of_singleton in Hd as ->.
  split; [|split; [|split; [|split; [|constructor; [|constructor]]]]]; vm_compute; reflexivity.
Qed.

(** From the start, over the pool of connections, to the device of the daemon. *)
Lemma state_converges_witness :
  exists start l sv, services_start (lit "ns") Services.sv_config true = Ok start /\ length l <= 11 /\
    services_run start l = Some sv /\
    exists e, devices (sv_state sv) !! dd_name demo_device = Some e /\ mirrors demo_device e /\ status e = ONLINE.
Proof.
  assert (H1 : exists start, services_start (lit "ns") Services.sv_config true = Ok start) by (eexists; reflexivity).
  destruct H1 as [start Hstart]. exists start.
  assert (Hd : sv_device start <> DEnded /\ sv_status start <> SEnded) by (injection Hstart as <-; split; discriminate).
  assert (Hne : [demo_device] <> []) by discriminate.
  destruct (state_converges [demo_device] (lit "1.3") (lit "2.8") demo_device_wf demo_names Hne demo_live
    (lit "ns") Services.sv_config true start [] start Hstart (list.Forall_nil_2 _) eq_refl) as [_ Hready].
  destruct (Hready demo_answers demo_complete (proj1 Hd) (proj2 Hd)) as (l & sv1 & w & sv2 & Hl & Hal & Hr1 & Hw & Hlw & Haw & Hfw & Hr2).
  destruct (state_converges [demo_device] (lit "1.3") (lit "2.8") demo_device_wf demo_names Hne demo_live
    (lit "ns") Services.sv_config true start l sv1 Hstart Hal Hr1) as [Hwindow _].
  destruct (Hwindow w sv2 Hw Haw Hfw Hr2) as (_ & _ & Hdev & _).
  destruct (Hdev demo_device) as (e & He & Hm); [by left|]. exists (l ++ w), sv2. split; [exact Hstart|].
  split; [rewrite length_app, Hlw; lia|]. split; [rewrite services_run_app, Hr1; exact Hr2|].
  exists e. split; [exact He|]. split; [exact Hm|]. rewrite (mir_status _ _ Hm). vm_compute. reflexivity.
Defined.

End demo.
