(* ===== verification/Observer.v ===== *)
(** * What a socket tells of a daemon

    The components composed, from the services of a daemon to a client of the
    event API: what [Services] publishes, the broadcast service of [Broadcast]
    turns into texts, and a connection of [EventApi] writes them to its socket.
    A client that reads the texts back and keeps track of the messages about one
    daemon knows its devices and whether it is online. *)

From S2P Require Import Prelude RustStr Numbers Names VarName Value Ip Status Auth Config State Events Sync.
From S2P Require Import Broadcast Json JsonRead Messages Web EventApi Services.

(** What a client makes of a message about the daemon [ns], as [observe] of an event. *)
Definition follow (ns : str) (known : gset UpsName * ConnectionStatus) (m : NutEventMessage)
  : gset UpsName * ConnectionStatus :=
  match m with
  | MsgDeviceConnected n ns' _ => if decide (ns' = ns) then (known.1 ∪ {[n]}, known.2) else known
  | MsgDeviceRemoved n ns' _ => if decide (ns' = ns) then (known.1 ∖ {[n]}, known.2) else known
  | MsgDaemonStatus ns' status _ => if decide (ns' = ns) then (known.1, status) else known
  | _ => known
  end.

(** What a client reads in a text; [from_str] is its JSON parser. *)
Definition read_text (from_str : str -> option Json) (s : str) : option NutEventMessage :=
  j ← from_str s;
  match deserialize j with Ok m => Some m | _ => None end.

(** The texts that a client has received, in order; it skips what it cannot read. *)
Definition followed (from_str : str -> option Json) (ns : str) (texts : list str)
  : gset UpsName * ConnectionStatus :=
  foldl (follow ns) (∅, conn_status DaemonState_new) (omap (read_text from_str) texts).

(** A message per device amounts to the event. *)
Lemma follow_event ns timestamp e k : foldl (follow ns) k (event_messages timestamp e) = observe ns k e.
Proof.
  unfold observe. destruct e as [l ns'|l ns'|l ns'|l ns'|st ns'|l ns'|l ns']; cbn [event_messages event_namespace].
  - revert k. induction l as [|n l IH]; intros [k st]; cbn [fmap list_fmap foldl].
    + case_decide; [cbn|done]. by rewrite union_empty_r_L.
    + rewrite IH. cbn [follow]. case_decide; [|done]. cbn. by rewrite union_assoc_L.
  - revert k. induction l as [|n l IH]; intros [k st]; cbn [fmap list_fmap foldl].
    + case_decide; [cbn|done]. by rewrite difference_empty_L.
    + rewrite IH. cbn [follow]. case_decide; [|done]. cbn. by rewrite difference_difference_l_L.
  - assert (Hk : forall l k, foldl (follow ns) k ((fun n => MsgDeviceUpdate n ns' timestamp) <$> l) = k)
      by (clear; induction l as [|n l IH]; intros k; [done|apply IH]).
    rewrite Hk. by case_decide.
  - transitivity k; [|by case_decide]. induction l as [|c l IH]; [done|exact IH].
  - done.
  - transitivity k; [|by case_decide].
    assert (Hq : forall ms, Forall (fun m => match m with MsgClientConnect _ _ _ _ => True | _ => False end) ms ->
      foldl (follow ns) k ms = k) by (induction 1 as [|m ms Hm _ IH]; [done|by destruct m]).
    apply Hq, list.Forall_forall. intros m Hm. apply list_elem_of_bind in Hm as (d & Hm & _).
    apply list_elem_of_bind in Hm as (ip & Hm & _). by apply list_elem_of_singleton in Hm as ->.
  - transitivity k; [|by case_decide].
    assert (Hq : forall ms, Forall (fun m => match m with MsgClientDisconnect _ _ _ _ => True | _ => False end) ms ->
      foldl (follow ns) k ms = k) by (induction 1 as [|m ms Hm _ IH]; [done|by destruct m]).
    apply Hq, list.Forall_forall. intros m Hm. apply list_elem_of_bind in Hm as (d & Hm & _).
    apply list_elem_of_bind in Hm as (ip & Hm & _). by apply list_elem_of_singleton in Hm as ->.
Qed.

Lemma follow_events ns (evs : list (Z * SystemEvent)) k :
  foldl (follow ns) k (p ← evs; event_messages p.1 p.2) = foldl (observe ns) k evs.*2.
Proof.
  revert k. induction evs as [|[t e] evs IH]; intros k; [done|]. cbn [mbind list_bind fmap list_fmap foldl fst snd].
  rewrite foldl_app, follow_event. apply IH.
Qed.

Section reading.

Context {events_order : HashIter (gset UpsEvent) UpsEvent}.
Context (to_string : Json -> outcome LibError str) (from_str : str -> option Json).
Context (Hdoc : json_text_documented to_string from_str).

(** The messages that change what is known are read back, and no other message is read as one of them. *)
Lemma follow_read ns k m :
  match deserialize (serialize m) with Ok m => follow ns k m | _ => k end = follow ns k m.
Proof.
  destruct m as [[n] ns' t|[n] ns' t|[n] ns' t|[n] ns' new old evs t|ns' st t|ip [n] ns' t|ip [n] ns' t|e| | |]; try done.
  - change (deserialize (serialize (MsgDeviceStatus (mkUpsName n) ns' new old evs t))) with
      (let? events := deserialize (serialize (hash_iter evs : list UpsEvent)) in
       Ok (MsgDeviceStatus (mkUpsName n) ns' (UpsStatus_new (default [] (UpsStatus_fmt new)))
         (UpsStatus_new (default [] (UpsStatus_fmt old))) (list_to_set (events : list UpsEvent)) t) : outcome DeError NutEventMessage).
    by rewrite json_roundtrip by (by apply list.Forall_forall).
  - by destruct st.
  - change (deserialize (serialize (MsgClientConnect ip (mkUpsName n) ns' t))) with
      (let? client_ip := deserialize (serialize ip) in Ok (MsgClientConnect client_ip (mkUpsName n) ns' t)
        : outcome DeError NutEventMessage). by destruct (deserialize (serialize ip)).
  - change (deserialize (serialize (MsgClientDisconnect ip (mkUpsName n) ns' t))) with
      (let? client_ip := deserialize (serialize ip) in Ok (MsgClientDisconnect client_ip (mkUpsName n) ns' t)
        : outcome DeError NutEventMessage). by destruct (deserialize (serialize ip)).
Qed.

(** A client that reads the texts of messages makes of them what the messages say. *)
Lemma texts_followed ns ms texts k : Forall (fun m => from_option is_i64 True (message_timestamp m)) ms ->
  Forall2 (fun m s => message_text to_string m = Ok s) ms texts ->
  foldl (follow ns) k (omap (read_text from_str) texts) = foldl (follow ns) k ms.
Proof using Hdoc.
  intros Ht Hf. revert k. induction Hf as [|m s ms texts Hm _ IH]; intros k; [done|].
  apply list.Forall_cons in Ht as [Htm Ht]. specialize (IH Ht).
  destruct (Hdoc (serialize m) (message_plain m Htm)) as (s' & Hs & Hr). unfold message_text in Hm.
  rewrite Hs in Hm. injection Hm as ->. cbn [omap list_omap foldl]. unfold read_text at 1. rewrite Hr.
  cbn [mbind option_bind]. rewrite <- (follow_read ns k m). destruct (deserialize (serialize m)); cbn [foldl]; apply IH.
Qed.

Lemma texts_written m : from_option is_i64 True (message_timestamp m) -> exists s, message_text to_string m = Ok s.
Proof using Hdoc. intros Hm. destruct (Hdoc _ (message_plain m Hm)) as (s & Hs & _). by exists s. Qed.

End reading.

(** The messages of an event carry its time stamp. *)
Lemma event_timestamp t e m : m ∈ event_messages t e -> message_timestamp m = Some t.
Proof.
  destruct e; cbn [event_messages].
  1-4: by intros (x & -> & _)%list_elem_of_fmap.
  - by intros ->%list_elem_of_singleton.
  - intros (d & Hm & _)%list_elem_of_bind. apply list_elem_of_bind in Hm as (ip & Hm & _). by apply list_elem_of_singleton in Hm as ->.
  - intros (d & Hm & _)%list_elem_of_bind. apply list_elem_of_bind in Hm as (ip & Hm & _). by apply list_elem_of_singleton in Hm as ->.
Qed.

(** C11: From the services to the eyes of a client. Take any interleaving of the two services of a daemon
    with each other and with those of the other daemons, whatever the daemon answers; let the broadcast
    service take what they publish, whenever it does; and let an open connection, subscribed from the
    start and with a valid session, write all of it to its socket. A client that reads the JSON texts and
    keeps the devices that have come and not gone, and the last status, then knows exactly the devices
    of the server's state and whether the daemon is online. *)
Theorem socket_follows_daemon {events_order : HashIter (gset UpsEvent) UpsEvent}
  (to_string : Json -> outcome LibError str) (from_str : str -> option Json)
  (Hdoc : json_text_documented to_string from_str)
  ns config start actions sv (evs : list (Z * SystemEvent)) (b : MessageBroadcast) session now :
  services_start ns config true = Ok start -> Forall action_ok actions -> services_run start actions = Some sv ->
  evs.*2 = published (sv_channel sv) -> Forall is_i64 evs.*1 ->
  receiver_count b <> 0%nat -> from_option (is_expired now) false session = false ->
  exists ps c,
    broadcast_run (message_text to_string) ((fun p => EventReceived p.1 p.2) <$> evs) b =
      (mkBroadcast (receiver_count b) (payloads b ++ ps), false) /\
    conn_steps (message_text to_string) (event_handler session) (mjoin (deliver now <$> ps)) = Some c /\
    followed from_str ns (outgoing c) = (dom (devices (sv_state sv)), conn_status (sv_state sv)).
Proof.
  intros Hstart Ha Hrun Hevs Hts Hb Hs. apply services_start_wf in Hstart as (Hwf & Hns & Hsub).
  destruct (services_run_ok _ _ _ Ha Hwf Hrun) as ([_ _ _ _ He Hv] & Hns' & Hsub' & _).
  assert (Htm : forall p m, p ∈ evs -> m ∈ event_messages p.1 p.2 -> from_option is_i64 True (message_timestamp m)).
  { intros p m Hp ->%event_timestamp. rewrite list.Forall_forall in Hts. by apply Hts, list_elem_of_fmap_2. }
  destruct (broadcast_events (message_text to_string) evs b Hb ltac:(by rewrite Hevs)) as (ps & Hbr & Hps).
  { intros p m Hp Hm. eapply texts_written; [exact Hdoc|by eapply Htm]. }
  exists ps, (mkConn session SSelect RSelect false false (mjoin ps)). split_and!; [done| |].
  - apply (deliver_steps (message_text to_string) now session RSelect false false [] ps Hs).
  - cbn [outgoing]. unfold followed.
    rewrite (texts_followed to_string from_str Hdoc ns (p ← evs; event_messages p.1 p.2) (mjoin ps)).
    + rewrite follow_events, Hevs. rewrite <- Hns, <- Hns'. apply Hv. congruence.
    + apply list.Forall_forall. intros m (p & Hm & Hp)%list_elem_of_bind. by eapply Htm.
    + clear -Hps. induction Hps as [|e p es ps Hep _ IH]; [constructor|]. cbn. by apply Forall2_app.
Qed.

(** ** Witness

    A text that can be read back: the number of a tree in an enumeration of all
    of them, as the length of a text. It is not computed. *)

#[local] Definition leaf : Type := unit + bool + Z + list Byte.byte.

#[local] Fixpoint json_tree (j : Json) : gen_tree leaf :=
  match j with
  | JNull | JFloat _ => GenLeaf (inl (inl (inl tt)))
  | JBool b => GenLeaf (inl (inl (inr b)))
  | JInt z => GenLeaf (inl (inr z))
  | JStr s => GenLeaf (inr s)
  | JArr l => GenNode 0 (List.map json_tree l)
  | JObj fields => GenNode 1 (List.map (fun f => GenNode 2 [GenLeaf (inr f.1); json_tree f.2]) fields)
  end.
#[local] Fixpoint tree_json (t : gen_tree leaf) : Json :=
  match t with
  | GenLeaf (inl (inl (inl tt))) => JNull
  | GenLeaf (inl (inl (inr b))) => JBool b
  | GenLeaf (inl (inr z)) => JInt z
  | GenLeaf (inr s) => JStr s
  | GenNode 0 l => JArr (List.map tree_json l)
  | GenNode _ l =>
      JObj (List.map (fun t => match t with GenNode _ [GenLeaf (inr k); v] => (k, tree_json v) | _ => ([], JNull) end) l)
  end.

Lemma tree_json_tree j : json_plain j = true -> tree_json (json_tree j) = j.
Proof.
  induction j as [|b|z|x|s|l IH|fields IH] using Json_ind'; try done; cbn [json_plain json_tree tree_json]; intros Hp.
  - f_equal. rewrite List.map_map. induction IH as [|j l Hj _ IHl]; [done|]. cbn in Hp |- *.
    apply andb_true_iff in Hp as [Hpj Hp]. rewrite Hj by done. f_equal. by apply IHl.
  - f_equal. apply andb_true_iff in Hp as [_ Hp]. rewrite List.map_map.
    induction IH as [|[k j] l Hj _ IHl]; [done|]. cbn in Hp |- *.
    apply andb_true_iff in Hp as [Hpj Hp]. cbn in Hj. rewrite Hj by done. f_equal. by apply IHl.
Qed.

#[local] Definition numbered_text (j : Json) : outcome LibError str :=
  Ok (replicate (Pos.to_nat (encode (json_tree j))) Byte.x00).
#[local] Definition numbered_read (s : str) : option Json := tree_json <$> decode (Pos.of_nat (length s)).

Lemma numbered_documented : json_text_documented numbered_text numbered_read.
Proof.
  intros j Hj. eexists. split; [reflexivity|]. unfold numbered_read.
  rewrite length_replicate, Pos2Nat.id, decode_encode. cbn. by rewrite tree_json_tree.
Qed.

#[local] Instance demo_events_order : HashIter (gset UpsEvent) UpsEvent := elements.

(** The run of [Services] in which the device [b] has taken the place of [a]. *)
Lemma socket_follows_daemon_witness :
  exists sv ps c, Services.sv_run Services.sv_actions = Some sv /\
    conn_steps (message_text numbered_text) (event_handler None) (mjoin (deliver 7 <$> ps)) = Some c /\
    followed numbered_read (lit "ns") (outgoing c) = (dom (devices (sv_state sv)), conn_status (sv_state sv)).
Proof.
  unfold Services.sv_run, Services.sv_start.
  assert (H1 : exists start, services_start (lit "ns") Services.sv_config true = Ok start) by (eexists; reflexivity).
  destruct H1 as [start Hstart].
  assert (H2 : match services_start (lit "ns") Services.sv_config true with
    | Ok s => bool_decide (is_Some (services_run s Services.sv_actions)) | _ => false end = true)
    by (vm_compute; reflexivity).
  rewrite Hstart in H2 |- *. apply bool_decide_eq_true in H2 as [sv Hrun]. exists sv.
  destruct (socket_follows_daemon numbered_text numbered_read numbered_documented
    (lit "ns") Services.sv_config start Services.sv_actions sv ((fun e => (5%Z, e)) <$> published (sv_channel sv))
    (mkBroadcast 1 []) None 7 Hstart sv_actions_ok Hrun
    ltac:(by rewrite <- list_fmap_compose, list_fmap_id)
    ltac:(rewrite <- list_fmap_compose; apply list.Forall_fmap, list.Forall_forall; done) ltac:(done) eq_refl)
    as (ps & c & _ & Hc & Hf).
  exists ps, c. split; [exact Hrun|]. split; [exact Hc|exact Hf].
Defined.
