(* ===== verification/Wire.v ===== *)
(** * What comes off the wire

    The parsers of the daemon's answers as a type discipline: whatever bytes a
    daemon sends, the names, values and addresses that a parser makes of them are
    well formed. The services store nothing else, so every state that they reach
    is one whose JSON form a client reads back, and whose pages do not depend on
    the order of a hash map. *)

From stdpp Require Import sorting.
From S2P Require Import Prelude RustStr Numbers Errors Escape Lexer Names VarName Value.
From S2P Require Import ParserUtils Ip VarType UpsVariables Response Command Client.
From S2P Require Import Collections Status Auth Config State Events Sync NutClients DeviceDaemon StatusWidth Services Api Web Topology Pages Json JsonRead.

(** ** Parsers *)

(** From a lexer on a text, what [p] returns satisfies [P], and leaves the lexer on a text. *)
Definition yields {A} (P : A -> Prop) (p : parser A) : Prop := forall l s, lexer_at l s ->
  match p l with Ok (a, l') => P a /\ exists s', lexer_at l' s' | _ => True end.

Lemma yields_ret {A} (P : A -> Prop) a : P a -> yields P (mret a).
Proof. intros Ha l s Hl. split; [done|]. by exists s. Qed.

Lemma yields_err {A} (P : A -> Prop) e : yields P (parse_err e : parser A).
Proof. by intros l s Hl. Qed.

Lemma yields_bind {A B} (P : A -> Prop) (Q : B -> Prop) (p : parser A) (f : A -> parser B) :
  yields P p -> (forall a, P a -> yields Q (f a)) -> yields Q (p ≫= f).
Proof.
  intros Hp Hf l s Hl. unfold mbind, parser_bind. specialize (Hp l s Hl).
  destruct (p l) as [[a l1]| | |]; [|done..]. destruct Hp as [Ha [s1 Hl1]]. cbn [obind fst snd]. by eapply Hf.
Qed.

Lemma yields_weaken {A} (P Q : A -> Prop) (p : parser A) : (forall a, P a -> Q a) -> yields P p -> yields Q p.
Proof.
  intros H Hp l s Hl. specialize (Hp l s Hl). destruct (p l) as [[a l1]| | |]; [|done..].
  destruct Hp as [Ha Hs]. split; [by apply H|done].
Qed.

(** What a token that is a word has for its text. *)
Lemma scan_text_word s w r : utf8_valid s = true -> scan s = ScanToken (RText w) r -> is_word w = true.
Proof.
  intros Hv Hs. pose proof (scan_text_valid s w r Hv Hs) as Hw. unfold scan in Hs.
  destruct (drop_while is_blank s) as [|c s'] eqn:E; [done|]. destruct (decide (c = LF)) as [|Hlf]; [done|].
  destruct (decide (c = DQUOTE)) as [|Hq]; [by destruct (scan_quoted s') as [[]|]|]. injection Hs as <- _.
  assert (Hc : is_text_byte c = true).
  { apply drop_while_head in E. unfold is_blank, is_text_byte in *. rewrite (bool_decide_eq_false_2 _ Hlf) in E.
    by destruct (is_ascii_whitespace c). }
  pose proof (take_while_all is_text_byte (c :: s')) as Ha. cbn [take_while] in *. rewrite Hc in *.
  by apply is_word_intro.
Qed.

(** A parser that reads one token: what it makes of a word, and of a quoted text. *)
Lemma next_token_yields l s : lexer_at l s ->
  match next_token l with
  | Ok (Some t, l') => (exists s', lexer_at l' s') /\
      match t with Text _ _ => forall c, extract_from_token l' t = Ok c -> is_word (cow_str c) = true | _ => True end
  | Ok (None, l') => exists s', lexer_at l' s'
  | _ => True
  end.
Proof.
  intros Hl. pose proof (next_token_at l s Hl) as H. destruct (scan s) as [|r rest|] eqn:E.
  - destruct H as (l' & -> & _ & Hl'). by exists [].
  - destruct H as (t & l' & -> & Hr & Hb & Hl'). split; [by exists rest|]. destruct t as [i j| |i j]; [done..|].
    intros c Hc. destruct Hl as (_ & _ & Hv). rewrite <- Hb in Hr.
    pose proof (extract_at l' s _ _ _ Hv E Hr) as He. rewrite Hc in He. cbn in Hr.
    destruct (str_slice _ i j) as [w|]; [|done]. injection Hr as <-. cbn in He. injection He as ->. by eapply scan_text_word.
  - by destruct H as (q & ->).
Qed.

Lemma yields_name {A E} `{!WireName A E} wrap missing : yields wn_wf (extract_name wn_try_from wrap missing).
Proof.
  intros l s Hl. pose proof (next_token_yields l s Hl) as H. unfold extract_name.
  destruct (next_token l) as [[[t|] l']| | |]; cbn [obind]; [|done..]. destruct H as [Hs Hw]. destruct t as [i j| |i j]; [done..|].
  destruct (extract_from_token l' (Text i j)) as [c| | |]; cbn [obind]; [|done..].
  destruct (wn_try_from c) as [a| | |] eqn:Ea; cbn [map_err obind]; [|done..]. split; [|done].
  eapply wn_try_from_wf; [by apply Hw|done].
Qed.
Lemma yields_ups_name : yields UpsName_wf extract_ups_name.
Proof. exact (@yields_name _ _ UpsName_wire _ _). Qed.
Lemma yields_cmd_name : yields CmdName_wf extract_cmd_name.
Proof. exact (@yields_name _ _ CmdName_wire _ _). Qed.
Lemma yields_var_name : yields VarName_wf extract_var_name.
Proof. exact (@yields_name _ _ VarName_wire _ _). Qed.

Lemma yields_literal w : yields (fun _ => True) (cmp_literal w).
Proof.
  intros l s Hl. pose proof (next_token_yields l s Hl) as H. unfold cmp_literal.
  destruct (next_token l) as [[[t|] l']| | |]; cbn [obind]; [|done..]. destruct H as [Hs _]. destruct t as [i j| |i j]; [done..|].
  destruct (extract_from_token l' (Text i j)) as [c| | |]; cbn [obind]; [|done..]. by case_bool_decide.
Qed.

Lemma yields_text : yields (fun c => is_word (cow_str c) = true) extract_text.
Proof.
  intros l s Hl. pose proof (next_token_yields l s Hl) as H. unfold extract_text.
  destruct (next_token l) as [[[t|] l']| | |]; cbn [obind]; [|done..]. destruct H as [Hs Hw]. destruct t as [i j| |i j]; [done..|].
  destruct (extract_from_token l' (Text i j)) as [c| | |] eqn:Ec; cbn [obind]; [|done..]. split; [by apply Hw|done].
Qed.
Lemma yields_quoted : yields (fun _ => True) extract_quoted_text.
Proof.
  intros l s Hl. pose proof (next_token_yields l s Hl) as H. unfold extract_quoted_text.
  destruct (next_token l) as [[[t|] l']| | |]; cbn [obind]; [|done..]. destruct H as [Hs _]. destruct t as [i j| |i j]; [|done..].
  by destruct (extract_from_token l' (QuotedText i j)) as [c| | |]; cbn [obind].
Qed.
Lemma yields_capture_text : yields (fun w => is_word w = true) capture_text.
Proof. eapply yields_bind; [apply yields_text|]. intros c Hc. by apply yields_ret. Qed.
Lemma yields_capture_quoted : yields (fun _ => True) capture_quoted.
Proof. eapply yields_bind; [apply yields_quoted|]. intros c _. by apply yields_ret. Qed.

Lemma infer_from_wf s : Value_wf (infer_from s).
Proof. pose proof (infer_from_spec s) as [_ H]. destruct (infer_from s); first [exact I|apply H]. Qed.
Lemma infer_number_wf s v : infer_number_from s = Ok v -> Value_wf v.
Proof.
  unfold infer_number_from. case_bool_decide; [by destruct (parse_f64 s); intros [= <-]|].
  destruct (parse_i64 s) as [z|] eqn:E; [|done]. intros [= <-]. by apply parse_i64_bounds in E.
Qed.
Lemma yields_value : yields Value_wf extract_value.
Proof. eapply yields_bind; [apply yields_quoted|]. intros c _. apply yields_ret, infer_from_wf. Qed.
Lemma yields_numeric_value : yields Value_wf extract_numeric_value.
Proof.
  eapply yields_bind; [apply yields_quoted|]. intros c _. destruct (infer_number_from _) as [v| | |] eqn:E;
    [|apply yields_err..]. by eapply yields_ret, infer_number_wf.
Qed.

Lemma yields_end : yields (fun _ => True) end_parser.
Proof.
  intros l s Hl. pose proof (next_token_yields l s Hl) as H. unfold end_parser.
  destruct (next_token l) as [[[t|] l']| | |]; cbn [obind]; [|done..]. destruct H as [[s' Hl'] _]. destruct t; [done| |done].
  destruct (skip_whitespaces_at l' s' Hl') as (l2 & -> & _ & Hl2). cbn. by eauto.
Qed.
Lemma yields_line {A} (P : A -> Prop) (rules : parser A) : yields P rules -> yields P (parse_line rules).
Proof.
  intros H. eapply yields_bind; [done|]. intros a Ha. eapply yields_bind; [apply yields_end|]. intros _ _. by apply yields_ret.
Qed.
Lemma yields_finish {A} (P : A -> Prop) a : P a -> yields P (finish a).
Proof.
  intros Ha l s Hl. unfold finish. rewrite (is_finished_at l s Hl). cbn [obind]. destruct (scan s); cbn; [by eauto|done|by eauto].
Qed.
Lemma yields_while {B} (I : B -> Prop) kw (body : B -> parser B) acc :
  I acc -> (forall acc, I acc -> yields I (body acc)) -> yields I (while_peek kw body acc).
Proof.
  intros Ha Hb l s Hl. unfold while_peek. generalize (S (length (buffer l))). intros fuel. revert acc l s Hl Ha.
  induction fuel as [|f IH]; intros acc l s Hl Ha; [done|]. cbn [while_peek_loop]. rewrite (peek_as_str_at l s Hl). cbn [obind].
  case_bool_decide; [|by eauto]. specialize (Hb acc Ha l s Hl). destruct (body acc l) as [[b l1]| | |]; [|done..].
  destruct Hb as [Hi [s1 Hl1]]. by eapply IH.
Qed.

(** ** Responses *)

Definition vars_wf (m : UpsVariables) : Prop := entries_wf (V := Value) m.

Lemma vars_wf_insert m n v : vars_wf m -> VarName_wf n -> Value_wf v -> vars_wf (UpsVariables_insert m n v).2.
Proof. intros Hm Hn Hv k x. cbn. intros [[<- <-]|[_ ?]]%lookup_insert_Some; [done|by apply Hm]. Qed.
Lemma vars_wf_empty : vars_wf UpsVariables_new.
Proof. intros n v H. change ((∅ : UpsVariables) !! n = Some v) in H. by rewrite lookup_empty in H. Qed.

(** Rules that only compare words. *)
Ltac yields_skip := repeat (eapply yields_bind; [apply yields_literal|intros _ _]).

Lemma yields_header {A} (P : A -> Prop) a b c (p : parser A) : yields P p ->
  yields P (parse_line (cmp_literal a;; cmp_literal b;; cmp_literal c;; p)).
Proof. intros H. apply yields_line. by yields_skip. Qed.
Lemma yields_footer {A} (P : A -> Prop) (ws : parser unit) a : yields (fun _ => True) ws -> P a ->
  yields P (parse_line ws;; finish a).
Proof. intros Hw Ha. eapply yields_bind; [by apply yields_line|]. intros _ _. by apply yields_finish. Qed.
Lemma yields_snoc {A} (P : A -> Prop) acc a : Forall P acc -> P a -> yields (Forall P) (mret (acc ++ [a])).
Proof. intros. apply yields_ret, Forall_app_2; [done|by apply Forall_singleton]. Qed.

Ltac yields_literals := yields_skip; apply yields_literal.

Lemma ClientList_yields : yields (fun r => UpsName_wf (cl_ups_name r) /\ Forall IpAddr_wf (cl_ips r)) ClientList_deserialize.
Proof.
  eapply yields_bind; [apply yields_header, yields_ups_name|]. intros u Hu.
  eapply (yields_bind (Forall IpAddr_wf)); [|intros ips Hips; by apply yields_footer; [yields_literals|]].
  apply yields_while; [by constructor|]. intros ips Hips.
  eapply yields_bind; [apply yields_line; yields_skip; apply yields_capture_text|]. intros text _.
  destruct (IpAddr_parse text) eqn:E; [|apply yields_err]. apply yields_snoc; [done|by apply IpAddr_parse_wf in E].
Qed.

Lemma CmdList_yields : yields (fun r => UpsName_wf (cml_ups_name r) /\ Forall CmdName_wf (cml_cmds r)) CmdList_deserialize.
Proof.
  eapply yields_bind; [apply yields_header, yields_ups_name|]. intros u Hu.
  eapply (yields_bind (Forall CmdName_wf)); [|intros cs Hcs; by apply yields_footer; [yields_literals|]].
  apply yields_while; [by constructor|]. intros cs Hcs.
  eapply yields_bind; [apply yields_line; yields_skip; apply yields_cmd_name|]. intros c Hc. by apply yields_snoc.
Qed.

Lemma yields_var_name_of_text text : yields VarName_wf (var_name_of_text text).
Proof.
  intros l s Hl. unfold var_name_of_text. destruct (VarName_try_from text) as [n| | |] eqn:E; cbn; [|done..].
  split; [by apply VarName_new_ok in E as [? _]|by eauto].
Qed.

Lemma EnumList_yields : yields (fun r => VarName_wf (el_name r) /\ Forall Value_wf (el_values r)) EnumList_deserialize.
Proof.
  eapply (yields_bind (fun _ => True)).
  { apply yields_header. eapply yields_bind; [apply yields_ups_name|]. intros u _.
    eapply yields_bind; [apply yields_capture_text|]. intros w _. by apply yields_ret. }
  intros [u w] _. eapply yields_bind; [apply yields_var_name_of_text|]. intros n Hn.
  eapply (yields_bind (Forall Value_wf)); [|intros vs Hvs; by apply yields_footer; [yields_literals|]].
  apply yields_while; [by constructor|]. intros vs Hvs.
  eapply yields_bind; [apply yields_line; yields_skip; apply yields_value|]. intros v Hv. by apply yields_snoc.
Qed.

Definition range_wf (r : Value * Value) : Prop := Value_wf r.1 /\ Value_wf r.2.

Lemma RangeList_yields : yields (fun r => VarName_wf (rl_name r) /\ Forall range_wf (rl_ranges r)) RangeList_deserialize.
Proof.
  eapply (yields_bind (fun _ => True)).
  { apply yields_header. eapply yields_bind; [apply yields_ups_name|]. intros u _.
    eapply yields_bind; [apply yields_capture_text|]. intros w _. by apply yields_ret. }
  intros [u w] _. eapply yields_bind; [apply yields_var_name_of_text|]. intros n Hn.
  eapply (yields_bind (Forall range_wf)); [|intros vs Hvs; by apply yields_footer; [yields_literals|]].
  apply yields_while; [by constructor|]. intros vs Hvs. eapply (yields_bind range_wf).
  { apply yields_line. yields_skip. eapply yields_bind; [apply yields_numeric_value|]. intros lo Hlo.
    eapply yields_bind; [apply yields_numeric_value|]. intros hi Hhi. by apply yields_ret. }
  intros r Hr. by apply yields_snoc.
Qed.

Lemma variables_yields kw : yields (fun r => UpsName_wf r.1 /\ vars_wf r.2) (variables_deserialize kw).
Proof.
  eapply yields_bind; [apply yields_header, yields_ups_name|]. intros u Hu.
  eapply (yields_bind vars_wf); [|intros m Hm; by apply yields_footer; [yields_literals|]].
  apply yields_while; [apply vars_wf_empty|]. intros m Hm. eapply (yields_bind (fun r => VarName_wf r.1 /\ Value_wf r.2)).
  { apply yields_line. yields_skip. eapply yields_bind; [apply yields_var_name|]. intros n Hn.
    eapply yields_bind; [apply yields_value|]. intros v Hv. by apply yields_ret. }
  intros [n v] [Hn Hv]. by apply yields_ret, vars_wf_insert.
Qed.

Lemma RwList_yields : yields (fun r => vars_wf (rwl_variables r)) RwList_deserialize.
Proof. eapply yields_bind; [apply variables_yields|]. intros [u m] [_ Hm]. by apply yields_ret. Qed.
Lemma UpsVarList_yields : yields (fun r => vars_wf (vl_variables r)) UpsVarList_deserialize.
Proof. eapply yields_bind; [apply variables_yields|]. intros [u m] [_ Hm]. by apply yields_ret. Qed.

Lemma UpsList_yields : yields (fun r => Forall (fun d => UpsName_wf (dev_ups_name d)) (ul_devices r)) UpsList_deserialize.
Proof.
  eapply yields_bind; [apply yields_line; yields_literals|]. intros _ _.
  eapply (yields_bind (Forall (fun d => UpsName_wf (dev_ups_name d)))); [|intros ds Hds; by apply yields_footer; [yields_literals|]].
  apply yields_while; [by constructor|]. intros ds Hds. eapply (yields_bind (fun r => UpsName_wf r.1)).
  { apply yields_line. yields_skip. eapply yields_bind; [apply yields_ups_name|]. intros u Hu.
    eapply yields_bind; [apply yields_capture_quoted|]. intros w _. by apply yields_ret. }
  intros [u w] Hu. by apply yields_snoc.
Qed.

Lemma UpsVar_yields : yields (fun r => VarName_wf (uv_name r) /\ Value_wf (uv_value r)) UpsVar_deserialize.
Proof.
  eapply (yields_bind (fun r => VarName_wf r.1.2 /\ Value_wf r.2)).
  { apply yields_line. yields_skip. eapply yields_bind; [apply yields_ups_name|]. intros u Hu.
    eapply yields_bind; [apply yields_var_name|]. intros n Hn.
    eapply yields_bind; [apply yields_value|]. intros v Hv. by apply yields_ret. }
  intros [[u n] v] H. by apply yields_finish.
Qed.

(** ** Answers *)

Lemma read_line_valid s buf n b s' : utf8_valid buf = true -> read_line s buf = (Ready (Ok (n, b)), s') -> utf8_valid b = true.
Proof.
  intros Hb. unfold read_line.
  repeat case_match; intros [= <- <- <-]; by apply utf8_valid_app.
Qed.

Lemma list_loop_valid f s buf pos r s' : utf8_valid buf = true ->
  list_loop f s buf pos = (Ready (Ok r), s') -> utf8_valid r = true.
Proof.
  revert s buf pos. induction f as [|f IH]; intros s buf pos Hb; [done|]. cbn [list_loop].
  destruct (read_line s buf) as [[[[n b]| | |]|] s1] eqn:E; try done. apply (read_line_valid _ _ _ _ _ Hb) in E.
  destruct (str_from b pos); [|done]. case_match; [by intros [= <- <-]|by apply IH].
Qed.

(** A response is a Rust string. *)
Lemma send_raw_valid c s r s' : send_raw c s = (Ok r, s') -> utf8_valid r = true.
Proof.
  unfold send_raw, inner_send_raw. destruct (write_all s c) as [[[]| | |] s1]; [|done|..];
  (destruct (read_line s1 []) as [[[[n b]| | |]|] s2] eqn:E; try done;
   apply (read_line_valid s1 [] _ _ _ eq_refl) in E; destruct (starts_with LIST_START b);
   [|by destruct (strip_prefix PROT_ERR b); intros [= <- <-]];
   destruct (list_loop _ s2 b n) as [[[t| | |]|] s3] eqn:El; try done; intros [= <- <-];
   by eapply list_loop_valid).
Qed.

(** [r] is what the call gives on some connection, if it is an answer at all. *)
Definition answered {A} (call : io A) (r : outcome ErrorKind A) : Prop :=
  forall a, r = Ok a -> exists s, (call s).1 = Ok a.

Lemma send_yields {R} (P : R -> Prop) (p : parser R) command r a : yields P p -> answered (send p command) r -> r = Ok a -> P a.
Proof.
  intros Hp Hr Ha. destruct (Hr a Ha) as [s Hs]. unfold send in Hs. destruct command as [c|]; [|done].
  unfold mbind, io_bind in Hs. destruct (send_raw c s) as [[text|e| |] s1] eqn:E; cbn in Hs; try done.
  apply send_raw_valid in E. case_bool_decide; [done|]. cbn in Hs. unfold parse_response in Hs.
  specialize (Hp (Lexer_new text) text (lexer_at_new text E)).
  destruct (p (Lexer_new text)) as [[x l]| | |]; [|done..]. injection Hs as ->. apply Hp.
Qed.

(** What [load_var_detail] makes of the answers about one variable. *)
Lemma var_detail_wf u v types enum range n d : VarName_wf v ->
  answered (list_enum u v) enum -> answered (list_range u v) range ->
  load_var_detail v types enum range = Ok (n, d) -> VarName_wf n /\ VarDetail_json_wf d.
Proof.
  intros Hv He Hr. unfold load_var_detail. destruct types as [t| | |]; [|done..]. cbn [obind].
  induction (vt_var_types t) as [|x ts IH]; cbn [var_detail_loop]; [by intros [= <- <-]|].
  destruct x; [done| | | |]; [..|by intros [= <- <-]|by intros [= <- <-]].
  - destruct enum as [en| | |]; [|done..]. cbn [obind]. intros [= <- <-].
    by destruct (send_yields _ _ _ _ en EnumList_yields He eq_refl).
  - destruct range as [rg| | |]; [|done..]. cbn [obind].
    destruct (send_yields _ _ _ _ rg RangeList_yields Hr eq_refl) as [Hn Hrs].
    destruct (list.last (rl_ranges rg)) as [[lo hi]|] eqn:El; intros [= <- <-]; (split; [done|]); [|by split].
    rewrite list.Forall_forall in Hrs. apply last_Some_elem_of in El. by apply (Hrs _ El).
Qed.

(** The answers to [load_device_entry]: those of the four lists, and for every variable that is asked for, of those
    that the list of writable variables names, those of [load_var_detail]. *)
Definition device_answered (d : UpsDevice) (a : device_answers) : Prop :=
  let u := dev_ups_name d in
  answered (list_client u) (an_clients a) /\ answered (list_cmd u) (an_commands a) /\
  answered (list_rw u) (an_rw_list a) /\ answered (list_var u) (an_vars a) /\
  forall r, r ∈ an_rw_vars a -> exists rw v types enum range, an_rw_list a = Ok rw /\ is_Some (rwl_variables rw !! v) /\
    answered (get_var_type u v) types /\ answered (list_enum u v) enum /\ answered (list_range u v) range /\
    r = load_var_detail v types enum range.

(** What the daemon's bytes allow the steps of the services to bring. *)
Definition action_wire (a : ServiceAction) : Prop :=
  match a with
  | DeviceWrite _ new_results recheck_results =>
      forall r, r ∈ new_results ++ recheck_results -> exists lookup_ip answers now d list,
        answered list_ups (Ok list) /\ d ∈ ul_devices list /\ device_answered d (answers d) /\
        r = Sync.load lookup_ip now answers d
  | StatusWrite _ responses => forall r, r ∈ responses -> exists u, answered (get_var u UPS_STATUS) r
  | StateWrite _ _ responses => forall u r, (u, r) ∈ responses -> exists vars clients cmds,
      answered (list_var u) vars /\ answered (list_client u) clients /\ answered (list_cmd u) cmds /\
      forall a, r = Ok a -> (vars, clients, cmds) = (Ok a.1.1, Ok a.1.2, Ok a.2)
  | _ => True
  end.

(** ** The state of the services *)

Definition devices_wf (devs : gmap UpsName DeviceEntry) : Prop := all_devices (fun _ e => device_json_wf e) devs.

Lemma from_value_known v : known (UpsStatus_from_value v).
Proof. destruct v; cbn [UpsStatus_from_value]; first [apply new_known|by split]. Qed.

Lemma nocomm_entry_wf now n : UpsName_wf n -> device_json_wf (nocomm_entry now n).
Proof.
  intros Hn. split_and!; [by constructor..|done| |by split|apply vars_wf_empty].
  intros k v H. change ((∅ : gmap VarName VarDetail) !! k = Some v) in H. by rewrite lookup_empty in H.
Qed.

Lemma client_info_wf lookup_ip ips : Forall IpAddr_wf ips -> Forall (fun c => IpAddr_wf (ci_addr c)) (client_info lookup_ip <$> ips).
Proof. intros H. by apply Forall_fmap. Qed.

Lemma details_wf rws m : entries_wf (V := VarDetail) m ->
  (forall n d, Ok (n, d) ∈ rws -> VarName_wf n /\ VarDetail_json_wf d) ->
  entries_wf (foldl (fun m (r : outcome ErrorKind (VarName * VarDetail)) =>
    match r with Ok (n, d) => <[n := d]> m | _ => m end) m rws).
Proof.
  revert m. induction rws as [|r rws IH]; intros m Hm Hr; [done|]. cbn [foldl]. apply IH; [|intros n d H; apply Hr; by right].
  destruct r as [[n d]| | |]; try done. destruct (Hr n d ltac:(left)) as [Hn Hd].
  intros k x [[<- <-]|[_ ?]]%lookup_insert_Some; [done|by apply Hm].
Qed.

Lemma load_json_wf now lookup_ip now' answers d e : UpsName_wf (dev_ups_name d) -> device_answered d (answers d) ->
  new_entry now (Sync.load lookup_ip now' answers d) = Some e -> device_json_wf e.
Proof.
  intros Hn (Hcl & Hcm & Hrw & Hvs & Hds). unfold Sync.load.
  destruct (load_device_entry lookup_ip now' d _ _ _ _ _) as [x|err| |] eqn:E; cbn [load_task new_entry]; [|intros [= <-]|done..].
  - intros [= <-]. destruct (load_device_entry_Ok _ _ _ _ _ _ _ _ _ E) as (cl & cm & rw & vs & Ec & Em & Er & Ev).
    rewrite Ec, Em, Er, Ev in E. cbn in E. injection E as <-.
    destruct (send_yields _ _ _ _ cl ClientList_yields Hcl Ec) as [_ Hips].
    destruct (send_yields _ _ _ _ cm CmdList_yields Hcm Em) as [_ Hcs].
    pose proof (send_yields _ _ _ _ rw RwList_yields Hrw Er) as Hrws.
    pose proof (send_yields _ _ _ _ vs UpsVarList_yields Hvs Ev) as Hvars.
    split_and!; cbn; [by apply client_info_wf|done|done| | |done].
    + apply details_wf.
      { intros k v H. change ((∅ : gmap VarName VarDetail) !! k = Some v) in H. by rewrite lookup_empty in H. }
      intros n dt Hin. destruct (Hds _ Hin) as (rw' & v & types & enum & range & Erw & [x Hx] & _ & He & Hr & Heq).
      assert (rw' = rw) as -> by congruence. symmetry in Heq. eapply var_detail_wf; [|done..]. by eapply Hrws.
    + case_match; [apply from_value_known|by split].
  - assert (le_name err = dev_ups_name d) as ->.
    { revert E. unfold load_device_entry. destruct (an_clients _), (an_commands _), (an_rw_list _), (an_vars _); cbn; by intros [= <-]. }
    by apply nocomm_entry_wf.
Qed.

Lemma status_step_json now devs changes u r : devices_wf devs -> answered (get_var u UPS_STATUS) r ->
  devices_wf (status_step now (devs, changes) r).1.
Proof.
  intros Hd Hr. unfold status_step. destruct r as [v| | |]; try done.
  destruct (devs !! uv_ups_name v) as [e|] eqn:E; [|done]. cbn [fst].
  destruct (send_yields _ _ _ _ v UpsVar_yields Hr eq_refl) as [Hn Hv].
  destruct (Hd _ _ E) as (H1 & H2 & H3 & H4 & H5 & H6). apply all_devices_insert; [done|].
  split_and!; cbn; [done..|apply from_value_known|by apply vars_wf_insert].
Qed.

Lemma detach_subset l ips c : c ∈ foldl detach l ips -> c ∈ l.
Proof.
  revert l. induction ips as [|ip ips IH]; intros l; [done|]. cbn [foldl]. intros H%IH. revert H. unfold detach.
  destruct (list_find _ l) as [[i c']|] eqn:E; [|done]. apply list_find_Some in E as (Hi & _ & _). intros H.
  rewrite (swap_remove_perm l i c' Hi). by right.
Qed.

Lemma update_clients_wf lookup_ip l ips : Forall (fun c => IpAddr_wf (ci_addr c)) l -> Forall IpAddr_wf ips ->
  Forall (fun c => IpAddr_wf (ci_addr c)) (update_clients lookup_ip l ips).
Proof.
  rewrite !list.Forall_forall. intros Hl Hips c. unfold update_clients. intros [H|H]%elem_of_app.
  - apply Hl. by eapply detach_subset.
  - apply list_elem_of_fmap in H as (ip & -> & Hip). apply Hips. cbn in Hip. by apply list_elem_of_filter in Hip as [_ ?].
Qed.

Lemma state_step_json lookup_ip now devs events u r : devices_wf devs ->
  (exists vars clients cmds, answered (list_var u) vars /\ answered (list_client u) clients /\ answered (list_cmd u) cmds /\
      forall a, r = Ok a -> (vars, clients, cmds) = (Ok a.1.1, Ok a.1.2, Ok a.2)) ->
  devices_wf (state_step lookup_ip now (devs, events) (u, r)).1.
Proof.
  intros Hd (vars & clients & cmds & Hvs & Hcl & Hcm & Heq). unfold state_step. destruct (devs !! u) as [e|] eqn:E; [|done].
  destruct (Hd _ _ E) as (H1 & H2 & H3 & H4 & H5 & H6). destruct r as [[[vl cl] cm]| | |].
  2-4: (apply all_devices_insert; [done|]; split_and!; cbn; [done|by constructor|done| |by split|apply vars_wf_empty];
        intros k v H; change ((∅ : gmap VarName VarDetail) !! k = Some v) in H; by rewrite lookup_empty in H).
  injection (Heq _ eq_refl) as -> -> ->. cbn [fst snd] in *.
  destruct (send_yields _ _ _ _ cl ClientList_yields Hcl eq_refl) as [_ Hips].
  destruct (send_yields _ _ _ _ cm CmdList_yields Hcm eq_refl) as [_ Hcs].
  pose proof (send_yields _ _ _ _ vl UpsVarList_yields Hvs eq_refl) as Hvars.
  set (st := match UpsVariables_get (vl_variables vl) UPS_STATUS with Some _ => _ | None => _ end).
  assert (Hst : known st.1).
  { unfold st. destruct (UpsVariables_get _ _) as [v|]; [case_decide|]; cbn [fst]; [apply from_value_known|done..]. }
  destruct st as [new_status ev]. cbn [fst snd] in *. apply all_devices_insert; [done|].
  split_and!; cbn; [by apply update_clients_wf|done..].
Qed.

(** Whatever bytes the daemon sends, a step of the services stores well-formed devices only. *)
Lemma service_step_devices sv a sv' : action_wire a -> devices_wf (devices (sv_state sv)) ->
  service_step sv a = Some sv' -> devices_wf (devices (sv_state sv')).
Proof.
  intros Ha Hd. destruct a as [ |remote pv uv|now nr rr| |instant| |now rs|now lk rs| | |event| ]; cbn [service_step].
  - by destruct (sv_device sv); intros [= <-].
  - by destruct (sv_device sv); intros [= <-].
  - destruct (sv_device sv) as [| |local remote pv uv|]; [done..| |done].
    assert (H : devices_wf (devices (device_sync_next now (sv_namespace sv) (sv_state sv)
      (diff_upsd now local remote pv uv nr rr)).1.2)).
    { apply (device_sync_all device_json_wf); [done..|]. intros patch Hp e. rewrite (diff_upsd_added _ _ _ _ _ _ _ _ Hp).
      unfold patch_added. rewrite elem_of_app, !list_elem_of_omap. cbn [action_wire] in Ha. setoid_rewrite elem_of_app in Ha.
      assert (Hload : forall r e, (r ∈ nr \/ r ∈ rr) -> new_entry now r = Some e -> device_json_wf e).
      { intros r e' Hr. destruct (Ha r Hr) as (lk & answers & now' & d & l & Hl & Hin & Hans & ->).
        apply load_json_wf; [|done]. pose proof (send_yields _ _ _ _ l UpsList_yields Hl eq_refl) as Hu.
        rewrite list.Forall_forall in Hu. by apply Hu. }
      intros [(r & Hin & He)|(r & Hin & He)]; (eapply Hload; [by eauto|]); [done|].
      destruct r; [done|discriminate He..]. }
    destruct (device_sync_next _ _ _ _) as [[r s] events]. by intros [= <-].
  - destruct (sv_device sv), (sv_cancelled sv); by intros [= <-].
  - destruct (sv_status sv); [|done..]. destruct (poll_tick _ _). by intros [= <-].
  - destruct (sv_status sv); [done| |done..]. destruct (snapshot_active_device_names _); by intros [= <-].
  - destruct (sv_status sv) as [| |interval [] names| |]; [done..| |done|done]. case_decide; [|done]. unfold status_write.
    pose proof (fold_devices (P := fun _ => device_json_wf) (status_step now) (devices (sv_state sv), []) rs) as Hf.
    destruct (foldl _ _ _) as [devs changes]. intros [= <-]. cbn in *. apply Hf; [|done].
    intros devs' d r Hr Hd'. destruct (Ha r Hr) as [u Hu]. by eapply status_step_json.
  - destruct (sv_status sv) as [| |interval [] names| |]; [done..| |done|done|done]. case_decide; [|done]. unfold state_write.
    pose proof (fold_devices (P := fun _ => device_json_wf) (state_step lk now)
      (devices (sv_state sv), EventBatch_new (sv_namespace sv)) rs) as Hf.
    destruct (foldl _ _ _) as [devs events]. intros [= <-]. cbn in *. apply Hf; [|done].
    intros devs' d [u r] Hr Hd'. apply state_step_json; [done|by apply Ha].
  - destruct (sv_status sv); [done..| |done]. by intros [= <-].
  - destruct (sv_status sv), (sv_cancelled sv); by intros [= <-].
  - case_decide; [done|]. by intros [= <-].
  - by intros [= <-].
Qed.

Lemma services_run_devices sv actions sv' : Forall action_wire actions -> devices_wf (devices (sv_state sv)) ->
  services_run sv actions = Some sv' -> devices_wf (devices (sv_state sv')).
Proof.
  intros Ha. revert sv. induction Ha as [|a actions Ha _ IH]; intros sv Hd; cbn [services_run]; [by intros [= <-]|].
  destruct (service_step sv a) as [sv1|] eqn:E; [|done]. apply IH. by eapply service_step_devices.
Qed.

(** ** The server's state *)

(** A daemon of the server: what its services have made of it, in some interleaving, from the bytes it sent. *)
Definition served (upsd : UpsdState) : Prop :=
  exists c sub start actions sv, services_start (namespace upsd) c sub = Ok start /\
    Forall action_ok actions /\ Forall action_wire actions /\ services_run start actions = Some sv /\
    daemon_state upsd = sv_state sv.

(** The state that the routes see: every daemon is under its namespace, and has been served. *)
Definition server_served (servers : Servers) : Prop :=
  forall ns upsd, servers !! ns = Some upsd -> namespace upsd = ns /\ served upsd.

Lemma served_devices upsd : served upsd ->
  (forall n d, devices (daemon_state upsd) !! n = Some d -> name d = n /\ device_json_wf d).
Proof.
  intros (c & sub & start & actions & sv & Hstart & Hok & Hw & Hrun & ->) n d Hd.
  destruct (services_start_wf _ _ _ _ Hstart) as (Hwf & _). split.
  - destruct (services_run_ok _ _ _ Hok Hwf Hrun) as ([[Hg _] _ _ _ _ _] & _). by apply Hg.
  - revert Hd. apply (services_run_devices start actions sv Hw); [|done]. intros k e. unfold services_start in Hstart.
    destruct (status_service_interval c); [|done..]. cbn [obind] in Hstart. case_decide; [done|].
    injection Hstart as <-. cbn. by rewrite lookup_empty.
Qed.

Lemma served_named servers : server_served servers -> state_named servers.
Proof.
  intros H. split.
  - intros ns u Hu. by apply H in Hu as [? _].
  - intros ns u n d Hu Hd. apply H in Hu as [_ Hs]. by apply (served_devices u Hs) in Hd as [? _].
Qed.

Lemma served_json servers ns upsd n d : server_served servers -> servers !! ns = Some upsd ->
  devices (daemon_state upsd) !! n = Some d -> device_json_wf d.
Proof. intros H Hu Hd. apply H in Hu as [_ Hs]. by apply (served_devices upsd Hs) in Hd as [_ ?]. Qed.

(** Names that the parsers make are told apart by their texts. *)
Lemma entries_canonical {V} `{JsonRoundtrip V} (m : gmap VarName V) : entries_wf m -> vars_canonical m.
Proof.
  intros Hm a b [x Ha] [y Hb] E. apply Hm in Ha as [[Ca _] _], Hb as [[Cb _] _]. by apply canonical_inj.
Qed.


(** C27: Three of the pages show the state. In every state that the services reach, on any bytes of the daemons, the
    home page, the connection page and every tab of a device's page do not depend on the order in which the
    hash maps are iterated: the same request gives the same response, and otherwise, for the pages that are put
    together of one fragment per daemon, an error whatever the order, because the fragment of some daemon does
    not render. The home page lists the daemons by namespace and the devices of each by name, a query for a
    known namespace shows that daemon, and one for an unknown namespace shows every daemon. (The page of the
    system, whose template goes over the map of the users, and that of the topology are not among them.) *)
Theorem served_pages_deterministic
  `{Template TableRowsTemplate, Template HomeTemplate, Template DeviceTableBlock, Template DeviceContainerBlock}
  `{Template UpsdInfoTemplate, Template ConnectionPageTemplate, Template InfoCardsBlock}
  `{Template UpsPageTemplate, Template UpsStatusBlock, Template TabContentBlock}
  (config : ServerConfig) (servers : Servers) (Hs : server_served servers)
  (values values' : gmap UpsName DeviceEntry -> list DeviceEntry) (Hv : iterates_values values) (Hv' : iterates_values values')
  (iter iter' : Servers -> list (str * UpsdState)) (Hi : iterates iter) (Hi' : iterates iter')
  (vars vars' : UpsVariables -> list (VarName * Value)) (Hr : iterates vars) (Hr' : iterates vars')
  (rw rw' : gmap VarName VarDetail -> list (VarName * VarDetail)) (Hw : iterates rw) (Hw' : iterates rw')
  (section : option str) (session : option UserSession) :
  (forall ns, same_or_fail servers (fun u => render_device_rows values config u session)
     (home_get values iter config servers section ns session) (home_get values' iter' config servers section ns session)) /\
  (forall ns u, servers !! ns = Some u -> home_get values iter config servers section (Some ns) session =
     home_get values' iter' config servers section (Some ns) session) /\
  same_or_fail servers (render_info config session)
    (connection_get iter config servers section session) (connection_get iter' config servers section session) /\
  (forall ns ups tab descriptions, ups_get vars rw config servers ns ups section tab descriptions session =
              ups_get vars' rw' config servers ns ups section tab descriptions session) /\
  (forall ns, servers !! ns = None ->
     (forall n u, servers !! n = Some u -> is_ok (render_device_rows values config u session) = true) ->
     home_get values iter config servers section (Some ns) session =
     (let rows := sort_by (cmp_on rendered_namespace str_cmp) ((fun u =>
        mkRenderedRows (html_of (render_device_rows values config u session)) (namespace u)) <$> (map_to_list servers).*2) in
      let template := mkHomeTemplate rows (Some ns) (sort_by str_cmp (map_to_list servers).*1) in
      if decide (section = Some (lit "device_table")) then page_of config (as_device_table template) session
      else if decide (section = Some (lit "device_container")) then page_of config (as_device_container template) session
      else page_of config template session)).
Proof.
  apply (pages_canonical config servers); [by apply served_named| |done..].
  intros ns upsd n d Hu Hd. destruct (served_json servers ns upsd n d Hs Hu Hd) as (_ & _ & _ & Hrw & _ & Hvars).
  split; by apply entries_canonical.
Qed.

(** ** Witnesses: a daemon with one device, read off its bytes *)

#[local] Open Scope Z_scope.

(** A sign and as many zeros. *)
#[local] Definition wire_time (t : Z) : str := (if t <? 0 then "-"%byte else "+"%byte) :: replicate (Z.to_nat (Z.abs t)) "0"%byte.
#[local] Definition wire_read_time (s : str) : option Z :=
  match s with
  | c :: zeros => Some (if bool_decide (c = "-"%byte) then - Z.of_nat (length zeros) else Z.of_nat (length zeros))
  | [] => None
  end.

Lemma wire_time_read t : wire_read_time (wire_time t) = Some t.
Proof.
  unfold wire_read_time, wire_time. rewrite length_replicate, Z2Nat.id by lia. f_equal.
  destruct (Z.ltb_spec t 0); [rewrite bool_decide_true by done|rewrite bool_decide_false by done]; lia.
Qed.


#[local] Definition wire_device : UpsDevice := mkUpsDevice demo_ups (lit "The first").
(** A call on a connection that has [text] next. *)
#[local] Definition wire_call {A} (call : io A) (text : str) : outcome ErrorKind A := (call (mkStream [] text true None)).1.
#[local] Definition wire_answers (d : UpsDevice) : device_answers :=
  mkAnswers (wire_call (list_client demo_ups) (client_list_text demo_ups [lit "127.0.0.1"]))
    (wire_call (list_cmd demo_ups) (cmd_list_text demo_ups [mkCmdName (lit "beeper.off")]))
    (wire_call (list_rw demo_ups) (variables_text (lit "RW") demo_ups []))
    (wire_call (list_var demo_ups) (variables_text (lit "VAR") demo_ups [(UPS_STATUS, lit "OL CHRG"); (demo_var, lit "-5")])) [].
#[local] Definition wire_actions : list ServiceAction :=
  [DeviceTick; DeviceAnswered (Ok [wire_device]) (Ok (lit "1.3")) (Ok (lit "2.8"));
   DeviceWrite 1 [Sync.load (fun _ => None) 0 wire_answers wire_device] []].

Lemma wire_call_answered {A} (call : io A) text : answered call (wire_call call text).
Proof. intros a Ha. by exists (mkStream [] text true None). Qed.

Lemma wire_actions_ok : Forall action_ok wire_actions /\ Forall action_wire wire_actions.
Proof.
  split; unfold wire_actions; repeat first [apply Forall_nil_2 | apply Forall_cons_2]; try exact I;
    intros r [->|[]%elem_of_nil]%elem_of_cons; [by eexists _, _, _, _|].
  exists (fun _ => None), wire_answers, 0%Z, wire_device, (mkUpsList [wire_device]). split_and!; [|by left| |done].
  - intros a [= <-]. exists (mkStream [] (ups_list_text [wire_device]) true None). vm_compute. reflexivity.
  - split_and!; try apply wire_call_answered. by intros r ?%elem_of_nil.
Qed.

(** The daemon after these steps. *)
Lemma wire_served : exists upsd d, served upsd /\ namespace upsd = lit "main" /\ devices (daemon_state upsd) !! demo_ups = Some d.
Proof.
  assert (H1 : exists start, services_start (lit "main") (upsd_config demo_upsd) true = Ok start) by (eexists; reflexivity).
  destruct H1 as [start Hstart].
  assert (H2 : match services_start (lit "main") (upsd_config demo_upsd) true with
    | Ok s => match services_run s wire_actions with Some sv => bool_decide (is_Some (devices (sv_state sv) !! demo_ups)) | _ => false end
    | _ => false end = true) by (vm_compute; reflexivity).
  rewrite Hstart in H2. destruct (services_run start wire_actions) as [sv|] eqn:Hrun; [|discriminate H2].
  apply bool_decide_eq_true in H2 as [d Hd].
  exists (mkUpsdState (sv_state sv) (upsd_config demo_upsd) (lit "main")), d. split_and!; [|reflexivity|exact Hd].
  exists (upsd_config demo_upsd), true, start, wire_actions, sv. split_and!; [exact Hstart|apply wire_actions_ok..|exact Hrun|reflexivity].
Qed.

Lemma wire_server_served upsd : served upsd -> namespace upsd = lit "main" -> server_served {[lit "main" := upsd]}.
Proof.
  intros Hserved Hns ns u Hu. apply (lookup_singleton_Some (M := gmap str)) in Hu as [<- <-]. split; [exact Hns|exact Hserved].
Qed.


#[local] Instance wire_page T : Template T := fun _ _ => Ok (lit "page").

Lemma served_pages_deterministic_witness :
  exists upsd, served upsd /\ let servers := {[lit "main" := upsd]} in
  home_get (fun m => (map_to_list m).*2) map_to_list demo_config servers None (Some (lit "main")) None =
  home_get (fun m => reverse (map_to_list m).*2) (fun m => reverse (map_to_list m)) demo_config servers None (Some (lit "main")) None.
Proof.
  destruct wire_served as (upsd & d & Hserved & Hns & Hd). exists upsd. split; [exact Hserved|].
  refine (proj1 (proj2 (served_pages_deterministic demo_config _ (wire_server_served upsd Hserved Hns)
    (fun m => (map_to_list m).*2) (fun m => reverse (map_to_list m).*2) _ _
    map_to_list (fun m => reverse (map_to_list m)) _ _
    map_to_list (fun m => reverse (map_to_list m)) _ _
    map_to_list (fun m => reverse (map_to_list m)) _ _ None None)) (lit "main") upsd _);
    first [by apply (lookup_singleton_Some (M := gmap str)) | reflexivity | intros m; reflexivity | intros m; apply reverse_Permutation].
Defined.
