(* ===== verification/Lifecycle.v ===== *)
(** * The life of the process

    [main], [nut_webgui] and [start_server] of [main.rs]: from the sources of
    the configuration to the exit code. The steps are a small monad: a result,
    or the error that [?] returns early, and the list of what has been done to
    the world. The operating system, the libraries and what happens while the
    server runs are the fields of a [World]; the parts are those of [Startup],
    [ConfigLoad] and [PoolClient]. *)

From S2P Require Import Prelude RustStr Numbers Errors Names VarName Value Ip UpsVariables Status Auth Config State.
From S2P Require Import Client Web Pages Tls Startup ConfigLoad.
From S2P Require PoolClient.

Open Scope Z_scope.

#[global] Instance ServiceKind_eq_dec : EqDecision ServiceKind.
Proof. solve_decision. Defined.
#[global] Instance Fate_eq_dec : EqDecision Fate.
Proof. solve_decision. Defined.

(** ** Steps with effects *)

Inductive Effect :=
  | LogLevelChanged (level : LevelFilter)
  | RuntimeBuilt (worker_threads : option Z)
  | Bound (listen : IpAddr) (port : Z)
  | ServicesStarted (services : list ServiceKind)
  | Served                                   (** the HTTP server has closed *)
  | ServicesStopped (ok : bool) (fates : list Fate)
  | PoolClosed (namespace : str) (pool : PoolClient.NutPoolClient).

Definition launch (E A : Type) : Type := list Effect -> outcome E A * list Effect.

#[global] Instance launch_ret E : MRet (launch E) := fun A a fx => (Ok a, fx).
#[global] Instance launch_bind E : MBind (launch E) := fun A B f m fx =>
  match m fx with
  | (Ok a, fx) => f a fx
  | (Err e, fx) => (Err e, fx)
  | (Panicked, fx) => (Panicked, fx)
  | (OutOfFuel, fx) => (OutOfFuel, fx)
  end.
Definition attempt {E A} (r : outcome E A) : launch E A := fun fx => (r, fx).
Definition perform {E} (x : Effect) : launch E unit := fun fx => (Ok tt, fx ++ [x]).

(** ** [start_server] *)

Section start_server.

Context {E : Type} (scrypt : str -> str -> option str).

Record World := mkWorld {
  w_signals : outcome E unit;                                  (** the three signal handlers *)
  w_bind : IpAddr -> Z -> outcome E unit;                      (** [TcpListener::bind] *)
  w_load_users : str -> outcome E UsersConfigFile;
  w_users_iter : gmap str UserConfig -> list (str * UserConfig);
  w_fresh_salt : str -> str;
  w_platform_verifier : outcome E ServerCertVerifier;
  w_server_name : str -> outcome E str;
  w_upsd_iter : gmap str UpsdConfig -> list (str * UpsdConfig);
  w_servers_iter : gmap str (UpsdState * PoolClient.NutPoolClient) -> list str;
  w_serve : outcome E unit;                                    (** until a signal, or an error of the socket *)
  w_pools : str -> PoolClient.NutPoolClient -> PoolClient.NutPoolClient;   (** what the calls make of a pool *)
  w_ends : ServiceKind -> option Duration;
  w_wakeups : list Duration;
  w_abort_seen : bool;              (** the runtime has dropped an aborted task by the time it is looked at *)
  w_event_sockets : nat;            (** sockets of the event API that are still open *)
}.

Context (w : World).

(** The reference counts at the end: a task that has not been dropped holds what
    it was given, and so does the handler of an event socket that logs in. *)
Definition dropped_by (f : Fate) : bool :=
  match f with Finished => true | Aborted => w_abort_seen w | LeftRunning => false end.
Definition held (holds : ServiceKind -> bool) (services : list ServiceKind) (fates : list Fate) : nat :=
  length (filter (fun sf : ServiceKind * Fate => holds sf.1 && negb (dropped_by sf.2) = true) (zip services fates)).
Definition holds_server (s : ServiceKind) : bool := bool_decide (s = DescriptionSync).
Definition holds_upsd (ns : str) (s : ServiceKind) : bool := bool_decide (s = DeviceSync ns \/ s = StatusSync ns).

(** [Arc::into_inner] of the two kinds of state. *)
Definition server_into_inner (store : option UserStore) (services : list ServiceKind) (fates : list Fate) : bool :=
  bool_decide (held holds_server services fates + (if store is Some _ then w_event_sockets w else 0) = 0)%nat.
Definition upsd_into_inner (ns : str) (services : list ServiceKind) (fates : list Fate) : bool :=
  bool_decide (held (holds_upsd ns) services fates = 0)%nat.

(** The runner with the services in the order in which they are added. *)
Definition create_runner (servers : list str) : BackgroundServiceRunner ServiceKind :=
  foldl (fun bg ns => add_service (StatusSync ns) (add_service (DeviceSync ns) bg))
    (add_service MessageBroadcastService (add_service DescriptionSync
       (with_max_timeout (from_secs 10) Runner_new))) servers.

(** The loop that closes the pools. *)
Fixpoint close_pools (servers : gmap str (UpsdState * PoolClient.NutPoolClient)) (services : list ServiceKind)
  (fates : list Fate) (order : list str) : launch E unit :=
  match order with
  | [] => mret tt
  | ns :: order =>
      match servers !! ns with
      | Some (_, pool) =>
          (if upsd_into_inner ns services fates
           then perform (PoolClosed ns (PoolClient.pool_close (w_pools w ns pool))) else mret tt);;
          close_pools servers services fates order
      | None => close_pools servers services fates order
      end
  end.

Definition start_server (config : ServerConfig) : launch E unit :=
  attempt (w_signals w);;
  attempt (w_bind w (listen (http_server config)) (http_port (http_server config)));;
  perform (Bound (listen (http_server config)) (http_port (http_server config)));;
  auth_user_store ← attempt (create_user_store scrypt (w_load_users w) (w_users_iter w) (w_fresh_salt w) config);
  upsd_servers ← attempt (create_servers (w_platform_verifier w) (w_server_name w) (w_upsd_iter w (upsd config)) ∅);
  let order := w_servers_iter w upsd_servers in
  let service_runner := runner_start (create_runner order) in
  perform (ServicesStarted (handles service_runner));;
  attempt (w_serve w);;
  perform Served;;
  match stop (w_ends w) service_runner (w_wakeups w) with
  | Some (ok, _, fates) =>
      perform (ServicesStopped ok fates);;
      if server_into_inner auth_user_store (handles service_runner) fates
      then close_pools upsd_servers (handles service_runner) fates order
      else mret tt
  | None => attempt OutOfFuel
  end.

End start_server.

#[global] Arguments World : clear implicits.
#[global] Arguments mkWorld {E} _ _ _ _ _ _ _ _ _ _ _ _ _ _ _.

(** ** [nut_webgui] and [main] *)

Section nut_webgui.

Context {IoError DeError ClapError E : Type} (scrypt : str -> str -> option str).
(** Errors as [Box<dyn Error>]; [clap::Error::exit] ends the process with this code. *)
Context (boxed : ConfigError IoError DeError ClapError -> E).
Context (exit_code : ClapError -> Z).
Context (modify_log : LevelFilter -> outcome E unit) (build_runtime : option Z -> outcome E unit).

Inductive Exit := ExitSuccess | ExitFailure | ExitWith (code : Z).

(** [inl]: the process has ended inside. *)
Definition nut_webgui (w : World E) (load : outcome (ConfigError IoError DeError ClapError)
    ServerConfig) : launch E (Z + unit) :=
  match load with
  | Err (Arguments e) => mret (inl (exit_code e))
  | v =>
      config ← attempt (map_err boxed v);
      (if decide (log_level config <> INFO)
       then attempt (modify_log (log_level config));; perform (LogLevelChanged (log_level config)) else mret tt);;
      let workers := worker_count (http_server config) in
      attempt (build_runtime workers);;
      perform (RuntimeBuilt workers);;
      start_server scrypt w config;;
      mret (inr tt)
  end.

(** [None]: the process has not come to an end, or [main] has panicked. *)
Definition main (w : World E) (load : outcome (ConfigError IoError DeError ClapError)
    ServerConfig) : option Exit * list Effect :=
  match nut_webgui w load [] with
  | (Ok (inl code), fx) => (Some (ExitWith code), fx)
  | (Ok (inr tt), fx) => (Some ExitSuccess, fx)
  | (Err _, fx) => (Some ExitFailure, fx)
  | (_, fx) => (None, fx)
  end.

End nut_webgui.

(** ** Lemmas *)

Lemma create_runner_spec order : runner_start (create_runner order) = mkHandle (from_secs 10) (bg_services order).
Proof.
  unfold create_runner. set (base := add_service _ _).
  assert (H : forall order bg, services (foldl (fun bg ns => add_service (StatusSync ns) (add_service (DeviceSync ns) bg))
      bg order) = services bg ++ (ns ← order; [DeviceSync ns; StatusSync ns]) /\
    runner_timeout (foldl (fun bg ns => add_service (StatusSync ns) (add_service (DeviceSync ns) bg)) bg order) =
      runner_timeout bg).
  { clear. induction order as [|ns order IH]; intros bg; cbn [foldl mbind list_bind]; [by rewrite app_nil_r|].
    destruct (IH (add_service (StatusSync ns) (add_service (DeviceSync ns) bg))) as [-> ->]. cbn. by rewrite <- !app_assoc. }
  unfold runner_start. by destruct (H order base) as [-> ->].
Qed.

Section lifecycle.

Context {E : Type} (scrypt : str -> str -> option str) (w : World E).

Lemma held_none holds services fates :
  held w holds services fates = 0%nat <->
  forall s f, (s, f) ∈ zip services fates -> holds s = true -> dropped_by w f = true.
Proof.
  unfold held. generalize (zip services fates) as l. induction l as [|[s f] l IH].
  { split; [|done]. by intros _ s f ?%elem_of_nil. }
  rewrite filter_cons. cbn [fst snd]. destruct (holds s) eqn:Hs, (dropped_by w f) eqn:Hf; cbn [andb negb].
  2:{ rewrite decide_True by done. split; [done|]. intros H. exfalso.
      specialize (H s f (list_elem_of_here _ _) Hs). congruence. }
  all: rewrite decide_False by done; rewrite IH; split; intros H s' f'.
  all: try (intros Hin; apply H; by right).
  all: intros [[= -> ->]|Hin]%elem_of_cons Hh; [congruence|by apply (H s' f')].
Qed.

(** The fates of a stop that has run into the time-out: the first service that has not ended is
    aborted, every later one that has not ended is left running. *)
Definition first_aborted (in_time : ServiceKind -> bool) (services : list ServiceKind) (fates : list Fate) : Prop :=
  exists before s after, services = before ++ s :: after /\ Forall (fun s => in_time s = true) before /\
    in_time s = false /\
    fates = ((fun _ => Finished) <$> before) ++ Aborted ::
      ((fun s => if in_time s then Finished else LeftRunning) <$> after).

(** What the loop closes. *)
Definition closed_pools (servers : gmap str (UpsdState * PoolClient.NutPoolClient)) (services : list ServiceKind)
  (fates : list Fate) (order : list str) : list Effect :=
  ns ← order;
  match servers !! ns with
  | Some (_, pool) => if upsd_into_inner w ns services fates
                      then [PoolClosed ns (PoolClient.pool_close (w_pools w ns pool))] else []
  | None => []
  end.

Lemma close_pools_spec servers services fates order fx :
  close_pools w servers services fates order fx = (Ok tt, fx ++ closed_pools servers services fates order).
Proof.
  revert fx. induction order as [|ns order IH]; intros fx; cbn [close_pools closed_pools mbind list_bind].
  { by rewrite app_nil_r. }
  destruct (servers !! ns) as [[u pool]|]; [|apply IH].
  destruct (upsd_into_inner _ _ _ _); (etrans; [apply IH|]); [|done].
  by rewrite <- app_assoc.
Qed.

Lemma foldr_dealloc_closed l p :
  PoolClient.is_closed (foldr PoolClient.dealloc p l) = PoolClient.is_closed p /\
  PoolClient.idle (foldr PoolClient.dealloc p l) = PoolClient.idle p.
Proof. induction l as [|c l IH]; [done|]. exact IH. Qed.

Lemma elem_of_closed servers services fates order x : x ∈ closed_pools servers services fates order ->
  exists ns pool, x = PoolClosed ns pool /\ PoolClient.is_closed pool = true /\ PoolClient.idle pool = [].
Proof.
  unfold closed_pools. rewrite list_elem_of_bind. intros (ns & Hx & _).
  destruct (servers !! ns) as [[u pool]|]; [|by apply not_elem_of_nil in Hx].
  destruct (upsd_into_inner _ _ _ _); [|by apply not_elem_of_nil in Hx].
  apply list_elem_of_singleton in Hx as ->. eexists _, _. split; [done|]. apply foldr_dealloc_closed.
Qed.

Lemma closed_iff servers services fates order ns : (forall n, n ∈ order <-> is_Some (servers !! n)) ->
  (exists pool, PoolClosed ns pool ∈ closed_pools servers services fates order) <->
  is_Some (servers !! ns) /\ upsd_into_inner w ns services fates = true.
Proof.
  intros Ho. unfold closed_pools. split.
  - intros (pool & Hin). apply list_elem_of_bind in Hin as (n & Hx & Hn). apply Ho in Hn.
    destruct (servers !! n) as [[u p]|] eqn:E'; [|by apply not_elem_of_nil in Hx].
    destruct (upsd_into_inner _ n _ _) eqn:Hi; [|by apply not_elem_of_nil in Hx].
    apply list_elem_of_singleton in Hx as [= -> _]. by rewrite E'.
  - intros [[[u p] Hu] Hi]. eexists. apply list_elem_of_bind. exists ns. rewrite Hu, Hi. split; [by left|].
    apply Ho. by eexists.
Qed.

(** What has to be there before any service starts. *)
Definition prepare (config : ServerConfig)
  : outcome E (option UserStore * gmap str (UpsdState * PoolClient.NutPoolClient)) :=
  let? _ := w_signals w in
  let? _ := w_bind w (listen (http_server config)) (http_port (http_server config)) in
  let? store := create_user_store scrypt (w_load_users w) (w_users_iter w) (w_fresh_salt w) config in
  let? servers := create_servers (w_platform_verifier w) (w_server_name w) (w_upsd_iter w (upsd config)) ∅ in
  Ok (store, servers).

Definition bound (config : ServerConfig) : Effect :=
  Bound (listen (http_server config)) (http_port (http_server config)).

Lemma start_server_fails config e : prepare config = Err e ->
  (start_server scrypt w config []).1 = Err e /\
  forall l, ServicesStarted l ∉ (start_server scrypt w config []).2.
Proof.
  unfold prepare, start_server, attempt, perform, mbind, launch_bind.
  destruct (w_signals w); [|intros [= ->]; split; [done|intros l; apply not_elem_of_nil]|done..]. cbn [obind].
  destruct (w_bind w _ _); [|intros [= ->]; split; [done|intros l; apply not_elem_of_nil]|done..]. cbn [obind app].
  assert (Hb : forall l, ServicesStarted l ∉ [bound config]) by (intros l ?%list_elem_of_singleton; done).
  destruct (create_user_store _ _ _ _ _); [|by intros [= ->]|done..]. cbn [obind].
  destruct (create_servers _ _ _ _); [done|by intros [= ->]|done..].
Qed.

(** How a start goes on once everything is there. *)
Lemma start_server_goes config store servers : prepare config = Ok (store, servers) ->
  let services := bg_services (w_servers_iter w servers) in
  start_server scrypt w config [] =
  match w_serve w with
  | Ok _ =>
      match stop (w_ends w) (mkHandle (from_secs 10) services) (w_wakeups w) with
      | Some (ok, _, fates) =>
          (Ok tt, [bound config; ServicesStarted services; Served; ServicesStopped ok fates] ++
             if server_into_inner w store services fates
             then closed_pools servers services fates (w_servers_iter w servers) else [])
      | None => (OutOfFuel, [bound config; ServicesStarted services; Served])
      end
  | r => (r, [bound config; ServicesStarted services])
  end.
Proof.
  unfold prepare, start_server, attempt, perform, mbind, launch_bind, mret, launch_ret.
  destruct (w_signals w); [|done..]. destruct (w_bind w _ _); [|done..]. cbn [obind].
  destruct (create_user_store _ _ _ _ _) as [store'| | |]; [|done..]. cbn [obind].
  destruct (create_servers _ _ _ _) as [servers'| | |]; [|done..]. cbn [obind]. intros [= <- <-].
  rewrite create_runner_spec. cbn [handles app].
  destruct (w_serve w) as [[]| | |]; [|done..].
  destruct (stop _ _ _) as [[[ok now] fates]|]; [|done].
  destruct (server_into_inner _ _ _ _); [by rewrite close_pools_spec|done].
Qed.

End lifecycle.

(** The fates that [stop] reports, one per service. *)
Lemma stop_fates {E} (w : World E) (services : list ServiceKind) early more :
  w_wakeups w = early ++ from_secs 10 :: more -> Forall (fun now => now < from_secs 10) early ->
  exists ok now fates, stop (w_ends w) (mkHandle (from_secs 10) services) (w_wakeups w) = Some (ok, now, fates) /\
    length fates = length services /\
    (ok = true <-> forall s, s ∈ services -> ended (w_ends w) (from_secs 10) s = true) /\
    (ok = true -> forall f, f ∈ fates -> f = Finished) /\
    (ok = false -> first_aborted (fun s => ended (w_ends w) (from_secs 10) s) services fates).
Proof.
  intros -> He.
  destruct (stop_cases (w_ends w) (from_secs 10) services early more He)
    as (now & _ & [[Hf Hstop]|(l1 & s & l2 & -> & Hf & Hs & Hstop)]); eexists _, now, _;
    (split; [exact Hstop|]); split_and!.
  - by rewrite length_fmap.
  - split; [|done]. intros _. by apply list.Forall_forall.
  - intros _ f Hin. by apply list_elem_of_fmap in Hin as (? & -> & _).
  - done.
  - rewrite !length_app. cbn. by rewrite !length_fmap.
  - split; [done|]. intros H. rewrite H in Hs; [done|]. apply elem_of_app. right. by left.
  - done.
  - intros _. by exists l1, s, l2.
Qed.

(** The keys of a map, in any order. *)
Lemma iter_keys {A} (m : gmap str A) l : l ≡ₚ (map_to_list m).*1 -> forall n, n ∈ l <-> is_Some (m !! n).
Proof.
  intros Hl n. rewrite Hl, list_elem_of_fmap. split.
  - intros ([k v] & -> & Hk). apply elem_of_map_to_list in Hk. by exists v.
  - intros [v Hv]. exists (n, v). split; [done|]. by apply elem_of_map_to_list.
Qed.

Lemma prepare_servers {E} scrypt (w : World E) config store servers :
  (forall m, w_upsd_iter w m ≡ₚ map_to_list m) -> prepare scrypt w config = Ok (store, servers) ->
  forall ns, is_Some (servers !! ns) <-> is_Some (upsd config !! ns).
Proof.
  intros Hit Hp ns. unfold prepare in Hp. do 4 inv_obind. injection Hp as -> ->.
  match goal with Hc : create_servers _ _ _ _ = Ok _ |- _ =>
    pose proof (create_servers_dom _ _ _ _ _ (Hit _) Hc ns) as Hl end.
  destruct (upsd config !! ns); [destruct Hl as (pool & _ & ->); split; by eexists|by rewrite Hl].
Qed.

(** The pools that are closed in the end, of those that are there. *)
Lemma closed_all {E} (w : World E) store servers services fates order ns :
  (forall n, n ∈ order <-> is_Some (servers !! n)) ->
  (exists pool, PoolClosed ns pool ∈ (if server_into_inner w store services fates
                                      then closed_pools w servers services fates order else [])) <->
  is_Some (servers !! ns) /\ (store = None \/ w_event_sockets w = 0%nat) /\
  forall s f, (s, f) ∈ zip services fates -> s ∈ [DescriptionSync; DeviceSync ns; StatusSync ns] ->
    dropped_by w f = true.
Proof.
  intros Ho.
  assert (Hserver : server_into_inner w store services fates = true <->
    (store = None \/ w_event_sockets w = 0%nat) /\
    forall s f, (s, f) ∈ zip services fates -> s = DescriptionSync -> dropped_by w f = true).
  { unfold server_into_inner, holds_server. rewrite bool_decide_eq_true, Nat.eq_add_0, held_none.
    setoid_rewrite bool_decide_eq_true. destruct store; intuition discriminate. }
  assert (Hupsd : upsd_into_inner w ns services fates = true <->
    forall s f, (s, f) ∈ zip services fates -> s = DeviceSync ns \/ s = StatusSync ns -> dropped_by w f = true).
  { unfold upsd_into_inner, holds_upsd. rewrite bool_decide_eq_true, held_none. by setoid_rewrite bool_decide_eq_true. }
  setoid_rewrite elem_of_cons. setoid_rewrite elem_of_cons. setoid_rewrite list_elem_of_singleton.
  destruct (server_into_inner w store services fates).
  - rewrite closed_iff by done. rewrite Hupsd. destruct Hserver as [Hs _]. specialize (Hs eq_refl). naive_solver.
  - split; [by intros (pool & ?%not_elem_of_nil)|]. intros (_ & Hs & Hd).
    destruct Hserver as [_ Hs']. discriminate Hs'. split; [done|]. intros s f Hin ->. apply (Hd _ _ Hin). by left.
Qed.

(** ** The start, the run and the end *)

(** No service starts unless the signal handlers, the socket, the users and the pools of all
    daemons are there; the first that is not is the error. If the HTTP server fails, its error is the
    result and nothing is stopped or closed. Otherwise the start succeeds, once the services have been
    given ten seconds to stop, which is [ok] exactly when all of them do; if not, only the first that
    has not is aborted and the others are left running. The pool of a daemon is then
    closed, with no connection left in it, exactly when no log-in socket of the event API holds the
    state any more and neither the description service nor one of the two services of the daemon is
    still there; so all are closed when everything has stopped in time and no such socket is left. *)
Lemma start_and_stop {E : Type} (scrypt : str -> str -> option str) (w : World E) (config : ServerConfig) early more
  (Hupsd : forall m, w_upsd_iter w m ≡ₚ map_to_list m)
  (Hservers : forall m, w_servers_iter w m ≡ₚ (map_to_list m).*1)
  (Hwake : w_wakeups w = early ++ from_secs 10 :: more) (Hearly : Forall (fun now => now < from_secs 10) early) :
  let run := start_server scrypt w config [] in
  (forall e, prepare scrypt w config = Err e -> run.1 = Err e /\ forall l, ServicesStarted l ∉ run.2) /\
  (forall store servers, prepare scrypt w config = Ok (store, servers) ->
    (forall ns, is_Some (servers !! ns) <-> is_Some (upsd config !! ns)) /\
    let services := bg_services (w_servers_iter w servers) in
    (forall e, w_serve w = Err e -> run = (Err e, [bound config; ServicesStarted services])) /\
    (w_serve w = Ok tt -> exists ok fates closed,
      run = (Ok tt, [bound config; ServicesStarted services; Served; ServicesStopped ok fates] ++ closed) /\
      (ok = true <-> forall s, s ∈ services -> ended (w_ends w) (from_secs 10) s = true) /\
      (ok = false -> first_aborted (fun s => ended (w_ends w) (from_secs 10) s) services fates) /\
      (forall x, x ∈ closed -> exists ns pool, x = PoolClosed ns pool /\
         PoolClient.is_closed pool = true /\ PoolClient.idle pool = []) /\
      (forall ns, (exists pool, PoolClosed ns pool ∈ closed) <->
         is_Some (upsd config !! ns) /\ (store = None \/ w_event_sockets w = 0%nat) /\
         forall s f, (s, f) ∈ zip services fates -> s ∈ [DescriptionSync; DeviceSync ns; StatusSync ns] ->
           dropped_by w f = true) /\
      (ok = true -> (store = None \/ w_event_sockets w = 0%nat) ->
         forall ns, is_Some (upsd config !! ns) -> exists pool, PoolClosed ns pool ∈ closed))).
Proof.
  cbn zeta. split; [by apply start_server_fails|]. intros store servers Hp.
  pose proof (prepare_servers scrypt w config store servers Hupsd Hp) as Hdom. split; [done|].
  rewrite (start_server_goes _ _ _ _ _ Hp). split; [by intros e ->|]. intros ->.
  set (services := bg_services (w_servers_iter w servers)).
  destruct (stop_fates w services early more Hwake Hearly) as (ok & now & fates & -> & Hlen & Hok & Hfin & Habort).
  assert (Ho : forall n, n ∈ w_servers_iter w servers <-> is_Some (servers !! n))
    by (intros n; by apply iter_keys).
  eexists ok, fates, _. split; [done|].
  pose proof (closed_all w store servers services fates (w_servers_iter w servers)) as Hclosed.
  split_and!; [done..| | |].
  - intros x. destruct (server_into_inner _ _ _ _); [apply elem_of_closed|by intros ?%not_elem_of_nil].
  - intros ns. rewrite Hclosed by done. by rewrite Hdom.
  - intros Hk Hs ns Hns. apply Hclosed; [done|]. rewrite Hdom. split_and!; [done..|].
    intros s f Hin%elem_of_zip_r _. by rewrite (Hfin Hk f).
Qed.

(** ** The exit code *)

(** A step only adds to what has been done. *)
Definition appends {E A} (m : launch E A) : Prop := forall fx, m fx = ((m []).1, fx ++ (m []).2).

Lemma appends_ret {E A} (a : A) : appends (mret (M := launch E) a).
Proof. intros fx. cbn. by rewrite app_nil_r. Qed.
Lemma appends_attempt {E A} (r : outcome E A) : appends (attempt r).
Proof. intros fx. cbn. by rewrite app_nil_r. Qed.
Lemma appends_perform {E} x : appends (perform (E := E) x).
Proof. done. Qed.
Lemma appends_bind {E A B} (m : launch E A) (f : A -> launch E B) :
  appends m -> (forall a, appends (f a)) -> appends (m ≫= f).
Proof.
  intros Hm Hf fx. unfold mbind, launch_bind. rewrite (Hm fx). destruct (m []) as [[a|e| |] fx']; cbn; [|done..].
  rewrite (Hf a (fx ++ fx')), (Hf a fx'). cbn. by rewrite app_assoc.
Qed.

#[local] Hint Resolve appends_ret appends_attempt appends_perform : core.

Lemma appends_start_server {E} scrypt (w : World E) config : appends (start_server scrypt w config).
Proof.
  unfold start_server. repeat (apply appends_bind; [done|intros ?]). cbn zeta.
  destruct (stop _ _ _) as [[[ok now] fates]|]; [|done]. apply appends_bind; [done|intros ?].
  destruct (server_into_inner _ _ _ _); [|done].
  intros fx. by rewrite !close_pools_spec.
Qed.

(** The exit code: what [clap] says of the arguments, else failure at the first error of the
    configuration, of the log level, of the runtime or of the server, else success. *)
Lemma main_exit {IoError DeError ClapError E : Type} (scrypt : str -> str -> option str)
  (boxed : ConfigError IoError DeError ClapError -> E) exit_code modify_log build_runtime (w : World E) load :
  (main scrypt boxed exit_code modify_log build_runtime w load).1 =
  match load with
  | Err (Arguments e) => Some (ExitWith (exit_code e))
  | Err _ => Some ExitFailure
  | Ok config =>
      match (let? _ := if decide (log_level config <> INFO) then modify_log (log_level config) else Ok tt in
             let? _ := build_runtime (worker_count (http_server config)) in
             (start_server scrypt w config []).1) with
      | Ok _ => Some ExitSuccess
      | Err _ => Some ExitFailure
      | _ => None
      end
  | _ => None
  end.
Proof.
  unfold main, nut_webgui. destruct load as [config|[e|e|e]| |]; cbn [map_err]; [|done..].
  unfold attempt, perform, mbind, launch_bind, mret, launch_ret.
  case_decide; [destruct (modify_log _) as [[]| | |]; [|done..]|]; cbn [obind app];
    (destruct (build_runtime _); [|done..]); cbn [obind app];
    match goal with |- context [start_server scrypt w config (?x :: ?l)] =>
      rewrite (appends_start_server scrypt w config (x :: l)) end;
    by destruct (start_server scrypt w config []) as [[[]| | |] fx].
Qed.

(** ** A small world *)

Definition demo_launch_config : ServerConfig :=
  mkServerConfig None None INFO [] HttpServerConfig_default {[ lit "nut" := UpsdConfig_default ]} None.

Definition demo_world (ends : ServiceKind -> option Duration) (sockets : nat) : World unit :=
  mkWorld (Ok tt) (fun _ _ => Ok tt) (fun _ => Err tt) map_to_list (fun _ => []) (Ok SkipTlsVerifier) Ok map_to_list
    (fun m => (map_to_list m).*1) (Ok tt) (fun _ p => p) ends [1; from_secs 10] false sockets.

Lemma demo_prepared ends sockets : exists servers,
  prepare demo_scrypt (demo_world ends sockets) demo_launch_config = Ok (None, servers).
Proof.
  unfold prepare. cbn [demo_world w_signals w_bind w_upsd_iter w_platform_verifier w_server_name obind].
  unfold demo_launch_config. cbn [upsd]. rewrite map_to_list_singleton. eexists. reflexivity.
Qed.
