(* ===== verification/Shutdown.v ===== *)
(** * The shutdown with the tasks in place of their fates

    [RunnerHandle::stop] of [background_service.rs] against the tasks of
    [Services]: the time at which a service ends, a parameter of [Lifecycle], is
    here the time of the step that ends its task in a timed run of the two
    services of each daemon. Every step is paid for by the ticks of an interval:
    a task has few steps to take before it has to wait for the next tick, and
    waits nowhere without looking at the cancellation. *)

From Stdlib Require Import Sorting.Sorted.
From S2P Require Import Prelude RustStr Numbers Errors Names VarName Value Ip UpsVariables Response Status.
From S2P Require Import Auth Config State Events Sync Broadcast StatusWidth Tls Startup Lifecycle Services.
From S2P Require PoolClient.

Open Scope Z_scope.

(** ** Timed runs *)

(** The steps of both tasks and of the others, with the times since the cancellation. *)
Abbreviation Timed := (list (Z * ServiceAction)).

Definition device_action (a : ServiceAction) : bool :=
  match a with DeviceTick | DeviceAnswered _ _ _ | DeviceWrite _ _ _ | DeviceCancelled => true | _ => false end.
Definition status_action (a : ServiceAction) : bool :=
  match a with
  | StatusTick _ | StatusSnapshot | StatusWrite _ _ | StateWrite _ _ _ | StatusPublish | StatusCancelled => true
  | _ => false
  end.
Definition device_tick (a : ServiceAction) : bool := match a with DeviceTick => true | _ => false end.
Definition status_tick (a : ServiceAction) : bool := match a with StatusTick _ => true | _ => false end.

Definition device_ended (sv : Services) : bool := match sv_device sv with DEnded => true | _ => false end.
Definition status_ended (sv : Services) : bool := match sv_status sv with SEnded => true | _ => false end.

(** The steps until the time [limit], and those of one kind among them. *)
Fixpoint until (limit : Duration) (l : Timed) : Timed :=
  match l with
  | [] => []
  | (t, a) :: l => if t <=? limit then (t, a) :: until limit l else []
  end.
Definition times (f : ServiceAction -> bool) (l : Timed) : list Z := (filter (fun x => f x.2 = true) l).*1.
Definition steps (f : ServiceAction -> bool) (l : Timed) : Z := Z.of_nat (length (times f l)).

(** When the task ends: at once, if it has ended before. *)
Fixpoint end_step (over : Services -> bool) (sv : Services) (l : Timed) : option Duration :=
  match l with
  | [] => None
  | (t, a) :: l =>
      match service_step sv a with
      | Some sv => if over sv then Some t else end_step over sv l
      | None => None
      end
  end.
Definition end_time (over : Services -> bool) (sv : Services) (l : Timed) : option Duration :=
  if over sv then Some 0 else end_step over sv l.

(** The ticks of tokio's [interval] with [MissedTickBehavior::Skip]: none before its deadline, and
    the next deadline is later than the tick, at a multiple of the period. *)
Inductive interval_ticks (period : Z) : Z -> list Z -> Prop :=
  | ticks_end deadline : interval_ticks period deadline []
  | ticks_next deadline t k l : deadline <= t -> 1 <= k -> t < deadline + k * period ->
      interval_ticks period (deadline + k * period) l -> interval_ticks period deadline (t :: l).

(** The periods of the two services, in seconds. *)
Definition device_period (c : UpsdConfig) : Duration := from_secs (poll_freq c).
Definition status_period (c : UpsdConfig) : Duration :=
  from_secs (if poll_freq c <=? poll_interval c then poll_freq c else poll_interval c).

(** What a daemon's services do from the cancellation on. *)
Record DaemonRun := mkDaemonRun { at_cancel : Services; timed : Timed }.

(** The services after [cancel]. *)
Definition cancelled (r : DaemonRun) : Services :=
  mkServices (sv_namespace (at_cancel r)) (sv_state (at_cancel r)) (sv_channel (at_cancel r)) (sv_device (at_cancel r))
    (sv_status (at_cancel r)) true.

(** It goes on from a state that the services have reached, on a clock, with intervals that skip. *)
Record run_ok (ns : str) (c : UpsdConfig) (r : DaemonRun) : Prop := {
  run_reached : exists sub start actions, services_start ns c sub = Ok start /\ Forall action_ok actions /\
    services_run start actions = Some (at_cancel r);
  run_steps : is_Some (services_run (at_cancel r) (Cancel :: (timed r).*2));
  run_answers : Forall action_ok (timed r).*2;
  run_clock : StronglySorted Z.le (0 :: (timed r).*1);
  run_device_ticks : exists deadline, interval_ticks (device_period c) deadline (times device_tick (timed r));
  run_status_ticks : exists deadline, interval_ticks (status_period c) deadline (times status_tick (timed r));
}.

(** When the services of the runner end. *)
Definition ends_of (runs : str -> DaemonRun) (others : ServiceKind -> option Duration) (s : ServiceKind)
  : option Duration :=
  match s with
  | DeviceSync ns => end_time device_ended (cancelled (runs ns)) (timed (runs ns))
  | StatusSync ns => end_time status_ended (cancelled (runs ns)) (timed (runs ns))
  | s => others s
  end.

(** The most steps a task can take in [limit] without an end. *)
Definition device_budget (limit : Duration) (c : UpsdConfig) : Z := 2 + 3 * (limit / device_period c + 2).
Definition status_budget (limit : Duration) (c : UpsdConfig) : Z := 3 + 4 * (limit / status_period c + 2).

(** ** Lemmas: ticks pay for steps *)

(** The steps a task still takes before it waits for a tick. *)
Definition device_left (sv : Services) : Z :=
  match sv_device sv with DAsking => 2 | DLoading _ _ _ _ => 1 | DTicking | DEnded => 0 end.
Definition status_left (sv : Services) : Z :=
  match sv_status sv with SSnapshot _ _ => 3 | SPolling _ _ _ => 2 | SPublishing _ _ => 1 | STicking _ | SEnded => 0 end.

Lemma times_cons f t a l : times f ((t, a) :: l) = if f a then t :: times f l else times f l.
Proof.
  unfold times. rewrite filter_cons. cbn [snd]. destruct (f a); by rewrite ?decide_True, ?decide_False by done.
Qed.
Lemma steps_cons f t a l : steps f ((t, a) :: l) = (if f a then 1 else 0) + steps f l.
Proof. unfold steps. rewrite times_cons. destruct (f a); cbn; lia. Qed.

Lemma until_times f limit l : Forall (fun t => t <= limit) (times f (until limit l)).
Proof.
  induction l as [|[t a] l IH]; cbn [until]; [constructor|]. destruct (Z.leb_spec t limit); [|constructor].
  rewrite times_cons. destruct (f a); [by constructor|done].
Qed.
Lemma until_prefix limit l : until limit l `prefix_of` l.
Proof.
  induction l as [|[t a] l IH]; cbn [until]; [done|]. destruct (t <=? limit); [|apply prefix_nil].
  by apply prefix_cons.
Qed.

(** A step that leaves the task alive: it uses up what a tick has given. *)
Lemma device_step_paid sv a sv' : service_step sv a = Some sv' -> device_ended sv' = false ->
  device_ended sv = false /\
  (if device_action a then 1 else 0) + device_left sv' <= device_left sv + 3 * (if device_tick a then 1 else 0).
Proof.
  destruct sv as [ns s ch d p c]. unfold device_ended, device_left. intros Hs Hd.
  destruct a; cbn [service_step device_action device_tick] in *; cbn [sv_device sv_status sv_namespace sv_state sv_cancelled] in *;
    destruct d; repeat case_match; simplify_eq/=; try done; split; done || lia.
Qed.
Lemma status_step_paid sv a sv' : service_step sv a = Some sv' -> status_ended sv' = false ->
  status_ended sv = false /\
  (if status_action a then 1 else 0) + status_left sv' <= status_left sv + 4 * (if status_tick a then 1 else 0).
Proof.
  destruct sv as [ns s ch d p c]. unfold status_ended, status_left. intros Hs Hd.
  destruct a; cbn [service_step status_action status_tick] in *; cbn [sv_device sv_status sv_namespace sv_state sv_cancelled] in *;
    destruct p; repeat case_match; simplify_eq/=; try done; split; done || lia.
Qed.

Lemma end_step_elem over l : forall sv d, end_step over sv l = Some d -> d ∈ l.*1.
Proof.
  induction l as [|[t a] l IH]; intros sv d; cbn [end_step fmap list_fmap fst]; [done|].
  destruct (service_step sv a) as [sv1|]; [|done]. destruct (over sv1); [intros [= ->]; by left|].
  intros H. right. by apply IH in H.
Qed.

Lemma until_answers limit (l : Timed) : Forall action_ok l.*2 -> Forall action_ok (until limit l).*2.
Proof.
  destruct (until_prefix limit l) as [l2 Hl2]. intros H. rewrite Hl2, fmap_app in H.
  by apply list.Forall_app in H as [H _].
Qed.
Lemma run_until limit (l : Timed) sv sv' : services_run sv l.*2 = Some sv' ->
  is_Some (services_run sv (until limit l).*2).
Proof.
  destruct (until_prefix limit l) as [l2 Hl2]. intros H. rewrite Hl2, fmap_app, services_run_app in H.
  by destruct (services_run sv (until limit l).*2).
Qed.

(** A task whose ticks pay [cost] for each, and that has [left] steps to take before it waits. *)
Section paid.

Context (over : Services -> bool) (left : Services -> Z) (action tick : ServiceAction -> bool) (cost : Z).
Context (Hpaid : forall sv a sv', service_step sv a = Some sv' -> over sv' = false ->
  over sv = false /\ (if action a then 1 else 0) + left sv' <= left sv + cost * (if tick a then 1 else 0)).

Lemma run_paid l : forall sv sv', services_run sv l.*2 = Some sv' -> over sv' = false ->
  over sv = false /\ steps action l + left sv' <= left sv + cost * steps tick l.
Proof using Hpaid.
  induction l as [|[t a] l IH]; intros sv sv'; cbn [fmap list_fmap services_run snd].
  { intros [= ->] Ho. split; [done|]. unfold steps. cbn. lia. }
  destruct (service_step sv a) as [sv1|] eqn:E; [|done]. intros Hrun Ho.
  destruct (IH _ _ Hrun Ho) as [Ho1 Hl]. destruct (Hpaid _ _ _ E Ho1) as [Ho0 H1].
  split; [done|]. rewrite !steps_cons. lia.
Qed.

(** What has not ended by then is alive after the steps until then, and the other way round. *)
Lemma end_step_until limit l : forall sv sv', services_run sv l.*2 = Some sv' -> StronglySorted Z.le l.*1 ->
  over sv = false -> exists sv1, services_run sv (until limit l).*2 = Some sv1 /\
    over sv1 = ended (fun _ : unit => end_step over sv l) limit tt.
Proof using Hpaid.
  induction l as [|[t a] l IH]; intros sv sv'; cbn [fmap list_fmap services_run fst snd until end_step].
  { intros _ _ Ho. by exists sv. }
  destruct (service_step sv a) as [sv1|] eqn:E; [|done]. intros Hrun [Hs Hle]%StronglySorted_inv Ho.
  destruct (Z.leb_spec t limit) as [Ht|Ht]; cbn [fmap list_fmap services_run snd]; [rewrite E|].
  - destruct (over sv1) eqn:Ho1.
    + destruct (run_until limit l sv1 sv' Hrun) as [sv2 E2]. exists sv2. split; [done|].
      unfold ended. rewrite bool_decide_eq_true_2 by done.
      destruct (over sv2) eqn:Ho2; [done|]. destruct (run_paid _ _ _ E2 Ho2). congruence.
    + by apply IH with sv'.
  - exists sv. split; [done|]. rewrite Ho. symmetry. unfold ended.
    destruct (over sv1); [by rewrite bool_decide_eq_false_2 by lia|].
    destruct (end_step over sv1 l) as [d|] eqn:Ed; [|done]. rewrite bool_decide_eq_false_2; [done|].
    apply end_step_elem in Ed. rewrite list.Forall_forall in Hle. specialize (Hle _ Ed). lia.
Qed.

Lemma alive_until limit l sv sv' : services_run sv l.*2 = Some sv' -> StronglySorted Z.le l.*1 -> 0 <= limit ->
  ended (fun _ : unit => end_time over sv l) limit tt = false ->
  exists sv1, services_run sv (until limit l).*2 = Some sv1 /\ over sv1 = false.
Proof using Hpaid.
  intros Hrun Hs Hlim. unfold end_time. destruct (over sv) eqn:Ho.
  { unfold ended. by rewrite bool_decide_eq_true_2 by done. }
  intros He. destruct (end_step_until limit l sv sv' Hrun Hs Ho) as (sv1 & Hrun1 & Ho1). exists sv1. by rewrite Ho1.
Qed.

Lemma starved (m : Z) limit l sv sv' : (forall sv, 0 <= left sv <= m) -> services_run sv l.*2 = Some sv' ->
  StronglySorted Z.le l.*1 -> 0 <= limit -> ended (fun _ : unit => end_time over sv l) limit tt = false ->
  steps action (until limit l) <= m + cost * steps tick (until limit l).
Proof using Hpaid.
  intros Hm Hrun Hs Hlim. unfold end_time. destruct (over sv) eqn:Ho.
  { unfold ended. by rewrite bool_decide_eq_true_2 by done. }
  intros He. destruct (end_step_until limit l sv sv' Hrun Hs Ho) as (sv1 & Hrun1 & Ho1). rewrite He in Ho1.
  destruct (run_paid _ _ _ Hrun1 Ho1) as [_ Hp]. pose proof (Hm sv). pose proof (Hm sv1). lia.
Qed.

(** A task that has ended by then is over after the steps until then. *)
Lemma ended_over limit l sv sv' sv1 : services_run sv l.*2 = Some sv' -> StronglySorted Z.le l.*1 ->
  ended (fun _ : unit => end_time over sv l) limit tt = true -> services_run sv (until limit l).*2 = Some sv1 ->
  over sv1 = true.
Proof using Hpaid.
  intros Hrun Hs. unfold end_time. destruct (over sv) eqn:Ho; intros He H1.
  - destruct (over sv1) eqn:Ho1; [done|]. destruct (run_paid _ _ _ H1 Ho1). congruence.
  - destruct (end_step_until limit l sv sv' Hrun Hs Ho) as (sv2 & Hrun2 & Ho2). congruence.
Qed.

End paid.

(** ** Lemmas: the cancellation

    A cancelled task needs nobody but itself to end: its next look at the token is one step away, two if it
    has a batch to publish first. *)
Definition device_stoppable (sv : Services) : Prop :=
  exists sv', service_step sv DeviceCancelled = Some sv' /\ device_ended sv' = true.
Definition status_stoppable (sv : Services) : Prop :=
  exists own sv', own ∈ [[StatusCancelled]; [StatusPublish; StatusCancelled]] /\
    services_run sv own = Some sv' /\ status_ended sv' = true.

Lemma device_stops sv : sv_cancelled sv = true -> device_ended sv = false -> device_stoppable sv.
Proof.
  unfold device_stoppable, device_ended. destruct sv as [ns s ch d p c]. cbn. intros -> Hd.
  destruct d; [| | |done]; by eexists.
Qed.
Lemma status_stops sv : sv_cancelled sv = true -> status_ended sv = false -> status_stoppable sv.
Proof.
  unfold status_stoppable, status_ended. destruct sv as [ns s ch d p c]. cbn. intros -> Hd.
  destruct p as [i|i t|i t l|i events|]; [| | | |done].
  4: exists [StatusPublish; StatusCancelled]; eexists; (split; [by right; left|]); by split.
  all: exists [StatusCancelled]; eexists; (split; [by left|]); by split.
Qed.

Lemma step_cancelled sv a sv' : service_step sv a = Some sv' -> sv_cancelled sv = true -> sv_cancelled sv' = true.
Proof.
  destruct sv as [ns s ch d p c]. cbn [sv_cancelled]. intros Hs ->.
  destruct a; cbn [service_step] in Hs; cbn [sv_device sv_status sv_namespace sv_state sv_cancelled] in Hs;
    repeat case_match; by simplify_eq/=.
Qed.
Lemma run_cancelled l : forall sv sv', services_run sv l = Some sv' -> sv_cancelled sv = true -> sv_cancelled sv' = true.
Proof.
  induction l as [|a l IH]; intros sv sv'; cbn [services_run]; [by intros [= ->]|].
  destruct (service_step sv a) as [sv1|] eqn:E; [|done]. intros Hrun Hc. apply (IH _ _ Hrun). by apply (step_cancelled _ _ _ E).
Qed.

Lemma device_cancel_ends sv sv' : service_step sv DeviceCancelled = Some sv' -> device_ended sv' = true.
Proof. destruct sv as [ns s ch d p c]. destruct d, c; cbn; by intros [= <-]. Qed.
Lemma status_cancel_ends sv sv' : service_step sv StatusCancelled = Some sv' -> status_ended sv' = true.
Proof. destruct sv as [ns s ch d p c]. destruct p, c; cbn; by intros [= <-]. Qed.

(** A task that is alive in the end has been alive all along, and has not looked at the token. *)
Section alive.

Context (over : Services -> bool) (look : ServiceAction).
Context (Hover : forall sv a sv', service_step sv a = Some sv' -> over sv' = false -> over sv = false).
Context (Hlook : forall sv sv', service_step sv look = Some sv' -> over sv' = true).

Lemma run_alive l : forall sv sv', services_run sv l = Some sv' -> over sv' = false ->
  look ∉ l /\ forall n, exists sv1, services_run sv (take n l) = Some sv1 /\ over sv1 = false.
Proof using Hover Hlook.
  induction l as [|a l IH]; intros sv sv'; cbn [services_run].
  { intros [= ->] Ho. split; [apply not_elem_of_nil|]. intros []; by exists sv'. }
  destruct (service_step sv a) as [sv1|] eqn:E; [|done]. intros Hrun Ho. destruct (IH _ _ Hrun Ho) as [Hn Ht].
  destruct (Ht 0%nat) as (sv1' & [= <-] & Ho1).
  split.
  - intros [<-|Hin]%elem_of_cons; [|done]. apply Hlook in E. congruence.
  - intros [|n]; [exists sv; split; [done|by eapply Hover]|]. cbn [take services_run]. rewrite E. apply Ht.
Qed.

End alive.

(** ** Lemmas: how often an interval ticks *)

Lemma interval_ticks_prefix period l1 l2 : forall deadline,
  interval_ticks period deadline (l1 ++ l2) -> interval_ticks period deadline l1.
Proof.
  induction l1 as [|t l1 IH]; intros deadline; cbn [app]; [constructor|].
  inversion 1; subst. econstructor; eauto.
Qed.

Lemma interval_ticks_after period limit l : 0 < period -> Forall (fun t => t <= limit) l -> forall deadline,
  interval_ticks period deadline l -> 0 <= deadline -> 0 <= limit -> Z.of_nat (length l) <= limit / period + 1.
Proof.
  intros Hp Hl deadline H Hd Hlim.
  assert (Hn : forall l deadline, Forall (fun t => t <= limit) l -> interval_ticks period deadline l ->
    l = [] \/ deadline + (Z.of_nat (length l) - 1) * period <= limit).
  { clear -Hp. induction l as [|t l IH]; intros deadline Hl H; [by left|right]. inversion H; subst.
    apply list.Forall_cons in Hl as [Ht Hl]. destruct (IH _ Hl ltac:(eassumption)) as [->|Hi]; cbn [length]; nia. }
  destruct (Hn l deadline Hl H) as [->|Hle]; [pose proof (Z.div_pos limit period); cbn; lia|].
  enough (Z.of_nat (length l) - 1 <= limit / period) by lia. apply Z.div_le_lower_bound; nia.
Qed.

(** In a window from the time 0 on: one tick that may be late, and those whose deadlines are in it. *)
Lemma interval_ticks_bound period deadline limit l : 0 < period -> interval_ticks period deadline l ->
  Forall (fun t => 0 <= t <= limit) l -> 0 <= limit -> Z.of_nat (length l) <= limit / period + 2.
Proof.
  intros Hp H Hl Hlim. destruct H as [|deadline t k l H1 H2 H3 H4].
  { pose proof (Z.div_pos limit period). cbn. lia. }
  apply list.Forall_cons in Hl as [[Ht _] Hl]. cbn [length].
  pose proof (interval_ticks_after period limit l Hp) as Hb. specialize (Hb ltac:(eapply list.Forall_impl; [done|]; cbn; lia) _ H4 ltac:(lia) Hlim).
  lia.
Qed.

Lemma times_until f limit (l : Timed) : exists l2, times f l = times f (until limit l) ++ l2.
Proof.
  destruct (until_prefix limit l) as [l2 Hl2]. exists (times f l2). rewrite Hl2 at 1.
  unfold times. by rewrite list.filter_app, fmap_app.
Qed.

Lemma ticks_bound f period deadline limit (l : Timed) : 0 < period -> 0 <= limit ->
  interval_ticks period deadline (times f l) -> StronglySorted Z.le (0 :: l.*1) ->
  steps f (until limit l) <= limit / period + 2.
Proof.
  intros Hp Hlim H [_ Hpos]%StronglySorted_inv. destruct (times_until f limit l) as [l2 Hl2].
  rewrite Hl2 in H. apply interval_ticks_prefix in H.
  apply (interval_ticks_bound period deadline); [done..| |done].
  apply list.Forall_forall. intros t Ht.
  pose proof (until_times f limit l) as Hu. rewrite list.Forall_forall in Hu, Hpos. split; [|by apply Hu].
  apply Hpos. assert (Hin : t ∈ times f l) by (rewrite Hl2; apply elem_of_app; by left).
  unfold times in Hin. apply list_elem_of_fmap in Hin as (x & -> & Hx).
  apply list_elem_of_filter in Hx as [_ Hx]. by apply list_elem_of_fmap_2.
Qed.

(** ** Lemmas: one daemon *)

Lemma device_left_bound sv : 0 <= device_left sv <= 2.
Proof. unfold device_left. destruct (sv_device sv); lia. Qed.
Lemma status_left_bound sv : 0 <= status_left sv <= 3.
Proof. unfold status_left. destruct (sv_status sv); lia. Qed.

Lemma periods_positive ns c sub sv : 0 <= poll_freq c -> 0 <= poll_interval c -> services_start ns c sub = Ok sv ->
  0 < device_period c /\ 0 < status_period c.
Proof.
  unfold services_start, status_service_interval, UpsPollInterval_new, device_period, status_period, from_secs.
  intros Hf Hi. destruct (poll_freq c <=? poll_interval c); cbn [obind]; repeat (case_decide; try done); lia.
Qed.

Section daemon.

Context (ns : str) (c : UpsdConfig) (r : DaemonRun) (limit : Duration).
Context (Hfreq : 0 <= poll_freq c) (Hinterval : 0 <= poll_interval c) (Hok : run_ok ns c r) (Hlimit : 0 <= limit).

Lemma run_periods : 0 < device_period c /\ 0 < status_period c.
Proof using Hfreq Hinterval Hok. destruct (run_reached _ _ _ Hok) as (? & ? & ? & Hs & _). by eapply periods_positive. Qed.

Lemma run_sorted : StronglySorted Z.le (timed r).*1.
Proof using Hok. by destruct (StronglySorted_inv (run_clock _ _ _ Hok)). Qed.

(** A service of the daemon that has not ended by then: its task has had few steps, and could have ended
    after each of them. *)
Lemma device_starved : ended (fun _ : unit => end_time device_ended (cancelled r) (timed r)) limit tt = false ->
  steps device_action (until limit (timed r)) <= device_budget limit c /\
  DeviceCancelled ∉ (until limit (timed r)).*2 /\
  forall n, exists sv, services_run (cancelled r) (take n (until limit (timed r)).*2) = Some sv /\ device_stoppable sv.
Proof using Hfreq Hinterval Hok Hlimit.
  intros He. destruct (run_steps _ _ _ Hok) as [sv' Hrun]. destruct (run_device_ticks _ _ _ Hok) as [d Hd]. split.
  - pose proof (starved device_ended device_left device_action device_tick 3 device_step_paid 2 limit _ _ _
      device_left_bound Hrun run_sorted Hlimit He).
    pose proof (ticks_bound _ _ _ limit _ (proj1 run_periods) Hlimit Hd (run_clock _ _ _ Hok)).
    unfold device_budget. lia.
  - destruct (alive_until device_ended device_left device_action device_tick 3 device_step_paid limit _ _ _ Hrun run_sorted
      Hlimit He) as (sv1 & Hrun1 & Ho).
    destruct (run_alive device_ended DeviceCancelled (fun sv a sv2 H H' => proj1 (device_step_paid sv a sv2 H H'))
      device_cancel_ends _ _ _ Hrun1 Ho) as [Hno Hal].
    split; [exact Hno|]. intros n. destruct (Hal n) as (sv & Hsv & Hov). exists sv. split; [done|].
    apply device_stops; [|done]. by apply (run_cancelled _ _ _ Hsv).
Qed.
Lemma status_starved : ended (fun _ : unit => end_time status_ended (cancelled r) (timed r)) limit tt = false ->
  steps status_action (until limit (timed r)) <= status_budget limit c /\
  StatusCancelled ∉ (until limit (timed r)).*2 /\
  forall n, exists sv, services_run (cancelled r) (take n (until limit (timed r)).*2) = Some sv /\ status_stoppable sv.
Proof using Hfreq Hinterval Hok Hlimit.
  intros He. destruct (run_steps _ _ _ Hok) as [sv' Hrun]. destruct (run_status_ticks _ _ _ Hok) as [d Hd]. split.
  - pose proof (starved status_ended status_left status_action status_tick 4 status_step_paid 3 limit _ _ _
      status_left_bound Hrun run_sorted Hlimit He).
    pose proof (ticks_bound _ _ _ limit _ (proj2 run_periods) Hlimit Hd (run_clock _ _ _ Hok)).
    unfold status_budget. lia.
  - destruct (alive_until status_ended status_left status_action status_tick 4 status_step_paid limit _ _ _ Hrun run_sorted
      Hlimit He) as (sv1 & Hrun1 & Ho).
    destruct (run_alive status_ended StatusCancelled (fun sv a sv2 H H' => proj1 (status_step_paid sv a sv2 H H'))
      status_cancel_ends _ _ _ Hrun1 Ho) as [Hno Hal].
    split; [exact Hno|]. intros n. destruct (Hal n) as (sv & Hsv & Hov). exists sv. split; [done|].
    apply status_stops; [|done]. by apply (run_cancelled _ _ _ Hsv).
Qed.

(** When both have ended by then, the state is well formed and stays what it is. *)
Lemma both_ended :
  ended (fun _ : unit => end_time device_ended (cancelled r) (timed r)) limit tt = true ->
  ended (fun _ : unit => end_time status_ended (cancelled r) (timed r)) limit tt = true ->
  exists final, services_run (cancelled r) (until limit (timed r)).*2 = Some final /\ stopped final /\
    daemon_wf (sv_state final) /\
    forall more later, services_run final more = Some later -> sv_state later = sv_state final.
Proof using Hok.
  intros Hd Hs. destruct (run_steps _ _ _ Hok) as [sv' Hrun].
  destruct (run_until limit (timed r) (cancelled r) sv' Hrun) as [final Hfinal]. exists final.
  pose proof (ended_over device_ended device_left _ _ _ device_step_paid limit _ _ _ _ Hrun run_sorted Hd Hfinal) as H1.
  pose proof (ended_over status_ended status_left _ _ _ status_step_paid limit _ _ _ _ Hrun run_sorted Hs Hfinal) as H2.
  assert (Hst : stopped final).
  { unfold stopped. unfold device_ended, status_ended in H1, H2. by destruct (sv_device final), (sv_status final). }
  split_and!; [done..| |by intros more later; apply stopped_run].
  destruct (run_reached _ _ _ Hok) as (sub & start & actions & Hstart & Ha & Hreach).
  apply services_start_wf in Hstart as (Hwf & _).
  destruct (services_run_ok _ _ _ Ha Hwf Hreach) as (Hwf1 & _).
  destruct (service_step_ok (at_cancel r) Cancel (cancelled r) I Hwf1 eq_refl) as [Hwf2 _].
  destruct (services_run_ok _ _ _ (until_answers limit _ (run_answers _ _ _ Hok)) Hwf2 Hfinal) as (Hwf3 & _).
  by apply wf_state.
Qed.

End daemon.

(** ** The start, the run and the end *)

(** What is to be said of a service that has not ended in the ten seconds: the task of a daemon has
    been given no more steps than its budget; at every moment since the cancellation it was one look at the
    token away from its end (with a batch to publish two steps, which wait for nothing); and it has not been
    let to take that look. *)
Definition slow (runs : str -> DaemonRun) (config : ServerConfig) (limit : Duration) (s : ServiceKind) : Prop :=
  match s with
  | DeviceSync ns => exists c, upsd config !! ns = Some c /\
      steps device_action (until limit (timed (runs ns))) <= device_budget limit c /\
      DeviceCancelled ∉ (until limit (timed (runs ns))).*2 /\
      forall n, exists sv, services_run (cancelled (runs ns)) (take n (until limit (timed (runs ns))).*2) = Some sv /\
        device_stoppable sv
  | StatusSync ns => exists c, upsd config !! ns = Some c /\
      steps status_action (until limit (timed (runs ns))) <= status_budget limit c /\
      StatusCancelled ∉ (until limit (timed (runs ns))).*2 /\
      forall n, exists sv, services_run (cancelled (runs ns)) (take n (until limit (timed (runs ns))).*2) = Some sv /\
        status_stoppable sv
  | _ => True
  end.

Lemma bg_services_daemon order ns : ns ∈ order ->
  DeviceSync ns ∈ bg_services order /\ StatusSync ns ∈ bg_services order.
Proof.
  intros Hns. unfold bg_services. split; apply elem_of_app; right; apply list_elem_of_bind; exists ns;
    split; try done; [by left|by right; left].
Qed.
Lemma bg_services_inv order s : s ∈ bg_services order ->
  match s with DeviceSync ns | StatusSync ns => ns ∈ order | _ => True end.
Proof.
  unfold bg_services. intros [H|H]%elem_of_app.
  - by repeat (apply elem_of_cons in H as [->|H]); [done..|apply elem_of_nil in H].
  - apply list_elem_of_bind in H as (ns & H & Hns).
    by repeat (apply elem_of_cons in H as [->|H]); [done..|apply elem_of_nil in H].
Qed.

(** C35: No service starts unless the signal handlers, the socket, the users and the pools of all
    daemons are there; the first that is not is the error, and an error of the HTTP server is the
    result as well. Otherwise the services get ten seconds to stop after the cancellation, which is
    [ok] exactly when all of them do. However their steps interleave, and whatever the daemons
    answer, a task of a daemon that has not ended then could have ended at every moment: in every state since
    the cancellation its own next look at the token ends it, after the publication of a batch if it holds one;
    it was not let to take that look, and it has been given no more steps than the ticks of its interval pay
    for. So only a runtime that does not run it, or one of the two services that all
    daemons share, makes the shutdown fail. When it does not fail the tasks of every daemon are over
    with their state well formed, nothing touches it any more, and the pools of all daemons are
    closed, unless a log-in socket of the event API still holds the state. *)
Theorem shutdown_spec {E : Type} (scrypt : str -> str -> option str) (w : World E) (config : ServerConfig)
  (runs : str -> DaemonRun) (others : ServiceKind -> option Duration) early more
  (Hupsd : forall m, w_upsd_iter w m ≡ₚ map_to_list m)
  (Hservers : forall m, w_servers_iter w m ≡ₚ (map_to_list m).*1)
  (Hwake : w_wakeups w = early ++ from_secs 10 :: more) (Hearly : Forall (fun now => now < from_secs 10) early)
  (Hends : w_ends w = ends_of runs others)
  (Hruns : forall ns c, upsd config !! ns = Some c -> 0 <= poll_freq c /\ 0 <= poll_interval c /\ run_ok ns c (runs ns)) :
  let run := start_server scrypt w config [] in
  (forall e, prepare scrypt w config = Err e -> run.1 = Err e /\ forall l, ServicesStarted l ∉ run.2) /\
  (forall store servers, prepare scrypt w config = Ok (store, servers) ->
    let services := bg_services (w_servers_iter w servers) in
    (forall e, w_serve w = Err e -> run = (Err e, [bound config; ServicesStarted services])) /\
    (w_serve w = Ok tt -> exists ok fates closed,
      run = (Ok tt, [bound config; ServicesStarted services; Served; ServicesStopped ok fates] ++ closed) /\
      (ok = true <-> forall s, s ∈ services -> ended (w_ends w) (from_secs 10) s = true) /\
      (ok = false -> first_aborted (fun s => ended (w_ends w) (from_secs 10) s) services fates) /\
      (forall s, s ∈ services -> ended (w_ends w) (from_secs 10) s = false -> slow runs config (from_secs 10) s) /\
      (ok = true -> forall ns, is_Some (upsd config !! ns) -> exists final,
         services_run (cancelled (runs ns)) (until (from_secs 10) (timed (runs ns))).*2 = Some final /\
         stopped final /\ daemon_wf (sv_state final) /\
         (forall more later, services_run final more = Some later -> sv_state later = sv_state final) /\
         (store = None \/ w_event_sockets w = 0%nat -> exists pool, PoolClosed ns pool ∈ closed /\
            PoolClient.is_closed pool = true /\ PoolClient.idle pool = [])) /\
      (forall ns, (exists pool, PoolClosed ns pool ∈ closed) <->
         is_Some (upsd config !! ns) /\ (store = None \/ w_event_sockets w = 0%nat) /\
         forall s f, (s, f) ∈ zip services fates -> s ∈ [DescriptionSync; DeviceSync ns; StatusSync ns] ->
           dropped_by w f = true))).
Proof.
  cbn zeta. destruct (start_and_stop scrypt w config early more Hupsd Hservers Hwake Hearly) as [Herr Hgo].
  split; [done|]. intros store servers Hp. destruct (Hgo store servers Hp) as (Hdom & Hfail & Hserved).
  split; [done|]. intros Hs. destruct (Hserved Hs) as (ok & fates & closed & Hrun & Hend & Habort & Hshape & Hpools & Hall).
  pose proof (iter_keys servers _ (Hservers servers)) as Hkeys.
  assert (Hlimit : 0 <= from_secs 10) by done.
  exists ok, fates, closed. split_and!; [done..| | |done].
  - intros s Hin%bg_services_inv. rewrite Hends. destruct s as [| |ns|ns]; [done..| |];
      apply Hkeys, Hdom in Hin as [c Hc]; destruct (Hruns ns c Hc) as (Hf & Hi & Hr); exists c; (split; [done|]).
    + by apply (device_starved ns).
    + by apply (status_starved ns).
  - intros Hok ns Hns. pose proof (proj1 Hend Hok) as He. pose proof Hns as [c Hc].
    destruct (Hruns ns c Hc) as (_ & _ & Hr).
    destruct (bg_services_daemon (w_servers_iter w servers) ns) as [Hd Hst]; [by apply Hkeys, Hdom|].
    apply He in Hd, Hst. rewrite Hends in Hd, Hst.
    destruct (both_ended ns c (runs ns) (from_secs 10) Hr Hd Hst) as (final & H1 & H2 & H3 & H4).
    exists final. split_and!; [done..|]. intros Hsock. destruct (Hall Hok Hsock ns Hns) as [pool Hpool].
    exists pool. split; [done|]. by destruct (Hshape _ Hpool) as (? & ? & [= -> ->] & ? & ?).
Qed.

(** ** Witnesses *)

(** A daemon whose first answers are on their way when the server is told to stop: both tasks look
    at the cancellation a second later. *)
Definition demo_run : DaemonRun :=
  mkDaemonRun (mkServices (lit "nut") DaemonState_new (mkChannel [] true) DAsking (STicking (mkPoll None 30)) false)
    [(1, DeviceAnswered (Ok []) (Ok []) (Ok [])); (from_secs 1, DeviceCancelled); (from_secs 1, StatusCancelled)].

Lemma demo_run_ok : run_ok (lit "nut") UpsdConfig_default demo_run.
Proof.
  split.
  - eexists true, _, [DeviceTick]. split; [reflexivity|]. split; [by repeat constructor|reflexivity].
  - eexists. reflexivity.
  - by repeat constructor.
  - apply (bool_decide_unpack _). vm_compute. exact I.
  - exists 0. constructor.
  - exists 0. constructor.
Qed.

Lemma shutdown_spec_witness :
  let run := start_server demo_scrypt (demo_world (ends_of (fun _ => demo_run) (fun _ => Some 1)) 0) demo_launch_config [] in
  run.1 = Ok tt /\ exists pool, PoolClosed (lit "nut") pool ∈ run.2.
Proof.
  set (w := demo_world (ends_of (fun _ => demo_run) (fun _ => Some 1)) 0).
  destruct (demo_prepared (ends_of (fun _ => demo_run) (fun _ => Some 1)) 0) as [servers Hp].
  destruct (shutdown_spec demo_scrypt w demo_launch_config (fun _ => demo_run) (fun _ => Some 1) [1] []
    (fun m => Permutation_refl _) (fun m => Permutation_refl _) eq_refl
    ltac:(repeat constructor) eq_refl) as [_ Hrun].
  { intros ns c Hc. apply (proj1 (lookup_singleton_Some (lit "nut") ns UpsdConfig_default c)) in Hc as [<- <-]. split; [done|]. split; [done|]. exact demo_run_ok. }
  destruct (Hrun None servers Hp) as [_ Hok].
  destruct (Hok eq_refl) as (ok & fates & closed & -> & Hend & _ & _ & Hall & _). split; [reflexivity|].
  assert (Htrue : ok = true).
  { apply Hend. intros s _. by destruct s. }
  destruct (Hall Htrue (lit "nut")) as (final & _ & _ & _ & _ & Hpool).
  { eexists. apply lookup_singleton_eq. }
  destruct (Hpool (or_introl eq_refl)) as (pool & Hin & _). exists pool. cbn [snd]. apply elem_of_app. right. exact Hin.
Defined.
