(* ===== verification/ReverseDns.v ===== *)
(** * Names of addresses

    [sync/reverse_dns.rs]: the socket address that is built in memory for an IP
    address, the call of [getnameinfo], and what is made of the buffer that it
    fills. [getnameinfo] and [gai_strerror] are functions of libc and stay
    parameters; the layout of [sockaddr_in] and [sockaddr_in6] is that of the
    [libc] crate on Linux, and the byte order of the target is a parameter too. *)

From S2P Require Import Prelude RustStr Numbers Ip Auth.
From S2P Require Import Errors Names VarName Value UpsVariables Response Status Config State Events Sync.

Open Scope Z_scope.

(** ** Integers in memory *)

Inductive Endian := Little | Big.

Definition native (e : Endian) (n : nat) (z : Z) : str :=
  match e with Little => put_le n z | Big => rev (put_le n z) end.
(** [to_be_bytes], and [to_be]: the integer whose native bytes are those. *)
Definition to_be_bytes (n : nat) (z : Z) : str := rev (put_le n z).
Definition to_be (e : Endian) (n : nat) (z : Z) : Z :=
  match e with Little => le_value (to_be_bytes n z) | Big => z end.

(** [Ipv4Addr::to_bits] and [Ipv6Addr::to_bits], from parts of [w] bits. *)
Definition to_bits (w : Z) (parts : list Z) : Z := foldl (fun acc p => Z.lor (Z.shiftl acc w) p) 0 parts.

(** ** The query *)

Section reverse_dns.

Context (target : Endian) (AF_INET AF_INET6 NI_NAMEREQD : Z) (NI_MAXHOST : nat).
(** The address, the length of the buffer and the flags; the code and the buffer. *)
Context (getnameinfo : str -> nat -> Z -> Z * str) (gai_strerror : Z -> option str).

Inductive DnsError :=
  | InvalidCStr
  | InvalidHostUtf8
  | UnspecifiedError
  | NameInfoError (inner : str).

Definition sockaddr_in (octets : list Z) : str :=
  native target 2 AF_INET ++ native target 2 0 ++ native target 4 (to_be target 4 (to_bits 8 octets)) ++
  replicate 8 (byte_of_Z 0).
Definition sockaddr_in6 (segments : list Z) : str :=
  native target 2 AF_INET6 ++ native target 2 0 ++ native target 4 0 ++ to_be_bytes 16 (to_bits 16 segments) ++
  native target 4 0.

(** [From<NonZeroI32>]. *)
Definition DnsError_from (errcode : Z) : DnsError :=
  match gai_strerror errcode with Some message => NameInfoError message | None => UnspecifiedError end.

(** [CStr::from_bytes_until_nul]. *)
Fixpoint from_bytes_until_nul (bytes : str) : option str :=
  match bytes with
  | [] => None
  | b :: bytes => if decide (b = byte_of_Z 0) then Some [] else (cons b <$> from_bytes_until_nul bytes)
  end.

Definition lookup_inner (socket : str) : outcome DnsError str :=
  let '(errcode, host) := getnameinfo socket NI_MAXHOST NI_NAMEREQD in
  if decide (errcode = 0) then
    match from_bytes_until_nul host with
    | Some cstr => if utf8_valid cstr then Ok cstr else Err InvalidHostUtf8
    | None => Err InvalidCStr
    end
  else Err (DnsError_from errcode).

Definition lookup_ipv4 (octets : list Z) : outcome DnsError str := lookup_inner (sockaddr_in octets).
Definition lookup_ipv6 (segments : list Z) : outcome DnsError str := lookup_inner (sockaddr_in6 segments).
Definition lookup_ip (ip : IpAddr) : outcome DnsError str :=
  match ip with V4 octets => lookup_ipv4 octets | V6 segments => lookup_ipv6 segments end.

(** [lookup_ip(ip).map_or(None, |v| Some(v))], as the synchronisation asks. *)
Definition host_name (ip : IpAddr) : option str :=
  match lookup_ip ip with Ok name => Some name | _ => None end.

(** ** Lemmas *)

Lemma native_to_be n z : native target n (to_be target n z) = to_be_bytes n z.
Proof.
  unfold native, to_be, to_be_bytes. destruct target; [|done].
  rewrite <- (put_le_le_value (rev (put_le n z))) at 2. by rewrite length_rev, length_put_le.
Qed.

Lemma from_bytes_until_nul_spec host name :
  from_bytes_until_nul host = Some name <->
  (byte_of_Z 0 ∉ name) /\ exists rest, host = name ++ byte_of_Z 0 :: rest.
Proof.
  revert name. induction host as [|b host IH]; intros name; cbn [from_bytes_until_nul].
  - split; [done|]. intros [_ [rest H]]. by destruct name.
  - case_decide as Hb.
    + subst b. split.
      * intros [= <-]. split; [apply not_elem_of_nil|by eexists].
      * intros [Hn [rest H]]. destruct name as [|c name]; [done|]. injection H as Hc _.
        destruct Hn. apply elem_of_cons. left. exact Hc.
    + rewrite fmap_Some. setoid_rewrite IH. split.
      * intros (name' & [Hn [rest ->]] & ->). split; [|by exists rest].
        apply not_elem_of_cons. by split; [apply not_eq_sym|].
      * intros [Hn [rest H]]. destruct name as [|c name]; injection H as -> H; [done|].
        exists name. split; [|done]. split; [|by exists rest]. intros ?. apply Hn. by right.
Qed.

Lemma from_bytes_until_nul_none host : from_bytes_until_nul host = None <-> byte_of_Z 0 ∉ host.
Proof.
  induction host as [|b host IH]; cbn [from_bytes_until_nul]; [split; [intros _; apply not_elem_of_nil|done]|].
  case_decide as Hb; [subst b; split; [done|]; intros H; destruct H; by left|].
  rewrite fmap_None, IH, not_elem_of_cons.
  split; [intros H; split; [by apply not_eq_sym|done]|by intros []].
Qed.

Lemma put_le_lor acc p k n : 0 <= p < 2 ^ (8 * Z.of_nat k) ->
  put_le (k + n) (Z.lor (Z.shiftl acc (8 * Z.of_nat k)) p) = put_le k p ++ put_le n acc.
Proof.
  revert p. induction k as [|k IH]; intros p Hp.
  { assert (p = 0) as -> by (cbn in Hp; lia). cbn [put_le app]. by rewrite Z.shiftl_0_r, Z.lor_0_r. }
  cbn [put_le Nat.add app]. f_equal.
  - unfold byte_of_Z. do 2 f_equal. change 256 with (2 ^ 8). apply Z.bits_inj'. intros i Hi.
    rewrite !Z.testbit_mod_pow2 by lia. destruct (Z.ltb_spec i 8) as [H|H]; [|done].
    rewrite Z.lor_spec, Z.shiftl_spec by done. rewrite (Z.testbit_neg_r acc) by lia. done.
  - rewrite <- IH.
    + f_equal. rewrite Z.shiftr_lor. f_equal. rewrite Z.shiftr_shiftl_l by lia. f_equal. lia.
    + rewrite Z.shiftr_div_pow2 by lia. split; [apply Z.div_pos; lia|]. apply Z.div_lt_upper_bound; [lia|].
      rewrite <- Z.pow_add_r by lia. replace (8 + 8 * Z.of_nat k) with (8 * Z.of_nat (S k)) by lia. lia.
Qed.

Lemma to_be_bytes_lor acc p k n : 0 <= p < 2 ^ (8 * Z.of_nat k) ->
  to_be_bytes (n + k) (Z.lor (Z.shiftl acc (8 * Z.of_nat k)) p) = to_be_bytes n acc ++ to_be_bytes k p.
Proof. intros Hp. unfold to_be_bytes. rewrite Nat.add_comm, put_le_lor by done. apply rev_app_distr. Qed.

(** The bits of an address, most significant byte first, are its parts one after the other. *)
Lemma to_be_bytes_bits k parts : Forall (fun p => 0 <= p < 2 ^ (8 * Z.of_nat k)) parts ->
  to_be_bytes (length parts * k) (to_bits (8 * Z.of_nat k) parts) = p ← parts; to_be_bytes k p.
Proof.
  induction parts as [|p parts IH] using rev_ind; intros H; [done|].
  apply list.Forall_app in H as [H [Hp _]%list.Forall_cons].
  unfold to_bits. rewrite foldl_app. cbn [foldl]. fold (to_bits (8 * Z.of_nat k) parts).
  rewrite length_app. cbn [length]. replace ((length parts + 1) * k)%nat with (length parts * k + k)%nat by lia.
  rewrite to_be_bytes_lor, IH, bind_app by done. cbn [mbind list_bind]. by rewrite app_nil_r.
Qed.

(** The port, the flow and the scope are zero in any byte order. *)
Lemma native_zero n : native target n 0 = replicate n (byte_of_Z 0).
Proof.
  assert (H : put_le n 0 = replicate n (byte_of_Z 0)) by (induction n as [|n IH]; [done|]; cbn [put_le replicate]; f_equal; exact IH).
  unfold native. destruct target; rewrite H; [done|].
  rewrite rev_alt. apply reverse_replicate.
Qed.

(** The address as the network sees it. *)
Definition network_bytes (ip : IpAddr) : str :=
  match ip with
  | V4 octets => byte_of_Z <$> octets
  | V6 segments => s ← segments; [byte_of_Z (Z.shiftr s 8); byte_of_Z s]
  end.
Definition sockaddr (ip : IpAddr) : str :=
  match ip with V4 octets => sockaddr_in octets | V6 segments => sockaddr_in6 segments end.

Lemma sockaddr_bytes ip : IpAddr_wf ip ->
  sockaddr ip =
  match ip with
  | V4 _ => native target 2 AF_INET ++ replicate 2 (byte_of_Z 0) ++ network_bytes ip ++ replicate 8 (byte_of_Z 0)
  | V6 _ => native target 2 AF_INET6 ++ replicate 6 (byte_of_Z 0) ++ network_bytes ip ++ replicate 4 (byte_of_Z 0)
  end.
Proof.
  destruct ip as [octets|segments]; cbn [sockaddr network_bytes]; intros [Hl Hf].
  - unfold sockaddr_in. rewrite native_zero, native_to_be. do 3 f_equal.
    pose proof (to_be_bytes_bits 1 octets) as Hb. rewrite Hl in Hb.
    change (to_be_bytes 4 (to_bits 8 octets)) with (to_be_bytes (4 * 1) (to_bits (8 * Z.of_nat 1) octets)). rewrite Hb.
    + clear. induction octets as [|o octets IH]; [done|]. cbn in IH |- *. by rewrite IH.
    + eapply list.Forall_impl; [exact Hf|]. unfold u8_max. cbn. lia.
  - unfold sockaddr_in6. rewrite !native_zero. f_equal. rewrite (app_assoc (replicate 2 _)). do 2 f_equal.
    pose proof (to_be_bytes_bits 2 segments) as Hb. rewrite Hl in Hb.
    change (to_be_bytes 16 (to_bits 16 segments)) with (to_be_bytes (8 * 2) (to_bits (8 * Z.of_nat 2) segments)).
    rewrite Hb; [done|].
    eapply list.Forall_impl; [exact Hf|]. unfold u16_max. cbn. lia.
Qed.

End reverse_dns.

(** ** What a query asks and gives *)

Section lookup.

Context (target : Endian) (AF_INET AF_INET6 NI_NAMEREQD : Z) (NI_MAXHOST : nat).
Context (getnameinfo : str -> nat -> Z -> Z * str) (gai_strerror : Z -> option str).

#[local] Abbreviation query := (lookup_ip target AF_INET AF_INET6 NI_NAMEREQD NI_MAXHOST getnameinfo gai_strerror).
#[local] Abbreviation asked ip := (getnameinfo (sockaddr target AF_INET AF_INET6 ip) NI_MAXHOST NI_NAMEREQD).

Lemma lookup_ip_asks ip : query ip =
  lookup_inner NI_NAMEREQD NI_MAXHOST getnameinfo gai_strerror (sockaddr target AF_INET AF_INET6 ip).
Proof. by destruct ip. Qed.

Lemma network_bytes_inj ip ip' : IpAddr_wf ip -> IpAddr_wf ip' ->
  match ip, ip' with V4 _, V4 _ | V6 _, V6 _ => True | _, _ => False end ->
  network_bytes ip = network_bytes ip' -> ip = ip'.
Proof.
  assert (Hbyte : forall z z', byte_of_Z z = byte_of_Z z' -> z mod 256 = z' mod 256).
  { intros z z' H. apply (f_equal Z_of_byte) in H. by rewrite !Z_of_byte_of_Z in H. }
  destruct ip as [l|l], ip' as [l'|l']; intros [Hl Hf] [Hl' Hf'] Hk H; try done; f_equal; cbn in H.
  - clear Hl Hl' Hk. revert l' Hf' H. induction Hf as [|o l Ho _ IH]; intros [|o' l'] Hf' H; try done.
    injection H as Hb H. apply list.Forall_cons in Hf' as [Ho' Hf']. f_equal; [|by apply IH].
    apply Hbyte in Hb. unfold u8_max in *. by rewrite !Z.mod_small in Hb by lia.
  - clear Hl Hl' Hk. revert l' Hf' H. induction Hf as [|o l Ho _ IH]; intros [|o' l'] Hf' H; try done.
    injection H as Hb1 Hb2 H. apply list.Forall_cons in Hf' as [Ho' Hf']. f_equal; [|by apply IH].
    apply Hbyte in Hb1, Hb2. unfold u16_max in *. rewrite !Z.shiftr_div_pow2 in Hb1 by lia.
    rewrite !(Z.mod_small (_ / _)) in Hb1 by (split; [apply Z.div_pos; lia|apply Z.div_lt_upper_bound; lia]).
    rewrite (Z.div_mod o 256), (Z.div_mod o' 256) by lia. change (2 ^ 8) with 256 in Hb1. by rewrite Hb1, Hb2.
Qed.

(** The query for an address is about that address, whatever the byte order of the target: the bytes
    that [getnameinfo] sees are the family, a zero port and the address as the network writes it, and
    two addresses of one family never give the same bytes. The result is the name up to the first NUL
    byte of the buffer, which is shorter than the buffer and valid UTF-8; without a NUL, with another
    text or with a code other than zero the result is the error that says so, and the client that
    attached is listed without a name, like a loopback one that is not asked about. *)
Lemma reverse_dns_spec (Hbuffer : forall ip, length (asked ip).2 = NI_MAXHOST) ip : IpAddr_wf ip ->
  (sockaddr target AF_INET AF_INET6 ip =
    match ip with
    | V4 _ => native target 2 AF_INET ++ replicate 2 (byte_of_Z 0) ++ network_bytes ip ++ replicate 8 (byte_of_Z 0)
    | V6 _ => native target 2 AF_INET6 ++ replicate 6 (byte_of_Z 0) ++ network_bytes ip ++ replicate 4 (byte_of_Z 0)
    end) /\
  (forall ip', IpAddr_wf ip' -> match ip, ip' with V4 _, V4 _ | V6 _, V6 _ => True | _, _ => False end ->
     sockaddr target AF_INET AF_INET6 ip = sockaddr target AF_INET AF_INET6 ip' -> ip = ip') /\
  (forall name, query ip = Ok name <-> (asked ip).1 = 0 /\ utf8_valid name = true /\ (byte_of_Z 0 ∉ name) /\
     exists rest, (asked ip).2 = name ++ byte_of_Z 0 :: rest) /\
  (forall name, query ip = Ok name -> (length name < NI_MAXHOST)%nat) /\
  ((asked ip).1 = 0 -> query ip = Err InvalidCStr <-> byte_of_Z 0 ∉ (asked ip).2) /\
  ((asked ip).1 <> 0 -> query ip = Err (DnsError_from gai_strerror (asked ip).1)) /\
  ci_name (client_info (host_name target AF_INET AF_INET6 NI_NAMEREQD NI_MAXHOST getnameinfo gai_strerror) ip) =
    match query ip with Ok name => if is_loopback ip then None else Some name | _ => None end.
Proof.
  intros Hwf. pose proof (sockaddr_bytes target AF_INET AF_INET6) as Hbytes.
  assert (Hok : forall name, query ip = Ok name <-> (asked ip).1 = 0 /\ utf8_valid name = true /\ (byte_of_Z 0 ∉ name) /\
     exists rest, (asked ip).2 = name ++ byte_of_Z 0 :: rest).
  { intros name. rewrite lookup_ip_asks. unfold lookup_inner. specialize (from_bytes_until_nul_spec (asked ip).2) as Hs.
    destruct (asked ip) as [code host]. cbn [fst snd] in *. case_decide as Hc; [|split; [done|by intros [? _]]].
    destruct (from_bytes_until_nul host) as [cstr|] eqn:Hn.
    - destruct (utf8_valid cstr) eqn:Hu; (split; [intros [= <-]|intros (_ & Hv & H)]).
      + by split_and!; [..|apply Hs|apply Hs].
      + apply Hs in H. congruence.
      + apply Hs in H. congruence.
    - split; [done|]. intros (_ & _ & H). apply Hs in H. congruence. }
  split_and!.
  - by apply Hbytes.
  - intros ip' Hwf' Hk Heq. apply network_bytes_inj; [done..|]. rewrite !Hbytes in Heq by done.
    destruct ip, ip'; try done; do 2 apply app_inv_head in Heq;
      by apply app_inv_tail in Heq.
  - done.
  - intros name (_ & _ & _ & rest & Hr)%Hok. rewrite <- (Hbuffer ip), Hr, length_app. cbn. lia.
  - intros Hc. rewrite lookup_ip_asks, <- from_bytes_until_nul_none. unfold lookup_inner.
    destruct (asked ip) as [code host]. cbn [fst snd] in *. rewrite decide_True by done.
    destruct (from_bytes_until_nul host) as [cstr|]; [destruct (utf8_valid cstr)|]; split; congruence.
  - intros Hc. rewrite lookup_ip_asks. unfold lookup_inner.
    destruct (asked ip) as [code host]. cbn [fst snd] in *. by rewrite decide_False.
  - unfold client_info, host_name. cbn [ci_name]. destruct (is_loopback ip); [by destruct (query ip)|done].
Qed.

End lookup.

(** ** Examples *)

(** The query for 1.2.3.4, on either kind of machine. *)
Example sockaddr_little : sockaddr Little 2 10 (V4 [1; 2; 3; 4]) = byte_of_Z <$> [2; 0; 0; 0; 1; 2; 3; 4; 0; 0; 0; 0; 0; 0; 0; 0].
Proof. reflexivity. Qed.
Example sockaddr_big : sockaddr Big 2 10 (V4 [1; 2; 3; 4]) = byte_of_Z <$> [0; 2; 0; 0; 1; 2; 3; 4; 0; 0; 0; 0; 0; 0; 0; 0].
Proof. reflexivity. Qed.
(** A name in the buffer, and a buffer without an end. *)
Example lookup_named : lookup_ip Little 2 10 8 6 (fun _ _ _ => (0, lit "host" ++ [byte_of_Z 0; byte_of_Z 7])) (fun _ => None)
  (V4 [1; 2; 3; 4]) = Ok (lit "host").
Proof. reflexivity. Qed.
Example lookup_unterminated : lookup_ip Little 2 10 8 4 (fun _ _ _ => (0, lit "host")) (fun _ => None)
  (V4 [1; 2; 3; 4]) = Err InvalidCStr.
Proof. reflexivity. Qed.
