(* ===== verification/TestSuite.v ===== *)
(** * The test suites, run on the model

    The unit tests of the sources and the integration tests of
    [nut_webgui_upsmc/tests] as definitions that evaluate to [true]: the inputs
    and the expectations are theirs, the functions called are those of this
    development. What they check is that the model computes what the code was
    seen to compute. Left out are the tests that ask the Internet
    ([reverse_dns.rs]) and those that read the dump files of a submodule that is
    not part of the sources ([test_device_integration.rs]). *)

From S2P Require Import Prelude RustStr Numbers Errors Escape Lexer Names VarName Value.
From S2P Require Import ParserUtils Ip VarType UpsVariables Response Command Client Auth Status Config State Events Sync Json.

(** A text with its quotation marks written as apostrophes. *)
Definition txt (s : String.string) : str :=
  (fun c => if bool_decide (c = "'"%byte) then DQUOTE else c) <$> lit s.
#[global] Arguments txt _%_string_scope.

(** [assert_eq!]. *)
Definition assert_eq {A} `{EqDecision A} (x y : A) : bool := bool_decide (x = y).
(** [Err(error) => assert!(true)] and [Ok(value) => assert_eq!(..)] on a result. *)
Definition fails_with {E A} `{EqDecision E} (r : outcome E A) (e : E) : bool :=
  match r with Err e' => bool_decide (e' = e) | _ => false end.
Definition returns {E A} `{EqDecision A} (r : outcome E A) (a : A) : bool :=
  match r with Ok a' => bool_decide (a' = a) | _ => false end.

(** ** [internal/lexer.rs] *)

(** [tokenizer_test!]: the tokens in turn, and the end. *)
Fixpoint tokenizer_loop (l : Lexer) (tokens : list str) : bool :=
  match tokens, next_token l with
  | [], Ok (None, _) => true
  | token :: tokens, Ok (Some t, l) =>
      match extract_from_token l t with
      | Ok text => assert_eq token (cow_str text) &&
          match t with TokLF => assert_eq token [LF] | _ => true end && tokenizer_loop l tokens
      | _ => false
      end
  | _, _ => false
  end.
Definition tokenizer_test (input : str) (tokens : list str) : bool := tokenizer_loop (Lexer_new input) tokens.

Definition starts_with_text : bool := tokenizer_test (txt "hello world test.com 'test is coming'")
  [lit "hello"; lit "world"; lit "test.com"; lit "test is coming"].
Definition starts_with_quoted_text : bool := tokenizer_test (txt "'hello world' test.com 'test is coming'")
  [lit "hello world"; lit "test.com"; lit "test is coming"].
Definition text_only : bool :=
  tokenizer_test (lit "Llanfair­pwllgwyngyll­gogery­chwyrn­drobwll­llan­tysilio­gogo­goch") [lit "Llanfair­pwllgwyngyll­gogery­chwyrn­drobwll­llan­tysilio­gogo­goch"].
Definition quoted_text_only : bool := tokenizer_test (txt "'hello world'") [lit "hello world"].
Definition untrimmed_white_spaces : bool :=
  tokenizer_test (txt "          'hello world'        hello                       ") [lit "hello world"; lit "hello"].
Definition lines : bool := tokenizer_test (txt "VAR TEST BEGIN
LINE0 'value'
LINE1 'value1'
LINE2 'value2'
LINE3 'value3'
VAR TEST END")
  [lit "VAR"; lit "TEST"; lit "BEGIN"; [LF]; lit "LINE0"; lit "value"; [LF]; lit "LINE1"; lit "value1"; [LF];
   lit "LINE2"; lit "value2"; [LF]; lit "LINE3"; lit "value3"; [LF]; lit "VAR"; lit "TEST"; lit "END"].
Definition escaped : bool := tokenizer_test (txt "'hello \'world\''") [txt "hello 'world'"].
Definition escaped_backslash : bool := tokenizer_test (txt "'\\some\\win\\path'") [lit "\some\win\path"].
Definition escaped_unknown : bool := tokenizer_test (txt "'\some\win\path'") [lit "somewinpath"].
Definition lexer_empty_text : bool := match next_token (Lexer_new []) with Ok (None, _) => true | _ => false end.

(** ** [internal/escape.rs] *)

Definition escapes_owned (input target : str) : bool :=
  match escape_nut_str input with Some (Owned v) => assert_eq v target | _ => false end.
Definition escapes_borrowed (input target : str) : bool :=
  match escape_nut_str input with Some (Borrowed v) => assert_eq v target | _ => false end.

Definition escape_empty_text : bool := escapes_borrowed [] [].
Definition regular_texts : bool :=
  forallb (fun s => escapes_borrowed s s)
    [lit "abcds"; lit " test abc dfg "; lit "1"; lit "£$%^&*()[]!"; lit "/test/example/"].
Definition escaped_texts : bool :=
  escapes_owned (txt "'test'") (txt "\'test\'") &&
  escapes_owned (lit " test \abc\ dfg ") (lit " test \\abc\\ dfg ") &&
  escapes_owned (txt "\'1\'") (txt "\\\'1\\\'").

(** ** [tests/test_var_name.rs], [test_cmd_name.rs], [test_ups_name.rs] *)

Definition var_name_test (name : String.string) (fail_reason : option VarNameParseError) : bool :=
  match VarName_new (lit name), fail_reason with
  | Ok _, None => true
  | Err e, Some reason => assert_eq e reason
  | _, _ => false
  end.
#[global] Arguments var_name_test _%_string_scope _.

Definition var_name_tests : bool :=
  var_name_test String.EmptyString (Some VarNameEmpty) &&
  var_name_test "ups.var;with.semicolon" (Some VarNameInvalidName) &&
  var_name_test "  ups.not.trimmed" (Some VarNameInvalidName) &&
  var_name_test ".ups.not.trimmed" (Some VarNameInvalidName) &&
  var_name_test "1ups.status" (Some VarNameInvalidName) &&
  var_name_test "=ups.status" (Some VarNameInvalidName) &&
  var_name_test "ups.load" None && var_name_test "ups.sensors.1.temperature" None && var_name_test "w" None.

Definition var_cmp_test (lhs rhs : outcome VarNameParseError VarName) : bool :=
  match lhs, rhs with Ok lhs, Ok rhs => VarName_eq lhs rhs | _, _ => false end.
Definition var_cmp_tests : bool :=
  var_cmp_test (Ok UPS_STATUS) (VarName_new (lit "ups.status")) &&
  var_cmp_test (VarName_new (lit "ups.status")) (Ok UPS_STATUS) &&
  var_cmp_test (VarName_new (lit "custom.name")) (VarName_new (lit "custom.name")).
Definition var_from_trait : bool :=
  returns (VarName_try_from (lit "ups.status")) UPS_STATUS && fails_with (VarName_try_from (lit "1ups.status")) VarNameInvalidName.
Definition AMBIENT_TEMPERATURE_LOW_WARNING : VarName := mkVarName (Standard StandardName.AmbientTemperatureLowWarning).
Definition var_to_string : bool :=
  match VarName_new (lit "custom.name.1") with
  | Ok name => assert_eq (VarName_as_str name) (lit "custom.name.1")
  | _ => false
  end &&
  VarName_eq_str AMBIENT_TEMPERATURE_LOW_WARNING (lit "ambient.temperature.low.warning") &&
  assert_eq (VarName_as_str AMBIENT_TEMPERATURE_LOW_WARNING) (lit "ambient.temperature.low.warning").

Definition cmd_name_test (name : String.string) (fail_reason : option CmdParseError) : bool :=
  match CmdName_new (lit name), fail_reason with
  | Ok _, None => true
  | Err e, Some reason => assert_eq e reason
  | _, _ => false
  end.
#[global] Arguments cmd_name_test _%_string_scope _.
Definition cmd_name_tests : bool :=
  cmd_name_test String.EmptyString (Some CmdEmpty) && cmd_name_test "ups.cmd;with.semicolon" (Some CmdInvalidName) &&
  cmd_name_test "  battery.off" (Some CmdInvalidName) && cmd_name_test ".ups.shutdown" (Some CmdInvalidName) &&
  cmd_name_test "beeper.off" None && cmd_name_test "w" None.
Definition cmd_from_trait : bool :=
  match CmdName_try_from (lit "beeper.off") with Ok name => assert_eq (CmdName_as_str name) (lit "beeper.off") | _ => false end &&
  fails_with (CmdName_try_from (lit "0beeper.off")) CmdInvalidName.
Definition cmp_cmd_names : bool :=
  match CmdName_new (lit "custom.name"), CmdName_new (lit "custom.name") with Ok lhs, Ok rhs => assert_eq lhs rhs | _, _ => false end.
Definition cmd_to_string : bool :=
  match CmdName_new (lit "custom.cmd") with
  | Ok name => assert_eq (CmdName_as_str name) (lit "custom.cmd") && assert_eq (CmdName_fmt name) (lit "custom.cmd")
  | _ => false
  end.

Definition ups_name_test (name : str) (fail_reason : option UpsNameParseError) : bool :=
  match UpsName_new name, fail_reason with
  | Ok _, None => true
  | Err e, Some reason => assert_eq e reason
  | _, _ => false
  end.
Definition ups_name_tests : bool :=
  ups_name_test [] (Some UpsNameEmpty) && ups_name_test (lit "ups with white spaces") (Some UpsNameInvalidName) &&
  ups_name_test (lit "  sector_e") (Some UpsNameInvalidName) && ups_name_test (lit "nuclear_reactor_1") None &&
  ups_name_test (txt "$_'[yes,this_name_does_work_on_nut_server!]'_$") None && ups_name_test (lit "w") None.
Definition ups_from_trait : bool :=
  match UpsName_try_from (lit "regularups") with Ok name => UpsName_eq_str name (lit "regularups") | _ => false end &&
  fails_with (UpsName_try_from (lit "regular ups")) UpsNameInvalidName.
Definition cmp_ups_names : bool :=
  match UpsName_new (lit "test_name"), UpsName_new (lit "test_name") with Ok lhs, Ok rhs => assert_eq lhs rhs | _, _ => false end.
Definition ups_to_string : bool :=
  match UpsName_new (lit "custom.ups") with
  | Ok name => UpsName_eq_str name (lit "custom.ups") && assert_eq (UpsName_fmt name) (lit "custom.ups")
  | _ => false
  end.

(** ** [tests/test_ups_events.rs], [test_ups_status.rs] *)

Fixpoint event_stream (current : UpsStatus) (stream : list (UpsStatus * list UpsEvent)) : bool :=
  match stream with
  | [] => true
  | (next_status, expected) :: stream =>
      match UpsEvents_new current next_status with
      | Some events => forallb (UpsEvents_contains events) expected && assert_eq (UpsEvents_len events) (length expected)
      | None => false
      end && event_stream next_status stream
  end.
#[local] Infix "|." := bitor (at level 50).

Definition base_events : bool := event_stream status_default
  [(ALARM, [AlarmOn]); (BOOST, [AlarmOff; Boosting]); (BYPASS, [BoostingEnded; BypassOn]);
   (CALIBRATING, [BypassOff; Calibrating]); (CHARGING, [Charging; CalibrationCompleted]);
   (COMM, [ChargingEnded; EvCOMM]); (DISCHARGE, [Discharging]); (LOW_BATTERY, [DischargingEnded; LowBattery]);
   (ONLINE, [LowBatteryEnded; Online]); (ON_BATTERY, [OnBattery]); (OVERLOADED |. ONLINE, [Online; Overloaded]);
   (REPLACE_BATTERY, [OverloadEnded; ReplaceBattery]); (TEST, [ReplaceBatteryEnded; Testing]);
   (TRIM, [TestCompleted; Trimming]); (NOCOMM, [TrimmingEnded; EvNoCOMM]); (FORCED_SHUTDOWN, [EvFSD]);
   (OFFLINE, [DeviceOff]); (ONLINE, [Online; DeviceOn])].
Definition ups_status_simulation : bool := event_stream status_default
  [(ONLINE |. ALARM, [Online; AlarmOn]); (ONLINE |. ALARM, []); (ONLINE, [AlarmOff]); (ONLINE, []);
   (ON_BATTERY |. DISCHARGE, [OnBattery; Discharging]); (ON_BATTERY |. DISCHARGE, []);
   (ON_BATTERY |. DISCHARGE |. LOW_BATTERY, [LowBattery]);
   (ONLINE |. CHARGING |. LOW_BATTERY, [Online; DischargingEnded; Charging]); (ONLINE |. CHARGING |. LOW_BATTERY, []);
   (ONLINE |. CHARGING, [LowBatteryEnded]); (ONLINE, [ChargingEnded]); (ONLINE |. TEST, [Testing]); (ONLINE |. TEST, []);
   (ONLINE, [TestCompleted]); (ONLINE |. CALIBRATING, [Calibrating]); (ONLINE, [CalibrationCompleted]); (ONLINE, []);
   (FORCED_SHUTDOWN, [EvFSD]); (OFFLINE, [DeviceOff])].

Definition assert_status_text (validate_str : bool) (name : String.string) (target : UpsStatus) : bool :=
  assert_eq (UpsStatus_new (lit name)) target &&
  (negb validate_str || assert_eq (UpsStatus_fmt (UpsStatus_new (lit name))) (Some (lit name))).
#[global] Arguments assert_status_text _ _%_string_scope _.
Definition single_status : bool :=
  assert_status_text true "ALARM" ALARM && assert_status_text true "BOOST" BOOST && assert_status_text true "BYPASS" BYPASS &&
  assert_status_text true "CAL" CALIBRATING && assert_status_text true "CHRG" CHARGING && assert_status_text true "COMM" COMM &&
  assert_status_text true "DISCHRG" DISCHARGE && assert_status_text true "FSD" FORCED_SHUTDOWN &&
  assert_status_text true "LB" LOW_BATTERY && assert_status_text true "NOCOMM" NOCOMM && assert_status_text true "OFF" OFFLINE &&
  assert_status_text true "OL" ONLINE && assert_status_text true "OB" ON_BATTERY && assert_status_text true "OVER" OVERLOADED &&
  assert_status_text true "RB" REPLACE_BATTERY && assert_status_text true "TEST" TEST && assert_status_text true "TICK" TICK &&
  assert_status_text true "TOCK" TOCK && assert_status_text true "TRIM" TRIM.
Definition with_multip_unspecified_status : bool :=
  assert_eq (ON_BATTERY |. TEST |. ONLINE) (UpsStatus_new (lit "OB TEST OVERHEAT ECO MEGUSTA OL")).
Definition with_single_unspecified_status : bool := assert_eq status_default (UpsStatus_new (lit "FANFAIL")).
Definition multiple_status : bool :=
  assert_status_text false "ALARM OL TEST" (ALARM |. ONLINE |. TEST) &&
  assert_status_text false "OB DISCHRG" (ON_BATTERY |. DISCHARGE) &&
  assert_status_text false "LB OB OVER" (LOW_BATTERY |. ON_BATTERY |. OVERLOADED) &&
  assert_status_text false "CAL TEST BOOST OL" (CALIBRATING |. TEST |. BOOST |. ONLINE).
Definition modify_status : bool :=
  assert_eq (unset (set (UpsStatus_new (lit "OB LB DISCHRG FSD")) ONLINE) (ON_BATTERY |. DISCHARGE |. FORCED_SHUTDOWN)) (ONLINE |. LOW_BATTERY).

(** ** [tests/test_variables_map.rs], [test_serde.rs] *)

Definition INPUT_LOAD : VarName := mkVarName (Standard StandardName.InputLoad).
(** The number that a literal of the tests denotes. *)
Definition f64 (s : String.string) : SpecFloat.spec_float := default (SpecFloat.S754_zero false) (parse_f64 (lit s)).
#[global] Arguments f64 _%_string_scope.
Definition test_vars : UpsVariables :=
  UpsVariables_from [(UPS_STATUS, VString (lit "OL")); (mkVarName (Standard StandardName.UpsBeeperStatus), VString (lit "enabled"));
    (INPUT_LOAD, VFloat (f64 "12.0"))].
Definition opt_value_eq (o : option Value) (v : Value) : bool := match o with Some x => Value_eq v x | None => false end.

Definition map_initialize : bool := assert_eq (UpsVariables_len test_vars) 3.
Definition map_remove : bool :=
  let '(removed, vars) := UpsVariables_remove test_vars UPS_STATUS in
  match removed with
  | Some (name, value) => VarName_eq name UPS_STATUS && Value_eq value (VString (lit "OL"))
  | None => false
  end &&
  let '(again, vars) := UpsVariables_remove vars UPS_STATUS in
  bool_decide (again = None) && assert_eq (UpsVariables_len vars) 2.
Definition insert_new : bool :=
  let ups_load := mkVarName (Standard StandardName.UpsLoad) in
  let '(old, vars) := UpsVariables_insert test_vars ups_load (VFloat (f64 "100.0")) in
  bool_decide (old = None) && opt_value_eq (UpsVariables_get vars ups_load) (VFloat (f64 "100.0")) &&
  assert_eq (UpsVariables_len vars) 4.
Definition map_update : bool :=
  let '(old, vars) := UpsVariables_insert test_vars UPS_STATUS (VString (lit "OB")) in
  opt_value_eq old (VString (lit "OL")) && opt_value_eq (UpsVariables_get vars UPS_STATUS) (VString (lit "OB")) &&
  assert_eq (UpsVariables_len vars) 3.

(** The trees in the place of their texts. *)
Definition serde_pipe {A} `{Serialize A, Deserialize A, EqDecision A} (input : A) : bool :=
  returns (deserialize (serialize input)) input.
Definition serde_cmd_name : bool :=
  serde_pipe (CmdName_new_unchecked ∘ lit <$> ["test0"; "test1"; "test2"; "test3"; "test4"]%string).
Definition serde_ups_name : bool :=
  serde_pipe (UpsName_new_unchecked ∘ lit <$> ["test0@localhost:12345"; "test1"; "test2"; "sector_e:backup_sample"; "lambda_core"]%string).
Definition serde_input : UpsVariables :=
  UpsVariables_from [(UPS_STATUS, Value_from_str (lit "enabled"));
    (mkVarName (Standard StandardName.BatteryVoltage), Value_from_f64 (f64 "12.0")); (INPUT_LOAD, Value_from_int 52);
    (VarName_new_unchecked (lit "custom.variable.name"), Value_from_str (lit "0X123456"))].
#[local] Instance serde_order : HashIter UpsVariables (VarName * Value) := map_to_list.
Definition serde_variables : bool :=
  match deserialize (serialize serde_input) with
  | Ok deserialized => assert_eq (UpsVariables_len serde_input) (UpsVariables_len deserialized) &&
      forallb (fun e => opt_value_eq (UpsVariables_get deserialized e.1) e.2) (map_to_list serde_input)
  | _ => false
  end.
Definition serde_ups_status : bool := serde_pipe [ONLINE; ON_BATTERY |. DISCHARGE].

(** ** [tests/test_error.rs], [test_client.rs] *)

(** The stream of [tokio_test::io::Builder]: what is written, and what is read after each write. Afterwards all
    of it has been written and read. *)
Definition mock (script : list (str * str)) : Stream := mkStream [] (concat script.*2) false None.
Definition mock_done (script : list (str * str)) (s : Stream) : bool := assert_eq (sent s) (concat script.*1) && assert_eq (incoming s) [].
Definition client_test {A} (script : list (str * str)) (call : io A) (check : outcome ErrorKind A -> bool) : bool :=
  let '(r, s) := call (mock script) in check r && mock_done script s.
(** [.await.unwrap()]. *)
Definition unwrap {A} (check : A -> bool) (r : outcome ErrorKind A) : bool := match r with Ok a => check a | _ => false end.

Definition prot_err_test (e : ProtocolError) (text : String.string) : bool :=
  client_test [(lit "VER" ++ [LF], lit "ERR " ++ lit text ++ [LF])] get_ver (fun r =>
    match r with
    | Err (ProtocolErr inner) => match e, inner with Unknown _, Unknown _ => true | _, _ => assert_eq inner e end
    | _ => false
    end).
#[global] Arguments prot_err_test _ _%_string_scope.
Definition prot_err_tests : bool :=
  forallb (fun row => prot_err_test row.1 row.2)
    [(AccessDenied, "ACCESS-DENIED"%string); (AlreadyAttached, "ALREADY-ATTACHED"%string);
     (AlreadySetPassword, "ALREADY-SET-PASSWORD"%string); (AlreadySetUsername, "ALREADY-SET-USERNAME"%string);
     (CmdNotSupported, "CMD-NOT-SUPPORTED"%string); (DateStale, "DATA-STALE"%string);
     (DriverNotConnected, "DRIVER-NOT-CONNECTED"%string); (FeatureNotConfigured, "FEATURE-NOT-CONFIGURED"%string);
     (FeatureNotSupported, "FEATURE-NOT-SUPPORTED"%string); (InstcmdFailed, "INSTCMD-FAILED"%string);
     (InvalidArgument, "INVALID-ARGUMENT"%string); (InvalidPassword, "INVALID-PASSWORD"%string);
     (InvalidUsername, "INVALID-USERNAME"%string); (InvalidValue, "INVALID-VALUE"%string);
     (PasswordRequired, "PASSWORD-REQUIRED"%string); (Readonly, "READONLY"%string); (SetFailed, "SET-FAILED"%string);
     (TlsAlreadyEnabled, "TLS-ALREADY-ENABLED"%string); (TlsNotEnabled, "TLS-NOT-ENABLED"%string);
     (TooLong, "TOO-LONG"%string); (UnknownCommand, "UNKNOWN-COMMAND"%string); (UnknownUps, "UNKNOWN-UPS"%string);
     (UsernameRequired, "USERNAME-REQUIRED"%string); (VarNotSupported, "VAR-NOT-SUPPORTED"%string);
     (Unknown [], "POTENTIAL-FUTURE-ERROR-NOT-DEFINED-IN-PROTOCOL"%string)].

Definition bx1600mi : UpsName := UpsName_new_unchecked (lit "bx1600mi").
Definition beeper_status : VarName := mkVarName (Standard StandardName.UpsBeeperStatus).
Definition transfer_low : VarName := mkVarName (Standard StandardName.InputTransferLow).

Definition test_cmd_desc : bool :=
  let cmd := CmdName_new_unchecked (lit "beeper.on") in
  client_test [(txt "GET CMDDESC bx1600mi beeper.on
", txt "CMDDESC bx1600mi beeper.on 'Obsolete (use beeper.enable)'
")] (get_cmd_desc bx1600mi cmd) (unwrap (fun d => assert_eq (cd_cmd d) cmd && assert_eq (cd_ups_name d) bx1600mi &&
    assert_eq (cd_desc d) (lit "Obsolete (use beeper.enable)"))).
Definition test_var_desc : bool :=
  client_test [(txt "GET DESC bx1600mi ups.beeper.status
", txt "DESC bx1600mi ups.beeper.status 'UPS beeper status'
")] (get_var_desc bx1600mi beeper_status) (unwrap (fun d => VarName_eq (vd_name d) beeper_status &&
    assert_eq (vd_ups_name d) bx1600mi && assert_eq (vd_desc d) (lit "UPS beeper status"))).
Definition test_var_type : bool :=
  let var_name := VarName_new_unchecked (lit "ups.custom") in
  client_test [(txt "GET TYPE bx1600mi ups.custom
", txt "TYPE bx1600mi ups.custom RW ENUM STRING:64 NUMBER RANGE
")] (get_var_type bx1600mi var_name) (unwrap (fun d => VarName_eq (vt_name d) var_name && assert_eq (vt_ups_name d) bx1600mi &&
    forallb (fun t => bool_decide (t ∈ vt_var_types d)) [TEnum; ReadWrite; TString 64; TRange; TNumber])).
Definition test_list_ups : bool :=
  client_test [(txt "LIST UPS
", txt "BEGIN LIST UPS
UPS bx1600mi 'APC Back-UPS\\ BX1600MI'
END LIST UPS
")] list_ups (unwrap (fun l =>
    match ul_devices l with
    | [device] => assert_eq (UpsName_fmt (dev_ups_name device)) (lit "bx1600mi") && assert_eq (dev_desc device) (lit "APC Back-UPS\ BX1600MI")
    | _ => false
    end)).
Definition test_get_var : bool :=
  client_test [(txt "GET VAR bx1600mi ups.beeper.status
", txt "VAR bx1600mi ups.beeper.status 'disabled'
")] (get_var bx1600mi beeper_status) (unwrap (fun v => assert_eq (uv_ups_name v) bx1600mi && VarName_eq (uv_name v) beeper_status &&
    Value_eq_str (uv_value v) (lit "disabled"))).
Definition test_list_client : bool :=
  client_test [(txt "LIST CLIENT bx1600mi
", txt "BEGIN LIST CLIENT bx1600mi
CLIENT bx1600mi 127.0.0.1
END LIST CLIENT bx1600mi
")] (list_client bx1600mi) (unwrap (fun l => assert_eq (cl_ups_name l) bx1600mi && assert_eq (cl_ips l) [V4 [127; 0; 0; 1]%Z])).

Definition cmd_input : list String.string :=
  ["beeper.disable"; "beeper.enable"; "beeper.mute"; "beeper.off"; "beeper.on"; "driver.killpower"; "driver.reload";
   "driver.reload-or-error"; "driver.reload-or-exit"; "load.off"; "load.off.delay"; "shutdown.reboot";
   "shutdown.stop"; "test.battery.start.deep"; "test.battery.start.quick"; "test.battery.stop"]%string.
Definition test_list_cmd : bool :=
  let head := lit "LIST CMD bx1600mi" ++ [LF] in
  client_test [(head, lit "BEGIN " ++ head ++ concat ((fun c => lit "CMD bx1600mi " ++ lit c ++ [LF]) <$> cmd_input) ++ lit "END " ++ head)]
    (list_cmd bx1600mi) (unwrap (fun l => assert_eq (cml_ups_name l) bx1600mi && assert_eq (CmdName_as_str <$> cml_cmds l) (lit <$> cmd_input))).

(** A literal of the tests: its text in the response, and what the value must equal. *)
Inductive Literal := LInt (z : Z) | LFloat (s : String.string) | LText (s : String.string).
#[global] Arguments LFloat _%_string_scope.
#[global] Arguments LText _%_string_scope.
Definition literal_text (l : Literal) : str := match l with LInt z => show_Z z | LFloat s | LText s => lit s end.
Definition literal_eq (v : Value) (l : Literal) : bool :=
  match l with LInt z => Value_eq_i64 v z | LFloat s => Value_eq_f64 v (f64 s) | LText s => Value_eq_str v (lit s) end.
(** [gen_var_test!] and [gen_rw_test!]. *)
Definition variables_test {A} (kw : String.string) (call : UpsName -> io A) (vars : A -> UpsVariables) (ups : A -> UpsName)
  (input : list (String.string * Literal)) : bool :=
  let head := lit "LIST " ++ lit kw ++ lit " bx1600mi" ++ [LF] in
  let row e := lit kw ++ lit " bx1600mi " ++ lit e.1 ++ txt " '" ++ literal_text e.2 ++ [DQUOTE; LF] in
  client_test [(head, lit "BEGIN " ++ head ++ concat (row <$> input) ++ lit "END " ++ head)] (call bx1600mi) (unwrap (fun l =>
    assert_eq (ups l) bx1600mi && assert_eq (UpsVariables_len (vars l)) (length input) &&
    forallb (fun e => match UpsVariables_get (vars l) (VarName_new_unchecked (lit e.1)) with Some v => literal_eq v e.2 | None => false end) input)).
#[global] Arguments variables_test {_} _%_string_scope _ _ _ _.

Definition var_input : list (String.string * Literal) := (
  [("battery.charge", LInt 100); ("battery.charge.low", LInt 30); ("battery.mfr.date", LText "2001/01/01");
   ("battery.runtime", LInt 1160); ("battery.runtime.low", LInt 240); ("battery.type", LText "PbAc");
   ("battery.voltage", LFloat "27.3"); ("battery.voltage.nominal", LFloat "24.0");
   ("device.mfr", LText "American Power Conversion"); ("device.model", LText "Back-UPS BX1600MI");
   ("device.serial", LText "9b000000000a"); ("device.type", LText "ups"); ("driver.debug", LInt 0);
   ("driver.flag.allow_killpower", LInt 0); ("driver.name", LText "usbhid-ups");
   ("driver.parameter.pollfreq", LInt 30); ("driver.parameter.pollinterval", LInt 1);
   ("driver.parameter.port", LText "auto"); ("driver.parameter.productid", LText "0002");
   ("driver.parameter.serial", LText "9b000000000a"); ("driver.parameter.synchronous", LText "auto");
   ("driver.parameter.vendorid", LText "051D"); ("driver.state", LText "updateinfo");
   ("driver.version", LText "2.8.1"); ("driver.version.data", LText "APC HID 0.100");
   ("driver.version.internal", LFloat "0.52"); ("driver.version.usb", LText "libusb-1.0.27 (API: 0x100010a)");
   ("input.sensitivity", LText "medium"); ("input.transfer.high", LInt 295); ("input.transfer.low", LInt 145);
   ("input.voltage", LFloat "232.0"); ("input.voltage.nominal", LInt 230); ("ups.beeper.status", LText "disabled");
   ("ups.delay.shutdown", LInt 20); ("ups.firmware", LText "378600G -302202G "); ("ups.load", LInt 27);
   ("ups.mfr", LText "American Power Conversion"); ("ups.mfr.date", LText "2023/02/25");
   ("ups.model", LText "Back-UPS BX1600MI"); ("ups.productid", LText "0002"); ("ups.realpower.nominal", LInt 900);
   ("ups.serial", LText "9b000000000a"); ("ups.status", LText "OL"); ("ups.test.result", LText "Done and passed");
   ("ups.timer.reboot", LInt 0); ("ups.timer.shutdown", LInt (-1)); ("ups.vendorid", LText "051d");
   ("custom", LFloat "0.1")])%string.
Definition rw_input : list (String.string * Literal) := (
  [("battery.charge.low", LInt 30); ("battery.mfr.date", LText "2001/01/01"); ("battery.runtime.low", LInt 240);
   ("driver.debug", LInt 0); ("driver.flag.allow_killpower", LInt 0); ("input.sensitivity", LText "medium");
   ("input.transfer.high", LInt 295); ("input.transfer.low", LInt 145); ("ups.delay.shutdown", LInt 20)])%string.
Definition test_list_var : bool := variables_test "VAR" list_var vl_variables vl_ups_name var_input.
Definition test_list_rw : bool := variables_test "RW" list_rw rwl_variables rwl_ups_name rw_input.

Definition test_list_range : bool :=
  client_test [(txt "LIST RANGE bx1600mi input.transfer.low
", txt "BEGIN LIST RANGE bx1600mi input.transfer.low
RANGE bx1600mi input.transfer.low '90' '105'
END LIST RANGE bx1600mi input.transfer.low
")] (list_range bx1600mi transfer_low) (unwrap (fun l => assert_eq (rl_ups_name l) bx1600mi && VarName_eq (rl_name l) transfer_low &&
    match rl_ranges l with (min, max) :: _ => Value_eq_i64 min 90 && Value_eq_i64 max 105 | [] => false end)).
Definition test_list_enum : bool :=
  client_test [(txt "LIST ENUM bx1600mi input.transfer.low
", txt "BEGIN LIST ENUM bx1600mi input.transfer.low
ENUM bx1600mi input.transfer.low '103'
ENUM bx1600mi input.transfer.low '100'
END LIST ENUM bx1600mi input.transfer.low
")] (list_enum bx1600mi transfer_low) (unwrap (fun l => assert_eq (el_ups_name l) bx1600mi && VarName_eq (el_name l) transfer_low &&
    match el_values l with [first; second] => Value_eq_i64 first 103 && Value_eq_i64 second 100 | _ => false end)).

Definition upsd_version : str := lit "NETWORK UPS Tools upsd 2.8.1 - https://www.networkupstools.org/".
Definition test_get_versions : bool :=
  client_test [(lit "VER" ++ [LF], upsd_version ++ [LF]); (lit "NETVER" ++ [LF], lit "1.3" ++ [LF])]
    (ver ← get_ver; protver ← get_protver; mret (ver, protver))
    (unwrap (fun v => assert_eq v (upsd_version, lit "1.3"))).

(** [authenticate] and what follows it. *)
Definition auth_test {A} (script : list (str * str)) (call : io A) : bool :=
  client_test ((lit "USERNAME user" ++ [LF], lit "OK" ++ [LF]) :: (lit "PASSWORD password" ++ [LF], lit "OK" ++ [LF]) :: script)
    (authenticate (lit "user") (lit "password");; call) (unwrap (fun _ => true)).
Definition test_instcmd : bool :=
  auth_test [(lit "INSTCMD bx1600mi beeper.on" ++ [LF], lit "OK" ++ [LF])] (instcmd bx1600mi (CmdName_new_unchecked (lit "beeper.on"))).
Definition test_fsd : bool :=
  auth_test [(lit "FSD home:bx1600mi@localhost:4242" ++ [LF], lit "OK FSD-SET" ++ [LF])]
    (fsd (UpsName_new_unchecked (lit "home:bx1600mi@localhost:4242"))).
Definition test_set_var : bool :=
  auth_test [(txt "SET VAR bx1600mi battery.runtime.low '32'
", lit "OK" ++ [LF])] (set_var bx1600mi (mkVarName (Standard StandardName.BatteryRuntimeLow)) (Value_from_int 32)).
Definition attach_ups_and_detach : bool :=
  auth_test [(lit "LOGIN bx1600mi" ++ [LF], lit "OK" ++ [LF]); (lit "LOGOUT" ++ [LF], lit "OK Goodbye" ++ [LF])]
    (attach bx1600mi;; auth_close).

(** ** [auth/access_token.rs], [auth/user_session.rs] *)

#[local] Open Scope Z_scope.

(** [vec![0; n]]. *)
Definition zeros (n : nat) : str := replicate n (byte_of_Z 0).
Definition token_empty_input : bool := fails_with (AccessToken_from_bytes []) InvalidTokenLength.
Definition token_length_less_than_expected : bool :=
  fails_with (AccessToken_from_bytes (zeros (TOKEN_BYTE_LEN - 1))) InvalidTokenLength.
Definition token_length_more_than_expected : bool :=
  fails_with (AccessToken_from_bytes (zeros (TOKEN_BYTE_LEN + 1))) InvalidTokenLength.
Definition token_bytes (version : Z) : str :=
  [byte_of_Z version; byte_of_Z 5] ++ put_le 8 20423 ++ put_le 8 10423 ++ put_le 8 99999.
Definition invalid_timestamps : bool := fails_with (AccessToken_from_bytes (token_bytes 1)) InvalidTimestamps.
Definition invalid_version : bool := fails_with (AccessToken_from_bytes (token_bytes 2)) InvalidVersion.

(** At some instant, with some nonce. *)
Definition test_now : Z := 1700000000.
Definition token_into_from_bytes_pipe : bool :=
  let token := build test_now 81985529216486895
    (with_valid_until (with_permissions AccessTokenBuilder_new (perm_set SETVAR INSTCMD)) (from_secs 3600)) in
  let bytes := AccessToken_as_bytes token in
  match AccessToken_from_bytes bytes with
  | Ok new_session => assert_eq (perm_set SETVAR INSTCMD) (permissions new_session) &&
      assert_eq (valid_until token) (valid_until new_session) && assert_eq (issued_at token) (issued_at new_session) &&
      assert_eq bytes (AccessToken_as_bytes new_session)
  | _ => false
  end.

Definition session_token : AccessToken :=
  build test_now 7 (with_permissions (with_valid_until AccessTokenBuilder_new (from_secs 600)) (perm_set (perm_set SETVAR Auth.FSD) INSTCMD)).
Definition session_from_bytes_empty : bool := fails_with (UserSession_from_bytes []) InvalidSessionLength.
Definition session_from_bytes_edge : bool :=
  fails_with (UserSession_from_bytes (zeros (TOKEN_BYTE_LEN - 1))) InvalidSessionLength.
Definition session_from_bytes_empty_username : bool :=
  fails_with (UserSession_from_bytes (AccessToken_as_bytes session_token)) SessionEmptyUsername.
Definition session_into_from_bytes_pipe : bool :=
  match Username_new (lit "test_user") with
  | Ok username =>
      match UserSession_from_bytes (UserSession_as_bytes (mkUserSession username session_token)) with
      | Ok session => is_active test_now (access_token session) &&
          forallb (has_permission (access_token session)) [SETVAR; Auth.FSD; INSTCMD] &&
          assert_eq (lit "test_user") (username_str (session_username session))
      | _ => false
      end
  | _ => false
  end.
Definition session_invalid_utf8_username : bool :=
  fails_with (UserSession_from_bytes (AccessToken_as_bytes session_token ++ (byte_of_Z <$> [0; 159; 146; 150]))) InvalidUtf8.

(** ** The suites *)

Definition unit_tests : list bool :=
  [starts_with_text; starts_with_quoted_text; text_only; quoted_text_only; untrimmed_white_spaces; lines; escaped;
   escaped_backslash; escaped_unknown; lexer_empty_text; escape_empty_text; regular_texts; escaped_texts;
   token_empty_input; token_length_less_than_expected; token_length_more_than_expected; invalid_timestamps;
   invalid_version; token_into_from_bytes_pipe; session_from_bytes_empty; session_from_bytes_edge;
   session_from_bytes_empty_username; session_into_from_bytes_pipe; session_invalid_utf8_username].
Definition integration_tests : list bool :=
  [var_name_tests; var_cmp_tests; var_from_trait; var_to_string; cmd_name_tests; cmd_from_trait; cmp_cmd_names;
   cmd_to_string; ups_name_tests; ups_from_trait; cmp_ups_names; ups_to_string; base_events; ups_status_simulation;
   single_status; with_multip_unspecified_status; with_single_unspecified_status; multiple_status; modify_status;
   map_initialize; map_remove; insert_new; map_update; serde_cmd_name; serde_ups_name; serde_variables; serde_ups_status;
   prot_err_tests; test_cmd_desc; test_var_desc; test_var_type; test_list_ups; test_get_var; test_list_client;
   test_list_cmd; test_list_var; test_list_rw; test_list_range; test_list_enum; test_get_versions; test_instcmd;
   test_fsd; test_set_var; attach_ups_and_detach].

(** Every test of the sources passes on the model. *)
Lemma test_suites_pass : forallb id (unit_tests ++ integration_tests) = true.
Proof. vm_compute. reflexivity. Qed.
